(** * Stress-period timelines of the MODFLOW package files (flopy)

    A shallow embedding of the package readers and writers of
    [flopy/modflow/mfevt.py], [flopy/modflow/mfrch.py] and
    [flopy/modflow/mflmt.py], and the properties of the stress-period
    timeline they implement.

    Layout: the Python primitives the code relies on ([Py]), the
    collaborators that live outside these files ([Collaborators]), the
    interpreter state ([World]), the three packages ([Evt], [Rch], [Lmt]),
    then the theorems. *)

From Stdlib Require Import ZArith Ascii String List Lia Bool.
From Stdlib Require Import DecimalString DecimalZ DecimalPos DecimalN.
From stdpp Require Import base option list gmap strings.

Local Open Scope Z_scope.
Local Open Scope string_scope.

(* ===================================================================== *)
(** ** Python primitives *)
(* ===================================================================== *)

Module Py.

(** The exceptions the modelled code can raise.  [Exception] stands for
    whatever a collaborator raises. *)
Inductive exn : Type :=
| IndexError
| ValueError
| KeyError
| AttributeError
| UnboundLocalError
| AssertionError
| Exception (what : string).

Inductive result (A : Type) : Type :=
| Ok (a : A)
| Raise (e : exn).
Arguments Ok {A} a.
Arguments Raise {A} e.

Definition is_ok {A} (r : result A) : bool :=
  match r with Ok _ => true | Raise _ => false end.

Definition rbind {A B} (r : result A) (k : A -> result B) : result B :=
  match r with Ok a => k a | Raise e => Raise e end.

(** [try: r except: h] with a bare [except]. *)
Definition try_except {A} (r : result A) (h : A) : A :=
  match r with Ok a => a | Raise _ => h end.

(** *** Characters and strings *)

(** Whitespace as [str.split()] and [str.strip()] see it on ASCII text:
    tab, newline, vertical tab, form feed, carriage return, space. *)
Definition isspace (c : ascii) : bool :=
  match c with
  | "009" | "010" | "011" | "012" | "013" | " " => true
  | _ => false
  end%char.

Definition newline : ascii := "010"%char.
Definition nl : string := String newline "".

(** [c.lower()] on one character. *)
Definition lower_char (c : ascii) : ascii :=
  let n := nat_of_ascii c in
  if ((65 <=? n) && (n <=? 90))%nat then ascii_of_nat (n + 32) else c.

(** [s.lower()] *)
Fixpoint lower (s : string) : string :=
  match s with
  | "" => ""
  | String c s' => String (lower_char c) (lower s')
  end.

(** [s.lstrip()], [s.rstrip()], [s.strip()] *)
Fixpoint lstrip (s : string) : string :=
  match s with
  | "" => ""
  | String c s' => if isspace c then lstrip s' else s
  end.

Fixpoint rstrip (s : string) : string :=
  match s with
  | "" => ""
  | String c s' =>
      match rstrip s' with
      | "" => if isspace c then "" else String c ""
      | r => String c r
      end
  end.

Definition strip (s : string) : string := rstrip (lstrip s).

(** [s.split()]: the maximal runs of non-whitespace characters. *)
Fixpoint split (s : string) : list string :=
  match s with
  | "" => []
  | String c s' =>
      if isspace c then split s'
      else
        match s' with
        | "" => [String c ""]
        | String c' _ =>
            if isspace c' then String c "" :: split s'
            else
              match split s' with
              | w :: ws => String c w :: ws
              | [] => [String c ""]
              end
        end
  end.

(** [s[0:n]] *)
Fixpoint slice0 (n : nat) (s : string) : string :=
  match n, s with
  | S n', String c s' => String c (slice0 n' s')
  | _, _ => ""
  end.

(** [needle in hay] *)
Fixpoint contains (needle hay : string) : bool :=
  String.prefix needle hay ||
  match hay with
  | "" => false
  | String _ hay' => contains needle hay'
  end.

(** [t[i]] on a list. *)
Definition getitem {A} (t : list A) (i : nat) : result A :=
  match t !! i with Some x => Ok x | None => Raise IndexError end.

(** [line[0]] on a string. *)
Definition first_char (s : string) : result ascii :=
  match s with String c _ => Ok c | "" => Raise IndexError end.

(** *** Integers and their text *)

(** [str(z)], which is also [format(z, 'd')]. *)
Definition str (z : Z) : string := NilZero.string_of_int (Z.to_int z).

(** [int(s)] for a token [s] that holds no whitespace: an optional sign
    followed by one or more ASCII decimal digits.  (Digit separators and
    non-ASCII digits, which some interpreter versions accept too, are
    outside this model.) *)
Definition int_digits (s : string) : result Z :=
  match NilZero.uint_of_string s with
  | Some d => Ok (Z.of_uint d)
  | None => Raise ValueError
  end.

Definition int (s : string) : result Z :=
  match s with
  | String "-" s' => rbind (int_digits s') (fun z => Ok (- z))
  | String "+" s' => int_digits s'
  | _ => int_digits s
  end.

(** [' ' * n] *)
Fixpoint spaces (n : nat) : string :=
  match n with
  | O => ""
  | S n' => String " " (spaces n')
  end.

(** [s.rjust(w)]: pad on the left with spaces up to width [w]; a longer
    text is left as it is. *)
Definition rjust (w : nat) (s : string) : string :=
  spaces (w - String.length s) ++ s.

(** ['{:wd}'.format(z)] and ['%wi' % z] *)
Definition fmt_d (w : nat) (z : Z) : string := rjust w (str z).

(** *** Text streams *)

(** [f.readline()] on the text that is left in the file: the line with
    its terminator, and the text after it; [''] at the end of the file. *)
Fixpoint readline (s : string) : string * string :=
  match s with
  | "" => ("", "")
  | String c s' =>
      if Ascii.eqb c newline then (String c "", s')
      else let '(l, r) := readline s' in (String c l, r)
  end.

End Py.

Export Py.


(* ===================================================================== *)
(** ** Collaborators *)
(* ===================================================================== *)

(** [np.float32] and [np.int], the element types the loaders ask for. *)
Inductive dtype : Type := float32 | int_.

(** The model object, as far as the packages read it: the verbosity flag
    and the grid geometry ([nrow_ncol_nlay_nper], which
    [get_nrow_ncol_nlay_nper()] returns too). *)
Record model : Type := Model {
  verbose : bool;
  nrow_ncol_nlay_nper : nat * nat * nat * nat
}.

Definition set_verbose (b : bool) (m : model) : model :=
  {| verbose := b; nrow_ncol_nlay_nper := nrow_ncol_nlay_nper m |}.

(** What the package files import from the rest of flopy: the array
    codec ([Util2d], [util_2d]), the transient array ([Transient2d]) and
    the parameter table ([mfparbc]).  None of them is defined in the package
    files; the packages are written against this interface.

    A stream is the text left in the open file.  A call that reads from the
    file takes the stream and returns the stream after it. *)
Class Collaborators : Type := {
  (** the grid a [Util2d] object holds *)
  array : Type;
  (** the unit registry handed to [load] *)
  ext_unit_dict : Type;
  (** [Util2d.load(f, model, shape, dtype, name, ext_unit_dict)] *)
  Util2d_load :
    string -> model -> nat * nat -> dtype -> string -> option ext_unit_dict ->
    result (array * string);
  (** [u.get_file_entry()]: the text block of one array *)
  get_file_entry : array -> string;
  (** the object [Transient2d(...)] builds *)
  Transient2d : Type;
  (** [t.get_kper_entry(kper)]: the control code and the text block *)
  get_kper_entry : Transient2d -> nat -> Z * string;
  (** the accessor [resolved_array(quantity, step)] of a timeline *)
  resolved_array : Transient2d -> nat -> option array;
  (** the object [mfparbc.loadarray] returns, and the two components of an
      entry of its [bc_parms] dictionary: [bc_parms[pname][0]] and the
      values of the instance dictionary [bc_parms[pname][1]] *)
  ParBc : Type;
  pdict : Type;
  instance : Type;
  bc_parms : ParBc -> gmap string (pdict * gmap string instance);
  (** [mfparbc.loadarray(f, npar, verbose)] *)
  loadarray : string -> Z -> bool -> result (ParBc * string);
  (** [mfparbc.parameter_bcfill(model, shape, parm_dict, pak_parms)] *)
  parameter_bcfill :
    model -> nat * nat -> gmap string string -> option ParBc -> result array
}.

(* ===================================================================== *)
(** ** Interpreter state *)
(* ===================================================================== *)

Module World.
Section World.
Context `{Collaborators}.

(** Objects are held by reference: a location is an index in the heap.
    The loaders allocate empty lists ([[]]) and the [Util2d] objects that
    the collaborators return. *)
Definition loc : Type := nat.

Inductive obj : Type :=
| EmptyList
| Util2d (a : array).

Record world : Type := World {
  stream : string;          (* the text left in the open file *)
  heap : list obj;
  stdout : list string      (* what was printed, oldest first *)
}.

Definition M (A : Type) : Type := world -> result A * world.

Definition ret {A} (a : A) : M A := fun w => (Ok a, w).

Definition raise {A} (e : exn) : M A := fun w => (Raise e, w).

Definition bind {A B} (c : M A) (k : A -> M B) : M B :=
  fun w =>
    match c w with
    | (Ok a, w') => k a w'
    | (Raise e, w') => (Raise e, w')
    end.

Definition lift {A} (r : result A) : M A := fun w => (r, w).

(** [f.readline()] *)
Definition f_readline : M string :=
  fun w =>
    let '(line, rest) := readline (stream w) in
    (Ok line, {| stream := rest; heap := heap w; stdout := stdout w |}).

(** [print(s)] and [sys.stdout.write(s)] *)
Definition print (s : string) : M unit :=
  fun w =>
    (Ok tt, {| stream := stream w; heap := heap w; stdout := stdout w ++ [s] |}).

Definition when (b : bool) (c : M unit) : M unit :=
  if b then c else ret tt.

(** A new object: its location is the next free index. *)
Definition alloc (o : obj) : M loc :=
  fun w =>
    (Ok (length (heap w)),
     {| stream := stream w; heap := heap w ++ [o]; stdout := stdout w |}).

(** A collaborator that reads from the file: it moves the stream on when
    it returns; when it raises, the load is abandoned. *)
Definition reading {A} (c : string -> result (A * string)) : M A :=
  fun w =>
    match c (stream w) with
    | Ok (a, rest) =>
        (Ok a, {| stream := rest; heap := heap w; stdout := stdout w |})
    | Raise e => (Raise e, w)
    end.

(** The tuple [(nrow, ncol)]: the two names are bound only on the path
    that asks the model for the geometry. *)
Definition shape_of (nrow_ncol : option (nat * nat)) : M (nat * nat) :=
  match nrow_ncol with
  | Some s => ret s
  | None => raise UnboundLocalError
  end.

(** The object a location refers to. *)
Definition deref (w : world) (l : loc) : option obj := heap w !! l.

(** [for i in range(...)] over [n] consecutive values from [i] on, with
    the names the body assigns threaded through. *)
Fixpoint for_range {L : Type} (body : nat -> L -> M L) (n i : nat) (l : L)
    : M L :=
  match n with
  | O => ret l
  | S n' => bind (body i l) (for_range body n' (S i))
  end.

End World.
End World.

Export World.

(** Sequencing is written with stdpp's monad notations: [x ← c; k] and
    [c ;; k], for [M] and for [result]. *)
#[global] Instance result_bind : MBind result := fun A B k r => rbind r k.
#[global] Instance result_ret : MRet result := fun A a => Ok a.
#[global] Instance M_bind `{Collaborators} : MBind M := fun A B k c => bind c k.
#[global] Instance M_ret `{Collaborators} : MRet M := fun A a => ret a.

(* ===================================================================== *)
(** ** The evapotranspiration package, [mfevt.py] *)
(* ===================================================================== *)

Module Evt.
Section Evt.
Context `{Collaborators}.

(** *** The package object *)

(** The attributes of a [ModflowEvt] object that [write_file] reads. *)
Record ModflowEvt : Type := {
  parent : model;
  heading : string;
  nevtop : Z;
  ipakcb : Z;
  self_surf : Transient2d;
  self_evtr : Transient2d;
  self_exdp : Transient2d;
  self_ievt : Transient2d
}.

(** The heading [__init__] builds from the package name and the name of
    the model version. *)
Definition init_heading (name version : string) : string :=
  ("# " ++ name ++ " package for ") ++ (" " ++ version ++ ", ")
    ++ "generated by Flopy.".

(** *** [ModflowEvt.write_file] *)

(** Lines 158-173: the text of stress period [n]. *)
Definition write_period (self : ModflowEvt) (n : nat) : string :=
  let '(insurf, surf) := get_kper_entry (self_surf self) n in
  let '(inevtr, evtr) := get_kper_entry (self_evtr self) n in
  let '(inexdp, exdp) := get_kper_entry (self_exdp self) n in
  let '(inievt, ievt) := get_kper_entry (self_ievt self) n in
  let comment :=
    "Evapotranspiration  dataset 5 for stress period "
      ++ str (Z.of_nat n + 1) in
  (fmt_d 10 insurf ++ fmt_d 10 inevtr ++ fmt_d 10 inexdp
     ++ fmt_d 10 inievt ++ " # " ++ comment ++ nl)
  ++ (if (insurf >=? 0)%Z then surf else "")
  ++ (if (inevtr >=? 0)%Z then evtr else "")
  ++ (if (inexdp >=? 0)%Z then exdp else "")
  ++ (if (nevtop self =? 2)%Z && (inievt >=? 0)%Z then ievt else "").

(** [for n in range(nper)], from [n] on, [k] turns. *)
Fixpoint write_periods (self : ModflowEvt) (k n : nat) : string :=
  match k with
  | O => ""
  | S k' => write_period self n ++ write_periods self k' (S n)
  end.

(** The text [write_file] writes to the package file. *)
Definition write_file (self : ModflowEvt) : string :=
  let '(nrow, ncol, nlay, nper) := nrow_ncol_nlay_nper (parent self) in
  (heading self ++ nl)
  ++ (fmt_d 10 (nevtop self) ++ fmt_d 10 (ipakcb self) ++ nl)
  ++ write_periods self nper 0.

(** *** [ModflowEvt.load] *)

(** Dataset 0: [while True: line = f.readline(); if line[0] != '#': break].
    Every turn of the loop takes at least one character off the stream, so
    [S (length f)] turns are enough for any file [f]
    (see [header_line_fuel]). *)
Fixpoint header_line (fuel : nat) : M string :=
  match fuel with
  | O => raise (Exception "header_line: out of fuel")
  | S fuel' =>
      line ← f_readline;
      c ← lift (first_char line);
      if Ascii.eqb c "#" then header_line fuel' else ret line
  end.

(** The optional [PARAMETER npar] line; returns [npar] and the line that
    holds dataset 2. *)
Definition parameter_line (m : model) (line : string) : M (Z * string) :=
  if contains "parameter" (lower line) then
    let raw := split (strip line) in
    npar ← lift (rbind (getitem raw 1) int);
    when ((npar >? 0) && verbose m)
      (print ("  Parameters detected. Number of parameters =  "
              ++ str npar ++ nl))  ;;
    line ← f_readline;
    ret (npar, line)
  else ret (0, line).

(** Dataset 2: [nevtop = int(t[0]); ipakcb = int(t[1])]. *)
Definition dataset2 (line : string) : result (Z * Z) :=
  let t := split (strip line) in
  nevtop ← getitem t 0 ≫= int;
  ipakcb ← getitem t 1 ≫= int;
  Ok (nevtop, ipakcb).

(** The names the loop over the stress periods reads and assigns. *)
Record locals : Type := Locals {
  surf : gmap nat loc;
  evtr : gmap nat loc;
  exdp : gmap nat loc;
  ievt : gmap nat loc;
  current_surf : loc;
  current_evtr : loc;
  current_exdp : loc;
  current_ievt : loc
}.

(** The four codes of a control line; [inievt] is bound only when
    [nevtop == 2]. *)
Record codes : Type := Codes {
  insurf : Z;
  inevtr : Z;
  inexdp : Z;
  inievt : option Z
}.

(** Lines 255-260: the control record of one stress period. *)
Definition control_record (nevtop : Z) (line : string) : result codes :=
  let t := split (strip line) in
  c0 ← getitem t 0 ≫= int;
  c1 ← getitem t 1 ≫= int;
  c2 ← getitem t 2 ≫= int;
  if (nevtop =? 2)%Z then
    c3 ← getitem t 3 ≫= int;
    Ok (Codes c0 c1 c2 (Some c3))
  else Ok (Codes c0 c1 c2 None).

(** The progress message of one array. *)
Definition loading_msg (name : string) (iper : nat) : string :=
  "   loading " ++ name ++ " stress period "
    ++ fmt_d 3 (Z.of_nat iper + 1) ++ "..." ++ nl.

(** [t = Util2d.load(f, model, (nrow, ncol), dtype, name, ext_unit_dict)]:
    a new object. *)
Definition load_array (m : model) (nrow_ncol : option (nat * nat))
    (dt : dtype) (name : string) (eud : option ext_unit_dict) : M loc :=
  shape ← shape_of nrow_ncol;
  a ← reading (fun f => Util2d_load f m shape dt name eud);
  alloc (Util2d a).

(** Lines 282-285: the key of a parameter, the lowercased name cut to ten
    characters. *)
Definition parameter_name (t0 : string) : string :=
  let c := lower t0 in
  if (10 <? String.length c)%nat then slice0 10 c else c.

(** Lines 286-294: the instance of a parameter, inside [try: ... except:]. *)
Definition instance_name (pak_parms : option ParBc) (t : list string)
    (pname : string) : string :=
  try_except
    (t1 ← getitem t 1;
     let c := lower t1 in
     p ← match pak_parms with
         | Some p => Ok p
         | None => Raise AttributeError
         end;
     entry ← match bc_parms p !! pname with
             | Some entry => Ok entry
             | None => Raise KeyError
             end;
     let instance_dict := snd entry in
     Ok (if decide (is_Some (instance_dict !! c)) then c else "static"))
    "static".

(** Lines 280-295: one parameter-name line. *)
Definition parm_line (pak_parms : option ParBc)
    (parm_dict : gmap string string) : M (gmap string string) :=
  line ← f_readline;
  let t := split (strip line) in
  t0 ← lift (getitem t 0);
  let pname := parameter_name t0 in
  let iname := instance_name pak_parms t pname in
  ret (<[pname := iname]> parm_dict).

(** [for ipar in range(inevtr): ...] *)
Definition parm_lines (n : nat) (pak_parms : option ParBc)
    (parm_dict : gmap string string) : M (gmap string string) :=
  for_range (fun _ => parm_line pak_parms) n 0 parm_dict.

(** What stays the same over the stress periods of one load. *)
Record env : Type := Env {
  e_model : model;
  e_nevtop : Z;
  e_npar : Z;
  e_pak_parms : option ParBc;
  e_nrow_ncol : option (nat * nat);
  e_eud : option ext_unit_dict
}.

(** Lines 261-268: [surf]. *)
Definition load_surf (e : env) (iper : nat) (c : codes) (l : locals)
    : M loc :=
  if (insurf c >=? 0)%Z then
    when (verbose (e_model e)) (print (loading_msg "surf" iper)) ;;
    load_array (e_model e) (e_nrow_ncol e) float32 "surf" (e_eud e)
  else ret (current_surf l).

(** Lines 270-300: [evtr], from an array or from named parameters. *)
Definition load_evtr (e : env) (iper : nat) (c : codes) (l : locals)
    : M loc :=
  if (inevtr c >=? 0)%Z then
    if (e_npar e =? 0)%Z then
      when (verbose (e_model e)) (print (loading_msg "evtr" iper)) ;;
      load_array (e_model e) (e_nrow_ncol e) float32 "evtr" (e_eud e)
    else
      parm_dict ← parm_lines (Z.to_nat (inevtr c)) (e_pak_parms e) ∅;
      shape ← shape_of (e_nrow_ncol e);
      a ← lift (parameter_bcfill (e_model e) shape parm_dict
                  (e_pak_parms e));
      alloc (Util2d a)
  else ret (current_evtr l).

(** Lines 301-308: [exdp]. *)
Definition load_exdp (e : env) (iper : nat) (c : codes) (l : locals)
    : M loc :=
  if (inexdp c >=? 0)%Z then
    when (verbose (e_model e)) (print (loading_msg "exdp" iper)) ;;
    load_array (e_model e) (e_nrow_ncol e) float32 "exdp" (e_eud e)
  else ret (current_exdp l).

(** Lines 310-316: [ievt], inside [if nevtop == 2:]. *)
Definition load_ievt (e : env) (iper : nat) (c3 : Z) (l : locals)
    : M loc :=
  if (c3 >=? 0)%Z then
    when (verbose (e_model e)) (print (loading_msg "ievt" iper)) ;;
    load_array (e_model e) (e_nrow_ncol e) int_ "ievt" (e_eud e)
  else ret (current_ievt l).

(** Lines 254-317: one turn of [for iper in range(nper)]. *)
Definition period (e : env) (iper : nat) (l : locals) : M locals :=
  line ← f_readline;
  c ← lift (control_record (e_nevtop e) line);
  cur_surf ← load_surf e iper c l;
  cur_evtr ← load_evtr e iper c l;
  cur_exdp ← load_exdp e iper c l;
  match inievt c with
  | Some c3 =>
      cur_ievt ← load_ievt e iper c3 l;
      ret (Locals (<[iper := cur_surf]> (surf l))
                  (<[iper := cur_evtr]> (evtr l))
                  (<[iper := cur_exdp]> (exdp l))
                  (<[iper := cur_ievt]> (ievt l))
                  cur_surf cur_evtr cur_exdp cur_ievt)
  | None =>
      ret (Locals (<[iper := cur_surf]> (surf l))
                  (<[iper := cur_evtr]> (evtr l))
                  (<[iper := cur_exdp]> (exdp l))
                  (ievt l)
                  cur_surf cur_evtr cur_exdp (current_ievt l))
  end.

(** [for iper in range(nper)], from [iper] on, [n] turns. *)
Definition periods (e : env) (n iper : nat) (l : locals) : M locals :=
  for_range (period e) n iper l.

(** The keyword arguments with which [load] calls the constructor,
    [ModflowEvt(model, **args)].  A timeline is passed only when its
    dictionary is not empty, [nevtop] only when it is not zero. *)
Record args : Type := Args {
  args_ievt : option (gmap nat loc);
  args_nevtop : option Z;
  args_evtr : option (gmap nat loc);
  args_surf : option (gmap nat loc);
  args_exdp : option (gmap nat loc);
  args_ipakcb : Z
}.

Definition truthy (d : gmap nat loc) : option (gmap nat loc) :=
  if decide (d = ∅) then None else Some d.

Definition make_args (nevtop ipakcb : Z) (l : locals) : args :=
  {| args_ievt := truthy (ievt l);
     args_nevtop := if (nevtop =? 0)%Z then None else Some nevtop;
     args_evtr := truthy (evtr l);
     args_surf := truthy (surf l);
     args_exdp := truthy (exdp l);
     args_ipakcb := ipakcb |}.

(** Lines 217-242: the header of the file, up to the first stress period:
    the environment of the loop, [ipakcb] and [nper]. *)
Definition load_header (fuel : nat) (m : model) (nper : option nat)
    (eud : option ext_unit_dict) : M (env * Z * nat) :=
  line ← header_line fuel;
  '(npar, line) ← parameter_line m line;
  '(nevtop, ipakcb) ← lift (dataset2 line);
  pak_parms ← (if (npar >? 0)%Z then
                 p ← reading (fun f => loadarray f npar (verbose m));
                 ret (Some p)
               else ret None) ;
  match nper with
  | None =>
      let '(nrow, ncol, nlay, nper) := nrow_ncol_nlay_nper m in
      ret (Env m nevtop npar pak_parms (Some (nrow, ncol)) eud, ipakcb, nper)
  | Some nper =>
      ret (Env m nevtop npar pak_parms None eud, ipakcb, nper)
  end.

(** Lines 245-252: the empty dictionaries, and four new empty lists. *)
Definition initial_locals : M locals :=
  cs ← alloc EmptyList;
  ce ← alloc EmptyList;
  cx ← alloc EmptyList;
  ci ← alloc EmptyList;
  ret (Locals ∅ ∅ ∅ ∅ cs ce cx ci).

(** Lines 211-252: everything before the loop over the stress periods. *)
Definition prelude (fuel : nat) (m : model) (nper : option nat)
    (eud : option ext_unit_dict) : M (env * Z * nat * locals) :=
  when (verbose m) (print ("loading evt package file..." ++ nl)) ;;
  h ← load_header fuel m nper eud;
  l0 ← initial_locals;
  ret (h, l0).

(** The body of [load], lines 211-331: from the open file to the arguments
    of the constructor.  (Lines 333-347 only look up the unit number and
    the file names of the package in [ext_unit_dict]; they touch neither
    the file nor the timelines.) *)
Definition load_body (fuel : nat) (m : model) (nper : option nat)
    (eud : option ext_unit_dict) : M args :=
  '(e, ipakcb, nper, l0) ← prelude fuel m nper eud;
  l ← periods e nper 0 l0;
  ret (make_args (e_nevtop e) ipakcb l).

Definition start (f : string) : world :=
  {| stream := f; heap := []; stdout := [] |}.

(** [ModflowEvt.load(f, model, nper, ext_unit_dict)] on the text [f] of
    the file. *)
Definition load (f : string) (m : model) (nper : option nat)
    (eud : option ext_unit_dict) : result args * world :=
  load_body (S (String.length f)) m nper eud (start f).

(** The state of the load on entry to stress period [k]: the prelude and
    the first [k] turns of the loop. *)
Definition at_period (f : string) (m : model) (nper : option nat)
    (eud : option ext_unit_dict) (k : nat)
    : result (env * Z * nat * locals) * world :=
  ('(e, ipakcb, nper, l0) ← prelude (S (String.length f)) m nper eud;
   l ← periods e k 0 l0;
   ret (e, ipakcb, nper, l)) (start f).

(** The control record the load decodes in stress period [k], when it gets
    there. *)
Definition codes_at (f : string) (m : model) (nper : option nat)
    (eud : option ext_unit_dict) (k : nat) : option codes :=
  match at_period f m nper eud k with
  | (Ok (e, _, n, _), w) =>
      if (k <? n)%nat then
        match control_record (e_nevtop e) (fst (readline (stream w))) with
        | Ok c => Some c
        | Raise _ => None
        end
      else None
  | (Raise _, _) => None
  end.

End Evt.
End Evt.

(* ===================================================================== *)
(** ** The recharge package, [mfrch.py] *)
(* ===================================================================== *)

Module Rch.
Section Rch.
Context `{Collaborators}.

(** *** The package object *)

(** The attributes of a [ModflowRch] object that [write_file] reads;
    [rech] and [irch] are lists of array objects. *)
Record ModflowRch : Type := {
  parent : model;
  heading : string;
  nrchop : Z;
  irchcb : Z;
  self_rech : list array;
  self_irch : list array
}.

(** *** [ModflowRch.write_file] *)

Definition write_period (self : ModflowRch) (n : nat) : string :=
  let inrech := if (n <? length (self_rech self))%nat then 1 else -1 in
  let inirch := if (n <? length (self_irch self))%nat then 1 else -1 in
  let comment :=
    "Recharge array for stress period " ++ str (Z.of_nat n + 1) in
  (fmt_d 10 inrech ++ fmt_d 10 inirch ++ " #" ++ comment ++ nl)
  ++ match self_rech self !! n with
     | Some u => get_file_entry u
     | None => ""
     end
  ++ match self_irch self !! n with
     | Some u => if (nrchop self =? 2)%Z then get_file_entry u else ""
     | None => ""
     end.

Fixpoint write_periods (self : ModflowRch) (k n : nat) : string :=
  match k with
  | O => ""
  | S k' => write_period self n ++ write_periods self k' (S n)
  end.

Definition write_file (self : ModflowRch) : string :=
  let '(nrow, ncol, nlay, nper) := nrow_ncol_nlay_nper (parent self) in
  (heading self ++ nl)
  ++ (fmt_d 10 (nrchop self) ++ fmt_d 10 (irchcb self) ++ nl)
  ++ write_periods self nper 0.

(** *** [ModflowRch.load] *)

(** Dataset 0, as in [Evt.header_line]. *)
Fixpoint header_line (fuel : nat) : M string :=
  match fuel with
  | O => raise (Exception "header_line: out of fuel")
  | S fuel' =>
      line ← f_readline;
      c ← lift (first_char line);
      if Ascii.eqb c "#" then header_line fuel' else ret line
  end.

(** The optional [PARAMETER] line: [assert int(raw[1]) == 0]. *)
Definition parameter_line (line : string) : M string :=
  if contains "parameter" (lower line) then
    let raw := split (strip line) in
    npar ← lift (getitem raw 1 ≫= int);
    if (npar =? 0)%Z then f_readline else raise AssertionError
  else ret line.

(** Lines 177-182: [irchcb] starts at 0 and becomes 53 when the second
    field of dataset 2 is an integer other than 0; a missing or malformed
    field is passed over. *)
Definition load_irchcb (t : list string) : Z :=
  try_except
    (v ← getitem t 1 ≫= int;
     Ok (if (v =? 0)%Z then 0 else 53))
    0.

(** Dataset 2. *)
Definition dataset2 (line : string) : result (Z * Z) :=
  let t := split (strip line) in
  nrchop ← getitem t 0 ≫= int;
  Ok (nrchop, load_irchcb t).

Record locals : Type := Locals {
  rech : list loc;
  irch : list loc;
  current_rech : loc;
  current_irch : loc
}.

(** The codes of a control line; [inirch] is bound only when
    [nrchop == 2]. *)
Record codes : Type := Codes {
  inrech : Z;
  inirch : option Z
}.

Definition control_record (nrchop : Z) (line : string) : result codes :=
  let t := split (strip line) in
  c0 ← getitem t 0 ≫= int;
  if (nrchop =? 2)%Z then
    c1 ← getitem t 1 ≫= int;
    Ok (Codes c0 (Some c1))
  else Ok (Codes c0 None).

Definition loading_msg (name : string) (iper : nat) : string :=
  "   loading " ++ name ++ " stress period "
    ++ fmt_d 3 (Z.of_nat iper + 1) ++ "..." ++ nl.

(** [t = util_2d.load(f, model, (nrow,ncol), dtype, name, ext_unit_dict)]:
    a new object. *)
Definition load_array (m : model) (nrow_ncol : option (nat * nat))
    (dt : dtype) (name : string) (eud : option ext_unit_dict) : M loc :=
  shape ← shape_of nrow_ncol;
  a ← reading (fun f => Util2d_load f m shape dt name eud);
  alloc (Util2d a).

(** What stays the same over the stress periods of one load. *)
Record env : Type := Env {
  e_model : model;
  e_nrchop : Z;
  e_nrow_ncol : option (nat * nat);
  e_eud : option ext_unit_dict
}.

(** Lines 196-201: [rech].  The progress messages are printed whatever
    the verbosity of the model. *)
Definition load_rech (e : env) (iper : nat) (c : codes) (l : locals)
    : M loc :=
  if (inrech c >=? 0)%Z then
    print (loading_msg "rech" iper) ;;
    load_array (e_model e) (e_nrow_ncol e) float32 "rech" (e_eud e)
  else ret (current_rech l).

(** Lines 204-209: [irch], inside [if nrchop == 2:]. *)
Definition load_irch (e : env) (iper : nat) (c1 : Z) (l : locals)
    : M loc :=
  if (c1 >=? 0)%Z then
    print (loading_msg "irch" iper) ;;
    load_array (e_model e) (e_nrow_ncol e) int_ "irch" (e_eud e)
  else ret (current_irch l).

(** Lines 191-210: one turn of [for iper in xrange(nper)]. *)
Definition period (e : env) (iper : nat) (l : locals) : M locals :=
  line ← f_readline;
  c ← lift (control_record (e_nrchop e) line);
  cur_rech ← load_rech e iper c l;
  match inirch c with
  | Some c1 =>
      cur_irch ← load_irch e iper c1 l;
      ret (Locals (rech l ++ [cur_rech]) (irch l ++ [cur_irch])
                  cur_rech cur_irch)
  | None =>
      ret (Locals (rech l ++ [cur_rech]) (irch l)
                  cur_rech (current_irch l))
  end.

(** [for iper in xrange(nper)], from [iper] on, [n] turns. *)
Definition periods (e : env) (n iper : nat) (l : locals) : M locals :=
  for_range (period e) n iper l.

(** The keyword arguments of the constructor call that ends [load]:
    [ModflowRch(model, nrchop=nrchop, irchcb=irchcb, rech=rech, irch=irch)].
    The constructor stores [nrchop] and [irchcb] as they are. *)
Record args : Type := Args {
  args_nrchop : Z;
  args_irchcb : Z;
  args_rech : list loc;
  args_irch : list loc
}.

(** Lines 165-184: the header of the file. *)
Definition load_header (fuel : nat) (m : model) (nper : option nat)
    (eud : option ext_unit_dict) : M (env * Z * nat) :=
  line ← header_line fuel;
  line ← parameter_line line;
  '(nrchop, irchcb) ← lift (dataset2 line);
  match nper with
  | None =>
      let '(nrow, ncol, nlay, nper) := nrow_ncol_nlay_nper m in
      ret (Env m nrchop (Some (nrow, ncol)) eud, irchcb, nper)
  | Some nper =>
      ret (Env m nrchop None eud, irchcb, nper)
  end.

(** Lines 186-189: the empty lists. *)
Definition initial_locals : M locals :=
  cr ← alloc EmptyList;
  ci ← alloc EmptyList;
  ret (Locals [] [] cr ci).

Definition prelude (fuel : nat) (m : model) (nper : option nat)
    (eud : option ext_unit_dict) : M (env * Z * nat * locals) :=
  h ← load_header fuel m nper eud;
  l0 ← initial_locals;
  ret (h, l0).

Definition load_body (fuel : nat) (m : model) (nper : option nat)
    (eud : option ext_unit_dict) : M args :=
  '(e, irchcb, nper, l0) ← prelude fuel m nper eud;
  l ← periods e nper 0 l0;
  ret (Args (e_nrchop e) irchcb (rech l) (irch l)).

Definition start (f : string) : world :=
  {| stream := f; heap := []; stdout := [] |}.

(** [ModflowRch.load(f, model, nper, ext_unit_dict)] on the text [f] of
    the file. *)
Definition load (f : string) (m : model) (nper : option nat)
    (eud : option ext_unit_dict) : result args * world :=
  load_body (S (String.length f)) m nper eud (start f).

(** The line that holds dataset 2: the first line that is not a comment,
    or the line after the [PARAMETER] line. *)
Definition dataset2_line (f : string) : option string :=
  match (header_line (S (String.length f)) ≫= parameter_line) (start f) with
  | (Ok line, _) => Some line
  | (Raise _, _) => None
  end.

(** The state of the load on entry to stress period [k]. *)
Definition at_period (f : string) (m : model) (nper : option nat)
    (eud : option ext_unit_dict) (k : nat)
    : result (env * Z * nat * locals) * world :=
  ('(e, irchcb, nper, l0) ← prelude (S (String.length f)) m nper eud;
   l ← periods e k 0 l0;
   ret (e, irchcb, nper, l)) (start f).

(** The control record the load decodes in stress period [k], when it gets
    there. *)
Definition codes_at (f : string) (m : model) (nper : option nat)
    (eud : option ext_unit_dict) (k : nat) : option codes :=
  match at_period f m nper eud k with
  | (Ok (e, _, n, _), w) =>
      if (k <? n)%nat then
        match control_record (e_nrchop e) (fst (readline (stream w))) with
        | Ok c => Some c
        | Raise _ => None
        end
      else None
  | (Raise _, _) => None
  end.

End Rch.
End Rch.

(* ===================================================================== *)
(** ** The MT3D link package, [mflmt.py] *)
(* ===================================================================== *)

Module Lmt.

(** The attributes of a [ModflowLmt] object.  [Package.__init__] stores
    the model, the extension and the unit number. *)
Record ModflowLmt : Type := {
  parent : model;
  extension : string;
  unit_number : Z;
  heading : string;
  url : string;
  output_file_name : string;
  output_file_unit : Z;
  output_file_header : string;
  output_file_format : string
}.

(** [ModflowLmt.__init__]: the four [output_file_*] arguments are accepted
    and the attributes are assigned from literals. *)
Definition __init__ (m : model) (output_file_name' : string)
    (output_file_unit' : Z) (output_file_header' : string)
    (output_file_format' : string) (extension' : string) (unitnumber : Z)
    : ModflowLmt :=
  {| parent := m;
     extension := extension';
     unit_number := unitnumber;
     heading := "# Lmt input file for MODFLOW, generated by Flopy.";
     url := "lmt.htm";
     output_file_name := "mt3d_link.ftl";
     output_file_unit := 54;
     output_file_header := "extended";
     output_file_format := "unformatted" |}.

(** The text [write_file] writes to the package file. *)
Definition write_file (self : ModflowLmt) : string :=
  (heading self ++ nl)
  ++ (("OUTPUT_FILE_NAME " ++ output_file_name self) ++ nl)
  ++ ("OUTPUT_FILE_UNIT " ++ fmt_d 10 (output_file_unit self) ++ nl)
  ++ (("OUTPUT_FILE_HEADER " ++ output_file_header self) ++ nl)
  ++ (("OUTPUT_FILE_FORMAT " ++ output_file_format self) ++ nl).

End Lmt.

(* ===================================================================== *)
(** ** A concrete set of collaborators *)
(* ===================================================================== *)

(** Modelled from the spec: the array codec, the transient array and the
    parameter table ([Util2d], [Transient2d] and [mfparbc] are not among the
    package files).  The codec is the constant-fill record of the Grid Array
    Codec: one line that holds a keyword and the scalar that fills the grid.
    A timeline is the sparse dictionary of the steps that supply an array;
    a step without one reuses the most recent.  A parameter is known by the
    first ten characters of its lowercased name and resolves to the value of
    the instance that is named for it; the parameters that are named for a
    step add up.  The theorems below hold for any collaborators; these run
    the packages on concrete files. *)
Module Constant.

Definition grid : Type := Z.

Definition file_entry (a : grid) : string :=
  "CONSTANT " ++ str a ++ nl.

Definition decode (f : string) (m : model) (shape : nat * nat)
    (dt : dtype) (name : string) (eud : option unit)
    : result (grid * string) :=
  let '(line, rest) := readline f in
  match split (strip line) with
  | [kw; v] =>
      if String.eqb (lower kw) "constant"
      then a ← int v; Ok (a, rest)
      else Raise (Exception "ShapeMismatch")
  | _ => Raise (Exception "ShapeMismatch")
  end.

Definition timeline : Type := gmap nat grid.

Definition kper_entry (t : timeline) (kper : nat) : Z * string :=
  match t !! kper with
  | Some a => (1, file_entry a)
  | None => (-1, "")
  end.

Fixpoint resolved (t : timeline) (kper : nat) : option grid :=
  match t !! kper with
  | Some a => Some a
  | None =>
      match kper with
      | O => None
      | S k => resolved t k
      end
  end.

Definition table : Type := gmap string (unit * gmap string Z).

Definition key (name : string) : string := slice0 10 (lower name).

(** One line per parameter: its name, an instance name and the value. *)
Fixpoint read_table (n : nat) (f : string) (tbl : table)
    : result (table * string) :=
  match n with
  | O => Ok (tbl, f)
  | S n' =>
      let '(line, rest) := readline f in
      match split (strip line) with
      | [pname; iname; v] =>
          a ← int v;
          let insts := from_option snd ∅ (tbl !! key pname) in
          read_table n' rest
            (<[key pname := (tt, <[lower iname := a]> insts)]> tbl)
      | _ => Raise (Exception "ParameterCountMismatch")
      end
  end.

Definition load_table (f : string) (npar : Z) (verbose : bool)
    : result (table * string) :=
  read_table (Z.to_nat npar) f ∅.

Definition resolve (pak_parms : option table) (pname iname : string)
    : result Z :=
  match pak_parms with
  | None => Raise AttributeError
  | Some tbl =>
      match tbl !! pname with
      | None => Raise (Exception "UnknownParameter")
      | Some (_, insts) =>
          match insts !! iname with
          | None => Raise KeyError
          | Some a => Ok a
          end
      end
  end.

Definition fill (m : model) (shape : nat * nat)
    (parm_dict : gmap string string) (pak_parms : option table)
    : result grid :=
  map_fold (fun pname iname acc =>
              s ← acc; a ← resolve pak_parms pname iname; Ok (s + a)%Z)
           (Ok 0%Z) parm_dict.

#[global] Instance collaborators : Collaborators := {|
  array := grid;
  ext_unit_dict := unit;
  Util2d_load := decode;
  get_file_entry := file_entry;
  Transient2d := timeline;
  get_kper_entry := kper_entry;
  resolved_array := resolved;
  ParBc := table;
  pdict := unit;
  instance := Z;
  bc_parms := fun tbl => tbl;
  loadarray := load_table;
  parameter_bcfill := fill
|}.

End Constant.

(* ===================================================================== *)
(** ** The constructor of the evapotranspiration package *)
(* ===================================================================== *)

Module EvtInit.

(** [filenames] as a caller passes it: [None] (the default), one string,
    or a list whose elements are strings or [None]. *)
Inductive filenames_arg : Type :=
| FNone
| FStr (s : string)
| FList (l : list (option string)).

(** Lines 91-97: [filenames] is brought to a list.  A list shorter than
    two gets one [None] appended. *)
Definition set_filenames (filenames : filenames_arg) : list (option string) :=
  match filenames with
  | FNone => [None; None]
  | FStr s => [Some s; None]
  | FList l => if (length l <? 2)%nat then (l ++ [None])%list else l
  end.

(** What lines 86-120 settle about units and files: the call of
    [model.add_output_file(ipakcb, fname=filenames[1], ...)], made only
    when [ipakcb] is passed; the list [fname = [filenames[0]]] handed to
    [Package.__init__]; and the attribute [self.ipakcb]. *)
Record files : Type := Files {
  output_file : option (Z * option string);
  package_fname : list (option string);
  self_ipakcb : Z
}.

Definition init_files (ipakcb : option Z) (filenames : filenames_arg)
    : result files :=
  let filenames := set_filenames filenames in
  '(out, ipakcb) ← match ipakcb with
                   | Some u =>
                       fname ← getitem filenames 1;
                       Ok (Some (u, fname), u)
                   | None => Ok (None, 0)
                   end;
  f0 ← getitem filenames 0;
  Ok (Files out [f0] ipakcb).

(** [self.nevtop] of the object [ModflowEvt(model, **args)] that ends
    [load]: the keyword has the default 3 (line 81) and is stored as it is
    (line 119). *)
Definition loaded_nevtop `{Collaborators} (a : Evt.args) : Z :=
  default 3 (Evt.args_nevtop a).

End EvtInit.

(* ===================================================================== *)
(** ** The multi-node well package, [mfmnw1.py] *)
(* ===================================================================== *)

(** [TypeError], which the loaders above never raise, is written with
    [Exception]. *)
Definition TypeError : exn := Exception "TypeError".

(** What [mfmnw1.py] takes from outside and this development leaves open:
    the values of [Qdes] with the text ['%10f'] prints for them, and the
    method [Package.assignarray_old(destarray, srcarray)], which fills the
    array it is handed. *)
Class Mnw1Outside : Type := {
  qdes : Type;
  fmt_10f : qdes -> string;
  itmp_arg : Type;
  assignarray_old : list Z -> itmp_arg -> result (list Z)
}.

Module Mnw1.
Section Mnw1.
Context `{Mnw1Outside}.

(** [s.split(sep)] for a separator of one character: the pieces between
    the separators, [['']] for the empty text. *)
Fixpoint split_on (sep : ascii) (s : string) : list string :=
  match s with
  | "" => [""]
  | String c s' =>
      if Ascii.eqb c sep then "" :: split_on sep s'
      else
        match split_on sep s' with
        | w :: ws => String c w :: ws
        | [] => [String c ""]
        end
  end.

(** An entry of [wel1_bynode_qsum]: the list [[name, unit]] or
    [[name, unit, 'ALLTIME']]; [aux_more] holds what follows the unit, so
    [len(each)] is [2 + length aux_more]. *)
Record aux_file : Type := Aux {
  aux_name : string;
  aux_unit : Z;
  aux_more : list string
}.

(** An entry of [lay_row_col_qdes_mn_multi]. *)
Record node : Type := Node {
  lay : Z;
  row : Z;
  col : Z;
  node_qdes : qdes;
  mn_multi : string
}.

(** The attributes of a [ModflowMnw1] object.
    [kspref] is held as the text that [%s] prints for it (["1"] for the
    default).  [wel1_bynode_qsum], [lay_row_col_qdes_mn_multi] and
    [mnwname] are [None] by default. *)
Record ModflowMnw1 : Type := {
  parent : model;
  nper : nat;
  heading : string;
  mxmnw : Z;
  iwl2cb : Z;
  iwelpt : Z;
  nomoiter : Z;
  kspref : string;
  losstype : string;
  wel1_bynode_qsum : option (list aux_file);
  itmp : list Z;
  lay_row_col_qdes_mn_multi : option (list node);
  mnwname : option string
}.

(** [for x in v:] when [v] may be [None]. *)
Definition iterate {A} (v : option (list A)) : result (list A) :=
  match v with
  | Some l => Ok l
  | None => Raise TypeError
  end.

(** A loop whose turns each write a text. *)
Fixpoint for_each {A} (body : A -> result string) (l : list A)
    : result string :=
  match l with
  | [] => Ok ""
  | x :: l' => s ← body x; r ← for_each body l'; Ok (s ++ r)
  end.

(** [each[0].split('.')[1]] *)
Definition extension (each : aux_file) : result string :=
  getitem (split_on "." (aux_name each)) 1.

(** Lines 41-42: [assert each[0].split('.')[1] in auxFileExtensions]. *)
Definition check_extension (each : aux_file) : result unit :=
  e ← extension each;
  if decide (e ∈ ["wl1"; "ByNode"; "Qsum"]) then Ok tt
  else Raise AssertionError.

Fixpoint check_extensions (l : list aux_file) : result unit :=
  match l with
  | [] => Ok tt
  | each :: l' => check_extension each ;; check_extensions l'
  end.

(** [a.max()] of an integer array; numpy raises [ValueError] for an array
    without elements. *)
Definition array_max (a : list Z) : result Z :=
  match a with
  | [] => Raise ValueError
  | x :: a' => Ok (foldr Z.max x a')
  end.

(** [ModflowMnw1.__init__], lines 16-45. *)
Definition __init__ (m : model) (mxmnw' iwl2cb' iwelpt' nomoiter' : Z)
    (kspref' : string) (wel1_bynode_qsum' : option (list aux_file))
    (itmp' : itmp_arg) (lay_row_col_qdes_mn_multi' : option (list node))
    (mnwname' : option string) : result ModflowMnw1 :=
  let '(_, _, _, nper') := nrow_ncol_nlay_nper m in
  itmp1 ← assignarray_old (replicate nper' 0) itmp';
  l ← iterate wel1_bynode_qsum';
  check_extensions l ;;
  top ← array_max itmp1;
  if (top <=? mxmnw')%Z then
    Ok {| parent := m;
          nper := nper';
          heading :=
            "# Multi-node well 1 (MNW1) file for MODFLOW, generated by Flopy";
          mxmnw := mxmnw';
          iwl2cb := iwl2cb';
          iwelpt := iwelpt';
          nomoiter := nomoiter';
          kspref := kspref';
          losstype := "SKIN";
          wel1_bynode_qsum := wel1_bynode_qsum';
          itmp := itmp1;
          lay_row_col_qdes_mn_multi := lay_row_col_qdes_mn_multi';
          mnwname := mnwname' |}
  else Raise AssertionError.

(** Lines 63-65: section 3a, one turn. *)
Definition wel1_line (each : aux_file) : result string :=
  e ← extension each;
  if String.eqb e "wl1" then
    Ok ("FILE:" ++ aux_name each ++ " WEL1:" ++ fmt_d 10 (aux_unit each) ++ nl)
  else Ok "".

(** Lines 68-73 and 76-81: sections 3b and 3c, one turn.  An entry of
    another length than 2 or 3 writes nothing. *)
Definition flagged_line (kind label : string) (each : aux_file)
    : result string :=
  e ← extension each;
  if String.eqb e kind then
    match aux_more each with
    | [] =>
        Ok ("FILE:" ++ aux_name each ++ " " ++ label ++ ":"
            ++ fmt_d 10 (aux_unit each) ++ nl)
    | [alltime] =>
        Ok ("FILE:" ++ aux_name each ++ " " ++ label ++ ":"
            ++ fmt_d 10 (aux_unit each) ++ " " ++ alltime ++ nl)
    | _ => Ok ""
    end
  else Ok "".

(** Lines 63-81: the three loops over [wel1_bynode_qsum]. *)
Definition aux_section (v : option (list aux_file)) : result string :=
  l ← iterate v;
  a ← for_each wel1_line l;
  l ← iterate v;
  b ← for_each (flagged_line "ByNode" "BYNODE") l;
  l ← iterate v;
  c ← for_each (flagged_line "Qsum" "QSUM") l;
  Ok (a ++ b ++ c).

End Mnw1.
End Mnw1.

(* ===================================================================== *)
(** ** The constructor of the recharge package *)
(* ===================================================================== *)

Module RchInit.
Section RchInit.
Context `{Collaborators}.

(** The values that are passed for [rech] and [irch], and the constructor
    of the array object, [util_2d(model, shape, dtype, a, name=...)], which
    lives outside the file. *)
Variable value : Type.
Variable util_2d :
  model -> nat * nat -> dtype -> value -> string -> result array.

(** What is passed for [rech] or [irch]: one value, or a list. *)
Inductive arg : Type :=
| One (a : value)
| Many (l : list value).

(** Lines 78-79 and 83-84: [if (not isinstance(rech, list)): rech = [rech]]. *)
Definition as_list (x : arg) : list value :=
  match x with
  | One a => [a]
  | Many l => l
  end.

(** Lines 80-82 and 85-87: [for i, a in enumerate(...)], from [i] on; every
    value is made an array object named after its place in the list. *)
Fixpoint wrap (m : model) (shape : nat * nat) (dt : dtype) (prefix : string)
    (i : nat) (l : list value) : result (list array) :=
  match l with
  | [] => Ok []
  | a :: l' =>
      r ← util_2d m shape dt a (prefix ++ str (Z.of_nat i + 1));
      rs ← wrap m shape dt prefix (S i) l';
      Ok (r :: rs)
  end.

(** [ModflowRch.__init__], lines 70-89. *)
Definition __init__ (m : model) (nrchop irchcb : Z) (rech irch : arg)
    : result Rch.ModflowRch :=
  let '(nrow, ncol, nlay, nper) := nrow_ncol_nlay_nper m in
  rech' ← wrap m (nrow, ncol) float32 "rech_" 0 (as_list rech);
  irch' ← wrap m (nrow, ncol) int_ "irech_" 0 (as_list irch);
  Ok {| Rch.parent := m;
        Rch.heading := "# RCH for MODFLOW, generated by Flopy.";
        Rch.nrchop := nrchop;
        Rch.irchcb := irchcb;
        Rch.self_rech := rech';
        Rch.self_irch := irch' |}.

End RchInit.
End RchInit.

(* ===================================================================== *)
(** ** The package objects the loads return *)
(* ===================================================================== *)

(** The error [NoPriorArray] of the specification, which the package files
    themselves never raise, is written with [Exception]. *)
Definition NoPriorArray : exn := Exception "NoPriorArray".

(** *** [ModflowEvt(model, **args)] *)

Module EvtObject.
Section EvtObject.
Context `{Collaborators}.

(** What [__init__] passes to [Transient2d] for a quantity: the dictionary
    of [load], keyed on the stress period, when the keyword is passed, and
    the default of the keyword when it is not (the literal of lines 81-82,
    held as text). *)
Inductive value : Type :=
| Scalar (literal : string)
| Sequence (d : gmap nat loc).

(** Modelled from the spec: the object that
    [Transient2d(model, shape, dtype, value, name)] builds; [Transient2d] is
    not among the package files.  It is the Timeline of the data model: one
    slot for every step, each referring to a GridArray, where consecutive
    steps may share the same GridArray by reference (alias, not copy).
    Built from a dictionary of objects it keeps the references it is handed.
    A slot that has no array (the empty list [load] starts from) is a reuse
    before any prior value exists, the error [NoPriorArray].  Built from a
    scalar it stands for that value at every step. *)
Inductive timeline : Type :=
| Uniform (literal : string)
| Slots (d : gmap nat loc).

(** The object at [r] is an array object. *)
Definition holds_array (w : world) (r : loc) : bool :=
  match deref w r with
  | Some (Util2d _) => true
  | _ => false
  end.

Definition all_supplied (w : world) (d : gmap nat loc) : bool :=
  forallb (fun kr => holds_array w (snd kr)) (map_to_list d).

(** The arrays of a dictionary of [load] were decoded under the shape and
    the element type that [__init__] passes, so the constructor has nothing
    to convert. *)
Definition Transient2d_init (m : model) (shape : nat * nat) (dt : dtype)
    (v : value) (name : string) : M timeline :=
  match v with
  | Scalar s => ret (Uniform s)
  | Sequence d =>
      fun w =>
        if all_supplied w d then (Ok (Slots d), w)
        else (Raise NoPriorArray, w)
  end.

(** Modelled from the spec: the accessor [resolved_array(quantity, step)]
    on such a timeline: the object the slot of the step refers to, or the
    scalar the timeline was built from. *)
Inductive resolved : Type :=
| Object (r : loc)
| Value (literal : string).

Definition resolved_at (t : timeline) (k : nat) : option resolved :=
  match t with
  | Uniform s => Some (Value s)
  | Slots d => Object <$> d !! k
  end.

(** The attributes that [__init__] sets from its arguments. *)
Record ModflowEvt : Type := {
  parent : model;
  nevtop : Z;
  ipakcb : Z;
  surf : timeline;
  evtr : timeline;
  exdp : timeline;
  ievt : timeline
}.

(** A keyword that is passed, or its default. *)
Definition keyword (literal : string) (d : option (gmap nat loc)) : value :=
  match d with
  | Some d => Sequence d
  | None => Scalar literal
  end.

(** [ModflowEvt.__init__], lines 81-136; a keyword that is not passed is
    [None].  The calls that reach the registry of the model
    ([add_output_file], [Package.__init__], [add_package]) are outside the
    package files: they are taken to return, and what they record about
    units and file names is left out. *)
Definition __init__ (m : model) (nevtop' ipakcb' : option Z)
    (surf' evtr' exdp' ievt' : option (gmap nat loc))
    (filenames : EvtInit.filenames_arg) : M ModflowEvt :=
  files ← lift (EvtInit.init_files ipakcb' filenames);
  let '(nrow, ncol, nlay, nper) := nrow_ncol_nlay_nper m in
  surf ← Transient2d_init m (nrow, ncol) float32 (keyword "0." surf') "surf";
  evtr ← Transient2d_init m (nrow, ncol) float32 (keyword "1e-3" evtr') "etvr";
  exdp ← Transient2d_init m (nrow, ncol) float32 (keyword "1." exdp') "exdp";
  ievt ← Transient2d_init m (nrow, ncol) int_ (keyword "1" ievt') "ievt";
  ret {| parent := m;
         nevtop := default 3 nevtop';
         ipakcb := EvtInit.self_ipakcb files;
         surf := surf; evtr := evtr; exdp := exdp; ievt := ievt |}.

(** Lines 333-349: [evt = ModflowEvt(model, **args)], with a list of two
    file names (the names that [model.get_ext_dict_attr] finds for them in
    [ext_unit_dict] are left out). *)
Definition construct (m : model) (a : Evt.args) : M ModflowEvt :=
  __init__ m (Evt.args_nevtop a) (Some (Evt.args_ipakcb a))
    (Evt.args_surf a) (Evt.args_evtr a) (Evt.args_exdp a) (Evt.args_ievt a)
    (EvtInit.FList [None; None]).

(** [ModflowEvt.load], lines 211-352: the loop over the stress periods, then
    the constructor. *)
Definition load_body (fuel : nat) (m : model) (nper : option nat)
    (eud : option ext_unit_dict) : M ModflowEvt :=
  a ← Evt.load_body fuel m nper eud;
  construct m a.

Definition load (f : string) (m : model) (nper : option nat)
    (eud : option ext_unit_dict) : result ModflowEvt * world :=
  load_body (S (String.length f)) m nper eud (Evt.start f).

End EvtObject.
End EvtObject.

(** *** [ModflowRch(model, nrchop=..., irchcb=..., rech=..., irch=...)] *)

Module RchObject.
Section RchObject.
Context `{Collaborators}.

(** Modelled from the spec: [util_2d(model, shape, dtype, a, name=...)] on an
    object [a] that [load] holds; [util_2d] is not among the package files.
    The call makes a new array object.  On an array object the new object
    holds the grid of that object (a GridArray is immutable once
    constructed); the empty list [load] starts from has no grid, which is a
    reuse before any prior value exists, the error [NoPriorArray]. *)
Definition util_2d (m : model) (shape : nat * nat) (dt : dtype) (a : loc)
    (name : string) : M loc :=
  fun w =>
    match deref w a with
    | Some (Util2d x) => alloc (Util2d x) w
    | _ => (Raise NoPriorArray, w)
    end.

(** The attributes that [__init__] sets from its arguments; [rech] and
    [irch] are lists of array objects. *)
Record ModflowRch : Type := {
  parent : model;
  nrchop : Z;
  irchcb : Z;
  rech : list loc;
  irch : list loc
}.

(** Lines 80-82 and 85-87: [for i, a in enumerate(...)], from [i] on, with
    the list the loop has built so far. *)
Fixpoint wrap (m : model) (shape : nat * nat) (dt : dtype) (prefix : string)
    (i : nat) (l : list loc) (self_l : list loc) : M (list loc) :=
  match l with
  | [] => ret self_l
  | a :: l' =>
      r ← util_2d m shape dt a (prefix ++ str (Z.of_nat i + 1));
      wrap m shape dt prefix (S i) l' (self_l ++ [r])%list
  end.

(** [ModflowRch.__init__], lines 70-89, on the lists that [load] passes
    for [rech] and [irch].  ([Package.__init__] and [add_package] reach the
    registry of the model; they are taken to return.) *)
Definition __init__ (m : model) (nrchop' irchcb' : Z)
    (rech' irch' : list loc) : M ModflowRch :=
  let '(nrow, ncol, nlay, nper) := nrow_ncol_nlay_nper m in
  rech ← wrap m (nrow, ncol) float32 "rech_" 0 rech' [];
  irch ← wrap m (nrow, ncol) int_ "irech_" 0 irch' [];
  ret {| parent := m; nrchop := nrchop'; irchcb := irchcb';
         rech := rech; irch := irch |}.

(** Lines 211-212. *)
Definition construct (m : model) (a : Rch.args) : M ModflowRch :=
  __init__ m (Rch.args_nrchop a) (Rch.args_irchcb a)
    (Rch.args_rech a) (Rch.args_irch a).

(** [ModflowRch.load], lines 162-213. *)
Definition load_body (fuel : nat) (m : model) (nper : option nat)
    (eud : option ext_unit_dict) : M ModflowRch :=
  a ← Rch.load_body fuel m nper eud;
  construct m a.

Definition load (f : string) (m : model) (nper : option nat)
    (eud : option ext_unit_dict) : result ModflowRch * world :=
  load_body (S (String.length f)) m nper eud (Rch.start f).

End RchObject.
End RchObject.

(* ===================================================================== *)
(** ** The collaborators of the specification *)
(* ===================================================================== *)

(** Modelled from the spec: the Grid Array Codec (4.1), the Timeline (3,
    4.4) and the Parameter Table (3, 4.3), which stand for [Util2d],
    [Transient2d] and [mfparbc]; none of the three is among the package
    files.  Where the specification leaves the text open, the choice made
    here is said at the definition. *)
Module Core.

(** The errors of the taxonomy that belong to these components. *)
Definition ShapeMismatch : exn := Exception "ShapeMismatch".
Definition TypeMismatch : exn := Exception "TypeMismatch".
Definition UnresolvedUnit : exn := Exception "UnresolvedUnit".
Definition UnknownParameter : exn := Exception "UnknownParameter".
Definition ParameterCountMismatch : exn := Exception "ParameterCountMismatch".

(** *** Elements *)

(** An element of a GridArray: an integer, or a floating-point number.  A
    floating-point number is held as the decimal fraction [m / 10^e], which
    is what its text says; binary rounding is outside this model. *)
Inductive number : Type :=
| Int (z : Z)
| Real (m : Z) (e : nat).

Definition number_dtype (x : number) : dtype :=
  match x with
  | Int _ => int_
  | Real _ _ => float32
  end.

Fixpoint zeros (n : nat) : string :=
  match n with
  | O => ""
  | S n' => String "0" (zeros n')
  end.

(** [s[n:]] *)
Fixpoint drop_s (n : nat) (s : string) : string :=
  match n, s with
  | S n', String _ s' => drop_s n' s'
  | _, _ => s
  end.

(** The text of [m / 10^e]: the digits of [m], at least one of them before
    the point and [e] of them after it. *)
Definition real_text (m : Z) (e : nat) : string :=
  let ds := str (Z.abs m) in
  let padded := zeros (S e - String.length ds) ++ ds in
  let k := (String.length padded - e)%nat in
  (if (m <? 0)%Z then "-" else "")
  ++ slice0 k padded ++ "." ++ drop_s k padded.

Definition text (x : number) : string :=
  match x with
  | Int z => str z
  | Real m e => real_text m e
  end.

(** The text before the first point, and the text after it. *)
Fixpoint cut_point (s : string) : string * option string :=
  match s with
  | "" => ("", None)
  | String c s' =>
      if Ascii.eqb c "." then ("", Some s')
      else let '(w, f) := cut_point s' in (String c w, f)
  end.

(** [float(s)] for a token of an optional sign, digits and at most one
    point.  (Exponents, and the other spellings that [float] accepts, are
    outside this model.) *)
Definition float_body (neg : bool) (body : string) : result number :=
  let '(w, f) := cut_point body in
  let f := default "" f in
  match int_digits (w ++ f) with
  | Ok n => Ok (Real (if neg then - n else n) (String.length f))
  | Raise _ => Raise TypeMismatch
  end.

Definition float (s : string) : result number :=
  match s with
  | String "-" body => float_body true body
  | String "+" body => float_body false body
  | _ => float_body false s
  end.

(** A token, read as an integer. *)
Definition parse_int (s : string) : result Z :=
  match int s with
  | Ok z => Ok z
  | Raise _ => Raise TypeMismatch
  end.

(** A token, read as an element of the requested type. *)
Definition parse (dt : dtype) (s : string) : result number :=
  match dt with
  | int_ => z ← parse_int s; Ok (Int z)
  | float32 => float s
  end.

Fixpoint parse_all (dt : dtype) (ts : list string) : result (list number) :=
  match ts with
  | [] => Ok []
  | t :: ts' => x ← parse dt t; xs ← parse_all dt ts'; Ok (x :: xs)
  end.

(** *** The Grid Array Codec *)

Definition grid : Type := list (list number).

(** The unit registry: the text of the file that is registered under a
    unit number. *)
Definition registry : Type := gmap Z string.

(** A GridArray with the way it is written: as a full grid, as a
    constant-fill record, or as a reference to an external file. *)
Inductive grid_array : Type :=
| Raw (cells : grid)
| Filled (v : number) (shape : nat * nat)
| External (unit : Z) (cells : grid).

Definition cells_of (a : grid_array) : grid :=
  match a with
  | Raw c => c
  | Filled v (nrow, ncol) => replicate nrow (replicate ncol v)
  | External _ c => c
  end.

(** A row: consecutive fields of ten characters, and a line terminator. *)
Fixpoint fields (row : list number) : string :=
  match row with
  | [] => ""
  | x :: row' => rjust 10 (text x) ++ fields row'
  end.

Fixpoint raw_text (c : grid) : string :=
  match c with
  | [] => ""
  | row :: c' => (fields row ++ nl) ++ raw_text c'
  end.

(** Modelled from the spec: [encode] of the Grid Array Codec, which stands
    for [Util2d.get_file_entry].  The specification names the records and
    not their keywords; the keywords here are [CONSTANT], followed by the
    scalar and the repeat count, and [EXTERNAL], followed by the unit
    number. *)
Definition file_entry (a : grid_array) : string :=
  match a with
  | Raw c => raw_text c
  | Filled v (nrow, ncol) =>
      "CONSTANT " ++ text v ++ " " ++ str (Z.of_nat (nrow * ncol)) ++ nl
  | External u _ => "EXTERNAL " ++ str u ++ nl
  end.

(** Lines are read, and split on whitespace, until [need] tokens are
    there; what a line holds beyond them is dropped.  The stream is
    exhausted when [readline] returns the empty text. *)
Fixpoint read_tokens (fuel need : nat) (f : string)
    : result (list string * string) :=
  match need with
  | O => Ok ([], f)
  | S _ =>
      match fuel with
      | O => Raise ShapeMismatch
      | S fuel' =>
          let '(line, rest) := readline f in
          if String.eqb line "" then Raise ShapeMismatch
          else
            let ts := take need (split (strip line)) in
            '(more, rest') ← read_tokens fuel' (need - length ts) rest;
            Ok ((ts ++ more)%list, rest')
      end
  end.

(** The rows of a grid, from its elements in row order. *)
Fixpoint rows_of (nrow ncol : nat) (xs : list number) : grid :=
  match nrow with
  | O => []
  | S nrow' => take ncol xs :: rows_of nrow' ncol (drop ncol xs)
  end.

(** A full grid: every line that is read takes at least one character off
    the stream, so as many turns as the stream has characters are
    enough. *)
Definition read_grid (f : string) (shape : nat * nat) (dt : dtype)
    : result (grid * string) :=
  let '(nrow, ncol) := shape in
  '(ts, rest) ← read_tokens (String.length f) (nrow * ncol) f;
  xs ← parse_all dt ts;
  Ok (rows_of nrow ncol xs, rest).

(** The first token of a line, in lower case. *)
Definition keyword (t : list string) : string :=
  match t with
  | kw :: _ => lower kw
  | [] => ""
  end.

Definition resolve_unit (eud : option registry) (u : Z) : result string :=
  match eud ≫= (fun reg => reg !! u) with
  | Some file => Ok file
  | None => Raise UnresolvedUnit
  end.

(** Modelled from the spec: [decode] of the Grid Array Codec, which stands
    for [Util2d.load]: the constant-fill record and the external reference
    are told from a full grid by the first token of the first line. *)
Definition decode (f : string) (m : model) (shape : nat * nat)
    (dt : dtype) (name : string) (eud : option registry)
    : result (grid_array * string) :=
  let '(line, rest) := readline f in
  let t := split (strip line) in
  if String.eqb (keyword t) "constant" then
    match t with
    | [_; v; n] =>
        x ← parse dt v;
        count ← parse_int n;
        if (count =? Z.of_nat (fst shape * snd shape))%Z
        then Ok (Filled x shape, rest)
        else Raise ShapeMismatch
    | _ => Raise ShapeMismatch
    end
  else if String.eqb (keyword t) "external" then
    match t with
    | [_; u] =>
        unit ← parse_int u;
        file ← resolve_unit eud unit;
        '(c, _) ← read_grid file shape dt;
        Ok (External unit c, rest)
    | _ => Raise ShapeMismatch
    end
  else
    '(c, rest') ← read_grid f shape dt;
    Ok (Raw c, rest').

(** *** The Timeline *)

(** The steps that supply an array; a step without one reuses the array of
    the most recent step that supplied one. *)
Definition timeline : Type := gmap nat grid_array.

(** Modelled from the spec: what stands for [Transient2d.get_kper_entry]:
    the code 1 and the text of the array at a step that supplies one, the
    code -1 and no text at a step that reuses. *)
Definition kper_entry (t : timeline) (kper : nat) : Z * string :=
  match t !! kper with
  | Some a => (1, file_entry a)
  | None => (-1, "")
  end.

(** Modelled from the spec: [resolved_array(quantity, step)]: the array of
    the most recent step that supplied one. *)
Fixpoint resolved (t : timeline) (kper : nat) : option grid_array :=
  match t !! kper with
  | Some a => Some a
  | None =>
      match kper with
      | O => None
      | S k => resolved t k
      end
  end.

(** *** The Parameter Table *)

(** A ParameterEntry: the base value, and the values of the instances that
    override it.  The parameter is known by the first ten characters of its
    lowercased name, the key of the table. *)
Record entry : Type := Entry {
  base : number;
  overrides : gmap string number
}.

Definition table : Type := gmap string entry.

Definition key (name : string) : string := slice0 10 (lower name).

(** The instance map of an entry: the [static] instance is the base
    value. *)
Definition instances (e : entry) : gmap string number :=
  <["static" := base e]> (overrides e).

(** The pairs [iname value] that follow the base value on the line of a
    parameter. *)
Fixpoint read_overrides (t : list string) : result (gmap string number) :=
  match t with
  | [] => Ok ∅
  | iname :: v :: t' =>
      x ← float v;
      o ← read_overrides t';
      Ok (<[lower iname := x]> o)
  | [_] => Raise ParameterCountMismatch
  end.

(** Modelled from the spec: [load(stream, count)] of the Parameter Table,
    which stands for [mfparbc.loadarray]: one line for every parameter,
    with its name, its base value and its instances.  (The specification
    does not give the text of an entry; this is the choice made here.) *)
Fixpoint read_table (n : nat) (f : string) (tbl : table)
    : result (table * string) :=
  match n with
  | O => Ok (tbl, f)
  | S n' =>
      let '(line, rest) := readline f in
      match split (strip line) with
      | pname :: v :: t =>
          x ← float v;
          o ← read_overrides t;
          read_table n' rest (<[key pname := Entry x o]> tbl)
      | _ => Raise ParameterCountMismatch
      end
  end.

Definition load_table (f : string) (npar : Z) (verbose : bool)
    : result (table * string) :=
  read_table (Z.to_nat npar) f ∅.

(** Modelled from the spec: [resolve(name, instance, shape)] of the
    Parameter Table, up to the broadcast: the value of the instance, and
    the value of [static] when the entry has no such instance. *)
Definition resolve (tbl : table) (name instance : string) : result number :=
  match tbl !! key name with
  | None => Raise UnknownParameter
  | Some e => Ok (default (base e) (instances e !! instance))
  end.

(** The sum of two elements; an integer counts as a fraction without
    decimals. *)
Definition add (x y : number) : number :=
  match x, y with
  | Int a, Int b => Int (a + b)
  | Int a, Real m e => Real (a * 10 ^ Z.of_nat e + m) e
  | Real m e, Int b => Real (m + b * 10 ^ Z.of_nat e) e
  | Real m1 e1, Real m2 e2 =>
      Real (m1 * 10 ^ Z.of_nat (e2 - e1) + m2 * 10 ^ Z.of_nat (e1 - e2))
           (Nat.max e1 e2)
  end.

(** Modelled from the spec: what stands for [mfparbc.parameter_bcfill]: of
    the parameters that are named for a step every one is resolved, the
    values add up, and the sum is broadcast across the shape. *)
Definition fill (m : model) (shape : nat * nat)
    (parm_dict : gmap string string) (pak_parms : option table)
    : result grid_array :=
  match pak_parms with
  | None => Raise AttributeError
  | Some tbl =>
      total ← map_fold (fun pname iname acc =>
                          s ← acc; v ← resolve tbl pname iname; Ok (add s v))
                       (Ok (Int 0)) parm_dict;
      Ok (Filled total shape)
  end.

(** Modelled from the spec: the collaborators of the package files, which
    are not among them: [Util2d], [Transient2d] and [mfparbc]. *)
Definition collaborators : Collaborators := {|
  array := grid_array;
  ext_unit_dict := registry;
  Util2d_load := decode;
  get_file_entry := file_entry;
  Transient2d := timeline;
  get_kper_entry := kper_entry;
  resolved_array := resolved;
  ParBc := table;
  pdict := unit;
  instance := number;
  bc_parms := fun tbl => (fun e => (tt, instances e)) <$> tbl;
  loadarray := load_table;
  parameter_bcfill := fill
|}.

End Core.

(* ===================================================================== *)
(** ** Vocabulary of the statements *)
(* ===================================================================== *)

(** A text without a line terminator. *)
Fixpoint no_newline (s : string) : bool :=
  match s with
  | "" => true
  | String c s' => negb (Ascii.eqb c newline) && no_newline s'
  end.

(** A text without whitespace. *)
Fixpoint no_space (s : string) : bool :=
  match s with
  | "" => true
  | String c s' => negb (isspace c) && no_space s'
  end.

(** A token: what [split] returns as one element. *)
Definition word (s : string) : bool :=
  match s with "" => false | _ => no_space s end.

(** A text that is empty or begins with whitespace: what may follow a
    token. *)
Definition starts_blank (s : string) : Prop :=
  s = "" \/ exists c s', s = String c s' /\ isspace c = true.

(** A text of whitespace only. *)
Fixpoint blank (s : string) : bool :=
  match s with
  | "" => true
  | String c s' => isspace c && blank s'
  end.

(** The characters of a printed integer. *)
Definition sign_or_digit (c : ascii) : bool :=
  match c with
  | "-" | "0" | "1" | "2" | "3" | "4" | "5" | "6" | "7" | "8" | "9" => true
  | _ => false
  end%char.

Fixpoint numeral (s : string) : bool :=
  match s with
  | "" => true
  | String c s' => sign_or_digit c && numeral s'
  end.

(** The stream after [n] calls of [readline]. *)
Fixpoint drop_lines (n : nat) (s : string) : string :=
  match n with
  | O => s
  | S n' => drop_lines n' (snd (readline s))
  end.

(** A stream that ends before [n] lines have been read from it. *)
Definition fewer_lines_than (n : nat) (s : string) : Prop :=
  exists k, (k < n)%nat /\ drop_lines k s = "".

(** A token that [int] accepts. *)
Definition numeric (s : string) : bool := is_ok (int s).

(** The numeric fields a line begins with. *)
Fixpoint numeric_fields (t : list string) : nat :=
  match t with
  | s :: t' => if numeric s then S (numeric_fields t') else O
  | [] => O
  end.

(** The number of codes a control line must hold: [ModflowEvt.load] reads
    three and, under [nevtop == 2], a fourth; [ModflowRch.load] reads one
    and, under [nrchop == 2], a second. *)
Definition evt_required_fields (nevtop : Z) : nat :=
  if (nevtop =? 2)%Z then 4%nat else 3%nat.

Definition rch_required_fields (nrchop : Z) : nat :=
  if (nrchop =? 2)%Z then 2%nat else 1%nat.

(** A computation that only adds objects to the heap: the objects it finds
    stay where they are. *)
Definition grows `{Collaborators} {A} (c : M A) : Prop :=
  forall w r w', c w = (r, w') -> heap w `prefix_of` heap w'.

(** The quantities of the evapotranspiration package, with the code, the
    dictionary and the current array of each.  [ievt] has a code only when
    the control record was read under [nevtop == 2]. *)
Inductive evt_quantity : Type := Surf | Evtr | Exdp | Ievt.

Definition evt_code (q : evt_quantity) (c : Evt.codes) : option Z :=
  match q with
  | Surf => Some (Evt.insurf c)
  | Evtr => Some (Evt.inevtr c)
  | Exdp => Some (Evt.inexdp c)
  | Ievt => Evt.inievt c
  end.

Definition evt_timeline (q : evt_quantity) (l : Evt.locals) : gmap nat loc :=
  match q with
  | Surf => Evt.surf l
  | Evtr => Evt.evtr l
  | Exdp => Evt.exdp l
  | Ievt => Evt.ievt l
  end.

Definition evt_current (q : evt_quantity) (l : Evt.locals) : loc :=
  match q with
  | Surf => Evt.current_surf l
  | Evtr => Evt.current_evtr l
  | Exdp => Evt.current_exdp l
  | Ievt => Evt.current_ievt l
  end.

Definition evt_args_timeline (q : evt_quantity) (a : Evt.args)
    : option (gmap nat loc) :=
  match q with
  | Surf => Evt.args_surf a
  | Evtr => Evt.args_evtr a
  | Exdp => Evt.args_exdp a
  | Ievt => Evt.args_ievt a
  end.

(** The same for the recharge package, whose timelines are lists. *)
Inductive rch_quantity : Type := Rech | Irch.

Definition rch_code (q : rch_quantity) (c : Rch.codes) : option Z :=
  match q with
  | Rech => Some (Rch.inrech c)
  | Irch => Rch.inirch c
  end.

Definition rch_timeline (q : rch_quantity) (l : Rch.locals) : list loc :=
  match q with
  | Rech => Rch.rech l
  | Irch => Rch.irch l
  end.

Definition rch_current (q : rch_quantity) (l : Rch.locals) : loc :=
  match q with
  | Rech => Rch.current_rech l
  | Irch => Rch.current_irch l
  end.

Definition rch_args_timeline (q : rch_quantity) (a : Rch.args) : list loc :=
  match q with
  | Rech => Rch.args_rech a
  | Irch => Rch.args_irch a
  end.

(** Two states that differ at most in what was printed. *)
Definition same_but_stdout `{Collaborators} (w1 w2 : world) : Prop :=
  stream w1 = stream w2 /\ heap w1 = heap w2.

(** Two computations that, from states that differ at most in what was
    printed, end alike: both return, with related values, or both raise the
    same exception, and they leave states that differ at most in what was
    printed. *)
Definition related `{Collaborators} {A B} (R : A -> B -> Prop)
    (c1 : M A) (c2 : M B) : Prop :=
  forall w1 w2,
    same_but_stdout w1 w2 ->
    match c1 w1, c2 w2 with
    | (Ok a, w1'), (Ok b, w2') => R a b /\ same_but_stdout w1' w2'
    | (Raise x1, w1'), (Raise x2, w2') => x1 = x2 /\ same_but_stdout w1' w2'
    | _, _ => False
    end.

(** Collaborators that do not look at the verbosity of the model, or at the
    verbosity flag, they are handed. *)
Definition verbosity_blind `{Collaborators} : Prop :=
  (forall f m b shape dt name eud,
     Util2d_load f (set_verbose b m) shape dt name eud
     = Util2d_load f m shape dt name eud) /\
  (forall f npar b b', loadarray f npar b = loadarray f npar b') /\
  (forall m b shape parm_dict pak_parms,
     parameter_bcfill (set_verbose b m) shape parm_dict pak_parms
     = parameter_bcfill m shape parm_dict pak_parms).

(** Two environments of the evapotranspiration loop that differ at most in
    the verbosity of the model. *)
Definition evt_env_alike `{Collaborators} (e1 e2 : Evt.env) : Prop :=
  Evt.e_model e1 = set_verbose (verbose (Evt.e_model e1)) (Evt.e_model e2) /\
  Evt.e_nevtop e1 = Evt.e_nevtop e2 /\
  Evt.e_npar e1 = Evt.e_npar e2 /\
  Evt.e_pak_parms e1 = Evt.e_pak_parms e2 /\
  Evt.e_nrow_ncol e1 = Evt.e_nrow_ncol e2 /\
  Evt.e_eud e1 = Evt.e_eud e2.

Definition rch_env_alike `{Collaborators} (e1 e2 : Rch.env) : Prop :=
  Rch.e_model e1 = set_verbose (verbose (Rch.e_model e1)) (Rch.e_model e2) /\
  Rch.e_nrchop e1 = Rch.e_nrchop e2 /\
  Rch.e_nrow_ncol e1 = Rch.e_nrow_ncol e2 /\
  Rch.e_eud e1 = Rch.e_eud e2.

(** A package object attached to a model of another verbosity. *)
Definition evt_with_verbosity `{Collaborators} (b : bool)
    (self : Evt.ModflowEvt) : Evt.ModflowEvt :=
  {| Evt.parent := set_verbose b (Evt.parent self);
     Evt.heading := Evt.heading self;
     Evt.nevtop := Evt.nevtop self;
     Evt.ipakcb := Evt.ipakcb self;
     Evt.self_surf := Evt.self_surf self;
     Evt.self_evtr := Evt.self_evtr self;
     Evt.self_exdp := Evt.self_exdp self;
     Evt.self_ievt := Evt.self_ievt self |}.

Definition rch_with_verbosity `{Collaborators} (b : bool)
    (self : Rch.ModflowRch) : Rch.ModflowRch :=
  {| Rch.parent := set_verbose b (Rch.parent self);
     Rch.heading := Rch.heading self;
     Rch.nrchop := Rch.nrchop self;
     Rch.irchcb := Rch.irchcb self;
     Rch.self_rech := Rch.self_rech self;
     Rch.self_irch := Rch.self_irch self |}.

(** *** Writing and loading again *)

(** A text of spaces, line terminators, signs and digits: a line of
    fixed-width integer fields. *)
Definition plain_char (c : ascii) : bool :=
  sign_or_digit c || Ascii.eqb c " " || Ascii.eqb c newline.

Fixpoint plain (s : string) : bool :=
  match s with
  | "" => true
  | String c s' => plain_char c && plain s'
  end.

(** The timeline, the element type and the name of a quantity, and whether
    the package reads and writes it under an option code. *)
Definition evt_self_timeline `{Collaborators} (q : evt_quantity)
    (self : Evt.ModflowEvt) : Transient2d :=
  match q with
  | Surf => Evt.self_surf self
  | Evtr => Evt.self_evtr self
  | Exdp => Evt.self_exdp self
  | Ievt => Evt.self_ievt self
  end.

Definition evt_dtype (q : evt_quantity) : dtype :=
  match q with Ievt => int_ | _ => float32 end.

Definition evt_name (q : evt_quantity) : string :=
  match q with
  | Surf => "surf"
  | Evtr => "evtr"
  | Exdp => "exdp"
  | Ievt => "ievt"
  end.

Definition evt_read (q : evt_quantity) (nevtop : Z) : bool :=
  match q with Ievt => (nevtop =? 2)%Z | _ => true end.

(** The grid shape and the number of stress periods of a model. *)
Definition model_shape (m : model) : nat * nat :=
  let '(nrow, ncol, _, _) := nrow_ncol_nlay_nper m in (nrow, ncol).

Definition model_nper (m : model) : nat :=
  let '(_, _, _, nper) := nrow_ncol_nlay_nper m in nper.

(** The control code of every stress period fits its ten-character field
    with room for a separating space. *)
Definition codes_fit `{Collaborators} (t : Transient2d) (nper : nat) : Prop :=
  forall n, (n < nper)%nat ->
    (String.length (str (fst (get_kper_entry t n))) < 10)%nat.

(** What the round trip asks of the collaborators, for one timeline: the
    first stress period supplies an array; the text block of a stress
    period with a non-negative code is decoded by [Util2d.load], under the
    element type and name the loader uses, to the array the timeline
    resolves to there, leaving what follows the block; and a stress period
    with a negative code resolves to the array of the one before. *)
Definition entries_decode `{Collaborators} (m : model)
    (eud : option ext_unit_dict) (dt : dtype) (name : string)
    (t : Transient2d) (nper : nat) : Prop :=
  0 <= fst (get_kper_entry t 0) /\
  forall n, (n < nper)%nat ->
    (0 <= fst (get_kper_entry t n) ->
     exists a,
       resolved_array t n = Some a /\
       forall rest,
         Util2d_load (snd (get_kper_entry t n) ++ rest) m (model_shape m)
           dt name eud
         = Ok (a, rest)) /\
    (fst (get_kper_entry t n) < 0 ->
     resolved_array t n = resolved_array t (n - 1)).

(** The array the loaded arguments hold for a quantity at a stress
    period. *)
Definition evt_loaded_array `{Collaborators} (q : evt_quantity)
    (a : Evt.args) (w : world) (k : nat) : option array :=
  match evt_args_timeline q a with
  | Some d =>
      match d !! k with
      | Some r =>
          match deref w r with
          | Some (Util2d x) => Some x
          | _ => None
          end
      | None => None
      end
  | None => None
  end.

(** The control line [write_file] writes for a stress period, without its
    terminator, and the array block of a quantity that follows it. *)
Definition evt_control_line `{Collaborators} (self : Evt.ModflowEvt)
    (n : nat) : string :=
  fmt_d 10 (fst (get_kper_entry (Evt.self_surf self) n))
  ++ fmt_d 10 (fst (get_kper_entry (Evt.self_evtr self) n))
  ++ fmt_d 10 (fst (get_kper_entry (Evt.self_exdp self) n))
  ++ fmt_d 10 (fst (get_kper_entry (Evt.self_ievt self) n))
  ++ " # " ++ "Evapotranspiration  dataset 5 for stress period "
  ++ str (Z.of_nat n + 1).

Definition evt_block `{Collaborators} (q : evt_quantity)
    (self : Evt.ModflowEvt) (n : nat) : string :=
  if evt_read q (Evt.nevtop self)
     && (fst (get_kper_entry (evt_self_timeline q self) n) >=? 0)%Z
  then snd (get_kper_entry (evt_self_timeline q self) n)
  else "".

(** The codes [write_file] writes for a stress period, as [load] decodes
    them under the option code of the package. *)
Definition evt_written_codes `{Collaborators} (self : Evt.ModflowEvt)
    (n : nat) : Evt.codes :=
  {| Evt.insurf := fst (get_kper_entry (Evt.self_surf self) n);
     Evt.inevtr := fst (get_kper_entry (Evt.self_evtr self) n);
     Evt.inexdp := fst (get_kper_entry (Evt.self_exdp self) n);
     Evt.inievt :=
       if (Evt.nevtop self =? 2)%Z
       then Some (fst (get_kper_entry (Evt.self_ievt self) n))
       else None |}.

(** The environment of the loop when the file that [write_file] wrote is
    loaded with the model of the package. *)
Definition evt_written_env `{Collaborators} (self : Evt.ModflowEvt)
    (eud : option ext_unit_dict) : Evt.env :=
  {| Evt.e_model := Evt.parent self;
     Evt.e_nevtop := Evt.nevtop self;
     Evt.e_npar := 0;
     Evt.e_pak_parms := None;
     Evt.e_nrow_ncol := Some (model_shape (Evt.parent self));
     Evt.e_eud := eud |}.

(** One array of a stress period, as the four [load_*] steps read it when
    no parameters are in use. *)
Definition load_quantity `{Collaborators} (e : Evt.env) (q : evt_quantity)
    (iper : nat) (code : Z) (cur : loc) : M loc :=
  if (code >=? 0)%Z then
    bind (when (verbose (Evt.e_model e))
            (print (Evt.loading_msg (evt_name q) iper)))
      (fun _ => Evt.load_array (Evt.e_model e) (Evt.e_nrow_ncol e)
                  (evt_dtype q) (evt_name q) (Evt.e_eud e))
  else ret cur.

(** What holds of the names of the loop on entry to stress period [i] when
    the file of a package is loaded: a quantity that is read has, for every
    stress period before [i], a reference to an array object that holds
    what the timeline of the package resolves to there, and its current
    array is the entry of the period before; a quantity that is not read
    has an empty dictionary. *)
Definition evt_loaded_so_far `{Collaborators} (self : Evt.ModflowEvt)
    (i : nat) (l : Evt.locals) (hp : list obj) : Prop :=
  forall q,
    if evt_read q (Evt.nevtop self) then
      (forall k, (k < i)%nat ->
         exists r x,
           evt_timeline q l !! k = Some r /\
           hp !! r = Some (Util2d x) /\
           resolved_array (evt_self_timeline q self) k = Some x) /\
      ((0 < i)%nat -> evt_timeline q l !! (i - 1)%nat = Some (evt_current q l))
    else evt_timeline q l = ∅.

(* ===================================================================== *)
(** ** Concrete files *)
(* ===================================================================== *)

Module Demo.
Import Constant.

(** A grid of 2 rows and 3 columns, one layer, two stress periods. *)
Definition quiet : model := Model false (2, 3, 1, 2)%nat.

(** A recharge file whose header asks for budget unit 7. *)
Definition rch_unit7 : string :=
  "# RCH" ++ nl ++
  "         3         7" ++ nl ++
  "         1         1 # period 1" ++ nl ++
  "CONSTANT 5" ++ nl ++
  "        -1        -1 # period 2" ++ nl.

(** What the load of [rch_unit7] passes to the constructor. *)
Definition rch_unit7_args : Rch.args :=
  {| Rch.args_nrchop := 3; Rch.args_irchcb := 53;
     Rch.args_rech := [2; 2]%nat; Rch.args_irch := [] |}.

(** An evapotranspiration file whose second control line holds two codes
    only, and the state of the load when it gets there. *)
Definition evt_short_line : string :=
  "# EVT" ++ nl ++
  "         3         0" ++ nl ++
  "        -1        -1        -1 # period 1" ++ nl ++
  "        -1        -1" ++ nl.

Definition evt_env (nevtop : Z) : Evt.env :=
  {| Evt.e_model := quiet; Evt.e_nevtop := nevtop; Evt.e_npar := 0;
     Evt.e_pak_parms := None; Evt.e_nrow_ncol := Some (2, 3)%nat;
     Evt.e_eud := None |}.

Definition evt_after_empty_period : Evt.locals :=
  {| Evt.surf := {[ 0%nat := 0%nat ]}; Evt.evtr := {[ 0%nat := 1%nat ]};
     Evt.exdp := {[ 0%nat := 2%nat ]}; Evt.ievt := ∅;
     Evt.current_surf := 0%nat; Evt.current_evtr := 1%nat;
     Evt.current_exdp := 2%nat; Evt.current_ievt := 3%nat |}.

(** A recharge file under [nrchop == 2] whose second control line holds
    one code only. *)
Definition rch_short_line : string :=
  "# RCH" ++ nl ++
  "         2         0" ++ nl ++
  "        -1        -1 # period 1" ++ nl ++
  "        -1 # period 2" ++ nl.

Definition rch_env (nrchop : Z) : Rch.env :=
  {| Rch.e_model := quiet; Rch.e_nrchop := nrchop;
     Rch.e_nrow_ncol := Some (2, 3)%nat; Rch.e_eud := None |}.

Definition rch_after_empty_period : Rch.locals :=
  {| Rch.rech := [0%nat]; Rch.irch := [1%nat];
     Rch.current_rech := 0%nat; Rch.current_irch := 1%nat |}.

(** An evapotranspiration file that supplies no array at all. *)
Definition evt_all_reuse : string :=
  "# EVT" ++ nl ++
  "         3         0" ++ nl ++
  "        -1        -1        -1        -1 # period 1" ++ nl ++
  "        -1        -1        -1        -1 # period 2" ++ nl.

Definition all_reuse : Evt.codes :=
  {| Evt.insurf := -1; Evt.inevtr := -1; Evt.inexdp := -1;
     Evt.inievt := None |}.

Definition evt_all_reuse_args : Evt.args :=
  {| Evt.args_ievt := None;
     Evt.args_nevtop := Some 3;
     Evt.args_evtr := Some {[ 0%nat := 1%nat; 1%nat := 1%nat ]};
     Evt.args_surf := Some {[ 0%nat := 0%nat; 1%nat := 0%nat ]};
     Evt.args_exdp := Some {[ 0%nat := 2%nat; 1%nat := 2%nat ]};
     Evt.args_ipakcb := 0 |}.

(** An evapotranspiration file that supplies [surf] and [exdp] in the
    first stress period and reuses everything in the second. *)
Definition evt_reuse_second : string :=
  "# EVT" ++ nl ++
  "         3         0" ++ nl ++
  "         1        -1         1 # period 1" ++ nl ++
  "CONSTANT 5" ++ nl ++
  "CONSTANT 6" ++ nl ++
  "        -1        -1        -1 # period 2" ++ nl.

Definition evt_reuse_second_args : Evt.args :=
  {| Evt.args_ievt := None;
     Evt.args_nevtop := Some 3;
     Evt.args_evtr := Some {[ 0%nat := 1%nat; 1%nat := 1%nat ]};
     Evt.args_surf := Some {[ 0%nat := 4%nat; 1%nat := 4%nat ]};
     Evt.args_exdp := Some {[ 0%nat := 5%nat; 1%nat := 5%nat ]};
     Evt.args_ipakcb := 0 |}.


Definition rch_all_reuse_args : Rch.args :=
  {| Rch.args_nrchop := 3; Rch.args_irchcb := 0;
     Rch.args_rech := [0; 0]%nat; Rch.args_irch := [] |}.

Definition rch_reuse : Rch.codes :=
  {| Rch.inrech := -1; Rch.inirch := None |}.

(** The state of a load under [nevtop == 3] that is about to read a control
    line with a fourth, non-negative code, and an array after it. *)
Definition gated_world : world :=
  {| stream := "        -1        -1        -1         1 # period 1" ++ nl ++
               "CONSTANT 5" ++ nl;
     heap := [EmptyList; EmptyList; EmptyList; EmptyList];
     stdout := [] |}.

Definition evt_initial : Evt.locals :=
  {| Evt.surf := ∅; Evt.evtr := ∅; Evt.exdp := ∅; Evt.ievt := ∅;
     Evt.current_surf := 0%nat; Evt.current_evtr := 1%nat;
     Evt.current_exdp := 2%nat; Evt.current_ievt := 3%nat |}.

(** The same for a recharge load under [nrchop == 3]. *)
Definition rch_gated_world : world :=
  {| stream := "        -1         1 # period 1" ++ nl ++
               "CONSTANT 5" ++ nl;
     heap := [EmptyList; EmptyList];
     stdout := [] |}.

Definition rch_initial : Rch.locals :=
  {| Rch.rech := []; Rch.irch := [];
     Rch.current_rech := 0%nat; Rch.current_irch := 1%nat |}.

(** A parameter table with one parameter, [p1], that has the instance
    [static] only, and the state of a load that is about to read a
    parameter-name line asking for the instance [zz] of it. *)
Definition one_parameter : Constant.table :=
  {[ "p1" := (tt, {[ "static" := 5 ]}) ]}.

Definition parm_world : world :=
  {| stream := "P1 zz" ++ nl;
     heap := [EmptyList; EmptyList; EmptyList; EmptyList];
     stdout := [] |}.

Definition evt_parm_env : Evt.env :=
  {| Evt.e_model := quiet; Evt.e_nevtop := 3; Evt.e_npar := 1;
     Evt.e_pak_parms := Some one_parameter;
     Evt.e_nrow_ncol := Some (2, 3)%nat; Evt.e_eud := None |}.

(** A control record that asks for one parameter, and one that asks for
    two. *)
Definition one_parm : Evt.codes :=
  {| Evt.insurf := -1; Evt.inevtr := 1; Evt.inexdp := -1;
     Evt.inievt := None |}.

Definition two_parms : Evt.codes :=
  {| Evt.insurf := -1; Evt.inevtr := 2; Evt.inexdp := -1;
     Evt.inievt := None |}.

(** The state of a load that is about to read two parameter-name lines. *)
Definition two_names_world : world :=
  {| stream := "P1 zz" ++ nl ++ "P1 static" ++ nl;
     heap := [EmptyList; EmptyList; EmptyList; EmptyList];
     stdout := [] |}.

(** An evapotranspiration file with one parameter whose first stress
    period asks for two names and holds one. *)
Definition evt_one_name_short : string :=
  "# EVT" ++ nl ++
  "PARAMETER 1" ++ nl ++
  "         3         0" ++ nl ++
  "p1 static 5" ++ nl ++
  "        -1         2        -1 # period 1" ++ nl ++
  "P1 zz" ++ nl.

(** A package under [nevtop == 2] over [quiet]: every quantity has an
    array in the first stress period, and [surf] a new one in the second. *)
Definition evt_mode2 : Evt.ModflowEvt :=
  {| Evt.parent := quiet;
     Evt.heading := Evt.init_heading "EVT" "mf2005";
     Evt.nevtop := 2;
     Evt.ipakcb := 0;
     Evt.self_surf := {[ 0%nat := 5; 1%nat := 6 ]};
     Evt.self_evtr := {[ 0%nat := 1 ]};
     Evt.self_exdp := {[ 0%nat := 2 ]};
     Evt.self_ievt := {[ 0%nat := 3 ]} |}.

(** A package under [nevtop == 3] whose layer indicator is [a]
    everywhere, and what the load of its file passes to the constructor. *)
Definition evt_layer (a : Z) : Evt.ModflowEvt :=
  {| Evt.parent := quiet;
     Evt.heading := Evt.init_heading "EVT" "mf2005";
     Evt.nevtop := 3;
     Evt.ipakcb := 0;
     Evt.self_surf := {[ 0%nat := 5 ]};
     Evt.self_evtr := {[ 0%nat := 1 ]};
     Evt.self_exdp := {[ 0%nat := 2 ]};
     Evt.self_ievt := {[ 0%nat := a ]} |}.

Definition evt_layer_args : Evt.args :=
  {| Evt.args_ievt := None;
     Evt.args_nevtop := Some 3;
     Evt.args_evtr := Some {[ 0%nat := 5%nat; 1%nat := 5%nat ]};
     Evt.args_surf := Some {[ 0%nat := 4%nat; 1%nat := 4%nat ]};
     Evt.args_exdp := Some {[ 0%nat := 6%nat; 1%nat := 6%nat ]};
     Evt.args_ipakcb := 0 |}.

End Demo.

(* ===================================================================== *)
(** ** Vocabulary of the further properties *)
(* ===================================================================== *)

(** *** The header of a package file *)

(** Comment lines with the bodies [bs], one after the other: each is [#],
    its body and a line terminator. *)
Fixpoint comment_lines (bs : list string) : string :=
  match bs with
  | [] => ""
  | b :: bs' => String "#" b ++ nl ++ comment_lines bs'
  end.

(** A text that does not begin with [#]. *)
Definition not_comment (s : string) : bool :=
  match s with
  | String c _ => negb (Ascii.eqb c "#")
  | "" => true
  end.

(** What a file may end with after its last complete comment line: nothing,
    or a comment that has no line terminator. *)
Definition comment_tail (s : string) : bool :=
  match s with
  | String c b => Ascii.eqb c "#" && no_newline b
  | "" => true
  end.

(** *** What a load hands to the constructor *)

(** The option code a load has read: it is passed on unless it is 0. *)
Definition evt_option_code `{Collaborators} (a : Evt.args) : Z :=
  default 0 (Evt.args_nevtop a).

(** The number of turns of the loop over the stress periods: [nper] when it
    is passed, what the model says when it is not. *)
Definition turns (m : model) (nper : option nat) : nat :=
  from_option id (model_nper m) nper.

(** *** Writing a recharge package and loading it again *)

(** The code [ModflowRch.write_file] writes for a list of arrays at a
    stress period: 1 while the list has an array for it, -1 after. *)
Definition rch_written_code {A} (us : list A) (n : nat) : Z :=
  if (n <? length us)%nat then 1 else -1.

(** The control line of a stress period, without its terminator. *)
Definition rch_control_line `{Collaborators} (self : Rch.ModflowRch)
    (n : nat) : string :=
  fmt_d 10 (rch_written_code (Rch.self_rech self) n)
  ++ fmt_d 10 (rch_written_code (Rch.self_irch self) n)
  ++ " #" ++ "Recharge array for stress period " ++ str (Z.of_nat n + 1).

(** The lists of arrays of a package, and whether the package writes and
    reads them under an option code. *)
Definition rch_self_arrays `{Collaborators} (q : rch_quantity)
    (self : Rch.ModflowRch) : list array :=
  match q with
  | Rech => Rch.self_rech self
  | Irch => Rch.self_irch self
  end.

Definition rch_dtype (q : rch_quantity) : dtype :=
  match q with Rech => float32 | Irch => int_ end.

Definition rch_name (q : rch_quantity) : string :=
  match q with Rech => "rech" | Irch => "irch" end.

Definition rch_read (q : rch_quantity) (nrchop : Z) : bool :=
  match q with Rech => true | Irch => (nrchop =? 2)%Z end.

(** The array block of a quantity in a stress period. *)
Definition rch_block `{Collaborators} (q : rch_quantity)
    (self : Rch.ModflowRch) (n : nat) : string :=
  match rch_self_arrays q self !! n with
  | Some u => if rch_read q (Rch.nrchop self) then get_file_entry u else ""
  | None => ""
  end.

(** The codes of a stress period, as [load] decodes them under the option
    code of the package. *)
Definition rch_written_codes `{Collaborators} (self : Rch.ModflowRch)
    (n : nat) : Rch.codes :=
  {| Rch.inrech := rch_written_code (Rch.self_rech self) n;
     Rch.inirch :=
       if (Rch.nrchop self =? 2)%Z
       then Some (rch_written_code (Rch.self_irch self) n)
       else None |}.

(** What the round trip asks of the array codec: [util_2d.load], under the
    element type and the name the loader uses, decodes the block of every
    array of the list to that array and leaves what follows the block. *)
Definition blocks_decode `{Collaborators} (m : model)
    (eud : option ext_unit_dict) (dt : dtype) (name : string)
    (us : list array) : Prop :=
  forall u rest,
    u ∈ us ->
    Util2d_load (get_file_entry u ++ rest) m (model_shape m) dt name eud
    = Ok (u, rest).

(** The object a list of arrays stands for at a stress period once it is
    written and loaded: its own array while it has one, its last array
    after that, and the empty list of the loader when it has none. *)
Definition rch_expected `{Collaborators} (us : list array) (k : nat) : obj :=
  match us !! k with
  | Some u => Util2d u
  | None =>
      match last us with
      | Some u => Util2d u
      | None => EmptyList
      end
  end.

(** The current array on entry to stress period [i]. *)
Definition rch_expected_current `{Collaborators} (us : list array) (i : nat)
    : obj :=
  match i with
  | O => EmptyList
  | S j => rch_expected us j
  end.

(** The environment of the loop when the file that [write_file] wrote is
    loaded with the model of the package. *)
Definition rch_written_env `{Collaborators} (self : Rch.ModflowRch)
    (eud : option ext_unit_dict) : Rch.env :=
  {| Rch.e_model := Rch.parent self;
     Rch.e_nrchop := Rch.nrchop self;
     Rch.e_nrow_ncol := Some (model_shape (Rch.parent self));
     Rch.e_eud := eud |}.

(** What holds of the names of the loop on entry to stress period [i]: a
    list that is read has one reference for every stress period before [i],
    each to the object the package stands for there, and its current array
    is the object of the period before; a list that is not read is
    empty. *)
Definition rch_loaded_so_far `{Collaborators} (self : Rch.ModflowRch)
    (i : nat) (l : Rch.locals) (hp : list obj) : Prop :=
  forall q,
    if rch_read q (Rch.nrchop self) then
      length (rch_timeline q l) = i /\
      (forall k, (k < i)%nat ->
         exists r,
           rch_timeline q l !! k = Some r /\
           hp !! r = Some (rch_expected (rch_self_arrays q self) k)) /\
      hp !! rch_current q l
      = Some (rch_expected_current (rch_self_arrays q self) i)
    else rch_timeline q l = [].

(** One array of a stress period, as [load_rech] and [load_irch] read
    it. *)
Definition rch_load_quantity `{Collaborators} (e : Rch.env)
    (q : rch_quantity) (iper : nat) (code : Z) (cur : loc) : M loc :=
  if (code >=? 0)%Z then
    bind (print (Rch.loading_msg (rch_name q) iper))
      (fun _ => Rch.load_array (Rch.e_model e) (Rch.e_nrow_ncol e)
                  (rch_dtype q) (rch_name q) (Rch.e_eud e))
  else ret cur.


(** *** Packages that differ in one attribute *)

(** A package with another layer indicator. *)
Definition evt_with_ievt `{Collaborators} (t : Transient2d)
    (self : Evt.ModflowEvt) : Evt.ModflowEvt :=
  {| Evt.parent := Evt.parent self;
     Evt.heading := Evt.heading self;
     Evt.nevtop := Evt.nevtop self;
     Evt.ipakcb := Evt.ipakcb self;
     Evt.self_surf := Evt.self_surf self;
     Evt.self_evtr := Evt.self_evtr self;
     Evt.self_exdp := Evt.self_exdp self;
     Evt.self_ievt := t |}.

Definition rch_with_irch `{Collaborators} (us : list array)
    (self : Rch.ModflowRch) : Rch.ModflowRch :=
  {| Rch.parent := Rch.parent self;
     Rch.heading := Rch.heading self;
     Rch.nrchop := Rch.nrchop self;
     Rch.irchcb := Rch.irchcb self;
     Rch.self_rech := Rch.self_rech self;
     Rch.self_irch := us |}.

(** *** What is printed *)

(** A computation that prints nothing. *)
Definition silent `{Collaborators} {A} (c : M A) : Prop :=
  forall w, stdout (snd (c w)) = stdout w.

(** A computation that, when it returns, has printed one line for every
    object it has made. *)
Definition line_per_object `{Collaborators} {A} (c : M A) : Prop :=
  forall w a w',
    c w = (Ok a, w') ->
    exists k,
      length (stdout w') = (length (stdout w) + k)%nat /\
      length (heap w') = (length (heap w) + k)%nat.

(** A computation that leaves the heap and what was printed as they are:
    all it may do is read from the file. *)
Definition reads_only `{Collaborators} {A} (c : M A) : Prop :=
  forall w, heap (snd (c w)) = heap w /\ stdout (snd (c w)) = stdout w.

(** *** The multi-node well package *)

(** An entry whose file name has the extension [e]: the second of the
    pieces that the dots of the name separate. *)
Definition is_kind (e : string) (each : Mnw1.aux_file) : bool :=
  match Mnw1.extension each with
  | Ok e' => String.eqb e' e
  | Raise _ => false
  end.

(** An entry the constructor accepts. *)
Definition valid_aux (each : Mnw1.aux_file) : bool :=
  is_kind "wl1" each || is_kind "ByNode" each || is_kind "Qsum" each.

(** Modelled from the spec: concrete stand-ins for what [mfmnw1.py] takes
    from outside, used to run the definitions.  [Qdes] is a whole number,
    printed with six decimals and padded to ten characters as ['%10f']
    does; [itmp] is a scalar that is assigned to every stress period. *)
Module Whole.

#[global] Instance outside : Mnw1Outside := {|
  qdes := Z;
  fmt_10f := fun q => rjust 10 (str q ++ ".000000");
  itmp_arg := Z;
  assignarray_old := fun dest src => Ok (map (fun _ => src) dest)
|}.

End Whole.

(** *** Sample packages *)

Module Samples.
Import Constant.

(** A recharge package over [Demo.quiet] with one array of each kind and
    budget unit 7. *)
Definition rch_once : Rch.ModflowRch :=
  {| Rch.parent := Demo.quiet;
     Rch.heading := "# RCH for MODFLOW, generated by Flopy.";
     Rch.nrchop := 3;
     Rch.irchcb := 7;
     Rch.self_rech := [5];
     Rch.self_irch := [1] |}.

(** An evapotranspiration package over [Demo.quiet] with option code 0. *)
Definition evt_mode0 : Evt.ModflowEvt :=
  {| Evt.parent := Demo.quiet;
     Evt.heading := Evt.init_heading "EVT" "mf2005";
     Evt.nevtop := 0;
     Evt.ipakcb := 0;
     Evt.self_surf := {[ 0%nat := 5 ]};
     Evt.self_evtr := {[ 0%nat := 1 ]};
     Evt.self_exdp := {[ 0%nat := 2 ]};
     Evt.self_ievt := {[ 0%nat := 3 ]} |}.

(** The state of a load that is about to read two name lines whose names
    agree in their first ten characters, up to case. *)
Definition long_names_world : world :=
  {| stream := "rechargezone1 dry" ++ nl ++ "RechargeZone2 wet" ++ nl;
     heap := [EmptyList; EmptyList; EmptyList; EmptyList];
     stdout := [] |}.

(** A recharge file for [Demo.quiet], which has two stress periods, that
    ends after the first. *)
Definition rch_one_period : string :=
  "# RCH" ++ nl ++
  "         3         7" ++ nl ++
  "         1         1 # period 1" ++ nl ++
  "CONSTANT 5" ++ nl.

(** The package the recharge constructor builds from what the load of
    [Demo.rch_unit7] returns, when every array object it makes holds 5. *)
Definition rch_reloaded : Rch.ModflowRch :=
  {| Rch.parent := Demo.quiet;
     Rch.heading := "# RCH for MODFLOW, generated by Flopy.";
     Rch.nrchop := 3;
     Rch.irchcb := 53;
     Rch.self_rech := [5; 5];
     Rch.self_irch := [] |}.

(** Two auxiliary output files and a well of two nodes. *)
Definition aux_files : list Mnw1.aux_file :=
  [ Mnw1.Aux "out.Qsum" 93 ["ALLTIME"];
    Mnw1.Aux "out.wl1" 91 [];
    Mnw1.Aux "out.ByNode" 92 [] ].

Definition two_nodes : list Mnw1.node :=
  [ Mnw1.Node 1 2 3 (-5) "MN"; Mnw1.Node 2 2 3 0 "MULTI" ].

End Samples.

(* ===================================================================== *)
(** ** Vocabulary of the loaded objects *)
(* ===================================================================== *)

(** *** What the constructors build *)

(** The timeline that [Transient2d] builds for a keyword: the slots of the
    dictionary that is passed, or the default of the keyword. *)
Definition built (literal : string) (d : option (gmap nat loc))
    : EvtObject.timeline :=
  match d with
  | Some d => EvtObject.Slots d
  | None => EvtObject.Uniform literal
  end.

(** Every object of a dictionary that is passed is an array object. *)
Definition keyword_supplied `{Collaborators} (w : world)
    (d : option (gmap nat loc)) : bool :=
  match d with
  | Some d => EvtObject.all_supplied w d
  | None => true
  end.

(** The object that the constructor builds from the arguments of a load,
    when it builds one. *)
Definition evt_built (m : model) (nevtop : option Z) (ipakcb : Z)
    (surf evtr exdp ievt : option (gmap nat loc)) : EvtObject.ModflowEvt :=
  {| EvtObject.parent := m;
     EvtObject.nevtop := default 3 nevtop;
     EvtObject.ipakcb := ipakcb;
     EvtObject.surf := built "0." surf;
     EvtObject.evtr := built "1e-3" evtr;
     EvtObject.exdp := built "1." exdp;
     EvtObject.ievt := built "1" ievt |}.

(** The timeline of a quantity in a loaded object, and the list of a
    quantity in a loaded recharge object. *)
Definition evt_object_timeline (q : evt_quantity) (o : EvtObject.ModflowEvt)
    : EvtObject.timeline :=
  match q with
  | Surf => EvtObject.surf o
  | Evtr => EvtObject.evtr o
  | Exdp => EvtObject.exdp o
  | Ievt => EvtObject.ievt o
  end.


(** *** Parameter-name lines *)

(** Each of the first [n] lines of a stream holds a token. *)
Fixpoint names_present (n : nat) (s : string) : bool :=
  match n with
  | O => true
  | S n' =>
      match split (strip (fst (readline s))) with
      | [] => false
      | _ :: _ => names_present n' (snd (readline s))
      end
  end.

(** The state of a stress period once its control line is read. *)
Definition after_control_line `{Collaborators} (w : world) : world :=
  {| stream := snd (readline (stream w)); heap := heap w;
     stdout := stdout w |}.

(** *** Packages over the collaborators of the specification *)

Definition dtype_eqb (a b : dtype) : bool :=
  match a, b with
  | float32, float32 | int_, int_ => true
  | _, _ => false
  end.

(** An element of the type [dt]. *)
Definition typed (dt : dtype) (x : Core.number) : bool :=
  dtype_eqb (Core.number_dtype x) dt.

(** An element of the type [dt] whose text leaves a space in a field of
    ten characters. *)
Definition fits (dt : dtype) (x : Core.number) : bool :=
  typed dt x && (String.length (Core.text x) <? 10)%nat.

(** Rows of [ncol] elements that fit. *)
Definition rows_ok (ncol : nat) (dt : dtype) (c : Core.grid) : bool :=
  forallb (fun row => (length row =? ncol)%nat && forallb (fits dt) row) c.

(** A grid of the shape [shape] whose elements fit. *)
Definition grid_ok (shape : nat * nat) (dt : dtype) (c : Core.grid) : bool :=
  (length c =? fst shape)%nat && rows_ok (snd shape) dt c.

(** The file that is registered under the unit [u] holds the grid [c]. *)
Definition registered (eud : option Core.registry) (u : Z) (c : Core.grid)
    : bool :=
  match eud ≫= (fun reg => reg !! u) with
  | Some file => String.eqb file (Core.raw_text c)
  | None => false
  end.

(** An array that [write_file] and [load] can carry: of the shape of the
    model and the element type of its quantity; written in full, it has at
    least one element and every element fits its field; written as a
    reference, its file is registered. *)
Definition array_ok (shape : nat * nat) (dt : dtype)
    (eud : option Core.registry) (a : Core.grid_array) : bool :=
  match a with
  | Core.Raw c =>
      grid_ok shape dt c && (0 <? fst shape)%nat && (0 <? snd shape)%nat
  | Core.Filled v s =>
      typed dt v && (fst s =? fst shape)%nat && (snd s =? snd shape)%nat
  | Core.External u c => grid_ok shape dt c && registered eud u c
  end.

(** The timeline of a quantity of a package over these collaborators. *)
Definition core_timeline (q : evt_quantity)
    (self : Evt.ModflowEvt (H := Core.collaborators)) : Core.timeline :=
  evt_self_timeline (H := Core.collaborators) q self.

(** Every quantity that the option code has read is Set at step 0. *)
Definition evt_set_at_first
    (self : Evt.ModflowEvt (H := Core.collaborators)) : Prop :=
  forall q,
    evt_read q (Evt.nevtop self) = true ->
    is_Some (core_timeline q self !! 0%nat).

(** Every array of such a quantity can be carried. *)
Definition evt_arrays_ok (self : Evt.ModflowEvt (H := Core.collaborators))
    (eud : option Core.registry) : Prop :=
  forall q k a,
    evt_read q (Evt.nevtop self) = true ->
    (k < model_nper (Evt.parent self))%nat ->
    core_timeline q self !! k = Some a ->
    array_ok (model_shape (Evt.parent self)) (evt_dtype q) eud a = true.

(** Every quantity is Set at step 0. *)
Definition all_set_at_first
    (self : Evt.ModflowEvt (H := Core.collaborators)) : bool :=
  forallb (fun q => match core_timeline q self !! 0%nat with
                    | Some _ => true
                    | None => false
                    end)
          [Surf; Evtr; Exdp; Ievt].

(** A heading of one line that begins with [#], as the heading that
    [__init__] sets is. *)
Definition comment_line (h : string) : bool :=
  match h with
  | String "#" _ => no_newline h
  | _ => false
  end.

(** The characters of the text of an element. *)
Definition digit (c : ascii) : bool :=
  match c with
  | "0" | "1" | "2" | "3" | "4" | "5" | "6" | "7" | "8" | "9" => true
  | _ => false
  end%char.

Fixpoint digits (s : string) : bool :=
  match s with
  | "" => true
  | String c s' => digit c && digits s'
  end.

Definition number_char (c : ascii) : bool :=
  sign_or_digit c || Ascii.eqb c ".".

Fixpoint number_chars (s : string) : bool :=
  match s with
  | "" => true
  | String c s' => number_char c && number_chars s'
  end.

(* ===================================================================== *)
(** ** Further concrete files and packages *)
(* ===================================================================== *)

Module Files.
Import Constant.




(** An evapotranspiration file with the parameters [p1] and [-1].  Its
    second stress period declares two parameter names and holds one name
    line; the line after it is the control line of a third stress period. *)
Definition evt_names_run_on : string :=
  "# EVT" ++ nl ++
  "PARAMETER 2" ++ nl ++
  "         3         0" ++ nl ++
  "p1 static 5" ++ nl ++
  "-1 static 7" ++ nl ++
  "         1         1         1 # period 1" ++ nl ++
  "CONSTANT 3" ++ nl ++
  "P1 static" ++ nl ++
  "CONSTANT 4" ++ nl ++
  "        -1         2        -1 # period 2" ++ nl ++
  "P1 zz" ++ nl ++
  "        -1        -1        -1 # period 3" ++ nl.

(** The object its load over [Demo.quiet], which has two stress periods,
    returns. *)
Definition evt_names_run_on_object : EvtObject.ModflowEvt :=
  evt_built Demo.quiet (Some 3) 0
    (Some {[ 0%nat := 4%nat; 1%nat := 4%nat ]})
    (Some {[ 0%nat := 5%nat; 1%nat := 7%nat ]})
    (Some {[ 0%nat := 6%nat; 1%nat := 6%nat ]})
    None.

(** The two lines the second stress period reads as names. *)
Definition run_on_names : string :=
  "P1 zz" ++ nl ++
  "        -1        -1        -1 # period 3" ++ nl.

(** The state of a load that is about to read a name line, a blank line
    and another name line. *)
Definition blank_name_world : world :=
  {| stream := "P1 zz" ++ nl ++ "   " ++ nl ++ "P1 static" ++ nl;
     heap := [EmptyList; EmptyList; EmptyList; EmptyList];
     stdout := [] |}.

(** A control record that supplies [surf] and asks for two parameters. *)
Definition surf_and_two_parms : Evt.codes :=
  {| Evt.insurf := 1; Evt.inevtr := 2; Evt.inexdp := -1;
     Evt.inievt := None |}.

(** An evapotranspiration file with one parameter whose first stress
    period supplies [surf], asks for two names and holds one. *)
Definition evt_surf_one_name : string :=
  "# EVT" ++ nl ++
  "PARAMETER 1" ++ nl ++
  "         3         0" ++ nl ++
  "p1 static 5" ++ nl ++
  "         1         2        -1 # period 1" ++ nl ++
  "CONSTANT 3" ++ nl ++
  "P1 zz" ++ nl.

End Files.

(** Packages over the collaborators of the specification, on the grid of
    2 rows and 3 columns and the two stress periods of [Demo.quiet]. *)
Module Packages.
Import Core.
#[local] Existing Instance Core.collaborators.

Definition reals : grid :=
  [ [Real 15 1; Real (-125) 2; Real 0 0];
    [Real 5 1; Real 7 0; Real 100 2] ].

Definition layers : grid :=
  [ [Int 1; Int 1; Int 2];
    [Int 2; Int 3; Int 3] ].

(** The unit registry: unit 30 holds [reals]. *)
Definition units : registry := {[ 30 := raw_text reals ]}.

(** A package under [nevtop == 2]: [surf] is written in full and replaced
    by a constant in the second stress period, [evtr] is a reference to
    unit 30, [exdp] a constant, and [ievt] an integer grid written in
    full. *)
Definition evt_mixed : Evt.ModflowEvt (H := collaborators) :=
  {| Evt.parent := Demo.quiet;
     Evt.heading := Evt.init_heading "EVT" "mf2005";
     Evt.nevtop := 2;
     Evt.ipakcb := 0;
     Evt.self_surf := ({[ 0%nat := Raw reals;
                          1%nat := Filled (Real 25 1) (2, 3)%nat ]}
                       : timeline);
     Evt.self_evtr := ({[ 0%nat := External 30 reals ]} : timeline);
     Evt.self_exdp := ({[ 0%nat := Filled (Real 1 0) (2, 3)%nat ]}
                       : timeline);
     Evt.self_ievt := ({[ 0%nat := Raw layers ]} : timeline) |}.

(** A package under [nevtop == 3] with the heading, the budget unit and the
    timelines of [surf] and [ievt] that are passed. *)
Definition evt_with (heading : string) (ipakcb : Z) (surf ievt : timeline)
    : Evt.ModflowEvt (H := collaborators) :=
  {| Evt.parent := Demo.quiet;
     Evt.heading := heading;
     Evt.nevtop := 3;
     Evt.ipakcb := ipakcb;
     Evt.self_surf := surf;
     Evt.self_evtr := ({[ 0%nat := Filled (Real 1 3) (2, 3)%nat ]}
                       : timeline);
     Evt.self_exdp := ({[ 0%nat := Filled (Real 1 0) (2, 3)%nat ]}
                       : timeline);
     Evt.self_ievt := ievt |}.

Definition good_heading : string := Evt.init_heading "EVT" "mf2005".

Definition good_surf : timeline :=
  {[ 0%nat := Filled (Real 5 0) (2, 3)%nat ]}.

(** The layer indicator [a] everywhere. *)
Definition layer (a : Z) : timeline :=
  {[ 0%nat := Filled (Int a) (2, 3)%nat ]}.

(** A package whose layer indicator is [a] everywhere. *)
Definition evt_layer (a : Z) : Evt.ModflowEvt (H := collaborators) :=
  evt_with good_heading 0 good_surf (layer a).

(** The object the load of the file of [evt_layer a] returns. *)
Definition evt_layer_object : EvtObject.ModflowEvt :=
  evt_built Demo.quiet (Some 3) 0
    (Some {[ 0%nat := 4%nat; 1%nat := 4%nat ]})
    (Some {[ 0%nat := 5%nat; 1%nat := 5%nat ]})
    (Some {[ 0%nat := 6%nat; 1%nat := 6%nat ]})
    None.

(** A grid with an element whose text fills its field. *)
Definition wide : grid :=
  [ [Real 15 1; Real 1234567890 1; Real 0 0];
    [Real 5 1; Real 7 0; Real 100 2] ].

(** Packages that differ from [evt_layer 1] in one respect: a heading that
    is no comment; a budget unit of ten digits; a grid with an element that
    fills its field; a reference to unit 30; an integer where [surf] has
    floating-point numbers; an array of one element. *)
Definition evt_no_comment : Evt.ModflowEvt (H := collaborators) :=
  evt_with "EVT" 0 good_surf (layer 1).

Definition evt_wide_unit : Evt.ModflowEvt (H := collaborators) :=
  evt_with good_heading 1234567890 good_surf (layer 1).

Definition evt_wide : Evt.ModflowEvt (H := collaborators) :=
  evt_with good_heading 0 {[ 0%nat := Raw wide ]} (layer 1).

Definition evt_external : Evt.ModflowEvt (H := collaborators) :=
  evt_with good_heading 0 {[ 0%nat := External 30 reals ]} (layer 1).

Definition evt_int_surf : Evt.ModflowEvt (H := collaborators) :=
  evt_with good_heading 0 {[ 0%nat := Filled (Int 5) (2, 3)%nat ]} (layer 1).

Definition evt_one_cell : Evt.ModflowEvt (H := collaborators) :=
  evt_with good_heading 0 {[ 0%nat := Filled (Real 5 0) (1, 1)%nat ]}
    (layer 1).

(** A grid of 2 rows without columns, one stress period, and a package on
    it whose [surf] is written in full. *)
Definition narrow : model := Model false (2, 0, 1, 1)%nat.

Definition evt_empty_rows : Evt.ModflowEvt (H := collaborators) :=
  {| Evt.parent := narrow;
     Evt.heading := good_heading;
     Evt.nevtop := 3;
     Evt.ipakcb := 0;
     Evt.self_surf := ({[ 0%nat := Raw [[]; []] ]} : timeline);
     Evt.self_evtr := ({[ 0%nat := Filled (Real 1 3) (2, 0)%nat ]}
                       : timeline);
     Evt.self_exdp := ({[ 0%nat := Filled (Real 1 0) (2, 0)%nat ]}
                       : timeline);
     Evt.self_ievt := ({[ 0%nat := Filled (Int 1) (2, 0)%nat ]}
                       : timeline) |}.

(** The object its load returns. *)
Definition evt_empty_rows_object : EvtObject.ModflowEvt :=
  evt_built narrow (Some 3) 0
    (Some {[ 0%nat := 4%nat ]})
    (Some {[ 0%nat := 5%nat ]})
    (Some {[ 0%nat := 6%nat ]})
    None.

(** A parameter table with the parameter [p1]: base value 5, and 7.5 for
    the instance [jan]. *)
Definition one_parameter : table :=
  {[ "p1" := Entry (Real 5 0) {[ "jan" := Real 75 1 ]} ]}.

Definition parm_world : world (H := collaborators) :=
  {| stream := "P1 zz" ++ nl;
     heap := [EmptyList; EmptyList; EmptyList; EmptyList];
     stdout := [] |}.

Definition evt_parm_env : Evt.env (H := collaborators) :=
  {| Evt.e_model := Demo.quiet; Evt.e_nevtop := 3; Evt.e_npar := 1;
     Evt.e_pak_parms := Some one_parameter;
     Evt.e_nrow_ncol := Some (2, 3)%nat; Evt.e_eud := None |}.

End Packages.

(* ===================================================================== *)
(** ** Facts about the Python primitives *)
(* ===================================================================== *)

#[local] Arguments String.append !_ _ / : simpl nomatch.

Section PyFacts.

Lemma app_assoc_s (a b c : string) : (a ++ b) ++ c = a ++ (b ++ c).
Proof. induction a as [|x a IH]; simpl; [reflexivity | by rewrite IH]. Qed.

Lemma app_empty_r (a : string) : a ++ "" = a.
Proof. induction a as [|x a IH]; simpl; [reflexivity | by rewrite IH]. Qed.

Lemma length_app_s (a b : string) :
  String.length (a ++ b) = (String.length a + String.length b)%nat.
Proof. induction a as [|x a IH]; simpl; [reflexivity | by rewrite IH]. Qed.

(** *** [split] *)

Lemma split_space c s : isspace c = true -> split (String c s) = split s.
Proof. intros Hc. simpl. by rewrite Hc. Qed.

Lemma split_blank b s : blank b = true -> split (b ++ s) = split s.
Proof.
  induction b as [|c b IH]; simpl; [done |].
  intros [Hc Hb]%andb_prop. rewrite Hc. auto.
Qed.

Lemma blank_spaces n : blank (spaces n) = true.
Proof. induction n; simpl; auto. Qed.

Lemma split_blank_nil b : blank b = true -> split b = [].
Proof.
  intros Hb. rewrite <- (app_empty_r b). by rewrite split_blank.
Qed.

(** A token that is followed by whitespace, or by nothing, is the first
    element of the result. *)
Lemma split_word w s :
  word w = true ->
  (s = "" \/ exists c s', s = String c s' /\ isspace c = true) ->
  split (w ++ s) = w :: split s.
Proof.
  induction w as [|c w IH]; [done |].
  intros Hw Hs. simpl in Hw. apply andb_prop in Hw as [Hc Hw].
  apply negb_true_iff in Hc.
  destruct w as [|c2 w].
  - change (String c "" ++ s) with (String c s). simpl. rewrite Hc.
    destruct Hs as [-> | (c' & s' & -> & Hc')]; [done |].
    by rewrite Hc'.
  - assert (Hw2 : word (String c2 w) = true) by exact Hw.
    specialize (IH Hw2 Hs).
    change (String c (String c2 w) ++ s)
      with (String c (String c2 w ++ s)).
    change (split (String c (String c2 w ++ s))) with
      (if isspace c then split (String c2 w ++ s)
       else match String c2 w ++ s with
            | "" => [String c ""]
            | String c' _ =>
                if isspace c' then String c "" :: split (String c2 w ++ s)
                else match split (String c2 w ++ s) with
                     | w' :: ws => String c w' :: ws
                     | [] => [String c ""]
                     end
            end).
    rewrite Hc, IH. simpl in Hw. apply andb_prop in Hw as [Hc2 _].
    apply negb_true_iff in Hc2. simpl. by rewrite Hc2.
Qed.

(** *** [strip] *)

Lemma split_lstrip s : split (lstrip s) = split s.
Proof.
  induction s as [|c s IH]; [done |].
  simpl lstrip. destruct (isspace c) eqn:Hc; [|done].
  by rewrite split_space.
Qed.

Lemma rstrip_empty_blank s : rstrip s = "" -> blank s = true.
Proof.
  induction s as [|c s IH]; [done |]. simpl.
  destruct (rstrip s) eqn:Hr; [|done].
  destruct (isspace c); [auto | done].
Qed.

Lemma rstrip_head s a r : rstrip s = String a r -> exists s', s = String a s'.
Proof.
  destruct s as [|c s]; [done |]. simpl.
  destruct (rstrip s); [destruct (isspace c) |]; intros [= <- _]; eauto.
Qed.

Lemma split_rstrip s : split (rstrip s) = split s.
Proof.
  induction s as [|c s IH]; [done |].
  simpl rstrip. destruct (rstrip s) as [|a r] eqn:Hr.
  - apply rstrip_empty_blank in Hr as Hb.
    destruct (isspace c) eqn:Hc.
    + rewrite split_space by done. by rewrite split_blank_nil.
    + simpl. rewrite Hc. destruct s as [|c' s]; [done |].
      simpl in Hb. apply andb_prop in Hb as [Hc' Hb]. rewrite Hc'.
      f_equal. rewrite split_space by done. by rewrite split_blank_nil.
  - destruct (rstrip_head _ _ _ Hr) as [s' ->].
    change (split (String c (String a r))) with
      (if isspace c then split (String a r)
       else if isspace a then String c "" :: split (String a r)
            else match split (String a r) with
                 | w' :: ws => String c w' :: ws
                 | [] => [String c ""]
                 end).
    change (split (String c (String a s'))) with
      (if isspace c then split (String a s')
       else if isspace a then String c "" :: split (String a s')
            else match split (String a s') with
                 | w' :: ws => String c w' :: ws
                 | [] => [String c ""]
                 end).
    by rewrite IH.
Qed.

Lemma split_strip s : split (strip s) = split s.
Proof. unfold strip. by rewrite split_rstrip, split_lstrip. Qed.

(** *** [readline] *)

Lemma readline_line l rest :
  no_newline l = true -> readline (l ++ nl ++ rest) = (l ++ nl, rest).
Proof.
  induction l as [|c l IH]; intros Hl; [reflexivity |].
  simpl in Hl. apply andb_prop in Hl as [Hc Hl].
  apply negb_true_iff in Hc.
  change (String c l ++ nl ++ rest) with (String c (l ++ nl ++ rest)).
  cbn [readline]. by rewrite Hc, (IH Hl).
Qed.

Lemma readline_length s :
  (String.length (snd (readline s)) <= String.length s)%nat.
Proof.
  induction s as [|c s IH]; simpl; [done |].
  destruct (Ascii.eqb c newline); simpl; [lia |].
  destruct (readline s); simpl in *; lia.
Qed.

Lemma readline_shorter s c l :
  fst (readline s) = String c l ->
  (String.length (snd (readline s)) < String.length s)%nat.
Proof.
  destruct s as [|c' s]; simpl; [done |]. intros _.
  destruct (Ascii.eqb c' newline); simpl; [lia |].
  pose proof (readline_length s). destruct (readline s); simpl in *; lia.
Qed.

Lemma readline_empty s : fst (readline s) = "" -> s = "".
Proof.
  destruct s as [|c s]; simpl; [done |].
  destruct (Ascii.eqb c newline); [done |]. by destruct (readline s).
Qed.

(** *** Printed integers *)

Lemma numeral_uint d : numeral (NilEmpty.string_of_uint d) = true.
Proof. induction d; simpl; auto. Qed.

Lemma numeral_str z : numeral (str z) = true.
Proof.
  unfold str. destruct z as [|p|p]; simpl; [done | |].
  - pose proof (numeral_uint (Pos.to_uint p)).
    by destruct (Pos.to_uint p).
  - pose proof (numeral_uint (Pos.to_uint p)).
    by destruct (Pos.to_uint p).
Qed.

Lemma str_nonempty z : str z <> "".
Proof.
  unfold str. destruct z as [|p|p]; simpl; [done | | done].
  pose proof (DecimalPos.Unsigned.to_uint_nonnil p).
  by destruct (Pos.to_uint p).
Qed.

Lemma sign_or_digit_no_space c : sign_or_digit c = true -> isspace c = false.
Proof.
  destruct c as [[] [] [] [] [] [] [] []]; simpl; congruence.
Qed.

Lemma sign_or_digit_no_newline c :
  sign_or_digit c = true -> Ascii.eqb c newline = false.
Proof.
  destruct c as [[] [] [] [] [] [] [] []]; simpl; congruence.
Qed.

Lemma numeral_no_space s : numeral s = true -> no_space s = true.
Proof.
  induction s as [|c s IH]; simpl; [done |].
  intros [Hc Hs]%andb_prop. by rewrite (sign_or_digit_no_space c), IH.
Qed.

Lemma numeral_no_newline s : numeral s = true -> no_newline s = true.
Proof.
  induction s as [|c s IH]; simpl; [done |].
  intros [Hc Hs]%andb_prop. by rewrite (sign_or_digit_no_newline c), IH.
Qed.

Lemma word_str z : word (str z) = true.
Proof.
  pose proof (str_nonempty z). pose proof (numeral_str z) as Hn.
  apply numeral_no_space in Hn. unfold word. by destruct (str z).
Qed.

Lemma int_of_uint d :
  d <> Decimal.Nil -> int (NilZero.string_of_uint d) = Ok (Z.of_uint d).
Proof.
  intros Hd. pose proof (NilZero.usu d Hd) as Hu.
  destruct d; [done | ..]; unfold int, int_digits;
    simpl NilZero.string_of_uint in *; cbv iota beta; by rewrite Hu.
Qed.

(** [int(str(z)) == z] *)
Lemma int_str z : int (str z) = Ok z.
Proof.
  unfold str. destruct z as [|p|p]; [reflexivity | |].
  - simpl. rewrite int_of_uint by apply DecimalPos.Unsigned.to_uint_nonnil.
    unfold Z.of_uint. by rewrite DecimalPos.Unsigned.of_to.
  - simpl. unfold int.
    pose proof (int_of_uint (Pos.to_uint p)
                  (DecimalPos.Unsigned.to_uint_nonnil p)) as Hi.
    assert (Hd : int_digits (NilZero.string_of_uint (Pos.to_uint p))
                 = Ok (Z.of_uint (Pos.to_uint p))).
    { unfold int_digits.
      by rewrite NilZero.usu by apply DecimalPos.Unsigned.to_uint_nonnil. }
    rewrite Hd. simpl. unfold Z.of_uint.
    by rewrite DecimalPos.Unsigned.of_to.
Qed.

(** *** Fixed-width fields *)

Lemma starts_blank_spaces n s : starts_blank (spaces (S n) ++ s).
Proof. right. exists " "%char, (spaces n ++ s). by split. Qed.

Lemma starts_blank_fmt w z s :
  (String.length (str z) < w)%nat -> starts_blank (fmt_d w z ++ s).
Proof.
  intros Hw. unfold fmt_d, rjust.
  destruct (w - String.length (str z))%nat as [|n] eqn:Hn; [lia |].
  rewrite app_assoc_s. apply starts_blank_spaces.
Qed.

Lemma split_field w z s :
  starts_blank s -> split (fmt_d w z ++ s) = str z :: split s.
Proof.
  intros Hs. unfold fmt_d, rjust. rewrite app_assoc_s.
  rewrite split_blank by apply blank_spaces.
  apply split_word; [apply word_str | exact Hs].
Qed.

End PyFacts.

(* ===================================================================== *)
(** ** Running a computation *)
(* ===================================================================== *)

Section Run.
Context `{Collaborators}.

Lemma mbind_M {A B} (c : M A) (k : A -> M B) : c ≫= k = bind c k.
Proof. reflexivity. Qed.

Lemma mbind_result {A B} (r : result A) (k : A -> result B) :
  r ≫= k = rbind r k.
Proof. reflexivity. Qed.

Lemma run_bind {A B} (c : M A) (k : A -> M B) w :
  bind c k w =
  match c w with
  | (Ok a, w') => k a w'
  | (Raise e, w') => (Raise e, w')
  end.
Proof. reflexivity. Qed.

Lemma run_bind_ok {A B} (c : M A) (k : A -> M B) w a w' :
  c w = (Ok a, w') -> bind c k w = k a w'.
Proof. intros Hc. by rewrite run_bind, Hc. Qed.

Lemma run_bind_raise {A B} (c : M A) (k : A -> M B) w e w' :
  c w = (Raise e, w') -> bind c k w = (Raise e, w').
Proof. intros Hc. by rewrite run_bind, Hc. Qed.

Lemma bind_ok_inv {A B} (c : M A) (k : A -> M B) w b w2 :
  bind c k w = (Ok b, w2) ->
  exists a w1, c w = (Ok a, w1) /\ k a w1 = (Ok b, w2).
Proof.
  rewrite run_bind. destruct (c w) as [[a|e] w1]; [eauto | done].
Qed.

Lemma lift_ok_inv {A} (r : result A) w a w' :
  lift r w = (Ok a, w') -> r = Ok a /\ w' = w.
Proof. unfold lift. by intros [= -> ->]. Qed.

Lemma ret_ok_inv {A} (x : A) w a w' :
  ret x w = (Ok a, w') -> a = x /\ w' = w.
Proof. unfold ret. by intros [= -> ->]. Qed.

Lemma rbind_ok_inv {A B} (r : result A) (k : A -> result B) b :
  rbind r k = Ok b -> exists a, r = Ok a /\ k a = Ok b.
Proof. destruct r as [a|e]; [eauto | done]. Qed.

(** A run is known by its result: the world is what the run leaves. *)
Lemma run_eq {A} (x : result A * world) (r : result A) :
  fst x = r -> x = (r, snd x).
Proof. intros <-. by destruct x. Qed.

(** *** Loops *)

Lemma for_range_app {L} (body : nat -> L -> M L) n1 n2 i l w :
  for_range body (n1 + n2) i l w
  = bind (for_range body n1 i l) (for_range body n2 (i + n1)) w.
Proof.
  revert i l w. induction n1 as [|n1 IH]; intros i l w.
  - simpl. by rewrite Nat.add_0_r.
  - simpl. rewrite !run_bind. destruct (body i l w) as [[l'|e] w']; [|done].
    rewrite IH, run_bind. by replace (S i + n1)%nat with (i + S n1)%nat by lia.
Qed.

Lemma for_range_S_r {L} (body : nat -> L -> M L) n i l w :
  for_range body (S n) i l w
  = bind (for_range body n i l) (body (i + n)%nat) w.
Proof.
  replace (S n) with (n + 1)%nat by lia. rewrite for_range_app.
  rewrite !run_bind. destruct (for_range body n i l w) as [[l'|e] w']; [|done].
  simpl. rewrite run_bind. by destruct (body (i + n)%nat l' w') as [[?|?] ?].
Qed.

(** An invariant of the body is an invariant of the loop. *)
Lemma for_range_invariant {L} (body : nat -> L -> M L)
    (I : nat -> L -> world -> Prop) :
  (forall i l w l' w',
     I i l w -> body i l w = (Ok l', w') -> I (S i) l' w') ->
  forall n i l w l' w',
    I i l w -> for_range body n i l w = (Ok l', w') -> I (i + n)%nat l' w'.
Proof.
  intros Hbody n. induction n as [|n IH]; intros i l w l' w' Hi Hrun.
  - apply ret_ok_inv in Hrun as [-> ->]. by rewrite Nat.add_0_r.
  - simpl in Hrun. apply bind_ok_inv in Hrun as (l1 & w1 & Hb & Hrun).
    replace (i + S n)%nat with (S i + n)%nat by lia.
    eapply IH; [|exact Hrun]. eapply Hbody; eauto.
Qed.

(** A turn that raises ends the loop, however many turns were left. *)
Lemma for_range_raise {L} (body : nat -> L -> M L) k n i l w lk wk e w' :
  for_range body k i l w = (Ok lk, wk) ->
  body (i + k)%nat lk wk = (Raise e, w') ->
  (k < n)%nat ->
  for_range body n i l w = (Raise e, w').
Proof.
  intros Hk Hb Hn. replace n with (k + S (n - S k))%nat by lia.
  rewrite for_range_app, (run_bind_ok _ _ _ _ _ Hk). simpl.
  by rewrite (run_bind_raise _ _ _ _ _ Hb).
Qed.

End Run.

(** Sequencing, written out. *)
Ltac unm := unfold mbind, M_bind, result_bind in *.

(* ===================================================================== *)
(** ** The link package *)
(* ===================================================================== *)

(** C9: whatever is passed for [output_file_name], [output_file_unit],
    [output_file_header] and [output_file_format], the [ModflowLmt] object
    holds 'mt3d_link.ftl', 54, 'extended' and 'unformatted', and
    [write_file] writes the same text. *)
Theorem lmt_output_file_arguments_ignored
    (m : model) (name : string) (unit_ : Z) (header format : string)
    (ext : string) (unitnumber : Z) :
  let p := Lmt.__init__ m name unit_ header format ext unitnumber in
  Lmt.output_file_name p = "mt3d_link.ftl" /\
  Lmt.output_file_unit p = 54 /\
  Lmt.output_file_header p = "extended" /\
  Lmt.output_file_format p = "unformatted" /\
  (forall name' unit' header' format',
     Lmt.write_file (Lmt.__init__ m name' unit' header' format' ext unitnumber)
     = Lmt.write_file p) /\
  Lmt.write_file p =
    "# Lmt input file for MODFLOW, generated by Flopy." ++ nl
    ++ "OUTPUT_FILE_NAME mt3d_link.ftl" ++ nl
    ++ "OUTPUT_FILE_UNIT         54" ++ nl
    ++ "OUTPUT_FILE_HEADER extended" ++ nl
    ++ "OUTPUT_FILE_FORMAT unformatted" ++ nl.
Proof. repeat split. Qed.

(* ===================================================================== *)
(** ** The recharge header *)
(* ===================================================================== *)

Section RchHeader.
Context `{Collaborators}.

(** The four cases of lines 177-182. *)
Lemma load_irchcb_cases (t : list string) :
  (t !! 1%nat = None /\ Rch.load_irchcb t = 0) \/
  (exists s e, t !! 1%nat = Some s /\ int s = Raise e
               /\ Rch.load_irchcb t = 0) \/
  (exists s, t !! 1%nat = Some s /\ int s = Ok 0
             /\ Rch.load_irchcb t = 0) \/
  (exists s v, t !! 1%nat = Some s /\ int s = Ok v /\ v <> 0
               /\ Rch.load_irchcb t = 53).
Proof.
  unfold Rch.load_irchcb, getitem.
  destruct (t !! 1%nat) as [s|] eqn:Ht; [| by left].
  right. simpl. destruct (int s) as [v|e] eqn:Hs; simpl.
  - destruct (Z.eqb_spec v 0) as [-> | Hv].
    + right; left. eauto.
    + right; right. eauto 10.
  - left. eauto.
Qed.

End RchHeader.

Section RchLoadHeader.
Context `{Collaborators}.

Lemma rch_load_args_irchcb f m nper eud a w :
  Rch.load f m nper eud = (Ok a, w) ->
  exists line,
    Rch.dataset2_line f = Some line /\
    Rch.args_irchcb a = Rch.load_irchcb (split (strip line)).
Proof.
  unfold Rch.load, Rch.load_body, Rch.prelude, Rch.load_header.
  intros Hload.
  apply bind_ok_inv in Hload as ([[[e irchcb] n] l0] & w1 & Hpre & Hload).
  apply bind_ok_inv in Hload as (l & w2 & Hper & Hload).
  apply ret_ok_inv in Hload as [-> ->]. simpl.
  apply bind_ok_inv in Hpre as (h & w3 & Hhdr & Hpre).
  apply bind_ok_inv in Hpre as (l0' & w4 & _ & Hpre).
  apply ret_ok_inv in Hpre as [[= <- <-] ->].
  apply bind_ok_inv in Hhdr as (line0 & w5 & Hline0 & Hhdr).
  apply bind_ok_inv in Hhdr as (line & w6 & Hline & Hhdr).
  apply bind_ok_inv in Hhdr as ([nrchop irchcb'] & w7 & Hd & Hhdr).
  apply lift_ok_inv in Hd as [Hd ->].
  exists line. split.
  - unfold Rch.dataset2_line. unm. by rewrite run_bind, Hline0, Hline.
  - unfold Rch.dataset2 in Hd. apply rbind_ok_inv in Hd as (x & _ & [= _ <-]).
    destruct nper as [n'|]; [| destruct (nrow_ncol_nlay_nper m) as [[[? ?] ?] ?]];
      by apply ret_ok_inv in Hhdr as [[= _ -> _] _].
Qed.

End RchLoadHeader.

(** C10: after a successful load of a recharge file, [irchcb] is 0 when the
    second field of the header line (dataset 2) is missing, is not an
    integer, or is 0, and 53 when it is any other integer; the number in the
    file never reaches the constructor. *)
Theorem rch_load_irchcb_is_0_or_53 `{Collaborators} f m nper eud a w :
  Rch.load f m nper eud = (Ok a, w) ->
  exists line,
    Rch.dataset2_line f = Some line /\
    let field := split (strip line) !! 1%nat in
    (field = None /\ Rch.args_irchcb a = 0) \/
    (exists s e, field = Some s /\ int s = Raise e /\ Rch.args_irchcb a = 0) \/
    (exists s, field = Some s /\ int s = Ok 0 /\ Rch.args_irchcb a = 0) \/
    (exists s v, field = Some s /\ int s = Ok v /\ v <> 0
                 /\ Rch.args_irchcb a = 53).
Proof.
  intros Hload. destruct (rch_load_args_irchcb _ _ _ _ _ _ Hload) as (line & Hl & ->).
  exists line. split; [done |]. apply load_irchcb_cases.
Qed.


Lemma rch_load_irchcb_is_0_or_53_witness :
  exists line,
    Rch.dataset2_line Demo.rch_unit7 = Some line /\
    let field := split (strip line) !! 1%nat in
    (field = None /\ Rch.args_irchcb Demo.rch_unit7_args = 0) \/
    (exists s e, field = Some s /\ int s = Raise e
                 /\ Rch.args_irchcb Demo.rch_unit7_args = 0) \/
    (exists s, field = Some s /\ int s = Ok 0
               /\ Rch.args_irchcb Demo.rch_unit7_args = 0) \/
    (exists s v, field = Some s /\ int s = Ok v /\ v <> 0
                 /\ Rch.args_irchcb Demo.rch_unit7_args = 53).
Proof.
  apply (rch_load_irchcb_is_0_or_53 Demo.rch_unit7 Demo.quiet None None
           Demo.rch_unit7_args
           (snd (Rch.load Demo.rch_unit7 Demo.quiet None None))).
  apply run_eq. vm_compute. reflexivity.
Defined.

(* ===================================================================== *)
(** ** Control records *)
(* ===================================================================== *)

Section ControlRecords.
Context `{Collaborators}.

Lemma int_raise s e : int s = Raise e -> e = ValueError.
Proof.
  assert (Hd : forall s', int_digits s' = Raise e -> e = ValueError).
  { intros s'. unfold int_digits.
    destruct (NilZero.uint_of_string s'); by intros [=]. }
  unfold int. destruct s as [|c s]; [apply Hd |].
  destruct c as [[] [] [] [] [] [] [] []]; try apply Hd.
  destruct (int_digits s) eqn:Hs; simpl; [done |].
  intros [= <-]. by apply Hd in Hs.
Qed.

Lemma field_numeric (t : list string) i :
  (i < numeric_fields t)%nat -> exists v, rbind (getitem t i) int = Ok v.
Proof.
  revert i. induction t as [|s t IH]; intros i; simpl; [lia |].
  unfold numeric. destruct (int s) as [v|e] eqn:Hs; simpl; [|lia].
  destruct i as [|i]; intros Hi.
  - exists v. unfold getitem. simpl. exact Hs.
  - destruct (IH i) as [v' Hv']; [lia |]. by exists v'.
Qed.

Lemma field_not_numeric (t : list string) :
  exists e, rbind (getitem t (numeric_fields t)) int = Raise e
            /\ (e = IndexError \/ e = ValueError).
Proof.
  induction t as [|s t IH]; simpl.
  - exists IndexError. eauto.
  - unfold numeric. destruct (int s) as [v|e] eqn:Hs; simpl.
    + exact IH.
    + exists e. unfold getitem. simpl. split; [done |].
      right. by apply int_raise in Hs.
Qed.

(** [ModflowEvt.load], lines 255-260, on a line with too few numbers. *)
Lemma evt_control_record_malformed nevtop line :
  (numeric_fields (split (strip line)) < evt_required_fields nevtop)%nat ->
  exists e, Evt.control_record nevtop line = Raise e
            /\ (e = IndexError \/ e = ValueError).
Proof.
  intros Hlt. unfold Evt.control_record. unm.
  set (t := split (strip line)) in *.
  destruct (field_not_numeric t) as (e & He & Hor).
  exists e. split; [|done].
  pose proof (field_numeric t) as Hok.
  destruct (numeric_fields t) as [|[|[|[|j]]]] eqn:Hj.
  - by rewrite He.
  - destruct (Hok 0%nat) as [v0 ->]; [lia |]. simpl. by rewrite He.
  - destruct (Hok 0%nat) as [v0 ->]; [lia |].
    destruct (Hok 1%nat) as [v1 ->]; [lia |]. simpl. by rewrite He.
  - destruct (Hok 0%nat) as [v0 ->]; [lia |].
    destruct (Hok 1%nat) as [v1 ->]; [lia |].
    destruct (Hok 2%nat) as [v2 ->]; [lia |]. simpl.
    unfold evt_required_fields in Hlt.
    destruct (nevtop =? 2)%Z; [by rewrite He | lia].
  - unfold evt_required_fields in Hlt. destruct (nevtop =? 2)%Z; lia.
Qed.

(** [ModflowRch.load], lines 192-195, on a line with too few numbers. *)
Lemma rch_control_record_malformed nrchop line :
  (numeric_fields (split (strip line)) < rch_required_fields nrchop)%nat ->
  exists e, Rch.control_record nrchop line = Raise e
            /\ (e = IndexError \/ e = ValueError).
Proof.
  intros Hlt. unfold Rch.control_record. unm.
  set (t := split (strip line)) in *.
  destruct (field_not_numeric t) as (e & He & Hor).
  exists e. split; [|done].
  pose proof (field_numeric t) as Hok.
  destruct (numeric_fields t) as [|[|j]] eqn:Hj.
  - by rewrite He.
  - destruct (Hok 0%nat) as [v0 ->]; [lia |]. simpl.
    unfold rch_required_fields in Hlt.
    destruct (nrchop =? 2)%Z; [by rewrite He | lia].
  - unfold rch_required_fields in Hlt. destruct (nrchop =? 2)%Z; lia.
Qed.

(** A control record that cannot be decoded ends the stress period. *)
Lemma evt_period_control_raise e iper l w x :
  Evt.control_record (Evt.e_nevtop e) (fst (readline (stream w))) = Raise x ->
  exists w', Evt.period e iper l w = (Raise x, w').
Proof.
  intros Hc. unfold Evt.period. unm. rewrite run_bind. unfold f_readline.
  destruct (readline (stream w)) as [line rest]. simpl in Hc.
  rewrite run_bind. unfold lift. rewrite Hc. eauto.
Qed.

Lemma rch_period_control_raise e iper l w x :
  Rch.control_record (Rch.e_nrchop e) (fst (readline (stream w))) = Raise x ->
  exists w', Rch.period e iper l w = (Raise x, w').
Proof.
  intros Hc. unfold Rch.period. unm. rewrite run_bind. unfold f_readline.
  destruct (readline (stream w)) as [line rest]. simpl in Hc.
  rewrite run_bind. unfold lift. rewrite Hc. eauto.
Qed.

End ControlRecords.

(* ===================================================================== *)
(** ** The load, period by period *)
(* ===================================================================== *)

Section LoadByPeriod.
Context `{Collaborators}.

Lemma evt_at_period_inv f m nper eud k e ip n lk wk :
  Evt.at_period f m nper eud k = (Ok (e, ip, n, lk), wk) ->
  exists l0 w0,
    Evt.prelude (S (String.length f)) m nper eud (Evt.start f)
      = (Ok (e, ip, n, l0), w0) /\
    Evt.periods e k 0 l0 w0 = (Ok lk, wk).
Proof.
  unfold Evt.at_period. unm. intros Hat.
  apply bind_ok_inv in Hat as ([[[e' ip'] n'] l0] & w0 & Hpre & Hat).
  apply bind_ok_inv in Hat as (l & w1 & Hper & Hat).
  apply ret_ok_inv in Hat as [[= <- <- <- <-] ->]. eauto.
Qed.

Lemma evt_load_from_prelude f m nper eud e ip n l0 w0 :
  Evt.prelude (S (String.length f)) m nper eud (Evt.start f)
    = (Ok (e, ip, n, l0), w0) ->
  Evt.load f m nper eud
  = bind (Evt.periods e n 0 l0)
         (fun l => ret (Evt.make_args (Evt.e_nevtop e) ip l)) w0.
Proof.
  intros Hpre. unfold Evt.load, Evt.load_body. unm.
  by rewrite (run_bind_ok _ _ _ _ _ Hpre).
Qed.

Lemma rch_at_period_inv f m nper eud k e ip n lk wk :
  Rch.at_period f m nper eud k = (Ok (e, ip, n, lk), wk) ->
  exists l0 w0,
    Rch.prelude (S (String.length f)) m nper eud (Rch.start f)
      = (Ok (e, ip, n, l0), w0) /\
    Rch.periods e k 0 l0 w0 = (Ok lk, wk).
Proof.
  unfold Rch.at_period. unm. intros Hat.
  apply bind_ok_inv in Hat as ([[[e' ip'] n'] l0] & w0 & Hpre & Hat).
  apply bind_ok_inv in Hat as (l & w1 & Hper & Hat).
  apply ret_ok_inv in Hat as [[= <- <- <- <-] ->]. eauto.
Qed.

Lemma rch_load_from_prelude f m nper eud e ip n l0 w0 :
  Rch.prelude (S (String.length f)) m nper eud (Rch.start f)
    = (Ok (e, ip, n, l0), w0) ->
  Rch.load f m nper eud
  = bind (Rch.periods e n 0 l0)
         (fun l => ret (Rch.Args (Rch.e_nrchop e) ip (Rch.rech l) (Rch.irch l)))
         w0.
Proof.
  intros Hpre. unfold Rch.load, Rch.load_body. unm.
  by rewrite (run_bind_ok _ _ _ _ _ Hpre).
Qed.

(** A stress period that raises ends the load. *)
Lemma evt_load_period_raise f m nper eud k e ip n lk wk x w' :
  Evt.at_period f m nper eud k = (Ok (e, ip, n, lk), wk) ->
  (k < n)%nat ->
  Evt.period e k lk wk = (Raise x, w') ->
  Evt.load f m nper eud = (Raise x, w').
Proof.
  intros Hat Hk Hper.
  apply evt_at_period_inv in Hat as (l0 & w0 & Hpre & Hrun).
  rewrite (evt_load_from_prelude _ _ _ _ _ _ _ _ _ Hpre).
  apply run_bind_raise. unfold Evt.periods in *.
  eapply for_range_raise; eauto.
Qed.

Lemma rch_load_period_raise f m nper eud k e ip n lk wk x w' :
  Rch.at_period f m nper eud k = (Ok (e, ip, n, lk), wk) ->
  (k < n)%nat ->
  Rch.period e k lk wk = (Raise x, w') ->
  Rch.load f m nper eud = (Raise x, w').
Proof.
  intros Hat Hk Hper.
  apply rch_at_period_inv in Hat as (l0 & w0 & Hpre & Hrun).
  rewrite (rch_load_from_prelude _ _ _ _ _ _ _ _ _ Hpre).
  apply run_bind_raise. unfold Rch.periods in *.
  eapply for_range_raise; eauto.
Qed.

End LoadByPeriod.

(* ===================================================================== *)
(** ** Malformed control lines *)
(* ===================================================================== *)

(** C7: when the load reaches a control line that begins with fewer numeric
    fields than the package mode reads (three, or four under [nevtop == 2],
    for evapotranspiration; one, or two under [nrchop == 2], for recharge),
    decoding the line raises [IndexError] or [ValueError], the load raises
    it too, and the constructor is never called. *)
Theorem malformed_control_line_fails `{Collaborators} :
  (forall f m nper eud k e ipakcb n lk wk,
     Evt.at_period f m nper eud k = (Ok (e, ipakcb, n, lk), wk) ->
     (k < n)%nat ->
     (numeric_fields (split (strip (fst (readline (stream wk)))))
      < evt_required_fields (Evt.e_nevtop e))%nat ->
     exists x w',
       Evt.control_record (Evt.e_nevtop e) (fst (readline (stream wk)))
         = Raise x /\
       Evt.load f m nper eud = (Raise x, w') /\
       (x = IndexError \/ x = ValueError)) /\
  (forall f m nper eud k e irchcb n lk wk,
     Rch.at_period f m nper eud k = (Ok (e, irchcb, n, lk), wk) ->
     (k < n)%nat ->
     (numeric_fields (split (strip (fst (readline (stream wk)))))
      < rch_required_fields (Rch.e_nrchop e))%nat ->
     exists x w',
       Rch.control_record (Rch.e_nrchop e) (fst (readline (stream wk)))
         = Raise x /\
       Rch.load f m nper eud = (Raise x, w') /\
       (x = IndexError \/ x = ValueError)).
Proof.
  split.
  - intros f m nper eud k e ip n lk wk Hat Hk Hfew.
    destruct (evt_control_record_malformed _ _ Hfew) as (x & Hx & Hor).
    destruct (evt_period_control_raise e k lk wk x Hx) as [w' Hper].
    exists x, w'. split; [done |]. split; [|done].
    eapply evt_load_period_raise; eauto.
  - intros f m nper eud k e ip n lk wk Hat Hk Hfew.
    destruct (rch_control_record_malformed _ _ Hfew) as (x & Hx & Hor).
    destruct (rch_period_control_raise e k lk wk x Hx) as [w' Hper].
    exists x, w'. split; [done |]. split; [|done].
    eapply rch_load_period_raise; eauto.
Qed.

Lemma malformed_control_line_fails_witness :
  (exists x w',
     Evt.control_record 3 ("        -1        -1" ++ nl) = Raise x /\
     Evt.load Demo.evt_short_line Demo.quiet None None = (Raise x, w') /\
     (x = IndexError \/ x = ValueError)) /\
  (exists x w',
     Rch.control_record 2 ("        -1 # period 2" ++ nl) = Raise x /\
     Rch.load Demo.rch_short_line Demo.quiet None None = (Raise x, w') /\
     (x = IndexError \/ x = ValueError)).
Proof.
  split.
  - apply (proj1 malformed_control_line_fails
             Demo.evt_short_line Demo.quiet None None 1%nat
             (Demo.evt_env 3) 0 2%nat Demo.evt_after_empty_period
             (snd (Evt.at_period Demo.evt_short_line Demo.quiet None None 1))).
    + apply run_eq. reflexivity.
    + lia.
    + vm_compute. lia.
  - apply (proj2 malformed_control_line_fails
             Demo.rch_short_line Demo.quiet None None 1%nat
             (Demo.rch_env 2) 0 2%nat Demo.rch_after_empty_period
             (snd (Rch.at_period Demo.rch_short_line Demo.quiet None None 1))).
    + apply run_eq. reflexivity.
    + lia.
    + vm_compute. lia.
Defined.

(* ===================================================================== *)
(** ** The heap only grows *)
(* ===================================================================== *)

Section Grows.
Context `{Collaborators}.

Lemma grows_ret {A} (a : A) : grows (ret a).
Proof. intros w r w' [= _ <-]. done. Qed.

Lemma grows_raise {A} e : grows (raise (A := A) e).
Proof. intros w r w' [= _ <-]. done. Qed.

Lemma grows_lift {A} (r : result A) : grows (lift r).
Proof. intros w r' w' [= _ <-]. done. Qed.

Lemma grows_bind {A B} (c : M A) (k : A -> M B) :
  grows c -> (forall a, grows (k a)) -> grows (bind c k).
Proof.
  intros Hc Hk w r w'. rewrite run_bind.
  destruct (c w) as [[a|e] w1] eqn:Hcw.
  - intros Hka. etrans; [eapply Hc | eapply Hk]; eauto.
  - intros [= _ <-]. eapply Hc; eauto.
Qed.

Lemma grows_readline : grows f_readline.
Proof.
  intros w r w'. unfold f_readline. destruct (readline (stream w)).
  by intros [= _ <-].
Qed.

Lemma grows_print s : grows (print s).
Proof. intros w r w' [= _ <-]. done. Qed.

Lemma grows_when b c : grows c -> grows (when b c).
Proof. destruct b; [done |]. intros _. apply grows_ret. Qed.

Lemma grows_alloc o : grows (alloc o).
Proof. intros w r w' [= _ <-]. simpl. by apply prefix_app_r. Qed.

Lemma grows_reading {A} (c : string -> result (A * string)) :
  grows (reading c).
Proof.
  intros w r w'. unfold reading. destruct (c (stream w)) as [[a rest]|e];
    by intros [= _ <-].
Qed.

Lemma grows_shape_of s : grows (shape_of s).
Proof. destruct s; [apply grows_ret | apply grows_raise]. Qed.

Lemma grows_for_range {L} (body : nat -> L -> M L) n i l :
  (forall i l, grows (body i l)) -> grows (for_range body n i l).
Proof.
  intros Hb. revert i l. induction n as [|n IH]; intros i l; simpl.
  - apply grows_ret.
  - apply grows_bind; auto.
Qed.

End Grows.

Create HintDb grows.
#[export] Hint Resolve grows_ret grows_raise grows_lift grows_readline
  grows_print grows_when grows_alloc grows_reading grows_shape_of : grows.

(** Goes through a sequence of steps that each grow the heap. *)
Ltac grows :=
  unm;
  repeat first
    [ progress auto with grows
    | apply grows_bind
    | apply grows_for_range
    | match goal with
      | |- forall _, _ => intro
      | |- grows (if ?b then _ else _) => destruct b
      | |- grows (match ?x with _ => _ end) => destruct x
      end ].

Section GrowsLoad.
Context `{Collaborators}.

Lemma grows_evt_load_array m s dt name eud :
  grows (Evt.load_array m s dt name eud).
Proof. unfold Evt.load_array. grows. Qed.





End GrowsLoad.

(* ===================================================================== *)
(** ** One stress period of the evapotranspiration load *)
(* ===================================================================== *)

Section EvtPeriod.
Context `{Collaborators}.

Lemma f_readline_run w :
  f_readline w
  = (Ok (fst (readline (stream w))),
     {| stream := snd (readline (stream w)); heap := heap w;
        stdout := stdout w |}).
Proof. unfold f_readline. by destruct (readline (stream w)). Qed.

(** Whether [inievt] is bound depends on [nevtop] alone. *)
Lemma evt_control_record_inievt nevtop line c :
  Evt.control_record nevtop line = Ok c ->
  (nevtop = 2 -> is_Some (Evt.inievt c)) /\
  (nevtop <> 2 -> Evt.inievt c = None).
Proof.
  unfold Evt.control_record. unm. intros Hc.
  apply rbind_ok_inv in Hc as (c0 & _ & Hc).
  apply rbind_ok_inv in Hc as (c1 & _ & Hc).
  apply rbind_ok_inv in Hc as (c2 & _ & Hc).
  destruct (Z.eqb_spec nevtop 2) as [-> | Hne].
  - apply rbind_ok_inv in Hc as (c3 & _ & [= <-]). simpl. split; [eauto | done].
  - injection Hc as <-. simpl. split; [done | done].
Qed.


(** A negative code: the current array stays, nothing is read. *)
Lemma evt_load_surf_reuse e iper c l :
  Evt.insurf c < 0 -> Evt.load_surf e iper c l = ret (Evt.current_surf l).
Proof.
  intros Hc. unfold Evt.load_surf.
  by destruct (Z.geb_spec (Evt.insurf c) 0); [lia |].
Qed.

Lemma evt_load_evtr_reuse e iper c l :
  Evt.inevtr c < 0 -> Evt.load_evtr e iper c l = ret (Evt.current_evtr l).
Proof.
  intros Hc. unfold Evt.load_evtr.
  by destruct (Z.geb_spec (Evt.inevtr c) 0); [lia |].
Qed.

Lemma evt_load_exdp_reuse e iper c l :
  Evt.inexdp c < 0 -> Evt.load_exdp e iper c l = ret (Evt.current_exdp l).
Proof.
  intros Hc. unfold Evt.load_exdp.
  by destruct (Z.geb_spec (Evt.inexdp c) 0); [lia |].
Qed.

Lemma evt_load_ievt_reuse e iper c3 l :
  c3 < 0 -> Evt.load_ievt e iper c3 l = ret (Evt.current_ievt l).
Proof.
  intros Hc. unfold Evt.load_ievt.
  by destruct (Z.geb_spec c3 0); [lia |].
Qed.

(** What a stress period that returns has done to the names of the loop:
    a quantity with a code is entered under [iper] in its dictionary, and
    keeps its current array when the code is negative; a quantity without
    one is left alone. *)
Lemma evt_period_ok e iper l w l' w' :
  Evt.period e iper l w = (Ok l', w') ->
  exists c,
    Evt.control_record (Evt.e_nevtop e) (fst (readline (stream w))) = Ok c /\
    forall q,
      match evt_code q c with
      | Some v =>
          evt_timeline q l' = <[iper := evt_current q l']> (evt_timeline q l)
          /\ (v < 0 -> evt_current q l' = evt_current q l)
      | None =>
          evt_timeline q l' = evt_timeline q l
          /\ evt_current q l' = evt_current q l
      end.
Proof.
  unfold Evt.period. unm. intros Hp.
  apply bind_ok_inv in Hp as (line & w1 & Hline & Hp).
  rewrite f_readline_run in Hline. injection Hline as <- <-.
  apply bind_ok_inv in Hp as (c & w2 & Hc & Hp).
  apply lift_ok_inv in Hc as [Hc ->].
  exists c. split; [exact Hc |].
  apply bind_ok_inv in Hp as (r1 & w3 & H1 & Hp).
  apply bind_ok_inv in Hp as (r2 & w4 & H2 & Hp).
  apply bind_ok_inv in Hp as (r3 & w5 & H3 & Hp).
  assert (S1 : Evt.insurf c < 0 -> r1 = Evt.current_surf l).
  { intros Hn. rewrite evt_load_surf_reuse in H1 by done.
    by apply ret_ok_inv in H1 as [-> _]. }
  assert (S2 : Evt.inevtr c < 0 -> r2 = Evt.current_evtr l).
  { intros Hn. rewrite evt_load_evtr_reuse in H2 by done.
    by apply ret_ok_inv in H2 as [-> _]. }
  assert (S3 : Evt.inexdp c < 0 -> r3 = Evt.current_exdp l).
  { intros Hn. rewrite evt_load_exdp_reuse in H3 by done.
    by apply ret_ok_inv in H3 as [-> _]. }
  destruct (Evt.inievt c) as [c3|] eqn:Hc3.
  - apply bind_ok_inv in Hp as (r4 & w6 & H4 & Hp).
    apply ret_ok_inv in Hp as [-> ->].
    assert (S4 : c3 < 0 -> r4 = Evt.current_ievt l).
    { intros Hn. rewrite evt_load_ievt_reuse in H4 by done.
      by apply ret_ok_inv in H4 as [-> _]. }
    intros [| | |]; simpl; rewrite ?Hc3; simpl; auto.
  - apply ret_ok_inv in Hp as [-> ->].
    intros [| | |]; simpl; rewrite ?Hc3; simpl; auto.
Qed.

(** A stress period whose codes are all negative reads the control line
    and nothing else. *)
Lemma evt_period_all_negative e iper l w c :
  Evt.control_record (Evt.e_nevtop e) (fst (readline (stream w))) = Ok c ->
  (forall q v, evt_code q c = Some v -> v < 0) ->
  Evt.period e iper l w
  = (Ok {| Evt.surf := <[iper := Evt.current_surf l]> (Evt.surf l);
           Evt.evtr := <[iper := Evt.current_evtr l]> (Evt.evtr l);
           Evt.exdp := <[iper := Evt.current_exdp l]> (Evt.exdp l);
           Evt.ievt := match Evt.inievt c with
                       | Some _ => <[iper := Evt.current_ievt l]> (Evt.ievt l)
                       | None => Evt.ievt l
                       end;
           Evt.current_surf := Evt.current_surf l;
           Evt.current_evtr := Evt.current_evtr l;
           Evt.current_exdp := Evt.current_exdp l;
           Evt.current_ievt := Evt.current_ievt l |},
     {| stream := snd (readline (stream w)); heap := heap w;
        stdout := stdout w |}).
Proof.
  intros Hc Hneg. unfold Evt.period. unm.
  rewrite run_bind, f_readline_run, run_bind. unfold lift. rewrite Hc.
  rewrite evt_load_surf_reuse by (by apply (Hneg Surf)).
  rewrite evt_load_evtr_reuse by (by apply (Hneg Evtr)).
  rewrite evt_load_exdp_reuse by (by apply (Hneg Exdp)).
  destruct (Evt.inievt c) as [c3|] eqn:Hc3; [|done].
  rewrite evt_load_ievt_reuse; [done |]. by apply (Hneg Ievt).
Qed.

End EvtPeriod.

(* ===================================================================== *)
(** ** The timelines of the evapotranspiration load *)
(* ===================================================================== *)

Section EvtTimelines.
Context `{Collaborators}.

Lemma alloc_run o w :
  alloc o w
  = (Ok (length (heap w)),
     {| stream := stream w; heap := heap w ++ [o]; stdout := stdout w |}).
Proof. reflexivity. Qed.

(** Before the first stress period the dictionaries are empty and every
    current array is an empty list. *)
Lemma evt_initial_locals_ok w l0 w0 :
  Evt.initial_locals w = (Ok l0, w0) ->
  forall q, evt_timeline q l0 = ∅ /\ deref w0 (evt_current q l0) = Some EmptyList.
Proof.
  unfold Evt.initial_locals. unm. rewrite !run_bind, !alloc_run. simpl.
  intros [= <- <-] q. unfold deref. simpl.
  split; [by destruct q |].
  set (h := heap w).
  assert (Hk : forall k x,
             [EmptyList; EmptyList; EmptyList; EmptyList] !! k = Some x ->
             (h ++ [EmptyList; EmptyList; EmptyList; EmptyList])%list
               !! (length h + k)%nat = Some x).
  { intros k x Hx. rewrite lookup_app_r by lia.
    by replace (length h + k - length h)%nat with k by lia. }
  destruct q; simpl; rewrite <- ?(assoc_L (++)); simpl;
    rewrite ?length_app; simpl.
  - replace (length h) with (length h + 0)%nat by lia. by apply Hk.
  - replace (S (length h)) with (length h + 1)%nat by lia. by apply Hk.
  - replace (length h + 1 + 1)%nat with (length h + 2)%nat by lia.
    by apply Hk.
  - replace (length h + 1 + 1 + 1)%nat with (length h + 3)%nat by lia.
    by apply Hk.
Qed.

Lemma evt_prelude_ok fuel m nper eud w e ip n l0 w0 :
  Evt.prelude fuel m nper eud w = (Ok (e, ip, n, l0), w0) ->
  forall q, evt_timeline q l0 = ∅ /\ deref w0 (evt_current q l0) = Some EmptyList.
Proof.
  unfold Evt.prelude. unm. intros Hp.
  apply bind_ok_inv in Hp as (? & w1 & _ & Hp).
  apply bind_ok_inv in Hp as (h & w2 & _ & Hp).
  apply bind_ok_inv in Hp as (l0' & w3 & Hl & Hp).
  apply ret_ok_inv in Hp as [[= _ <-] ->].
  by eapply evt_initial_locals_ok.
Qed.



Lemma evt_load_ok_inv f m nper eud a w :
  Evt.load f m nper eud = (Ok a, w) ->
  exists e ip n l0 w0 l,
    Evt.prelude (S (String.length f)) m nper eud (Evt.start f)
      = (Ok (e, ip, n, l0), w0) /\
    Evt.periods e n 0 l0 w0 = (Ok l, w) /\
    a = Evt.make_args (Evt.e_nevtop e) ip l.
Proof.
  unfold Evt.load, Evt.load_body. unm. intros Hl.
  apply bind_ok_inv in Hl as ([[[e ip] n] l0] & w0 & Hpre & Hl).
  apply bind_ok_inv in Hl as (l & w1 & Hper & Hl).
  apply ret_ok_inv in Hl as [-> ->]. eauto 10.
Qed.


Lemma evt_args_timeline_ok nevtop ip l q j r :
  evt_timeline q l !! j = Some r ->
  evt_args_timeline q (Evt.make_args nevtop ip l) = Some (evt_timeline q l).
Proof.
  intros Hj. assert (Hne : evt_timeline q l <> ∅).
  { intros He. rewrite He in Hj. by rewrite lookup_empty in Hj. }
  destruct q; simpl in *; unfold Evt.truthy; by case_decide.
Qed.

Lemma evt_codes_at_inv f m nper eud k c :
  Evt.codes_at f m nper eud k = Some c ->
  exists e ip n lk wk,
    Evt.at_period f m nper eud k = (Ok (e, ip, n, lk), wk) /\
    (k < n)%nat /\
    Evt.control_record (Evt.e_nevtop e) (fst (readline (stream wk))) = Ok c.
Proof.
  unfold Evt.codes_at.
  destruct (Evt.at_period f m nper eud k) as [[[[[e ip] n] lk]|x] wk]; [|done].
  destruct (Nat.ltb_spec k n); [|done].
  destruct (Evt.control_record _ _) as [c'|] eqn:Hc; [|done].
  intros [= <-]. eauto 10.
Qed.

End EvtTimelines.

Section EvtReuse.
Context `{Collaborators}.

Lemma evt_at_period_S f m nper eud k e ip n lk wk l' w' :
  Evt.at_period f m nper eud k = (Ok (e, ip, n, lk), wk) ->
  Evt.period e k lk wk = (Ok l', w') ->
  Evt.at_period f m nper eud (S k) = (Ok (e, ip, n, l'), w').
Proof.
  intros Hat Hp. apply evt_at_period_inv in Hat as (l0 & w0 & Hpre & Hrun).
  unfold Evt.at_period. unm. rewrite (run_bind_ok _ _ _ _ _ Hpre).
  unfold Evt.periods in *. rewrite run_bind, for_range_S_r.
  rewrite (run_bind_ok _ _ _ _ _ Hrun). simpl. by rewrite Hp.
Qed.




(** A first stress period whose codes are all negative returns: it reads
    the control line and allocates nothing. *)
Lemma evt_first_period_returns f m nper eud c :
  Evt.codes_at f m nper eud 0 = Some c ->
  (forall q v, evt_code q c = Some v -> v < 0) ->
  exists e ip n l0 w0 l1,
    Evt.at_period f m nper eud 0 = (Ok (e, ip, n, l0), w0) /\
    Evt.at_period f m nper eud 1
    = (Ok (e, ip, n, l1),
       {| stream := snd (readline (stream w0)); heap := heap w0;
          stdout := stdout w0 |}).
Proof.
  intros Hcodes Hneg.
  apply evt_codes_at_inv in Hcodes as (e & ip & n & l0 & w0 & Hat & Hk & Hc).
  pose proof (evt_period_all_negative e 0 l0 w0 c Hc Hneg) as Hp.
  eexists e, ip, n, l0, w0, _. split; [exact Hat |].
  eapply evt_at_period_S; eauto.
Qed.

End EvtReuse.

(* ===================================================================== *)
(** ** The timelines of the recharge load *)
(* ===================================================================== *)

Section RchTimelines.
Context `{Collaborators}.

Lemma rch_control_record_inirch nrchop line c :
  Rch.control_record nrchop line = Ok c ->
  (nrchop = 2 -> is_Some (Rch.inirch c)) /\
  (nrchop <> 2 -> Rch.inirch c = None).
Proof.
  unfold Rch.control_record. unm. intros Hc.
  apply rbind_ok_inv in Hc as (c0 & _ & Hc).
  destruct (Z.eqb_spec nrchop 2) as [-> | Hne].
  - apply rbind_ok_inv in Hc as (c1 & _ & [= <-]). simpl. split; [eauto | done].
  - injection Hc as <-. simpl. split; [done | done].
Qed.


Lemma rch_load_rech_reuse e iper c l :
  Rch.inrech c < 0 -> Rch.load_rech e iper c l = ret (Rch.current_rech l).
Proof.
  intros Hc. unfold Rch.load_rech.
  by destruct (Z.geb_spec (Rch.inrech c) 0); [lia |].
Qed.

Lemma rch_load_irch_reuse e iper c1 l :
  c1 < 0 -> Rch.load_irch e iper c1 l = ret (Rch.current_irch l).
Proof.
  intros Hc. unfold Rch.load_irch.
  by destruct (Z.geb_spec c1 0); [lia |].
Qed.

(** What a stress period that returns has done to the names of the loop:
    a quantity with a code gets one more entry, and keeps its current array
    when the code is negative; a quantity without one is left alone. *)
Lemma rch_period_ok e iper l w l' w' :
  Rch.period e iper l w = (Ok l', w') ->
  exists c,
    Rch.control_record (Rch.e_nrchop e) (fst (readline (stream w))) = Ok c /\
    forall q,
      match rch_code q c with
      | Some v =>
          rch_timeline q l' = (rch_timeline q l ++ [rch_current q l'])%list
          /\ (v < 0 -> rch_current q l' = rch_current q l)
      | None =>
          rch_timeline q l' = rch_timeline q l
          /\ rch_current q l' = rch_current q l
      end.
Proof.
  unfold Rch.period. unm. intros Hp.
  apply bind_ok_inv in Hp as (line & w1 & Hline & Hp).
  rewrite f_readline_run in Hline. injection Hline as <- <-.
  apply bind_ok_inv in Hp as (c & w2 & Hc & Hp).
  apply lift_ok_inv in Hc as [Hc ->].
  exists c. split; [exact Hc |].
  apply bind_ok_inv in Hp as (r1 & w3 & H1 & Hp).
  assert (S1 : Rch.inrech c < 0 -> r1 = Rch.current_rech l).
  { intros Hn. rewrite rch_load_rech_reuse in H1 by done.
    by apply ret_ok_inv in H1 as [-> _]. }
  destruct (Rch.inirch c) as [c1|] eqn:Hc1.
  - apply bind_ok_inv in Hp as (r2 & w4 & H2 & Hp).
    apply ret_ok_inv in Hp as [-> ->].
    assert (S2 : c1 < 0 -> r2 = Rch.current_irch l).
    { intros Hn. rewrite rch_load_irch_reuse in H2 by done.
      by apply ret_ok_inv in H2 as [-> _]. }
    intros [|]; simpl; rewrite ?Hc1; simpl; auto.
  - apply ret_ok_inv in Hp as [-> ->].
    intros [|]; simpl; rewrite ?Hc1; simpl; auto.
Qed.

Lemma rch_period_all_negative e iper l w c :
  Rch.control_record (Rch.e_nrchop e) (fst (readline (stream w))) = Ok c ->
  (forall q v, rch_code q c = Some v -> v < 0) ->
  Rch.period e iper l w
  = (Ok {| Rch.rech := Rch.rech l ++ [Rch.current_rech l];
           Rch.irch := match Rch.inirch c with
                       | Some _ => Rch.irch l ++ [Rch.current_irch l]
                       | None => Rch.irch l
                       end;
           Rch.current_rech := Rch.current_rech l;
           Rch.current_irch := Rch.current_irch l |},
     {| stream := snd (readline (stream w)); heap := heap w;
        stdout := stdout w |}).
Proof.
  intros Hc Hneg. unfold Rch.period. unm.
  rewrite run_bind, f_readline_run, run_bind. unfold lift. rewrite Hc.
  rewrite rch_load_rech_reuse by (by apply (Hneg Rech)).
  destruct (Rch.inirch c) as [c1|] eqn:Hc1; [|done].
  rewrite rch_load_irch_reuse; [done |]. by apply (Hneg Irch).
Qed.

Lemma rch_initial_locals_ok w l0 w0 :
  Rch.initial_locals w = (Ok l0, w0) ->
  forall q, rch_timeline q l0 = [] /\ deref w0 (rch_current q l0) = Some EmptyList.
Proof.
  unfold Rch.initial_locals. unm. rewrite !run_bind, !alloc_run. simpl.
  intros [= <- <-] q. unfold deref. simpl.
  split; [by destruct q |].
  set (h := heap w).
  assert (Hk : forall k x,
             [EmptyList; EmptyList] !! k = Some x ->
             (h ++ [EmptyList; EmptyList])%list
               !! (length h + k)%nat = Some x).
  { intros k x Hx. rewrite lookup_app_r by lia.
    by replace (length h + k - length h)%nat with k by lia. }
  destruct q; simpl; rewrite <- ?(assoc_L (++)); simpl;
    rewrite ?length_app; simpl.
  - replace (length h) with (length h + 0)%nat by lia. by apply Hk.
  - replace (S (length h)) with (length h + 1)%nat by lia. by apply Hk.
Qed.

Lemma rch_prelude_ok fuel m nper eud w e ip n l0 w0 :
  Rch.prelude fuel m nper eud w = (Ok (e, ip, n, l0), w0) ->
  forall q, rch_timeline q l0 = [] /\ deref w0 (rch_current q l0) = Some EmptyList.
Proof.
  unfold Rch.prelude. unm. intros Hp.
  apply bind_ok_inv in Hp as (h & w2 & _ & Hp).
  apply bind_ok_inv in Hp as (l0' & w3 & Hl & Hp).
  apply ret_ok_inv in Hp as [[= _ <-] ->].
  by eapply rch_initial_locals_ok.
Qed.



Lemma rch_load_ok_inv f m nper eud a w :
  Rch.load f m nper eud = (Ok a, w) ->
  exists e ip n l0 w0 l,
    Rch.prelude (S (String.length f)) m nper eud (Rch.start f)
      = (Ok (e, ip, n, l0), w0) /\
    Rch.periods e n 0 l0 w0 = (Ok l, w) /\
    a = Rch.Args (Rch.e_nrchop e) ip (Rch.rech l) (Rch.irch l).
Proof.
  unfold Rch.load, Rch.load_body. unm. intros Hl.
  apply bind_ok_inv in Hl as ([[[e ip] n] l0] & w0 & Hpre & Hl).
  apply bind_ok_inv in Hl as (l & w1 & Hper & Hl).
  apply ret_ok_inv in Hl as [-> ->]. eauto 10.
Qed.

Lemma rch_codes_at_inv f m nper eud k c :
  Rch.codes_at f m nper eud k = Some c ->
  exists e ip n lk wk,
    Rch.at_period f m nper eud k = (Ok (e, ip, n, lk), wk) /\
    (k < n)%nat /\
    Rch.control_record (Rch.e_nrchop e) (fst (readline (stream wk))) = Ok c.
Proof.
  unfold Rch.codes_at.
  destruct (Rch.at_period f m nper eud k) as [[[[[e ip] n] lk]|x] wk]; [|done].
  destruct (Nat.ltb_spec k n); [|done].
  destruct (Rch.control_record _ _) as [c'|] eqn:Hc; [|done].
  intros [= <-]. eauto 10.
Qed.

Lemma rch_at_period_S f m nper eud k e ip n lk wk l' w' :
  Rch.at_period f m nper eud k = (Ok (e, ip, n, lk), wk) ->
  Rch.period e k lk wk = (Ok l', w') ->
  Rch.at_period f m nper eud (S k) = (Ok (e, ip, n, l'), w').
Proof.
  intros Hat Hp. apply rch_at_period_inv in Hat as (l0 & w0 & Hpre & Hrun).
  unfold Rch.at_period. unm. rewrite (run_bind_ok _ _ _ _ _ Hpre).
  unfold Rch.periods in *. rewrite run_bind, for_range_S_r.
  rewrite (run_bind_ok _ _ _ _ _ Hrun). simpl. by rewrite Hp.
Qed.





Lemma rch_first_period_returns f m nper eud c :
  Rch.codes_at f m nper eud 0 = Some c ->
  (forall q v, rch_code q c = Some v -> v < 0) ->
  exists e ip n l0 w0 l1,
    Rch.at_period f m nper eud 0 = (Ok (e, ip, n, l0), w0) /\
    Rch.at_period f m nper eud 1
    = (Ok (e, ip, n, l1),
       {| stream := snd (readline (stream w0)); heap := heap w0;
          stdout := stdout w0 |}).
Proof.
  intros Hcodes Hneg.
  apply rch_codes_at_inv in Hcodes as (e & ip & n & l0 & w0 & Hat & Hk & Hc).
  pose proof (rch_period_all_negative e 0 l0 w0 c Hc Hneg) as Hp.
  eexists e, ip, n, l0, w0, _. split; [exact Hat |].
  eapply rch_at_period_S; eauto.
Qed.

End RchTimelines.

(* ===================================================================== *)
(** ** Quantities that are gated off *)
(* ===================================================================== *)

Section Gating.
Context `{Collaborators}.

Lemma getitem_take {A} (t : list A) n i :
  (i < n)%nat -> getitem (take n t) i = getitem t i.
Proof. intros Hi. unfold getitem. by rewrite lookup_take_lt. Qed.

(** Outside mode 2 the control record is decoded from the first three
    fields of the line. *)
Lemma evt_control_record_take nevtop line :
  nevtop <> 2 ->
  Evt.control_record nevtop line
  = (let t := take 3 (split (strip line)) in
     c0 ← getitem t 0 ≫= int;
     c1 ← getitem t 1 ≫= int;
     c2 ← getitem t 2 ≫= int;
     Ok (Evt.Codes c0 c1 c2 None)).
Proof.
  intros Hne. unfold Evt.control_record. cbv zeta.
  rewrite !getitem_take by lia.
  by destruct (Z.eqb_spec nevtop 2).
Qed.

Lemma evt_period_gated_independent e iper l w1 w2 :
  Evt.e_nevtop e <> 2 ->
  take 3 (split (strip (fst (readline (stream w1)))))
  = take 3 (split (strip (fst (readline (stream w2))))) ->
  snd (readline (stream w1)) = snd (readline (stream w2)) ->
  heap w1 = heap w2 ->
  stdout w1 = stdout w2 ->
  Evt.period e iper l w1 = Evt.period e iper l w2.
Proof.
  intros Hne Ht Hs Hh Ho. unfold Evt.period. unm.
  rewrite !(run_bind f_readline), !f_readline_run.
  rewrite !(run_bind (lift _)). unfold lift.
  rewrite !evt_control_record_take by done. cbv zeta.
  by rewrite Ht, Hs, Hh, Ho.
Qed.

Lemma evt_period_gated_untouched e iper l w l' w' :
  Evt.e_nevtop e <> 2 ->
  Evt.period e iper l w = (Ok l', w') ->
  Evt.ievt l' = Evt.ievt l /\ Evt.current_ievt l' = Evt.current_ievt l.
Proof.
  intros Hne Hp. apply evt_period_ok in Hp as (c & Hc & Hq).
  apply evt_control_record_inievt in Hc as [_ Hc].
  specialize (Hq Ievt). simpl in Hq. by rewrite (Hc Hne) in Hq.
Qed.

Lemma evt_period_gated_position e iper l w c :
  Evt.e_nevtop e <> 2 ->
  Evt.control_record (Evt.e_nevtop e) (fst (readline (stream w))) = Ok c ->
  Evt.insurf c < 0 -> Evt.inevtr c < 0 -> Evt.inexdp c < 0 ->
  exists l',
    Evt.period e iper l w
    = (Ok l',
       {| stream := snd (readline (stream w)); heap := heap w;
          stdout := stdout w |}) /\
    Evt.ievt l' = Evt.ievt l /\ Evt.current_ievt l' = Evt.current_ievt l.
Proof.
  intros Hne Hc H1 H2 H3.
  pose proof (evt_control_record_inievt _ _ _ Hc) as [_ Hnone].
  specialize (Hnone Hne).
  eexists. split.
  - apply (evt_period_all_negative e iper l w c Hc).
    intros [| | |] v; simpl; rewrite ?Hnone; intros [= <-]; done.
  - by rewrite Hnone.
Qed.

Lemma rch_control_record_take nrchop line :
  nrchop <> 2 ->
  Rch.control_record nrchop line
  = (let t := take 1 (split (strip line)) in
     c0 ← getitem t 0 ≫= int;
     Ok (Rch.Codes c0 None)).
Proof.
  intros Hne. unfold Rch.control_record. cbv zeta.
  rewrite !getitem_take by lia.
  by destruct (Z.eqb_spec nrchop 2).
Qed.

Lemma rch_period_gated_independent e iper l w1 w2 :
  Rch.e_nrchop e <> 2 ->
  take 1 (split (strip (fst (readline (stream w1)))))
  = take 1 (split (strip (fst (readline (stream w2))))) ->
  snd (readline (stream w1)) = snd (readline (stream w2)) ->
  heap w1 = heap w2 ->
  stdout w1 = stdout w2 ->
  Rch.period e iper l w1 = Rch.period e iper l w2.
Proof.
  intros Hne Ht Hs Hh Ho. unfold Rch.period. unm.
  rewrite !(run_bind f_readline), !f_readline_run.
  rewrite !(run_bind (lift _)). unfold lift.
  rewrite !rch_control_record_take by done. cbv zeta.
  by rewrite Ht, Hs, Hh, Ho.
Qed.

Lemma rch_period_gated_untouched e iper l w l' w' :
  Rch.e_nrchop e <> 2 ->
  Rch.period e iper l w = (Ok l', w') ->
  Rch.irch l' = Rch.irch l /\ Rch.current_irch l' = Rch.current_irch l.
Proof.
  intros Hne Hp. apply rch_period_ok in Hp as (c & Hc & Hq).
  apply rch_control_record_inirch in Hc as [_ Hc].
  specialize (Hq Irch). simpl in Hq. by rewrite (Hc Hne) in Hq.
Qed.

Lemma rch_period_gated_position e iper l w c :
  Rch.e_nrchop e <> 2 ->
  Rch.control_record (Rch.e_nrchop e) (fst (readline (stream w))) = Ok c ->
  Rch.inrech c < 0 ->
  exists l',
    Rch.period e iper l w
    = (Ok l',
       {| stream := snd (readline (stream w)); heap := heap w;
          stdout := stdout w |}) /\
    Rch.irch l' = Rch.irch l /\ Rch.current_irch l' = Rch.current_irch l.
Proof.
  intros Hne Hc H1.
  pose proof (rch_control_record_inirch _ _ _ Hc) as [_ Hnone].
  specialize (Hnone Hne).
  eexists. split.
  - apply (rch_period_all_negative e iper l w c Hc).
    intros [|] v; simpl; rewrite ?Hnone; intros [= <-]; done.
  - by rewrite Hnone.
Qed.

End Gating.

(** C4: under a mode that gates a quantity off ([ievt] unless
    [nevtop == 2], [irch] unless [nrchop == 2]) a stress period of the load
    takes the whole control line off the stream, and with it whatever code
    the line holds for that quantity, and reads nothing for the quantity:
    the period does not depend on what follows the codes that are read; when
    those codes are negative the stream is left right after the control
    line, even if the gated code is not negative and an array follows; and
    the dictionary (list) and the current array of the quantity stay as
    they were. *)
Theorem gated_quantity_reads_nothing `{Collaborators} :
  (forall e iper l w1 w2,
     Evt.e_nevtop e <> 2 ->
     take 3 (split (strip (fst (readline (stream w1)))))
     = take 3 (split (strip (fst (readline (stream w2))))) ->
     snd (readline (stream w1)) = snd (readline (stream w2)) ->
     heap w1 = heap w2 ->
     stdout w1 = stdout w2 ->
     Evt.period e iper l w1 = Evt.period e iper l w2) /\
  (forall e iper l w c,
     Evt.e_nevtop e <> 2 ->
     Evt.control_record (Evt.e_nevtop e) (fst (readline (stream w))) = Ok c ->
     Evt.insurf c < 0 -> Evt.inevtr c < 0 -> Evt.inexdp c < 0 ->
     exists l',
       Evt.period e iper l w
       = (Ok l',
          {| stream := snd (readline (stream w)); heap := heap w;
             stdout := stdout w |}) /\
       Evt.ievt l' = Evt.ievt l /\ Evt.current_ievt l' = Evt.current_ievt l) /\
  (forall e iper l w l' w',
     Evt.e_nevtop e <> 2 ->
     Evt.period e iper l w = (Ok l', w') ->
     Evt.ievt l' = Evt.ievt l /\ Evt.current_ievt l' = Evt.current_ievt l) /\
  (forall e iper l w1 w2,
     Rch.e_nrchop e <> 2 ->
     take 1 (split (strip (fst (readline (stream w1)))))
     = take 1 (split (strip (fst (readline (stream w2))))) ->
     snd (readline (stream w1)) = snd (readline (stream w2)) ->
     heap w1 = heap w2 ->
     stdout w1 = stdout w2 ->
     Rch.period e iper l w1 = Rch.period e iper l w2) /\
  (forall e iper l w c,
     Rch.e_nrchop e <> 2 ->
     Rch.control_record (Rch.e_nrchop e) (fst (readline (stream w))) = Ok c ->
     Rch.inrech c < 0 ->
     exists l',
       Rch.period e iper l w
       = (Ok l',
          {| stream := snd (readline (stream w)); heap := heap w;
             stdout := stdout w |}) /\
       Rch.irch l' = Rch.irch l /\ Rch.current_irch l' = Rch.current_irch l) /\
  (forall e iper l w l' w',
     Rch.e_nrchop e <> 2 ->
     Rch.period e iper l w = (Ok l', w') ->
     Rch.irch l' = Rch.irch l /\ Rch.current_irch l' = Rch.current_irch l).
Proof.
  repeat apply conj.
  - apply evt_period_gated_independent.
  - apply evt_period_gated_position.
  - apply evt_period_gated_untouched.
  - apply rch_period_gated_independent.
  - apply rch_period_gated_position.
  - apply rch_period_gated_untouched.
Qed.

Lemma gated_quantity_reads_nothing_witness :
  (exists l',
     Evt.period (Demo.evt_env 3) 0 Demo.evt_initial Demo.gated_world
     = (Ok l',
        {| stream := "CONSTANT 5" ++ nl;
           heap := [EmptyList; EmptyList; EmptyList; EmptyList];
           stdout := [] |}) /\
     Evt.ievt l' = ∅ /\ Evt.current_ievt l' = 3%nat) /\
  (exists l',
     Rch.period (Demo.rch_env 3) 0 Demo.rch_initial Demo.rch_gated_world
     = (Ok l',
        {| stream := "CONSTANT 5" ++ nl;
           heap := [EmptyList; EmptyList];
           stdout := [] |}) /\
     Rch.irch l' = [] /\ Rch.current_irch l' = 1%nat).
Proof.
  split.
  - apply (proj1 (proj2 gated_quantity_reads_nothing)
             (Demo.evt_env 3) 0%nat Demo.evt_initial Demo.gated_world
             Demo.all_reuse).
    + discriminate.
    + vm_compute. reflexivity.
    + simpl. lia.
    + simpl. lia.
    + simpl. lia.
  - apply (proj1 (proj2 (proj2 (proj2 (proj2 gated_quantity_reads_nothing))))
             (Demo.rch_env 3) 0%nat Demo.rch_initial Demo.rch_gated_world
             Demo.rch_reuse).
    + discriminate.
    + vm_compute. reflexivity.
    + simpl. lia.
Defined.

(* ===================================================================== *)
(** ** Named parameters *)
(* ===================================================================== *)

Section Parameters.
Context `{Collaborators}.

(** One parameter-name line: the line is taken off the stream; a line
    without a token raises [IndexError]; anything else enters the parameter
    in the dictionary. *)
Lemma evt_parm_line_run pp d w :
  Evt.parm_line pp d w
  = (match split (strip (fst (readline (stream w)))) with
     | t0 :: _ =>
         Ok (<[Evt.parameter_name t0 :=
                 Evt.instance_name pp
                   (split (strip (fst (readline (stream w)))))
                   (Evt.parameter_name t0)]> d)
     | [] => Raise IndexError
     end,
     {| stream := snd (readline (stream w)); heap := heap w;
        stdout := stdout w |}).
Proof.
  unfold Evt.parm_line. unm. rewrite run_bind, f_readline_run. cbv zeta.
  rewrite run_bind. unfold lift, getitem.
  by destruct (split (strip (fst (readline (stream w))))).
Qed.

(** Lines 286-294 on a parameter of the table and an instance name the
    parameter does not have. *)
Lemma evt_instance_name_fallback (p : ParBc) (t : list string) t1 pname entry :
  t !! 1%nat = Some t1 ->
  bc_parms p !! pname = Some entry ->
  snd entry !! lower t1 = None ->
  Evt.instance_name (Some p) t pname = "static".
Proof.
  intros Ht Hp Hi. unfold Evt.instance_name, getitem. unm.
  rewrite Ht. simpl. rewrite Hp. simpl.
  destruct (decide (is_Some (snd entry !! lower t1))) as [[x Hx]|]; [|done].
  by rewrite Hi in Hx.
Qed.

Lemma for_range_parm_lines_ok n i pp d w d' w' :
  for_range (fun _ => Evt.parm_line pp) n i d w = (Ok d', w') ->
  w' = {| stream := drop_lines n (stream w); heap := heap w;
          stdout := stdout w |}.
Proof.
  revert i d w. induction n as [|n IH]; intros i d w; simpl.
  - intros [= _ <-]. by destruct w.
  - intros Hrun. apply bind_ok_inv in Hrun as (d1 & w1 & H1 & Hrun).
    rewrite evt_parm_line_run in H1. injection H1 as _ <-.
    by apply IH in Hrun as ->.
Qed.

Lemma for_range_parm_lines_short n i pp d w :
  fewer_lines_than n (stream w) ->
  exists w', for_range (fun _ => Evt.parm_line pp) n i d w
             = (Raise IndexError, w').
Proof.
  revert i d w. induction n as [|n IH]; intros i d w (k & Hk & Hend); [lia |].
  simpl. rewrite run_bind, evt_parm_line_run.
  destruct k as [|k]; simpl in Hend.
  - rewrite Hend. simpl. eauto.
  - destruct (split (strip (fst (readline (stream w))))) as [|t0 ts]; [eauto |].
    apply IH. exists k. split; [lia | done].
Qed.

(** Lines 278-297 when the code is not negative and parameters are in
    use: the name lines are read and the array is filled from them. *)
Lemma evt_load_evtr_parameters e iper c l :
  0 <= Evt.inevtr c ->
  Evt.e_npar e <> 0 ->
  Evt.load_evtr e iper c l
  = (parm_dict ← Evt.parm_lines (Z.to_nat (Evt.inevtr c)) (Evt.e_pak_parms e) ∅;
     shape ← shape_of (Evt.e_nrow_ncol e);
     a ← lift (parameter_bcfill (Evt.e_model e) shape parm_dict
                 (Evt.e_pak_parms e));
     alloc (Util2d a)).
Proof.
  intros Hc Hn. unfold Evt.load_evtr.
  destruct (Z.geb_spec (Evt.inevtr c) 0); [|lia].
  by destruct (Z.eqb_spec (Evt.e_npar e) 0).
Qed.

Lemma evt_load_evtr_reads_lines e iper c l w r w' :
  0 <= Evt.inevtr c ->
  Evt.e_npar e <> 0 ->
  Evt.load_evtr e iper c l w = (Ok r, w') ->
  stream w' = drop_lines (Z.to_nat (Evt.inevtr c)) (stream w).
Proof.
  intros Hc Hn. rewrite evt_load_evtr_parameters by done. unm. intros Hrun.
  apply bind_ok_inv in Hrun as (d & w1 & Hd & Hrun).
  apply for_range_parm_lines_ok in Hd as ->.
  apply bind_ok_inv in Hrun as (shape & w2 & Hs & Hrun).
  destruct (Evt.e_nrow_ncol e); [|done].
  apply ret_ok_inv in Hs as [-> ->].
  apply bind_ok_inv in Hrun as (a & w3 & Ha & Hrun).
  apply lift_ok_inv in Ha as [_ ->].
  rewrite alloc_run in Hrun. by injection Hrun as _ <-.
Qed.

Lemma evt_load_evtr_short e iper c l w :
  0 <= Evt.inevtr c ->
  Evt.e_npar e <> 0 ->
  fewer_lines_than (Z.to_nat (Evt.inevtr c)) (stream w) ->
  exists w', Evt.load_evtr e iper c l w = (Raise IndexError, w').
Proof.
  intros Hc Hn Hshort. rewrite evt_load_evtr_parameters by done. unm.
  destruct (for_range_parm_lines_short _ 0 (Evt.e_pak_parms e) ∅ w Hshort)
    as [w' Hw'].
  exists w'. apply run_bind_raise. exact Hw'.
Qed.

(** The stress period, when [surf] is reused and the stream ends before
    the name lines that [evtr] asks for. *)
Lemma evt_period_parameters_short e iper l w c :
  Evt.control_record (Evt.e_nevtop e) (fst (readline (stream w))) = Ok c ->
  Evt.insurf c < 0 ->
  0 <= Evt.inevtr c ->
  Evt.e_npar e <> 0 ->
  fewer_lines_than (Z.to_nat (Evt.inevtr c)) (snd (readline (stream w))) ->
  exists w', Evt.period e iper l w = (Raise IndexError, w').
Proof.
  intros Hc Hs He Hn Hshort. unfold Evt.period. unm.
  rewrite run_bind, f_readline_run, run_bind. unfold lift. rewrite Hc.
  rewrite evt_load_surf_reuse by done. rewrite run_bind. unfold ret at 1.
  set (w1 := {| stream := snd (readline (stream w)); heap := heap w;
                stdout := stdout w |}).
  destruct (evt_load_evtr_short e iper c l w1 He Hn Hshort) as [w' Hw'].
  exists w'. by rewrite run_bind, Hw'.
Qed.

(** One name line that asks for an instance the parameter does not have:
    the array is the one [parameter_bcfill] gives for [static]. *)
Lemma evt_load_evtr_static e iper c l w p shape t0 t1 entry :
  Evt.inevtr c = 1 ->
  Evt.e_npar e <> 0 ->
  Evt.e_pak_parms e = Some p ->
  Evt.e_nrow_ncol e = Some shape ->
  split (strip (fst (readline (stream w)))) !! 0%nat = Some t0 ->
  split (strip (fst (readline (stream w)))) !! 1%nat = Some t1 ->
  bc_parms p !! Evt.parameter_name t0 = Some entry ->
  snd entry !! lower t1 = None ->
  Evt.load_evtr e iper c l w
  = match parameter_bcfill (Evt.e_model e) shape
            {[ Evt.parameter_name t0 := "static" ]} (Some p) with
    | Ok a =>
        (Ok (length (heap w)),
         {| stream := snd (readline (stream w));
            heap := heap w ++ [Util2d a]; stdout := stdout w |})
    | Raise x =>
        (Raise x,
         {| stream := snd (readline (stream w)); heap := heap w;
            stdout := stdout w |})
    end.
Proof.
  intros Hc Hn Hp Hs H0 H1 Hentry Hinst.
  rewrite evt_load_evtr_parameters by (done || lia). unm.
  rewrite Hc, Hp, Hs. unfold Evt.parm_lines. simpl.
  rewrite !run_bind, evt_parm_line_run.
  destruct (split (strip (fst (readline (stream w))))) as [|t0' ts] eqn:Ht;
    [done |].
  injection H0 as ->.
  rewrite (evt_instance_name_fallback p (t0 :: ts) t1 _ entry) by done.
  unfold ret at 1. rewrite insert_empty. unfold ret at 1.
  rewrite run_bind. unfold lift.
  by destruct (parameter_bcfill _ _ _ _).
Qed.

End Parameters.

(* ===================================================================== *)
(** ** Verbosity *)
(* ===================================================================== *)

Section Related.
Context `{Collaborators}.

Lemma related_ret {A B} (R : A -> B -> Prop) a b :
  R a b -> related R (ret a) (ret b).
Proof. intros Hab w1 w2 Hw. simpl. auto. Qed.

Lemma related_raise {A B} (R : A -> B -> Prop) x :
  related R (raise x) (raise x).
Proof. intros w1 w2 Hw. simpl. auto. Qed.

Lemma related_lift {A} (r : result A) : related eq (lift r) (lift r).
Proof. intros w1 w2 Hw. unfold lift. destruct r; auto. Qed.

Lemma related_bind {A1 A2 B1 B2} (R : A1 -> A2 -> Prop) (S : B1 -> B2 -> Prop)
    (c1 : M A1) (c2 : M A2) (k1 : A1 -> M B1) (k2 : A2 -> M B2) :
  related R c1 c2 ->
  (forall a b, R a b -> related S (k1 a) (k2 b)) ->
  related S (bind c1 k1) (bind c2 k2).
Proof.
  intros Hc Hk w1 w2 Hw. rewrite !run_bind. specialize (Hc w1 w2 Hw).
  destruct (c1 w1) as [[a|x1] w1'], (c2 w2) as [[b|x2] w2']; try done.
  destruct Hc as [Hab Hw']. by apply Hk.
Qed.

Lemma related_readline : related eq f_readline f_readline.
Proof.
  intros w1 w2 [Hs Hh]. rewrite !f_readline_run, Hs. simpl.
  split; [done |]. by split.
Qed.

Lemma related_print s1 s2 : related eq (print s1) (print s2).
Proof. intros w1 w2 [Hs Hh]. simpl. split; [done |]. by split. Qed.

(** Printing, or not: the states still differ in what was printed only. *)
Lemma related_when_print b1 s1 b2 s2 :
  related eq (when b1 (print s1)) (when b2 (print s2)).
Proof.
  intros w1 w2 [Hs Hh]. destruct b1, b2; simpl; (split; [done |]); by split.
Qed.

Lemma related_alloc o : related eq (alloc o) (alloc o).
Proof.
  intros w1 w2 [Hs Hh]. rewrite !alloc_run, Hh. simpl.
  split; [done |]. by split.
Qed.

Lemma related_reading {A} (c1 c2 : string -> result (A * string)) :
  (forall f, c1 f = c2 f) -> related eq (reading c1) (reading c2).
Proof.
  intros Hc w1 w2 [Hs Hh]. unfold reading. rewrite Hs, Hc.
  destruct (c2 (stream w2)) as [[a rest]|x]; simpl; (split; [done |]);
    by split.
Qed.

Lemma related_shape_of s : related eq (shape_of s) (shape_of s).
Proof. destruct s; [by apply related_ret | apply related_raise]. Qed.

Lemma related_for_range {L1 L2} (R : L1 -> L2 -> Prop)
    (body1 : nat -> L1 -> M L1) (body2 : nat -> L2 -> M L2) n i l1 l2 :
  (forall i l1 l2, R l1 l2 -> related R (body1 i l1) (body2 i l2)) ->
  R l1 l2 ->
  related R (for_range body1 n i l1) (for_range body2 n i l2).
Proof.
  intros Hb. revert i l1 l2. induction n as [|n IH]; intros i l1 l2 Hl; simpl.
  - by apply related_ret.
  - eapply related_bind; [by apply Hb |]. intros. by apply IH.
Qed.

Lemma related_run {A} (c1 c2 : M A) w :
  related eq c1 c2 ->
  fst (c1 w) = fst (c2 w) /\ same_but_stdout (snd (c1 w)) (snd (c2 w)).
Proof.
  intros Hc. specialize (Hc w w (conj eq_refl eq_refl)).
  destruct (c1 w) as [[a|x1] w1'], (c2 w) as [[b|x2] w2']; try done;
    destruct Hc as [-> Hw]; by split.
Qed.

End Related.

(** Steps through two sequences that are alike. *)
Ltac related_prim :=
  first
    [ apply related_readline
    | apply related_when_print
    | apply related_print
    | apply related_alloc
    | apply related_shape_of
    | apply related_lift
    | apply related_raise
    | apply related_ret; reflexivity ].

Ltac related :=
  unm;
  repeat first
    [ related_prim
    | eapply related_bind; [related_prim | intros ? ? <-] ].

Section Verbosity.
Context `{Collaborators}.
Hypothesis Hblind : verbosity_blind.

Lemma related_evt_header_line fuel :
  related eq (Evt.header_line fuel) (Evt.header_line fuel).
Proof.
  induction fuel as [|fuel IH]; simpl; [apply related_raise |].
  related. destruct (Ascii.eqb _ _); [exact IH | by apply related_ret].
Qed.

Lemma related_evt_parameter_line m1 m2 line :
  related eq (Evt.parameter_line m1 line) (Evt.parameter_line m2 line).
Proof.
  unfold Evt.parameter_line. destruct (contains _ _); [| by apply related_ret].
  cbv zeta. related.
Qed.

Lemma related_evt_load_array e1 e2 dt name :
  evt_env_alike e1 e2 ->
  related eq
    (Evt.load_array (Evt.e_model e1) (Evt.e_nrow_ncol e1) dt name (Evt.e_eud e1))
    (Evt.load_array (Evt.e_model e2) (Evt.e_nrow_ncol e2) dt name (Evt.e_eud e2)).
Proof.
  intros (Hm & _ & _ & _ & -> & ->). unfold Evt.load_array. unm.
  eapply related_bind; [apply related_shape_of | intros s ? <-].
  eapply related_bind with (R := eq); [| intros a ? <-; apply related_alloc].
  apply related_reading. intros f. rewrite Hm. apply Hblind.
Qed.

Lemma related_evt_parm_lines n i pp d :
  related eq (for_range (fun _ => Evt.parm_line pp) n i d)
             (for_range (fun _ => Evt.parm_line pp) n i d).
Proof.
  apply related_for_range; [| done]. intros _ d1 d2 <-.
  unfold Evt.parm_line. related.
Qed.

Lemma related_evt_period e1 e2 iper l :
  evt_env_alike e1 e2 ->
  related eq (Evt.period e1 iper l) (Evt.period e2 iper l).
Proof.
  intros He. pose proof He as (Hm & Hn & Hp & Hk & Hs & Hu).
  unfold Evt.period. unm.
  eapply related_bind; [apply related_readline | intros line ? <-].
  rewrite Hn.
  eapply related_bind; [apply related_lift | intros c ? <-].
  eapply related_bind with (R := eq); [| intros r1 ? <-].
  { unfold Evt.load_surf. destruct (_ >=? _)%Z; [| by apply related_ret].
    unm. eapply related_bind; [apply related_when_print | intros ? ? _].
    by apply related_evt_load_array. }
  eapply related_bind with (R := eq); [| intros r2 ? <-].
  { unfold Evt.load_evtr. destruct (_ >=? _)%Z; [| by apply related_ret].
    rewrite Hp. destruct (_ =? _)%Z.
    - unm. eapply related_bind; [apply related_when_print | intros ? ? _].
      by apply related_evt_load_array.
    - unm. rewrite Hk, Hs. unfold Evt.parm_lines.
      eapply related_bind; [apply related_evt_parm_lines | intros d ? <-].
      eapply related_bind; [apply related_shape_of | intros s ? <-].
      rewrite Hm. destruct Hblind as (_ & _ & Hfill). rewrite Hfill.
      related. }
  eapply related_bind with (R := eq); [| intros r3 ? <-].
  { unfold Evt.load_exdp. destruct (_ >=? _)%Z; [| by apply related_ret].
    unm. eapply related_bind; [apply related_when_print | intros ? ? _].
    by apply related_evt_load_array. }
  destruct (Evt.inievt c) as [c3|]; [| by apply related_ret].
  eapply related_bind with (R := eq); [| intros r4 ? <-; by apply related_ret].
  unfold Evt.load_ievt. destruct (_ >=? _)%Z; [| by apply related_ret].
  unm. eapply related_bind; [apply related_when_print | intros ? ? _].
  by apply related_evt_load_array.
Qed.

Lemma related_evt_load_header fuel m b nper eud :
  related (fun x y => evt_env_alike (fst (fst x)) (fst (fst y))
                      /\ snd (fst x) = snd (fst y) /\ snd x = snd y)
    (Evt.load_header fuel (set_verbose b m) nper eud)
    (Evt.load_header fuel m nper eud).
Proof.
  unfold Evt.load_header. unm.
  eapply related_bind; [apply related_evt_header_line | intros line ? <-].
  eapply related_bind; [apply related_evt_parameter_line | intros [npar l2] ? <-].
  eapply related_bind; [apply related_lift | intros [nevtop ipakcb] ? <-].
  eapply related_bind with (R := eq); [| intros pp ? <-].
  { destruct (_ >? _)%Z; [| by apply related_ret]. unm.
    eapply related_bind with (R := eq); [| intros p ? <-; by apply related_ret].
    apply related_reading. intros f. apply Hblind. }
  destruct nper as [n|]; simpl.
  - apply related_ret. simpl. unfold evt_env_alike. simpl.
    by destruct m.
  - destruct (nrow_ncol_nlay_nper m) as [[[nrow ncol] nlay] n].
    apply related_ret. simpl. unfold evt_env_alike. simpl.
    by destruct m.
Qed.

Lemma related_evt_load_body fuel m b nper eud :
  related eq (Evt.load_body fuel (set_verbose b m) nper eud)
             (Evt.load_body fuel m nper eud).
Proof.
  unfold Evt.load_body, Evt.prelude. unm.
  eapply related_bind
    with (R := fun x y => evt_env_alike (fst (fst (fst x))) (fst (fst (fst y)))
                          /\ snd (fst (fst x)) = snd (fst (fst y))
                          /\ snd (fst x) = snd (fst y) /\ snd x = snd y).
  - eapply related_bind; [apply related_when_print | intros ? ? _].
    eapply related_bind; [apply related_evt_load_header |].
    intros [[e1 ip1] n1] [[e2 ip2] n2] (He & Hip & Hn). simpl in *.
    eapply related_bind with (R := eq); [| intros l0 ? <-; by apply related_ret].
    unfold Evt.initial_locals. related.
  - intros [[[e1 ip1] n1] l1] [[[e2 ip2] n2] l2] (He & Hip & Hn & Hl).
    simpl in *. subst.
    eapply related_bind with (R := eq).
    + unfold Evt.periods. apply related_for_range; [| done].
      intros i l ? <-. by apply related_evt_period.
    + intros l ? <-. destruct He as (_ & -> & _). by apply related_ret.
Qed.

Lemma related_rch_header_line fuel :
  related eq (Rch.header_line fuel) (Rch.header_line fuel).
Proof.
  induction fuel as [|fuel IH]; simpl; [apply related_raise |].
  related. destruct (Ascii.eqb _ _); [exact IH | by apply related_ret].
Qed.

Lemma related_rch_load_array e1 e2 dt name :
  rch_env_alike e1 e2 ->
  related eq
    (Rch.load_array (Rch.e_model e1) (Rch.e_nrow_ncol e1) dt name (Rch.e_eud e1))
    (Rch.load_array (Rch.e_model e2) (Rch.e_nrow_ncol e2) dt name (Rch.e_eud e2)).
Proof.
  intros (Hm & _ & -> & ->). unfold Rch.load_array. unm.
  eapply related_bind; [apply related_shape_of | intros s ? <-].
  eapply related_bind with (R := eq); [| intros a ? <-; apply related_alloc].
  apply related_reading. intros f. rewrite Hm. apply Hblind.
Qed.

Lemma related_rch_period e1 e2 iper l :
  rch_env_alike e1 e2 ->
  related eq (Rch.period e1 iper l) (Rch.period e2 iper l).
Proof.
  intros He. pose proof He as (Hm & Hn & Hs & Hu).
  unfold Rch.period. unm.
  eapply related_bind; [apply related_readline | intros line ? <-].
  rewrite Hn.
  eapply related_bind; [apply related_lift | intros c ? <-].
  eapply related_bind with (R := eq); [| intros r1 ? <-].
  { unfold Rch.load_rech. destruct (_ >=? _)%Z; [| by apply related_ret].
    unm. eapply related_bind; [apply related_print | intros ? ? _].
    by apply related_rch_load_array. }
  destruct (Rch.inirch c) as [c1|]; [| by apply related_ret].
  eapply related_bind with (R := eq); [| intros r2 ? <-; by apply related_ret].
  unfold Rch.load_irch. destruct (_ >=? _)%Z; [| by apply related_ret].
  unm. eapply related_bind; [apply related_print | intros ? ? _].
  by apply related_rch_load_array.
Qed.

Lemma related_rch_load_body fuel m b nper eud :
  related eq (Rch.load_body fuel (set_verbose b m) nper eud)
             (Rch.load_body fuel m nper eud).
Proof.
  unfold Rch.load_body, Rch.prelude. unm.
  eapply related_bind
    with (R := fun x y => rch_env_alike (fst (fst (fst x))) (fst (fst (fst y)))
                          /\ snd (fst (fst x)) = snd (fst (fst y))
                          /\ snd (fst x) = snd (fst y) /\ snd x = snd y).
  - eapply related_bind
      with (R := fun x y => rch_env_alike (fst (fst x)) (fst (fst y))
                            /\ snd (fst x) = snd (fst y) /\ snd x = snd y).
    + unfold Rch.load_header. unm.
      eapply related_bind; [apply related_rch_header_line | intros line ? <-].
      eapply related_bind with (R := eq); [| intros l2 ? <-].
      { unfold Rch.parameter_line. destruct (contains _ _);
          [| by apply related_ret].
        cbv zeta. unm.
        eapply related_bind; [apply related_lift | intros npar ? <-].
        destruct (_ =? _)%Z; [apply related_readline | apply related_raise]. }
      eapply related_bind; [apply related_lift | intros [nrchop irchcb] ? <-].
      destruct nper as [n|]; simpl.
      * apply related_ret. simpl. unfold rch_env_alike. simpl. by destruct m.
      * destruct (nrow_ncol_nlay_nper m) as [[[nrow ncol] nlay] n].
        apply related_ret. simpl. unfold rch_env_alike. simpl. by destruct m.
    + intros [[e1 ip1] n1] [[e2 ip2] n2] (He & Hip & Hn). simpl in *.
      eapply related_bind with (R := eq); [| intros l0 ? <-; by apply related_ret].
      unfold Rch.initial_locals. related.
  - intros [[[e1 ip1] n1] l1] [[[e2 ip2] n2] l2] (He & Hip & Hn & Hl).
    simpl in *. subst.
    eapply related_bind with (R := eq).
    + unfold Rch.periods. apply related_for_range; [| done].
      intros i l ? <-. by apply related_rch_period.
    + intros l ? <-. destruct He as (_ & -> & _). by apply related_ret.
Qed.

Lemma evt_write_periods_verbosity b self k n :
  Evt.write_periods (evt_with_verbosity b self) k n = Evt.write_periods self k n.
Proof. revert n. induction k as [|k IH]; intros n; simpl; [done |]. by rewrite IH. Qed.

Lemma rch_write_periods_verbosity b self k n :
  Rch.write_periods (rch_with_verbosity b self) k n = Rch.write_periods self k n.
Proof. revert n. induction k as [|k IH]; intros n; simpl; [done |]. by rewrite IH. Qed.

End Verbosity.

(** The collaborators of [Constant] never look at the model. *)
Lemma constant_verbosity_blind :
  verbosity_blind (H := Constant.collaborators).
Proof. repeat split. Qed.

(** C8: with collaborators that do not look at the verbosity they are
    handed, loading a file with the verbosity flag on and with it off gives
    the same result (the same arguments for the constructor, or the same
    exception) and leaves the same stream and the same heap; only what was
    printed differs.  [write_file] never reads the flag: the text written
    is the same whatever the verbosity of the model. *)
Theorem verbosity_changes_only_stdout `{Collaborators} :
  verbosity_blind ->
  (forall f m nper eud,
     fst (Evt.load f (set_verbose true m) nper eud)
     = fst (Evt.load f (set_verbose false m) nper eud) /\
     same_but_stdout (snd (Evt.load f (set_verbose true m) nper eud))
                     (snd (Evt.load f (set_verbose false m) nper eud))) /\
  (forall f m nper eud,
     fst (Rch.load f (set_verbose true m) nper eud)
     = fst (Rch.load f (set_verbose false m) nper eud) /\
     same_but_stdout (snd (Rch.load f (set_verbose true m) nper eud))
                     (snd (Rch.load f (set_verbose false m) nper eud))) /\
  (forall self,
     Evt.write_file (evt_with_verbosity true self)
     = Evt.write_file (evt_with_verbosity false self)) /\
  (forall self,
     Rch.write_file (rch_with_verbosity true self)
     = Rch.write_file (rch_with_verbosity false self)) /\
  (forall m name unit_ header format ext unitnumber,
     Lmt.write_file
       (Lmt.__init__ (set_verbose true m) name unit_ header format ext
          unitnumber)
     = Lmt.write_file
         (Lmt.__init__ (set_verbose false m) name unit_ header format ext
            unitnumber)).
Proof.
  intros Hblind. repeat apply conj.
  - intros f m nper eud. unfold Evt.load.
    apply (related_run
             (Evt.load_body _ (set_verbose true m) nper eud)
             (Evt.load_body _ (set_verbose false m) nper eud)).
    replace (set_verbose true m) with (set_verbose true (set_verbose false m))
      by (by destruct m).
    by apply related_evt_load_body.
  - intros f m nper eud. unfold Rch.load.
    apply (related_run
             (Rch.load_body _ (set_verbose true m) nper eud)
             (Rch.load_body _ (set_verbose false m) nper eud)).
    replace (set_verbose true m) with (set_verbose true (set_verbose false m))
      by (by destruct m).
    by apply related_rch_load_body.
  - intros self. unfold Evt.write_file. simpl.
    destruct (nrow_ncol_nlay_nper (Evt.parent self)) as [[[? ?] ?] nper].
    by rewrite !evt_write_periods_verbosity.
  - intros self. unfold Rch.write_file. simpl.
    destruct (nrow_ncol_nlay_nper (Rch.parent self)) as [[[? ?] ?] nper].
    by rewrite !rch_write_periods_verbosity.
  - reflexivity.
Qed.

Lemma verbosity_changes_only_stdout_witness :
  fst (Evt.load Demo.evt_reuse_second (set_verbose true Demo.quiet) None None)
  = fst (Evt.load Demo.evt_reuse_second (set_verbose false Demo.quiet)
           None None) /\
  same_but_stdout
    (snd (Evt.load Demo.evt_reuse_second (set_verbose true Demo.quiet)
            None None))
    (snd (Evt.load Demo.evt_reuse_second (set_verbose false Demo.quiet)
            None None)).
Proof.
  exact (proj1 (verbosity_changes_only_stdout constant_verbosity_blind)
           Demo.evt_reuse_second Demo.quiet None None).
Defined.

(* ===================================================================== *)
(** ** The text [write_file] writes *)
(* ===================================================================== *)

Section WrittenText.

Lemma no_newline_app a b :
  no_newline (a ++ b) = no_newline a && no_newline b.
Proof.
  induction a as [|c a IH]; simpl; [done |].
  rewrite IH. by rewrite andb_assoc.
Qed.

Lemma no_newline_spaces n : no_newline (spaces n) = true.
Proof. induction n; simpl; auto. Qed.

Lemma no_newline_str z : no_newline (str z) = true.
Proof. apply numeral_no_newline, numeral_str. Qed.

Lemma no_newline_fmt w z : no_newline (fmt_d w z) = true.
Proof.
  unfold fmt_d, rjust.
  by rewrite no_newline_app, no_newline_spaces, no_newline_str.
Qed.

Lemma plain_app a b : plain (a ++ b) = plain a && plain b.
Proof.
  induction a as [|c a IH]; simpl; [done |].
  rewrite IH. by rewrite andb_assoc.
Qed.

Lemma plain_spaces n : plain (spaces n) = true.
Proof. induction n; simpl; auto. Qed.

Lemma numeral_plain s : numeral s = true -> plain s = true.
Proof.
  induction s as [|c s IH]; simpl; [done |].
  intros [Hc Hs]%andb_prop. unfold plain_char. by rewrite Hc, IH.
Qed.

Lemma plain_fmt w z : plain (fmt_d w z) = true.
Proof.
  unfold fmt_d, rjust.
  by rewrite plain_app, plain_spaces, (numeral_plain _ (numeral_str z)).
Qed.

Lemma fmt_nonempty w z : fmt_d w z <> "".
Proof.
  unfold fmt_d, rjust. pose proof (str_nonempty z) as Hz.
  destruct (spaces _); simpl; [done | done].
Qed.

(** A line of integer fields does not hold the word [parameter]. *)
Lemma plain_no_parameter s :
  plain s = true -> contains "parameter" (lower s) = false.
Proof.
  induction s as [|c s IH]; [done |].
  simpl plain. intros [Hc Hs]%andb_prop. specialize (IH Hs).
  destruct c as [[] [] [] [] [] [] [] []]; try discriminate Hc;
    simpl; exact IH.
Qed.

(** Nor does it begin with [#]. *)
Lemma plain_first_char s :
  plain s = true -> s <> "" ->
  exists c s', s = String c s' /\ Ascii.eqb c "#" = false.
Proof.
  destruct s as [|c s]; [done |]. simpl. intros [Hc _]%andb_prop _.
  exists c, s. split; [done |].
  destruct c as [[] [] [] [] [] [] [] []]; try discriminate Hc; reflexivity.
Qed.

End WrittenText.

(* ===================================================================== *)
(** ** Loading what [ModflowEvt.write_file] wrote *)
(* ===================================================================== *)

Section Written.
Context `{Collaborators}.

(** The text of a stress period: the control line, then the blocks. *)
Lemma evt_write_period_blocks self n :
  Evt.write_period self n
  = evt_control_line self n ++ nl
    ++ evt_block Surf self n ++ evt_block Evtr self n
    ++ evt_block Exdp self n ++ evt_block Ievt self n.
Proof.
  unfold Evt.write_period, evt_control_line, evt_block.
  cbn [evt_self_timeline evt_read andb].
  destruct (get_kper_entry (Evt.self_surf self) n) as [c0 s0].
  destruct (get_kper_entry (Evt.self_evtr self) n) as [c1 s1].
  destruct (get_kper_entry (Evt.self_exdp self) n) as [c2 s2].
  destruct (get_kper_entry (Evt.self_ievt self) n) as [c3 s3].
  cbn [fst snd]. by rewrite !app_assoc_s.
Qed.

Lemma evt_control_line_no_newline self n :
  no_newline (evt_control_line self n) = true.
Proof.
  unfold evt_control_line.
  by rewrite !no_newline_app, !no_newline_fmt, no_newline_str.
Qed.

(** [load] decodes the codes that [write_file] wrote. *)
Lemma evt_control_record_written self n nper :
  (n < nper)%nat ->
  (forall q, codes_fit (evt_self_timeline q self) nper) ->
  Evt.control_record (Evt.nevtop self) (evt_control_line self n ++ nl)
  = Ok (evt_written_codes self n).
Proof.
  intros Hn Hfit. unfold Evt.control_record. cbv zeta. rewrite split_strip.
  pose proof (Hfit Evtr n Hn) as H1. pose proof (Hfit Exdp n Hn) as H2.
  pose proof (Hfit Ievt n Hn) as H3. cbn [evt_self_timeline] in H1, H2, H3.
  assert (Htok : exists tail,
             split (evt_control_line self n ++ nl)
             = str (fst (get_kper_entry (Evt.self_surf self) n))
               :: str (fst (get_kper_entry (Evt.self_evtr self) n))
               :: str (fst (get_kper_entry (Evt.self_exdp self) n))
               :: str (fst (get_kper_entry (Evt.self_ievt self) n))
               :: tail).
  { unfold evt_control_line. rewrite !app_assoc_s. eexists.
    rewrite split_field by (by apply starts_blank_fmt).
    rewrite split_field by (by apply starts_blank_fmt).
    rewrite split_field by (by apply starts_blank_fmt).
    rewrite split_field; [reflexivity |].
    right. eexists _, _. split; reflexivity. }
  destruct Htok as [tail ->]. unfold getitem. cbn [lookup list_lookup].
  unm. simpl. rewrite !int_str. simpl.
  unfold evt_written_codes. by destruct (Evt.nevtop self =? 2)%Z; simpl;
    rewrite ?int_str.
Qed.

Lemma when_print_run b s w :
  when b (print s) w
  = (Ok tt,
     {| stream := stream w; heap := heap w;
        stdout := if b then stdout w ++ [s] else stdout w |}).
Proof. destruct b, w; reflexivity. Qed.

Lemma evt_load_array_run m shape dt name eud w a rest :
  Util2d_load (stream w) m shape dt name eud = Ok (a, rest) ->
  Evt.load_array m (Some shape) dt name eud w
  = (Ok (length (heap w)),
     {| stream := rest; heap := heap w ++ [Util2d a]; stdout := stdout w |}).
Proof.
  intros Hload. unfold Evt.load_array. unm. rewrite run_bind. simpl.
  rewrite run_bind. unfold reading. by rewrite Hload.
Qed.

(** The four steps of a stress period are [load_quantity] when no
    parameters are in use. *)
Lemma evt_load_surf_quantity e iper c l :
  Evt.load_surf e iper c l
  = load_quantity e Surf iper (Evt.insurf c) (Evt.current_surf l).
Proof. reflexivity. Qed.

Lemma evt_load_evtr_quantity e iper c l :
  Evt.e_npar e = 0 ->
  Evt.load_evtr e iper c l
  = load_quantity e Evtr iper (Evt.inevtr c) (Evt.current_evtr l).
Proof. intros Hn. unfold Evt.load_evtr, load_quantity. by rewrite Hn. Qed.

Lemma evt_load_exdp_quantity e iper c l :
  Evt.load_exdp e iper c l
  = load_quantity e Exdp iper (Evt.inexdp c) (Evt.current_exdp l).
Proof. reflexivity. Qed.

Lemma evt_load_ievt_quantity e iper c3 l :
  Evt.load_ievt e iper c3 l
  = load_quantity e Ievt iper c3 (Evt.current_ievt l).
Proof. reflexivity. Qed.

(** One quantity of a stress period: the block is taken off the stream
    and the reference that results is to an array object that holds what
    the timeline of the package resolves to. *)
Lemma load_quantity_written self eud q i cur w rest :
  (i < model_nper (Evt.parent self))%nat ->
  evt_read q (Evt.nevtop self) = true ->
  entries_decode (Evt.parent self) eud (evt_dtype q) (evt_name q)
    (evt_self_timeline q self) (model_nper (Evt.parent self)) ->
  stream w = evt_block q self i ++ rest ->
  (fst (get_kper_entry (evt_self_timeline q self) i) < 0 ->
   exists x, heap w !! cur = Some (Util2d x) /\
             resolved_array (evt_self_timeline q self) (i - 1) = Some x) ->
  exists r w',
    load_quantity (evt_written_env self eud) q i
      (fst (get_kper_entry (evt_self_timeline q self) i)) cur w
    = (Ok r, w') /\
    stream w' = rest /\
    heap w `prefix_of` heap w' /\
    exists x, heap w' !! r = Some (Util2d x) /\
              resolved_array (evt_self_timeline q self) i = Some x.
Proof.
  intros Hi Hread [_ Hdec] Hstream Hcur.
  destruct (Hdec i Hi) as [Hnew Hold].
  unfold load_quantity, evt_block in *. rewrite Hread in Hstream.
  cbn [andb] in Hstream.
  destruct (Z.geb_spec (fst (get_kper_entry (evt_self_timeline q self) i)) 0)
    as [Hge | Hlt].
  - destruct Hnew as (a & Hres & Hload); [lia |].
    rewrite run_bind, when_print_run.
    cbn [evt_written_env Evt.e_model Evt.e_nrow_ncol Evt.e_eud].
    erewrite evt_load_array_run; [| cbn [stream]; rewrite Hstream; apply Hload].
    cbn [stream heap stdout].
    eexists _, _. split; [reflexivity |]. cbn [stream heap].
    split; [done |]. split; [by apply prefix_app_r |].
    exists a. split; [| done].
    rewrite lookup_app_r by lia. by rewrite Nat.sub_diag.
  - destruct (Hcur Hlt) as (x & Hx & Hres).
    exists cur, w. split; [reflexivity |]. split; [done |]. split; [done |].
    exists x. split; [done |]. rewrite Hold by done. exact Hres.
Qed.

(** The entry of a stress period joins the entries before it. *)
Lemma loaded_entry_step (T : Transient2d) (tl : gmap nat loc) i r x
    (hp hp' : list obj) :
  (forall k, (k < i)%nat ->
     exists r x, tl !! k = Some r /\ hp !! r = Some (Util2d x)
                 /\ resolved_array T k = Some x) ->
  hp `prefix_of` hp' ->
  hp' !! r = Some (Util2d x) ->
  resolved_array T i = Some x ->
  (forall k, (k < S i)%nat ->
     exists r' x', <[i := r]> tl !! k = Some r' /\ hp' !! r' = Some (Util2d x')
                   /\ resolved_array T k = Some x') /\
  ((0 < S i)%nat -> <[i := r]> tl !! (S i - 1)%nat = Some r).
Proof.
  intros Hold Hpre Hr Hx. split.
  - intros k Hk. destruct (decide (k = i)) as [-> | Hne].
    + exists r, x. by rewrite lookup_insert_eq.
    + destruct (Hold k) as (r' & x' & Hk' & Hr' & Hx'); [lia |].
      exists r', x'. rewrite lookup_insert_ne by done.
      split; [done |]. split; [| done]. by eapply prefix_lookup_Some.
  - intros _. replace (S i - 1)%nat with i by lia. by rewrite lookup_insert_eq.
Qed.

(** The current array of a quantity that is reused. *)
Lemma evt_current_resolved self eud q i l hp :
  evt_loaded_so_far self i l hp ->
  evt_read q (Evt.nevtop self) = true ->
  entries_decode (Evt.parent self) eud (evt_dtype q) (evt_name q)
    (evt_self_timeline q self) (model_nper (Evt.parent self)) ->
  fst (get_kper_entry (evt_self_timeline q self) i) < 0 ->
  exists x, hp !! evt_current q l = Some (Util2d x) /\
            resolved_array (evt_self_timeline q self) (i - 1) = Some x.
Proof.
  intros Hinv Hread [Hset _] Hneg. specialize (Hinv q). rewrite Hread in Hinv.
  destruct Hinv as [Hk Hcur].
  destruct i as [|i]; [lia |].
  destruct (Hk i) as (r & x & Hr & Hx & Hres); [lia |].
  replace (S i - 1)%nat with i in * by lia.
  rewrite Hcur in Hr by lia. injection Hr as <-.
  by exists x.
Qed.

End Written.

Section WrittenPeriods.
Context `{Collaborators}.
Variable self : Evt.ModflowEvt.
Variable eud : option ext_unit_dict.

Hypothesis Hfit :
  forall q, codes_fit (evt_self_timeline q self) (model_nper (Evt.parent self)).
Hypothesis Hdec :
  forall q, evt_read q (Evt.nevtop self) = true ->
    entries_decode (Evt.parent self) eud (evt_dtype q) (evt_name q)
      (evt_self_timeline q self) (model_nper (Evt.parent self)).

(** One quantity of a stress period, from the state on entry to the
    period and a heap that has grown since. *)
Lemma load_quantity_in_period q i l hp w rest :
  (i < model_nper (Evt.parent self))%nat ->
  evt_read q (Evt.nevtop self) = true ->
  evt_loaded_so_far self i l hp ->
  hp `prefix_of` heap w ->
  stream w = evt_block q self i ++ rest ->
  exists r w',
    load_quantity (evt_written_env self eud) q i
      (fst (get_kper_entry (evt_self_timeline q self) i)) (evt_current q l) w
    = (Ok r, w') /\
    stream w' = rest /\
    heap w `prefix_of` heap w' /\
    exists x, heap w' !! r = Some (Util2d x) /\
              resolved_array (evt_self_timeline q self) i = Some x.
Proof.
  intros Hi Hread Hinv Hpre Hstream.
  apply (load_quantity_written self eud q i (evt_current q l) w rest);
    auto.
  intros Hneg.
  destruct (evt_current_resolved self eud q i l hp Hinv Hread (Hdec q Hread) Hneg)
    as (x & Hx & Hres).
  exists x. split; [| done]. by eapply prefix_lookup_Some.
Qed.

(** A stress period of the load, on the text [write_file] wrote for it. *)
Lemma evt_period_written i l w rest :
  (i < model_nper (Evt.parent self))%nat ->
  stream w = Evt.write_period self i ++ rest ->
  evt_loaded_so_far self i l (heap w) ->
  exists l' w',
    Evt.period (evt_written_env self eud) i l w = (Ok l', w') /\
    stream w' = rest /\
    evt_loaded_so_far self (S i) l' (heap w').
Proof.
  intros Hi Hstream Hinv.
  rewrite evt_write_period_blocks, !app_assoc_s in Hstream.
  unfold Evt.period. unm. rewrite run_bind, f_readline_run, Hstream.
  rewrite readline_line by apply evt_control_line_no_newline.
  cbn [fst snd]. rewrite run_bind. unfold lift.
  change (Evt.e_nevtop (evt_written_env self eud)) with (Evt.nevtop self).
  rewrite (evt_control_record_written self i _ Hi Hfit).
  set (w0 := {| stream := _; heap := heap w; stdout := stdout w |}).
  (* surf *)
  rewrite evt_load_surf_quantity.
  destruct (load_quantity_in_period Surf i l (heap w) w0
              (evt_block Evtr self i ++ evt_block Exdp self i
               ++ evt_block Ievt self i ++ rest) Hi eq_refl Hinv)
    as (r1 & w1 & Hrun1 & Hs1 & Hp1 & x1 & Hx1 & Hr1); [done | done |].
  cbn [evt_written_codes Evt.insurf evt_self_timeline evt_current] in *.
  rewrite run_bind, Hrun1.
  (* evtr *)
  rewrite evt_load_evtr_quantity by done.
  destruct (load_quantity_in_period Evtr i l (heap w) w1
              (evt_block Exdp self i ++ evt_block Ievt self i ++ rest)
              Hi eq_refl Hinv)
    as (r2 & w2 & Hrun2 & Hs2 & Hp2 & x2 & Hx2 & Hr2); [done | done |].
  cbn [evt_written_codes Evt.inevtr evt_self_timeline evt_current] in *.
  rewrite run_bind, Hrun2.
  (* exdp *)
  rewrite evt_load_exdp_quantity.
  destruct (load_quantity_in_period Exdp i l (heap w) w2
              (evt_block Ievt self i ++ rest) Hi eq_refl Hinv)
    as (r3 & w3 & Hrun3 & Hs3 & Hp3 & x3 & Hx3 & Hr3);
    [by etrans | done |].
  cbn [evt_written_codes Evt.inexdp evt_self_timeline evt_current] in *.
  rewrite run_bind, Hrun3.
  cbn [evt_written_codes Evt.inievt].
  pose proof (Hinv Surf) as [I1 _]. pose proof (Hinv Evtr) as [I2 _].
  pose proof (Hinv Exdp) as [I3 _]. pose proof (Hinv Ievt) as I4.
  cbn [evt_read evt_timeline evt_self_timeline] in I1, I2, I3, I4.
  assert (Hp13 : heap w `prefix_of` heap w3) by (etrans; [|exact Hp3]; by etrans).
  destruct (Z.eqb_spec (Evt.nevtop self) 2) as [Hmode | Hmode].
  - (* ievt is read *)
    assert (Hread : evt_read Ievt (Evt.nevtop self) = true)
      by (cbn [evt_read]; by apply Z.eqb_eq).
    assert (Hmode' : (Evt.nevtop self =? 2)%Z = true) by (by apply Z.eqb_eq).
    cbv iota. rewrite evt_load_ievt_quantity.
    destruct (load_quantity_in_period Ievt i l (heap w) w3 rest Hi Hread Hinv)
      as (r4 & w4 & Hrun4 & Hs4 & Hp4 & x4 & Hx4 & Hr4);
      [done | by rewrite app_empty_r in Hs3 || exact Hs3 |].
    cbn [evt_self_timeline evt_current] in *.
    rewrite run_bind, Hrun4.
    eexists _, w4. split; [reflexivity |]. split; [done |].
    destruct I4 as [I4 _].
    intros [| | |]; cbn [evt_read evt_timeline evt_current evt_self_timeline
                         Evt.surf Evt.evtr Evt.exdp Evt.ievt
                         Evt.current_surf Evt.current_evtr Evt.current_exdp
                         Evt.current_ievt];
      rewrite ?Hmode'.
    + eapply loaded_entry_step; [exact I1 | by etrans | | exact Hr1].
      eapply prefix_lookup_Some; [exact Hx1 |]. etrans; [exact Hp2 |]. by etrans.
    + eapply loaded_entry_step; [exact I2 | by etrans | | exact Hr2].
      eapply prefix_lookup_Some; [exact Hx2 |]. by etrans.
    + eapply loaded_entry_step; [exact I3 | by etrans | | exact Hr3].
      by eapply prefix_lookup_Some.
    + eapply loaded_entry_step; [exact I4 | by etrans | exact Hx4 | exact Hr4].
  - (* ievt is gated off: its block is empty *)
    assert (Hread : evt_read Ievt (Evt.nevtop self) = false)
      by (cbn [evt_read]; by apply Z.eqb_neq).
    assert (Hmode' : (Evt.nevtop self =? 2)%Z = false) by (by apply Z.eqb_neq).
    assert (Hs3' : stream w3 = rest).
    { rewrite Hs3. unfold evt_block. by rewrite Hread. }
    cbv iota in I4. cbv iota.
    eexists _, w3. split; [reflexivity |]. split; [done |].
    intros [| | |]; cbn [evt_read evt_timeline evt_current evt_self_timeline
                         Evt.surf Evt.evtr Evt.exdp Evt.ievt
                         Evt.current_surf Evt.current_evtr Evt.current_exdp
                         Evt.current_ievt];
      rewrite ?Hmode'.
    + eapply loaded_entry_step; [exact I1 | done | | exact Hr1].
      eapply prefix_lookup_Some; [exact Hx1 |]. by etrans.
    + eapply loaded_entry_step; [exact I2 | done | | exact Hr2].
      by eapply prefix_lookup_Some.
    + eapply loaded_entry_step; [exact I3 | done | exact Hx3 | exact Hr3].
    + exact I4.
Qed.

Lemma evt_periods_written n i l w rest :
  (i + n <= model_nper (Evt.parent self))%nat ->
  stream w = Evt.write_periods self n i ++ rest ->
  evt_loaded_so_far self i l (heap w) ->
  exists l' w',
    Evt.periods (evt_written_env self eud) n i l w = (Ok l', w') /\
    stream w' = rest /\
    evt_loaded_so_far self (i + n) l' (heap w').
Proof.
  revert i l w. induction n as [|n IH]; intros i l w Hn Hstream Hinv.
  - exists l, w. split; [reflexivity |]. split; [done |].
    by rewrite Nat.add_0_r.
  - cbn [Evt.write_periods] in Hstream. rewrite app_assoc_s in Hstream.
    destruct (evt_period_written i l w _ ltac:(lia) Hstream Hinv)
      as (l1 & w1 & Hp & Hs1 & Hinv1).
    destruct (IH (S i) l1 w1 ltac:(lia) Hs1 Hinv1) as (l' & w' & Hrun & Hs & Hinv').
    exists l', w'. split; [| split; [done |]].
    + unfold Evt.periods in *. cbn [for_range]. by rewrite run_bind, Hp.
    + by replace (i + S n)%nat with (S i + n)%nat by lia.
Qed.

End WrittenPeriods.

Section WrittenHeader.
Context `{Collaborators}.

(** The heading [__init__] builds begins with [#]; it is one line when
    the package name and the version name are. *)
Lemma init_heading_ok name version :
  no_newline name = true -> no_newline version = true ->
  (exists h', Evt.init_heading name version = String "#" h') /\
  no_newline (Evt.init_heading name version) = true.
Proof.
  intros Hn Hv. unfold Evt.init_heading. split.
  - eexists. rewrite !app_assoc_s. reflexivity.
  - rewrite !no_newline_app, Hn, Hv. reflexivity.
Qed.

(** Dataset 0 of a written file: the heading is passed over and the next
    line, which holds integer fields, is returned. *)
Lemma evt_header_line_written fuel h' l2 rest w :
  no_newline (String "#" h') = true ->
  plain l2 = true -> l2 <> "" -> no_newline l2 = true ->
  stream w = String "#" h' ++ nl ++ l2 ++ nl ++ rest ->
  Evt.header_line (S (S fuel)) w
  = (Ok (l2 ++ nl),
     {| stream := rest; heap := heap w; stdout := stdout w |}).
Proof.
  intros Hh Hp Hne Hl Hstream.
  destruct (plain_first_char l2 Hp Hne) as (c & l2' & -> & Hc).
  cbn [Evt.header_line]. unm.
  rewrite run_bind, f_readline_run, Hstream, readline_line by done.
  cbn [fst snd]. rewrite run_bind. unfold lift.
  change (first_char (String "#" h' ++ nl)) with (@Ok ascii "#"%char).
  cbv beta iota. change (Ascii.eqb "#" "#") with true. cbv iota.
  rewrite run_bind, f_readline_run. cbn [stream heap stdout].
  rewrite readline_line by done. cbn [fst snd]. rewrite run_bind.
  change (first_char (String c l2' ++ nl)) with (@Ok ascii c).
  cbv beta iota. by rewrite Hc.
Qed.

Lemma evt_dataset2_written nevtop ipakcb :
  (String.length (str ipakcb) < 10)%nat ->
  Evt.dataset2 ((fmt_d 10 nevtop ++ fmt_d 10 ipakcb) ++ nl)
  = Ok (nevtop, ipakcb).
Proof.
  intros Hfit. unfold Evt.dataset2. cbv zeta. rewrite split_strip.
  rewrite !app_assoc_s.
  rewrite split_field by (by apply starts_blank_fmt).
  rewrite split_field by (right; eexists _, _; split; reflexivity).
  unfold getitem. cbn [lookup list_lookup]. unm. simpl.
  by rewrite !int_str.
Qed.

(** Everything before the loop, on a written file. *)
Lemma evt_prelude_written self eud h' :
  Evt.heading self = String "#" h' ->
  no_newline (Evt.heading self) = true ->
  (String.length (str (Evt.ipakcb self)) < 10)%nat ->
  exists w0,
    Evt.prelude (S (String.length (Evt.write_file self))) (Evt.parent self)
      None eud (Evt.start (Evt.write_file self))
    = (Ok (evt_written_env self eud, Evt.ipakcb self,
           model_nper (Evt.parent self),
           Evt.Locals ∅ ∅ ∅ ∅ 0%nat 1%nat 2%nat 3%nat), w0) /\
    stream w0 = Evt.write_periods self (model_nper (Evt.parent self)) 0 /\
    heap w0 = [EmptyList; EmptyList; EmptyList; EmptyList].
Proof.
  intros Hh Hline Hfit.
  unfold Evt.write_file, evt_written_env, model_nper, model_shape.
  destruct (nrow_ncol_nlay_nper (Evt.parent self))
    as [[[nrow ncol] nlay] nper] eqn:Hgeo.
  set (l2 := fmt_d 10 (Evt.nevtop self) ++ fmt_d 10 (Evt.ipakcb self)).
  set (body := Evt.write_periods self nper 0).
  assert (Hf : (Evt.heading self ++ nl) ++ (l2 ++ nl) ++ body
               = String "#" h' ++ nl ++ l2 ++ nl ++ body).
  { rewrite Hh. by rewrite !app_assoc_s. }
  replace ((Evt.heading self ++ nl)
           ++ (fmt_d 10 (Evt.nevtop self) ++ fmt_d 10 (Evt.ipakcb self) ++ nl)
           ++ body)
    with (String "#" h' ++ nl ++ l2 ++ nl ++ body)
    by (rewrite <- Hf; unfold l2; by rewrite !app_assoc_s).
  assert (Hp2 : plain l2 = true)
    by (unfold l2; by rewrite plain_app, !plain_fmt).
  assert (Hn2 : no_newline l2 = true)
    by (unfold l2; by rewrite no_newline_app, !no_newline_fmt).
  assert (Hne2 : l2 <> "").
  { unfold l2. pose proof (fmt_nonempty 10 (Evt.nevtop self)).
    by destruct (fmt_d 10 (Evt.nevtop self)). }
  rewrite Hh in Hline.
  cbn [String.append String.length].
  unfold Evt.prelude, Evt.load_header. unm.
  rewrite run_bind, when_print_run, run_bind, run_bind.
  erewrite evt_header_line_written; [| done | exact Hp2 | exact Hne2 | exact Hn2
                                     | reflexivity].
  rewrite run_bind. unfold Evt.parameter_line.
  rewrite plain_no_parameter by (by rewrite plain_app, Hp2).
  unfold ret at 1. rewrite run_bind. unfold lift. unfold l2.
  rewrite evt_dataset2_written by done.
  rewrite run_bind. cbn [Z.gtb Z.compare]. unfold ret at 1.
  rewrite Hgeo. unfold ret at 1.
  rewrite run_bind. unfold Evt.initial_locals. unm.
  rewrite !run_bind, !alloc_run. cbn [stream heap stdout Evt.start].
  eexists. split; [reflexivity |]. by split.
Qed.

End WrittenHeader.

(** *** The round trip with the collaborators of [Constant] *)

Section ConstantRoundTrip.
Import Constant.

Lemma constant_codes_fit (t : timeline) nper :
  codes_fit (H := collaborators) t nper.
Proof.
  intros n _. cbn [get_kper_entry collaborators]. unfold kper_entry.
  destruct (t !! n); vm_compute; lia.
Qed.

(** [decode] reads back what [file_entry] wrote and leaves the rest. *)
Lemma constant_decode_entry a rest m shape dt name eud :
  decode (file_entry a ++ rest) m shape dt name eud = Ok (a, rest).
Proof.
  unfold decode, file_entry.
  replace (("CONSTANT " ++ str a ++ nl) ++ rest)
    with (("CONSTANT " ++ str a) ++ nl ++ rest)
    by (by rewrite !app_assoc_s).
  rewrite readline_line
    by (by rewrite no_newline_app, no_newline_str).
  rewrite split_strip.
  change (("CONSTANT " ++ str a) ++ nl)
    with ("CONSTANT" ++ String " " (str a ++ nl)).
  rewrite split_word; [| reflexivity | right; by eexists _, _].
  rewrite split_space by reflexivity.
  rewrite split_word; [| apply word_str | right; by eexists _, _].
  change (split nl) with (@nil string).
  change (String.eqb (lower "CONSTANT") "constant") with true.
  cbv iota. unm. by rewrite int_str.
Qed.

Lemma constant_entries_decode m eud dt name (t : timeline) nper :
  is_Some (t !! 0%nat) ->
  entries_decode (H := collaborators) m eud dt name t nper.
Proof.
  intros [a0 H0]. split.
  - cbn [get_kper_entry collaborators]. unfold kper_entry. by rewrite H0.
  - intros n Hn. cbn [get_kper_entry resolved_array Util2d_load collaborators].
    unfold kper_entry. destruct (t !! n) as [a|] eqn:Hn'; cbn [fst snd]; split.
    + intros _. exists a. split.
      * destruct n; cbn [resolved]; by rewrite Hn'.
      * intros rest. apply constant_decode_entry.
    + lia.
    + lia.
    + intros _. destruct n as [|n]; [done |].
      cbn [resolved]. rewrite Hn'. by replace (S n - 1)%nat with n by lia.
Qed.

End ConstantRoundTrip.

(* ===================================================================== *)
(** ** The header of a package file *)
(* ===================================================================== *)

Section HeaderLoop.
Context `{Collaborators}.

(** The two loaders have the same loop over the comment lines. *)
Lemma rch_header_line_evt : Rch.header_line = Evt.header_line.
Proof. reflexivity. Qed.

Lemma readline_no_newline s : no_newline s = true -> readline s = (s, "").
Proof.
  induction s as [|c s IH]; [done |]. simpl.
  intros [Hc Hs]%andb_prop. apply negb_true_iff in Hc.
  by rewrite Hc, (IH Hs).
Qed.

Lemma length_comment_lines bs :
  (2 * length bs <= String.length (comment_lines bs))%nat.
Proof.
  induction bs as [|b bs IH]; simpl; [lia |].
  rewrite !length_app_s. simpl. lia.
Qed.

(** One turn of the loop on a comment line. *)
Lemma header_line_comment fuel b rest w :
  no_newline b = true ->
  stream w = String "#" b ++ nl ++ rest ->
  Evt.header_line (S fuel) w
  = Evt.header_line fuel
      {| stream := rest; heap := heap w; stdout := stdout w |}.
Proof.
  intros Hb Hs. cbn [Evt.header_line]. unm.
  rewrite run_bind, f_readline_run, Hs.
  rewrite (readline_line (String "#" b)) by done.
  cbn [fst snd]. rewrite run_bind. unfold lift.
  change (first_char (String "#" b ++ nl)) with (@Ok ascii "#"%char).
  cbv beta iota. by change (Ascii.eqb "#" "#") with true.
Qed.

Lemma header_line_skips fuel bs line rest w :
  forallb no_newline bs = true ->
  no_newline line = true -> not_comment line = true ->
  stream w = comment_lines bs ++ line ++ nl ++ rest ->
  (length bs < fuel)%nat ->
  Evt.header_line fuel w
  = (Ok (line ++ nl),
     {| stream := rest; heap := heap w; stdout := stdout w |}).
Proof.
  revert fuel w. induction bs as [|b bs IH]; intros fuel w Hbs Hl Hc Hs Hf.
  - destruct fuel as [|fuel]; [lia |]. cbn [comment_lines] in Hs.
    change ("" ++ line ++ nl ++ rest) with (line ++ nl ++ rest) in Hs.
    cbn [Evt.header_line]. unm.
    rewrite run_bind, f_readline_run, Hs, readline_line by done.
    cbn [fst snd]. rewrite run_bind. unfold lift.
    destruct line as [|c line]; [reflexivity |].
    change (first_char (String c line ++ nl)) with (@Ok ascii c).
    cbv beta iota. simpl in Hc. apply negb_true_iff in Hc. by rewrite Hc.
  - destruct fuel as [|fuel]; [simpl in Hf; lia |].
    cbn [forallb] in Hbs. apply andb_prop in Hbs as [Hb Hbs].
    cbn [comment_lines] in Hs. rewrite !app_assoc_s in Hs.
    rewrite (header_line_comment fuel b _ w Hb Hs).
    erewrite IH; [reflexivity | done | done | done | reflexivity |].
    simpl in Hf. lia.
Qed.

(** The loop at the end of the file. *)
Lemma header_line_end fuel bs last w :
  forallb no_newline bs = true ->
  comment_tail last = true ->
  stream w = comment_lines bs ++ last ->
  (S (length bs) < fuel)%nat ->
  Evt.header_line fuel w
  = (Raise IndexError,
     {| stream := ""; heap := heap w; stdout := stdout w |}).
Proof.
  revert fuel w. induction bs as [|b bs IH]; intros fuel w Hbs Hl Hs Hf.
  - destruct fuel as [|[|fuel]]; [lia | lia |]. cbn [comment_lines] in Hs.
    change ("" ++ last) with last in Hs.
    destruct last as [|c b].
    + cbn [Evt.header_line]. unm.
      by rewrite run_bind, f_readline_run, Hs.
    + simpl in Hl. apply andb_prop in Hl as [Hc Hb].
      apply Ascii.eqb_eq in Hc as ->.
      assert (Hn : no_newline (String "#" b) = true) by done.
      cbn [Evt.header_line]. unm.
      rewrite run_bind, f_readline_run, Hs, (readline_no_newline _ Hn).
      cbn [fst snd]. rewrite run_bind. unfold lift.
      cbn [first_char]. cbv beta iota.
      change (Ascii.eqb "#" "#") with true. cbv iota.
      by rewrite run_bind, f_readline_run.
  - destruct fuel as [|fuel]; [lia |].
    cbn [forallb] in Hbs. apply andb_prop in Hbs as [Hb Hbs].
    cbn [comment_lines] in Hs. rewrite !app_assoc_s in Hs.
    rewrite (header_line_comment fuel b _ w Hb Hs).
    erewrite IH; [reflexivity | done | done | reflexivity |].
    simpl in Hf. lia.
Qed.

(** The bound on the turns of the loop is never reached: every turn that
    goes on has taken a line that begins with [#] off the stream, so more
    turns than the stream has characters are enough, and the loop ends by
    returning a line or, at the end of the file, with [IndexError]. *)
Lemma header_line_fuel fuel w x w' :
  (String.length (stream w) < fuel)%nat ->
  Evt.header_line fuel w = (Raise x, w') ->
  x = IndexError.
Proof.
  revert w. induction fuel as [|fuel IH]; intros w Hf; [lia |].
  cbn [Evt.header_line]. unm.
  rewrite run_bind, f_readline_run, run_bind. unfold lift.
  destruct (fst (readline (stream w))) as [|c l] eqn:Hline; cbn [first_char].
  - by intros [= <- _].
  - destruct (Ascii.eqb c "#"); [| discriminate].
    apply IH. cbn [stream].
    pose proof (readline_shorter _ _ _ Hline). lia.
Qed.

End HeaderLoop.

(** X1: the loop over dataset 0 passes over every leading line that begins
    with [#], however many there are, and returns the first line that does
    not, with the stream left after that line.  The bound on the turns the
    loaders are modelled with is never reached. *)
Theorem header_loop_skips_comments `{Collaborators} bs line rest w :
  forallb no_newline bs = true ->
  no_newline line = true ->
  not_comment line = true ->
  stream w = comment_lines bs ++ line ++ nl ++ rest ->
  Evt.header_line (S (String.length (stream w))) w
  = (Ok (line ++ nl),
     {| stream := rest; heap := heap w; stdout := stdout w |}) /\
  Rch.header_line (S (String.length (stream w))) w
  = (Ok (line ++ nl),
     {| stream := rest; heap := heap w; stdout := stdout w |}).
Proof.
  intros Hbs Hl Hc Hs.
  assert (Hf : (length bs < S (String.length (stream w)))%nat).
  { rewrite Hs, length_app_s. pose proof (length_comment_lines bs). lia. }
  pose proof (header_line_skips _ bs line rest w Hbs Hl Hc Hs Hf) as Hrun.
  split; [exact Hrun |]. by rewrite rch_header_line_evt.
Qed.

Lemma header_loop_skips_comments_witness :
  Evt.header_line (H := Constant.collaborators)
    (S (String.length (stream (Evt.start Demo.rch_unit7))))
    (Evt.start Demo.rch_unit7)
  = (Ok ("         3         7" ++ nl),
     {| stream :=
          "         1         1 # period 1" ++ nl ++
          "CONSTANT 5" ++ nl ++
          "        -1        -1 # period 2" ++ nl;
        heap := []; stdout := [] |}) /\
  Rch.header_line (H := Constant.collaborators)
    (S (String.length (stream (Evt.start Demo.rch_unit7))))
    (Evt.start Demo.rch_unit7)
  = (Ok ("         3         7" ++ nl),
     {| stream :=
          "         1         1 # period 1" ++ nl ++
          "CONSTANT 5" ++ nl ++
          "        -1        -1 # period 2" ++ nl;
        heap := []; stdout := [] |}).
Proof.
  apply (header_loop_skips_comments (H := Constant.collaborators)
           [" RCH"] "         3         7"
           ("         1         1 # period 1" ++ nl ++
            "CONSTANT 5" ++ nl ++
            "        -1        -1 # period 2" ++ nl)
           (Evt.start Demo.rch_unit7)); reflexivity.
Defined.

(** X2: a file that holds nothing, or comment lines only, cannot be loaded:
    the loop over dataset 0 reaches the end of the file, where [line[0]]
    raises [IndexError]; no object has been made by then. *)
Theorem comment_only_file_raises_index_error `{Collaborators}
    bs last m nper eud :
  forallb no_newline bs = true ->
  comment_tail last = true ->
  (exists w',
     Evt.load (comment_lines bs ++ last) m nper eud = (Raise IndexError, w')
     /\ stream w' = "" /\ heap w' = []) /\
  (exists w',
     Rch.load (comment_lines bs ++ last) m nper eud = (Raise IndexError, w')
     /\ stream w' = "" /\ heap w' = []).
Proof.
  intros Hbs Hl.
  set (f := comment_lines bs ++ last).
  assert (Hrun : forall w, stream w = f ->
            Evt.header_line (S (String.length f)) w
            = (Raise IndexError,
               {| stream := ""; heap := heap w; stdout := stdout w |})).
  { intros w Hw.
    assert (Hf : (S (length bs) < S (String.length f))%nat \/ f = "").
    { unfold f. pose proof (length_comment_lines bs).
      destruct bs as [|b bs]; [| left; rewrite length_app_s; simpl in *; lia].
      destruct last; [by right | left; simpl; lia]. }
    destruct Hf as [Hf | Hf].
    - by rewrite (header_line_end _ bs last w Hbs Hl Hw Hf).
    - rewrite Hf in *. cbn [String.length Evt.header_line]. unm.
      by rewrite run_bind, f_readline_run, Hw. }
  split.
  - unfold Evt.load, Evt.load_body, Evt.prelude, Evt.load_header. unm.
    rewrite run_bind, run_bind, when_print_run.
    erewrite (run_bind_raise (bind (Evt.header_line _) _)); cycle 1.
    { by rewrite run_bind, Hrun. }
    eexists; split; [reflexivity | by split].
  - unfold Rch.load, Rch.load_body, Rch.prelude, Rch.load_header. unm.
    rewrite rch_header_line_evt.
    rewrite run_bind, run_bind, run_bind, Hrun by done.
    eexists; split; [reflexivity | by split].
Qed.

Lemma comment_only_file_raises_index_error_witness :
  (exists w',
     Evt.load ("# EVT" ++ nl ++ "# no data") Demo.quiet None None
     = (Raise IndexError, w') /\ stream w' = "" /\ heap w' = []) /\
  (exists w',
     Rch.load ("# EVT" ++ nl ++ "# no data") Demo.quiet None None
     = (Raise IndexError, w') /\ stream w' = "" /\ heap w' = []).
Proof.
  apply (comment_only_file_raises_index_error (H := Constant.collaborators)
           [" EVT"] "# no data" Demo.quiet None None); reflexivity.
Defined.

Section ParameterLine.
Context `{Collaborators}.

(** The [PARAMETER] line of a recharge file with a count other than 0. *)
Lemma rch_parameter_line_assert line w v n :
  contains "parameter" (lower line) = true ->
  split (strip line) !! 1%nat = Some v ->
  int v = Ok n -> n <> 0 ->
  Rch.parameter_line line w = (Raise AssertionError, w).
Proof.
  intros Hp Hv Hn Hne. unfold Rch.parameter_line. rewrite Hp. unm.
  rewrite run_bind. unfold lift, getitem. rewrite Hv. simpl. rewrite Hn.
  by destruct (Z.eqb_spec n 0).
Qed.

End ParameterLine.

(** X3: the recharge loader does not take parameters.  When the first line
    after the comments holds the word [parameter] (in any case) and its
    second field is an integer other than 0, the load stops with
    [AssertionError] right after that line: nothing was printed, no object
    was made, and the rest of the file was not read. *)
Theorem rch_parameters_not_supported `{Collaborators}
    bs line rest m nper eud v n :
  forallb no_newline bs = true ->
  no_newline line = true ->
  not_comment line = true ->
  contains "parameter" (lower (line ++ nl)) = true ->
  split (strip (line ++ nl)) !! 1%nat = Some v ->
  int v = Ok n ->
  n <> 0 ->
  Rch.load (comment_lines bs ++ line ++ nl ++ rest) m nper eud
  = (Raise AssertionError, {| stream := rest; heap := []; stdout := [] |}).
Proof.
  intros Hbs Hl Hc Hp Hv Hn Hne.
  unfold Rch.load, Rch.load_body, Rch.prelude, Rch.load_header. unm.
  rewrite rch_header_line_evt.
  set (f := comment_lines bs ++ line ++ nl ++ rest).
  assert (Hf : (length bs < S (String.length f))%nat).
  { unfold f. rewrite length_app_s. pose proof (length_comment_lines bs). lia. }
  rewrite run_bind, run_bind, run_bind.
  rewrite (header_line_skips _ bs line rest (Rch.start f) Hbs Hl Hc eq_refl Hf).
  by rewrite run_bind, (rch_parameter_line_assert _ _ v n).
Qed.

Lemma rch_parameters_not_supported_witness :
  Rch.load (comment_lines [" RCH"] ++ "PARAMETER 2" ++ nl
              ++ "         3         0" ++ nl)
    Demo.quiet None None
  = (Raise AssertionError,
     {| stream := "         3         0" ++ nl; heap := []; stdout := [] |}).
Proof.
  apply (rch_parameters_not_supported (H := Constant.collaborators)
           [" RCH"] "PARAMETER 2" ("         3         0" ++ nl)
           Demo.quiet None None "2" 2); (reflexivity || discriminate).
Defined.

(* ===================================================================== *)
(** ** A load with the number of stress periods passed in *)
(* ===================================================================== *)

Section ExplicitNper.
Context `{Collaborators}.

Lemma evt_load_array_unbound m dt name eud w :
  Evt.load_array m None dt name eud w = (Raise UnboundLocalError, w).
Proof. reflexivity. Qed.

Lemma rch_load_array_unbound m dt name eud w :
  Rch.load_array m None dt name eud w = (Raise UnboundLocalError, w).
Proof. reflexivity. Qed.

(** With [nper] passed in, the environment of the loop has no grid shape
    and the loop runs [nper] times. *)
Lemma evt_prelude_explicit fuel m n eud w e ip n' l0 w0 :
  Evt.prelude fuel m (Some n) eud w = (Ok (e, ip, n', l0), w0) ->
  Evt.e_nrow_ncol e = None /\ n' = n.
Proof.
  unfold Evt.prelude, Evt.load_header. unm. intros Hp.
  apply bind_ok_inv in Hp as (? & w1 & _ & Hp).
  apply bind_ok_inv in Hp as (h & w2 & Hh & Hp).
  apply bind_ok_inv in Hp as (l0' & w3 & _ & Hp).
  apply ret_ok_inv in Hp as [[= <- _] _].
  apply bind_ok_inv in Hh as (line & w4 & _ & Hh).
  apply bind_ok_inv in Hh as ([npar line'] & w5 & _ & Hh).
  apply bind_ok_inv in Hh as ([nevtop ipakcb] & w6 & _ & Hh).
  apply bind_ok_inv in Hh as (pp & w7 & _ & Hh).
  by apply ret_ok_inv in Hh as [[= -> _ ->] _].
Qed.

Lemma rch_prelude_explicit fuel m n eud w e ip n' l0 w0 :
  Rch.prelude fuel m (Some n) eud w = (Ok (e, ip, n', l0), w0) ->
  Rch.e_nrow_ncol e = None /\ n' = n.
Proof.
  unfold Rch.prelude, Rch.load_header. unm. intros Hp.
  apply bind_ok_inv in Hp as (h & w2 & Hh & Hp).
  apply bind_ok_inv in Hp as (l0' & w3 & _ & Hp).
  apply ret_ok_inv in Hp as [[= <- _] _].
  apply bind_ok_inv in Hh as (line & w4 & _ & Hh).
  apply bind_ok_inv in Hh as (line' & w5 & _ & Hh).
  apply bind_ok_inv in Hh as ([nrchop irchcb] & w6 & _ & Hh).
  by apply ret_ok_inv in Hh as [[= -> _ ->] _].
Qed.

(** Without a grid shape, a step of a stress period that returns has kept
    the current array and left the state alone. *)
Lemma evt_load_surf_unbound e iper c l w r w' :
  Evt.e_nrow_ncol e = None ->
  Evt.load_surf e iper c l w = (Ok r, w') ->
  r = Evt.current_surf l /\ heap w' = heap w.
Proof.
  intros He. unfold Evt.load_surf. destruct (Evt.insurf c >=? 0)%Z.
  - unm. rewrite He, run_bind, when_print_run. discriminate.
  - by intros [= <- <-].
Qed.

Lemma evt_load_exdp_unbound e iper c l w r w' :
  Evt.e_nrow_ncol e = None ->
  Evt.load_exdp e iper c l w = (Ok r, w') ->
  r = Evt.current_exdp l /\ heap w' = heap w.
Proof.
  intros He. unfold Evt.load_exdp. destruct (Evt.inexdp c >=? 0)%Z.
  - unm. rewrite He, run_bind, when_print_run. discriminate.
  - by intros [= <- <-].
Qed.

Lemma evt_load_ievt_unbound e iper c3 l w r w' :
  Evt.e_nrow_ncol e = None ->
  Evt.load_ievt e iper c3 l w = (Ok r, w') ->
  r = Evt.current_ievt l /\ heap w' = heap w.
Proof.
  intros He. unfold Evt.load_ievt. destruct (c3 >=? 0)%Z.
  - unm. rewrite He, run_bind, when_print_run. discriminate.
  - by intros [= <- <-].
Qed.

Lemma evt_load_evtr_unbound e iper c l w r w' :
  Evt.e_nrow_ncol e = None ->
  Evt.load_evtr e iper c l w = (Ok r, w') ->
  r = Evt.current_evtr l /\ heap w' = heap w.
Proof.
  intros He. unfold Evt.load_evtr. destruct (Evt.inevtr c >=? 0)%Z.
  - destruct (Evt.e_npar e =? 0)%Z.
    + unm. rewrite He, run_bind, when_print_run. discriminate.
    + unm. rewrite He, run_bind.
      destruct (Evt.parm_lines _ _ _ w) as [[d|x] w1]; discriminate.
  - by intros [= <- <-].
Qed.

Lemma evt_period_unbound e iper l w l' w' :
  Evt.e_nrow_ncol e = None ->
  Evt.period e iper l w = (Ok l', w') ->
  heap w' = heap w /\ forall q, evt_current q l' = evt_current q l.
Proof.
  intros He. unfold Evt.period. unm. intros Hp.
  apply bind_ok_inv in Hp as (line & w1 & Hline & Hp).
  rewrite f_readline_run in Hline. injection Hline as <- <-.
  apply bind_ok_inv in Hp as (c & w2 & Hc & Hp).
  apply lift_ok_inv in Hc as [Hc ->].
  apply bind_ok_inv in Hp as (r1 & w3 & H1 & Hp).
  apply bind_ok_inv in Hp as (r2 & w4 & H2 & Hp).
  apply bind_ok_inv in Hp as (r3 & w5 & H3 & Hp).
  apply (evt_load_surf_unbound _ _ _ _ _ _ _ He) in H1 as [-> E1].
  apply (evt_load_evtr_unbound _ _ _ _ _ _ _ He) in H2 as [-> E2].
  apply (evt_load_exdp_unbound _ _ _ _ _ _ _ He) in H3 as [-> E3].
  destruct (Evt.inievt c) as [c3|].
  - apply bind_ok_inv in Hp as (r4 & w6 & H4 & Hp).
    apply (evt_load_ievt_unbound _ _ _ _ _ _ _ He) in H4 as [-> E4].
    apply ret_ok_inv in Hp as [-> ->].
    split; [by rewrite E4, E3, E2, E1 | by intros []].
  - apply ret_ok_inv in Hp as [-> ->].
    split; [by rewrite E3, E2, E1 | by intros []].
Qed.

Lemma evt_periods_unbound e n i l w l' w' :
  Evt.e_nrow_ncol e = None ->
  Evt.periods e n i l w = (Ok l', w') ->
  heap w' = heap w /\
  (forall q, evt_current q l' = evt_current q l) /\
  (forall q j r,
     evt_timeline q l' !! j = Some r ->
     evt_timeline q l !! j = Some r \/ r = evt_current q l).
Proof.
  intros He Hrun.
  pose (I := fun (_ : nat) (l1 : Evt.locals) (w1 : world) =>
               heap w1 = heap w /\
               (forall q, evt_current q l1 = evt_current q l) /\
               (forall q j r,
                  evt_timeline q l1 !! j = Some r ->
                  evt_timeline q l !! j = Some r \/ r = evt_current q l)).
  change (I (i + n)%nat l' w').
  eapply (for_range_invariant (Evt.period e) I); [| | exact Hrun].
  - intros i1 l1 w1 l2 w2 (Hh & Hcur & Htl) Hp.
    destruct (evt_period_unbound _ _ _ _ _ _ He Hp) as [Hh2 Hcur2].
    apply evt_period_ok in Hp as (c & _ & Hq).
    split; [by rewrite Hh2 |]. split; [intros q; by rewrite Hcur2 |].
    intros q j r Hj. specialize (Hq q).
    destruct (evt_code q c) as [v|]; destruct Hq as [Hq _];
      rewrite Hq in Hj; [| by apply Htl].
    destruct (decide (j = i1)) as [-> | Hne].
    + rewrite lookup_insert_eq in Hj. injection Hj as <-.
      right. by rewrite Hcur2.
    + rewrite lookup_insert_ne in Hj by done. by apply Htl.
  - unfold I. auto.
Qed.

Lemma evt_make_args_timeline nevtop ip l q d :
  evt_args_timeline q (Evt.make_args nevtop ip l) = Some d ->
  d = evt_timeline q l.
Proof.
  destruct q; simpl; unfold Evt.truthy; case_decide; congruence.
Qed.

(** The first step of a stress period raises when it has an array to
    read. *)
Lemma evt_period_unbound_raise e iper l w c :
  Evt.e_nrow_ncol e = None ->
  Evt.control_record (Evt.e_nevtop e) (fst (readline (stream w))) = Ok c ->
  0 <= Evt.insurf c ->
  exists w', Evt.period e iper l w = (Raise UnboundLocalError, w').
Proof.
  intros He Hc Hs. unfold Evt.period. unm.
  rewrite run_bind, f_readline_run, run_bind. unfold lift. rewrite Hc.
  rewrite run_bind. unfold Evt.load_surf.
  destruct (Z.geb_spec (Evt.insurf c) 0); [| lia].
  unm. rewrite He, run_bind, when_print_run. eexists. reflexivity.
Qed.

Lemma rch_load_rech_unbound e iper c l w r w' :
  Rch.e_nrow_ncol e = None ->
  Rch.load_rech e iper c l w = (Ok r, w') ->
  r = Rch.current_rech l /\ heap w' = heap w.
Proof.
  intros He. unfold Rch.load_rech. destruct (Rch.inrech c >=? 0)%Z.
  - unm. rewrite He. discriminate.
  - by intros [= <- <-].
Qed.

Lemma rch_load_irch_unbound e iper c1 l w r w' :
  Rch.e_nrow_ncol e = None ->
  Rch.load_irch e iper c1 l w = (Ok r, w') ->
  r = Rch.current_irch l /\ heap w' = heap w.
Proof.
  intros He. unfold Rch.load_irch. destruct (c1 >=? 0)%Z.
  - unm. rewrite He. discriminate.
  - by intros [= <- <-].
Qed.

Lemma rch_period_unbound e iper l w l' w' :
  Rch.e_nrow_ncol e = None ->
  Rch.period e iper l w = (Ok l', w') ->
  heap w' = heap w /\ forall q, rch_current q l' = rch_current q l.
Proof.
  intros He. unfold Rch.period. unm. intros Hp.
  apply bind_ok_inv in Hp as (line & w1 & Hline & Hp).
  rewrite f_readline_run in Hline. injection Hline as <- <-.
  apply bind_ok_inv in Hp as (c & w2 & Hc & Hp).
  apply lift_ok_inv in Hc as [Hc ->].
  apply bind_ok_inv in Hp as (r1 & w3 & H1 & Hp).
  apply (rch_load_rech_unbound _ _ _ _ _ _ _ He) in H1 as [-> E1].
  destruct (Rch.inirch c) as [c1|].
  - apply bind_ok_inv in Hp as (r2 & w4 & H2 & Hp).
    apply (rch_load_irch_unbound _ _ _ _ _ _ _ He) in H2 as [-> E2].
    apply ret_ok_inv in Hp as [-> ->].
    split; [by rewrite E2, E1 | by intros []].
  - apply ret_ok_inv in Hp as [-> ->].
    split; [by rewrite E1 | by intros []].
Qed.

Lemma rch_periods_unbound e n i l w l' w' :
  Rch.e_nrow_ncol e = None ->
  Rch.periods e n i l w = (Ok l', w') ->
  heap w' = heap w /\
  (forall q, rch_current q l' = rch_current q l) /\
  (forall q j r,
     rch_timeline q l' !! j = Some r ->
     rch_timeline q l !! j = Some r \/ r = rch_current q l).
Proof.
  intros He Hrun.
  pose (I := fun (_ : nat) (l1 : Rch.locals) (w1 : world) =>
               heap w1 = heap w /\
               (forall q, rch_current q l1 = rch_current q l) /\
               (forall q j r,
                  rch_timeline q l1 !! j = Some r ->
                  rch_timeline q l !! j = Some r \/ r = rch_current q l)).
  change (I (i + n)%nat l' w').
  eapply (for_range_invariant (Rch.period e) I); [| | exact Hrun].
  - intros i1 l1 w1 l2 w2 (Hh & Hcur & Htl) Hp.
    destruct (rch_period_unbound _ _ _ _ _ _ He Hp) as [Hh2 Hcur2].
    apply rch_period_ok in Hp as (c & _ & Hq).
    split; [by rewrite Hh2 |]. split; [intros q; by rewrite Hcur2 |].
    intros q j r Hj. specialize (Hq q).
    destruct (rch_code q c) as [v|]; destruct Hq as [Hq _];
      rewrite Hq in Hj; [| by apply Htl].
    apply lookup_app_Some in Hj as [Hj | [_ Hj]]; [by apply Htl |].
    apply list_lookup_singleton_Some in Hj as [_ <-].
    right. by rewrite Hcur2.
  - unfold I. auto.
Qed.

Lemma rch_period_unbound_raise e iper l w c :
  Rch.e_nrow_ncol e = None ->
  Rch.control_record (Rch.e_nrchop e) (fst (readline (stream w))) = Ok c ->
  0 <= Rch.inrech c ->
  exists w', Rch.period e iper l w = (Raise UnboundLocalError, w').
Proof.
  intros He Hc Hs. unfold Rch.period. unm.
  rewrite run_bind, f_readline_run, run_bind. unfold lift. rewrite Hc.
  rewrite run_bind. unfold Rch.load_rech.
  destruct (Z.geb_spec (Rch.inrech c) 0); [| lia].
  unm. rewrite He. eexists. reflexivity.
Qed.

End ExplicitNper.

(** X4: [nrow] and [ncol] are bound only on the path that asks the model
    for the geometry, so a load that is passed [nper] cannot read an array.
    If it returns, every entry of every timeline it hands to the constructor
    is one of the empty lists the loop starts with; and as soon as a stress
    period has a non-negative code for [surf] (for [rech] in the recharge
    loader) the load stops with [UnboundLocalError]. *)
Theorem explicit_nper_reads_no_array `{Collaborators} :
  (forall f m n eud a w q d k r,
     Evt.load f m (Some n) eud = (Ok a, w) ->
     evt_args_timeline q a = Some d -> d !! k = Some r ->
     deref w r = Some EmptyList) /\
  (forall f m n eud a w q k r,
     Rch.load f m (Some n) eud = (Ok a, w) ->
     rch_args_timeline q a !! k = Some r ->
     deref w r = Some EmptyList) /\
  (forall f m n eud k c,
     Evt.codes_at f m (Some n) eud k = Some c ->
     0 <= Evt.insurf c ->
     exists w', Evt.load f m (Some n) eud = (Raise UnboundLocalError, w')) /\
  (forall f m n eud k c,
     Rch.codes_at f m (Some n) eud k = Some c ->
     0 <= Rch.inrech c ->
     exists w', Rch.load f m (Some n) eud = (Raise UnboundLocalError, w')).
Proof.
  repeat apply conj.
  - intros f m n eud a w q d k r Hload Hd Hk.
    apply evt_load_ok_inv in Hload
      as (e & ip & n' & l0 & w0 & l & Hpre & Hrun & ->).
    apply evt_make_args_timeline in Hd as ->.
    destruct (evt_prelude_explicit _ _ _ _ _ _ _ _ _ _ Hpre) as [He _].
    destruct (evt_prelude_ok _ _ _ _ _ _ _ _ _ _ Hpre q) as [Hempty Hcur].
    destruct (evt_periods_unbound _ _ _ _ _ _ _ He Hrun) as (Hh & _ & Htl).
    destruct (Htl q k r Hk) as [Hk0 | ->].
    + by rewrite Hempty, lookup_empty in Hk0.
    + unfold deref in *. by rewrite Hh.
  - intros f m n eud a w q k r Hload Hk.
    apply rch_load_ok_inv in Hload
      as (e & ip & n' & l0 & w0 & l & Hpre & Hrun & ->).
    destruct (rch_prelude_explicit _ _ _ _ _ _ _ _ _ _ Hpre) as [He _].
    destruct (rch_prelude_ok _ _ _ _ _ _ _ _ _ _ Hpre q) as [Hempty Hcur].
    destruct (rch_periods_unbound _ _ _ _ _ _ _ He Hrun) as (Hh & _ & Htl).
    assert (Hk' : rch_timeline q l !! k = Some r) by (by destruct q).
    destruct (Htl q k r Hk') as [Hk0 | ->].
    + by rewrite Hempty in Hk0.
    + unfold deref in *. by rewrite Hh.
  - intros f m n eud k c Hc Hs.
    apply evt_codes_at_inv in Hc as (e & ip & n' & lk & wk & Hat & Hk & Hc).
    pose proof Hat as Hat'.
    apply evt_at_period_inv in Hat' as (l0 & w0 & Hpre & _).
    destruct (evt_prelude_explicit _ _ _ _ _ _ _ _ _ _ Hpre) as [He _].
    destruct (evt_period_unbound_raise e k lk wk c He Hc Hs) as [w' Hp].
    exists w'. eapply evt_load_period_raise; eauto.
  - intros f m n eud k c Hc Hs.
    apply rch_codes_at_inv in Hc as (e & ip & n' & lk & wk & Hat & Hk & Hc).
    pose proof Hat as Hat'.
    apply rch_at_period_inv in Hat' as (l0 & w0 & Hpre & _).
    destruct (rch_prelude_explicit _ _ _ _ _ _ _ _ _ _ Hpre) as [He _].
    destruct (rch_period_unbound_raise e k lk wk c He Hc Hs) as [w' Hp].
    exists w'. eapply rch_load_period_raise; eauto.
Qed.

Lemma explicit_nper_reads_no_array_witness :
  deref (snd (Evt.load Demo.evt_all_reuse Demo.quiet (Some 2%nat) None))
    0%nat = Some EmptyList /\
  (exists w',
     Rch.load Demo.rch_unit7 Demo.quiet (Some 2%nat) None
     = (Raise UnboundLocalError, w')).
Proof.
  split.
  - apply (proj1 explicit_nper_reads_no_array
             Demo.evt_all_reuse Demo.quiet 2%nat None
             Demo.evt_all_reuse_args
             (snd (Evt.load Demo.evt_all_reuse Demo.quiet (Some 2%nat) None))
             Surf {[ 0%nat := 0%nat; 1%nat := 0%nat ]} 0%nat 0%nat).
    + apply run_eq. vm_compute. reflexivity.
    + reflexivity.
    + vm_compute. reflexivity.
  - apply (proj2 (proj2 (proj2 explicit_nper_reads_no_array))
             Demo.rch_unit7 Demo.quiet 2%nat None 0%nat
             {| Rch.inrech := 1; Rch.inirch := None |}).
    + vm_compute. reflexivity.
    + simpl. lia.
Defined.

(* ===================================================================== *)
(** ** The stress periods a load covers *)
(* ===================================================================== *)

Section Coverage.
Context `{Collaborators}.

(** The number of turns of the loop: [nper] when it is passed, what the
    model says when it is not. *)
Lemma evt_prelude_nper fuel m nper eud w e ip n l0 w0 :
  Evt.prelude fuel m nper eud w = (Ok (e, ip, n, l0), w0) ->
  n = turns m nper.
Proof.
  unfold Evt.prelude, Evt.load_header. unm. intros Hp.
  apply bind_ok_inv in Hp as (? & w1 & _ & Hp).
  apply bind_ok_inv in Hp as (h & w2 & Hh & Hp).
  apply bind_ok_inv in Hp as (l0' & w3 & _ & Hp).
  apply ret_ok_inv in Hp as [[= <- _] _].
  apply bind_ok_inv in Hh as (line & w4 & _ & Hh).
  apply bind_ok_inv in Hh as ([npar line'] & w5 & _ & Hh).
  apply bind_ok_inv in Hh as ([nevtop ipakcb] & w6 & _ & Hh).
  apply bind_ok_inv in Hh as (pp & w7 & _ & Hh).
  unfold turns, model_nper. destruct nper as [n0|].
  - by apply ret_ok_inv in Hh as [[= _ _ ->] _].
  - destruct (nrow_ncol_nlay_nper m) as [[[nrow ncol] nlay] nper].
    by apply ret_ok_inv in Hh as [[= _ _ ->] _].
Qed.

Lemma rch_prelude_nper fuel m nper eud w e ip n l0 w0 :
  Rch.prelude fuel m nper eud w = (Ok (e, ip, n, l0), w0) ->
  n = turns m nper.
Proof.
  unfold Rch.prelude, Rch.load_header. unm. intros Hp.
  apply bind_ok_inv in Hp as (h & w2 & Hh & Hp).
  apply bind_ok_inv in Hp as (l0' & w3 & _ & Hp).
  apply ret_ok_inv in Hp as [[= <- _] _].
  apply bind_ok_inv in Hh as (line & w4 & _ & Hh).
  apply bind_ok_inv in Hh as (line' & w5 & _ & Hh).
  apply bind_ok_inv in Hh as ([nrchop irchcb] & w6 & _ & Hh).
  unfold turns, model_nper. destruct nper as [n0|].
  - by apply ret_ok_inv in Hh as [[= _ _ ->] _].
  - destruct (nrow_ncol_nlay_nper m) as [[[nrow ncol] nlay] nper].
    by apply ret_ok_inv in Hh as [[= _ _ ->] _].
Qed.

(** The keys of a dictionary after the stress periods before [i]. *)
Lemma evt_periods_keys e n i l w l' w' q :
  Evt.periods e n i l w = (Ok l', w') ->
  (if evt_read q (Evt.e_nevtop e)
   then forall k, is_Some (evt_timeline q l !! k) <-> (k < i)%nat
   else evt_timeline q l = ∅) ->
  if evt_read q (Evt.e_nevtop e)
  then forall k, is_Some (evt_timeline q l' !! k) <-> (k < i + n)%nat
  else evt_timeline q l' = ∅.
Proof.
  intros Hrun Hl.
  pose (I := fun (i1 : nat) (l1 : Evt.locals) (_ : world) =>
               if evt_read q (Evt.e_nevtop e)
               then forall k, is_Some (evt_timeline q l1 !! k) <-> (k < i1)%nat
               else evt_timeline q l1 = ∅).
  change (I (i + n)%nat l' w').
  eapply (for_range_invariant (Evt.period e) I); [| exact Hl | exact Hrun].
  intros i1 l1 w1 l2 w2 Hl1 Hp. unfold I in *.
  apply evt_period_ok in Hp as (c & Hc & Hq). specialize (Hq q).
  apply evt_control_record_inievt in Hc as [Hc2 Hcn].
  assert (Hcode : if evt_read q (Evt.e_nevtop e)
                  then is_Some (evt_code q c) else evt_code q c = None).
  { destruct q; cbn [evt_read evt_code]; eauto.
    destruct (Z.eqb_spec (Evt.e_nevtop e) 2); auto. }
  destruct (evt_read q (Evt.e_nevtop e)).
  - destruct Hcode as [v Hv]. rewrite Hv in Hq. destruct Hq as [-> _].
    intros k. destruct (decide (k = i1)) as [-> | Hne].
    + rewrite lookup_insert_eq. split; [lia | eauto].
    + rewrite lookup_insert_ne by done. rewrite Hl1. lia.
  - rewrite Hcode in Hq. destruct Hq as [-> _]. exact Hl1.
Qed.

Lemma rch_periods_lengths e n i l w l' w' :
  Rch.periods e n i l w = (Ok l', w') ->
  length (Rch.rech l) = i ->
  length (Rch.irch l) = (if (Rch.e_nrchop e =? 2)%Z then i else 0%nat) ->
  length (Rch.rech l') = (i + n)%nat /\
  length (Rch.irch l')
  = (if (Rch.e_nrchop e =? 2)%Z then (i + n)%nat else 0%nat).
Proof.
  intros Hrun Hr Hi.
  pose (I := fun (i1 : nat) (l1 : Rch.locals) (_ : world) =>
               length (Rch.rech l1) = i1 /\
               length (Rch.irch l1)
               = (if (Rch.e_nrchop e =? 2)%Z then i1 else 0%nat)).
  change (I (i + n)%nat l' w').
  eapply (for_range_invariant (Rch.period e) I);
    [| split; [exact Hr | exact Hi] | exact Hrun].
  intros i1 l1 w1 l2 w2 [Hr1 Hi1] Hp. unfold I.
  apply rch_period_ok in Hp as (c & Hc & Hq).
  pose proof (Hq Rech) as [Hrech _]. pose proof (Hq Irch) as Hirch.
  cbn [rch_code rch_timeline rch_current] in Hrech, Hirch.
  apply rch_control_record_inirch in Hc as [Hc2 Hcn].
  split; [rewrite Hrech, length_app; simpl; lia |].
  destruct (Z.eqb_spec (Rch.e_nrchop e) 2) as [He | He].
  - destruct (Hc2 He) as [v Hv]. rewrite Hv in Hirch.
    destruct Hirch as [-> _]. rewrite length_app. simpl. lia.
  - rewrite (Hcn He) in Hirch. destruct Hirch as [-> _]. exact Hi1.
Qed.

Lemma rch_load_lengths f m nper eud a w :
  Rch.load f m nper eud = (Ok a, w) ->
  length (Rch.args_rech a) = turns m nper /\
  length (Rch.args_irch a)
  = if (Rch.args_nrchop a =? 2)%Z then turns m nper else 0%nat.
Proof.
  intros Hload.
  apply rch_load_ok_inv in Hload
    as (e & ip & n & l0 & w0 & l & Hpre & Hrun & ->).
  rewrite <- (rch_prelude_nper _ _ _ _ _ _ _ _ _ _ Hpre).
  pose proof (rch_prelude_ok _ _ _ _ _ _ _ _ _ _ Hpre Rech) as [Hr _].
  pose proof (rch_prelude_ok _ _ _ _ _ _ _ _ _ _ Hpre Irch) as [Hi _].
  cbn [rch_timeline] in Hr, Hi.
  cbn [Rch.args_rech Rch.args_irch Rch.args_nrchop].
  apply (rch_periods_lengths e n 0 l0 w0 l w Hrun).
  - by rewrite Hr.
  - rewrite Hi. by destruct (Rch.e_nrchop e =? 2)%Z.
Qed.

End Coverage.

(** X5: a load that returns has an entry for every stress period.  The
    dictionaries of [surf], [evtr] and [exdp] (and of [ievt] when the option
    code is 2) have exactly the keys [0 .. nper-1], and are handed to the
    constructor unless there is no stress period at all; the dictionary of
    [ievt] under another option code is empty and is not handed on.  The
    recharge loader's list [rech] has [nper] entries, and [irch] has [nper]
    entries under option code 2 and none otherwise. *)
Theorem loaded_timelines_cover_every_period `{Collaborators} :
  (forall f m nper eud a w q,
     Evt.load f m nper eud = (Ok a, w) ->
     if evt_read q (evt_option_code a) && (0 <? turns m nper)%nat
     then exists d,
            evt_args_timeline q a = Some d /\
            forall k, is_Some (d !! k) <-> (k < turns m nper)%nat
     else evt_args_timeline q a = None) /\
  (forall f m nper eud a w,
     Rch.load f m nper eud = (Ok a, w) ->
     length (Rch.args_rech a) = turns m nper /\
     length (Rch.args_irch a)
     = if (Rch.args_nrchop a =? 2)%Z then turns m nper else 0%nat).
Proof.
  split.
  - intros f m nper eud a w q Hload.
    apply evt_load_ok_inv in Hload
      as (e & ip & n & l0 & w0 & l & Hpre & Hrun & ->).
    rewrite <- (evt_prelude_nper _ _ _ _ _ _ _ _ _ _ Hpre).
    destruct (evt_prelude_ok _ _ _ _ _ _ _ _ _ _ Hpre q) as [Hempty _].
    assert (Hcode : evt_option_code (Evt.make_args (Evt.e_nevtop e) ip l)
                    = Evt.e_nevtop e).
    { unfold evt_option_code. simpl.
      by destruct (Z.eqb_spec (Evt.e_nevtop e) 0) as [-> |]. }
    rewrite Hcode.
    assert (Hargs : evt_args_timeline q (Evt.make_args (Evt.e_nevtop e) ip l)
                    = Evt.truthy (evt_timeline q l)) by (by destruct q).
    rewrite Hargs.
    pose proof (evt_periods_keys e n 0 l0 w0 l w q Hrun) as Hkeys.
    destruct (evt_read q (Evt.e_nevtop e)); cbn [andb].
    + assert (Hdom : forall k, is_Some (evt_timeline q l !! k) <-> (k < n)%nat).
      { apply Hkeys. intros k. rewrite Hempty, lookup_empty.
        split; [by intros [? ?] | lia]. }
      unfold Evt.truthy. destruct (Nat.ltb_spec 0 n) as [Hn | Hn].
      * case_decide as He; [| eauto].
        apply Hdom in Hn. rewrite He, lookup_empty in Hn. by destruct Hn.
      * case_decide as He; [done |]. exfalso. apply He.
        apply map_empty. intros k. apply eq_None_not_Some.
        rewrite Hdom. lia.
    + rewrite (Hkeys Hempty). unfold Evt.truthy. by case_decide.
  - intros f m nper eud a w Hload. by apply (rch_load_lengths f m nper eud a w).
Qed.

Lemma loaded_timelines_cover_every_period_witness :
  (exists d,
     evt_args_timeline Surf Demo.evt_reuse_second_args = Some d /\
     forall k, is_Some (d !! k) <-> (k < 2)%nat) /\
  evt_args_timeline Ievt Demo.evt_reuse_second_args = None /\
  length (Rch.args_rech Demo.rch_unit7_args) = 2%nat /\
  length (Rch.args_irch Demo.rch_unit7_args) = 0%nat.
Proof.
  split; [| split].
  - apply (proj1 (loaded_timelines_cover_every_period
                    (H := Constant.collaborators))
             Demo.evt_reuse_second Demo.quiet None None
             Demo.evt_reuse_second_args
             (snd (Evt.load Demo.evt_reuse_second Demo.quiet None None))
             Surf).
    apply run_eq. vm_compute. reflexivity.
  - apply (proj1 (loaded_timelines_cover_every_period
                    (H := Constant.collaborators))
             Demo.evt_reuse_second Demo.quiet None None
             Demo.evt_reuse_second_args
             (snd (Evt.load Demo.evt_reuse_second Demo.quiet None None))
             Ievt).
    apply run_eq. vm_compute. reflexivity.
  - apply (proj2 (loaded_timelines_cover_every_period
                    (H := Constant.collaborators))
             Demo.rch_unit7 Demo.quiet None None Demo.rch_unit7_args
             (snd (Rch.load Demo.rch_unit7 Demo.quiet None None))).
    apply run_eq. vm_compute. reflexivity.
Defined.

(* ===================================================================== *)
(** ** Loading what [ModflowRch.write_file] wrote *)
(* ===================================================================== *)

Section RchWritten.
Context `{Collaborators}.

Lemma rch_write_period_blocks self n :
  Rch.write_period self n
  = rch_control_line self n ++ nl
    ++ rch_block Rech self n ++ rch_block Irch self n.
Proof.
  unfold Rch.write_period, rch_control_line, rch_block, rch_written_code.
  cbn [rch_self_arrays rch_read]. by rewrite !app_assoc_s.
Qed.

Lemma rch_control_line_no_newline self n :
  no_newline (rch_control_line self n) = true.
Proof.
  unfold rch_control_line.
  by rewrite !no_newline_app, !no_newline_fmt, no_newline_str.
Qed.

Lemma rch_written_code_fits {A} (us : list A) n :
  (String.length (str (rch_written_code us n)) < 10)%nat.
Proof. unfold rch_written_code. destruct (n <? length us)%nat; simpl; lia. Qed.

Lemma rch_control_record_written self n :
  Rch.control_record (Rch.nrchop self) (rch_control_line self n ++ nl)
  = Ok (rch_written_codes self n).
Proof.
  unfold Rch.control_record. cbv zeta. rewrite split_strip.
  assert (Htok : exists tail,
             split (rch_control_line self n ++ nl)
             = str (rch_written_code (Rch.self_rech self) n)
               :: str (rch_written_code (Rch.self_irch self) n)
               :: tail).
  { unfold rch_control_line. rewrite !app_assoc_s. eexists.
    rewrite split_field
      by (apply starts_blank_fmt, rch_written_code_fits).
    rewrite split_field; [reflexivity |].
    right. eexists _, _. split; reflexivity. }
  destruct Htok as [tail ->]. unfold getitem. cbn [lookup list_lookup].
  unm. simpl. rewrite !int_str. simpl.
  unfold rch_written_codes. by destruct (Rch.nrchop self =? 2)%Z; simpl;
    rewrite ?int_str.
Qed.

Lemma print_run s w :
  print s w
  = (Ok tt, {| stream := stream w; heap := heap w;
               stdout := stdout w ++ [s] |}).
Proof. reflexivity. Qed.

Lemma rch_load_array_run m shape dt name eud w a rest :
  Util2d_load (stream w) m shape dt name eud = Ok (a, rest) ->
  Rch.load_array m (Some shape) dt name eud w
  = (Ok (length (heap w)),
     {| stream := rest; heap := heap w ++ [Util2d a]; stdout := stdout w |}).
Proof.
  intros Hload. unfold Rch.load_array. unm. rewrite run_bind. simpl.
  rewrite run_bind. unfold reading. by rewrite Hload.
Qed.

Lemma rch_load_rech_quantity e iper c l :
  Rch.load_rech e iper c l
  = rch_load_quantity e Rech iper (Rch.inrech c) (Rch.current_rech l).
Proof. reflexivity. Qed.

Lemma rch_load_irch_quantity e iper c1 l :
  Rch.load_irch e iper c1 l
  = rch_load_quantity e Irch iper c1 (Rch.current_irch l).
Proof. reflexivity. Qed.

(** After its last array a list stands for the object of the period
    before. *)
Lemma rch_expected_stays (us : list array) i :
  us !! i = None -> rch_expected us i = rch_expected_current us i.
Proof.
  intros Hi. unfold rch_expected. rewrite Hi.
  destruct i as [|j]; cbn [rch_expected_current].
  - destruct us; [done | discriminate].
  - unfold rch_expected. destruct (us !! j) as [u|] eqn:Hj; [| done].
    assert (Hlen : length us = S j).
    { apply lookup_lt_Some in Hj. apply lookup_ge_None in Hi. lia. }
    rewrite last_lookup, Hlen. cbn [pred]. by rewrite Hj.
Qed.

(** One list of a stress period: the block is taken off the stream and
    the reference that results is to the object the package stands for. *)
Lemma rch_load_quantity_written self eud q i cur w rest :
  rch_read q (Rch.nrchop self) = true ->
  blocks_decode (Rch.parent self) eud (rch_dtype q) (rch_name q)
    (rch_self_arrays q self) ->
  stream w = rch_block q self i ++ rest ->
  heap w !! cur = Some (rch_expected_current (rch_self_arrays q self) i) ->
  exists r w',
    rch_load_quantity (rch_written_env self eud) q i
      (rch_written_code (rch_self_arrays q self) i) cur w
    = (Ok r, w') /\
    stream w' = rest /\
    heap w `prefix_of` heap w' /\
    heap w' !! r = Some (rch_expected (rch_self_arrays q self) i).
Proof.
  intros Hread Hdec Hstream Hcur.
  unfold rch_load_quantity, rch_block, rch_written_code in *.
  rewrite Hread in Hstream.
  destruct (rch_self_arrays q self !! i) as [u|] eqn:Hi.
  - assert (Hlt : (i < length (rch_self_arrays q self))%nat)
      by (by eapply lookup_lt_Some).
    apply Nat.ltb_lt in Hlt. rewrite Hlt. cbn [Z.geb Z.compare].
    rewrite run_bind, print_run.
    cbn [rch_written_env Rch.e_model Rch.e_nrow_ncol Rch.e_eud].
    erewrite rch_load_array_run;
      [| cbn [stream]; rewrite Hstream; apply Hdec;
         by eapply list_elem_of_lookup_2].
    eexists _, _. split; [reflexivity |]. cbn [stream heap].
    split; [done |]. split; [by apply prefix_app_r |].
    rewrite lookup_app_r by lia. rewrite Nat.sub_diag.
    unfold rch_expected. by rewrite Hi.
  - assert (Hge : (length (rch_self_arrays q self) <= i)%nat)
      by (by apply lookup_ge_None).
    apply Nat.ltb_ge in Hge. rewrite Hge. cbn [Z.geb Z.compare].
    exists cur, w. split; [reflexivity |]. split; [done |]. split; [done |].
    by rewrite rch_expected_stays.
Qed.

(** The entry of a stress period joins the entries before it. *)
Lemma rch_loaded_entry_step (us : list array) (tl : list loc) i r
    (hp hp' : list obj) :
  length tl = i ->
  (forall k, (k < i)%nat ->
     exists r, tl !! k = Some r /\ hp !! r = Some (rch_expected us k)) ->
  hp `prefix_of` hp' ->
  hp' !! r = Some (rch_expected us i) ->
  length (tl ++ [r])%list = S i /\
  (forall k, (k < S i)%nat ->
     exists r', (tl ++ [r])%list !! k = Some r'
                /\ hp' !! r' = Some (rch_expected us k)) /\
  hp' !! r = Some (rch_expected_current us (S i)).
Proof.
  intros Hlen Hold Hpre Hr. split; [rewrite length_app; simpl; lia |].
  split; [| exact Hr].
  intros k Hk. destruct (decide (k = i)) as [-> | Hne].
  - exists r. split; [| done].
    rewrite lookup_app_r by lia. by rewrite Hlen, Nat.sub_diag.
  - destruct (Hold k) as (r' & Hk' & Hr'); [lia |].
    exists r'. split; [by rewrite lookup_app_l by lia |].
    by eapply prefix_lookup_Some.
Qed.

End RchWritten.

Section RchWrittenPeriods.
Context `{Collaborators}.
Variable self : Rch.ModflowRch.
Variable eud : option ext_unit_dict.

Hypothesis Hdec :
  forall q, rch_read q (Rch.nrchop self) = true ->
    blocks_decode (Rch.parent self) eud (rch_dtype q) (rch_name q)
      (rch_self_arrays q self).

(** A stress period of the load, on the text [write_file] wrote for it. *)
Lemma rch_period_written i l w rest :
  stream w = Rch.write_period self i ++ rest ->
  rch_loaded_so_far self i l (heap w) ->
  exists l' w',
    Rch.period (rch_written_env self eud) i l w = (Ok l', w') /\
    stream w' = rest /\
    rch_loaded_so_far self (S i) l' (heap w').
Proof.
  intros Hstream Hinv.
  rewrite rch_write_period_blocks, !app_assoc_s in Hstream.
  unfold Rch.period. unm. rewrite run_bind, f_readline_run, Hstream.
  rewrite readline_line by apply rch_control_line_no_newline.
  cbn [fst snd]. rewrite run_bind. unfold lift.
  change (Rch.e_nrchop (rch_written_env self eud)) with (Rch.nrchop self).
  rewrite rch_control_record_written.
  set (w0 := {| stream := _; heap := heap w; stdout := stdout w |}).
  pose proof (Hinv Rech) as (L1 & I1 & C1). pose proof (Hinv Irch) as I2.
  cbn [rch_read rch_timeline rch_current rch_self_arrays] in L1, I1, C1, I2.
  rewrite rch_load_rech_quantity.
  destruct (rch_load_quantity_written self eud Rech i (Rch.current_rech l) w0
              (rch_block Irch self i ++ rest) eq_refl (Hdec Rech eq_refl)
              eq_refl C1)
    as (r1 & w1 & Hrun1 & Hs1 & Hp1 & Hx1).
  cbn [rch_written_codes Rch.inrech Rch.inirch rch_self_arrays] in *.
  rewrite run_bind, Hrun1.
  destruct (Z.eqb_spec (Rch.nrchop self) 2) as [Hmode | Hmode].
  - assert (Hread : rch_read Irch (Rch.nrchop self) = true)
      by (cbn [rch_read]; by apply Z.eqb_eq).
    assert (Hmode' : (Rch.nrchop self =? 2)%Z = true) by (by apply Z.eqb_eq).
    destruct I2 as (L2 & I2 & C2).
    rewrite rch_load_irch_quantity.
    destruct (rch_load_quantity_written self eud Irch i (Rch.current_irch l)
                w1 rest Hread (Hdec Irch Hread) Hs1)
      as (r2 & w2 & Hrun2 & Hs2 & Hp2 & Hx2);
      [by eapply prefix_lookup_Some |].
    cbn [rch_self_arrays] in *. rewrite run_bind, Hrun2.
    eexists _, w2. split; [reflexivity |]. split; [done |].
    intros [|]; cbn [rch_read rch_timeline rch_current rch_self_arrays
                     Rch.rech Rch.irch Rch.current_rech Rch.current_irch];
      rewrite ?Hmode'.
    + destruct (rch_loaded_entry_step (Rch.self_rech self) (Rch.rech l) i r1
                  (heap w) (heap w2) L1 I1) as (A & B & C);
        [by etrans | by eapply prefix_lookup_Some | done].
    + by destruct (rch_loaded_entry_step (Rch.self_irch self) (Rch.irch l) i
                     r2 (heap w) (heap w2) L2 I2) as (A & B & C);
        [by etrans | done |].
  - assert (Hread : rch_read Irch (Rch.nrchop self) = false)
      by (cbn [rch_read]; by apply Z.eqb_neq).
    assert (Hmode' : (Rch.nrchop self =? 2)%Z = false) by (by apply Z.eqb_neq).
    assert (Hs1' : stream w1 = rest).
    { rewrite Hs1. unfold rch_block. rewrite Hread.
      by destruct (rch_self_arrays Irch self !! i). }
    eexists _, w1. split; [reflexivity |]. split; [done |].
    intros [|]; cbn [rch_read rch_timeline rch_current rch_self_arrays
                     Rch.rech Rch.irch Rch.current_rech Rch.current_irch];
      rewrite ?Hmode'.
    + by destruct (rch_loaded_entry_step (Rch.self_rech self) (Rch.rech l) i
                     r1 (heap w) (heap w1) L1 I1) as (A & B & C).
    + exact I2.
Qed.

Lemma rch_periods_written n i l w rest :
  stream w = Rch.write_periods self n i ++ rest ->
  rch_loaded_so_far self i l (heap w) ->
  exists l' w',
    Rch.periods (rch_written_env self eud) n i l w = (Ok l', w') /\
    stream w' = rest /\
    rch_loaded_so_far self (i + n) l' (heap w').
Proof.
  revert i l w. induction n as [|n IH]; intros i l w Hstream Hinv.
  - exists l, w. split; [reflexivity |]. split; [done |].
    by rewrite Nat.add_0_r.
  - cbn [Rch.write_periods] in Hstream. rewrite app_assoc_s in Hstream.
    destruct (rch_period_written i l w _ Hstream Hinv)
      as (l1 & w1 & Hp & Hs1 & Hinv1).
    destruct (IH (S i) l1 w1 Hs1 Hinv1) as (l' & w' & Hrun & Hs & Hinv').
    exists l', w'. split; [| split; [done |]].
    + unfold Rch.periods in *. cbn [for_range]. by rewrite run_bind, Hp.
    + by replace (i + S n)%nat with (S i + n)%nat by lia.
Qed.

End RchWrittenPeriods.

Section RchWrittenHeader.
Context `{Collaborators}.

(** Dataset 2 of a written file: the option code comes back, the budget
    unit comes back as 0 or 53. *)
Lemma rch_dataset2_written nrchop irchcb :
  (String.length (str irchcb) < 10)%nat ->
  Rch.dataset2 ((fmt_d 10 nrchop ++ fmt_d 10 irchcb) ++ nl)
  = Ok (nrchop, if (irchcb =? 0)%Z then 0 else 53).
Proof.
  intros Hfit. unfold Rch.dataset2, Rch.load_irchcb. cbv zeta.
  rewrite split_strip, !app_assoc_s.
  rewrite split_field by (by apply starts_blank_fmt).
  rewrite split_field by (right; eexists _, _; split; reflexivity).
  unfold getitem. cbn [lookup list_lookup]. unm. simpl.
  by rewrite !int_str.
Qed.

(** Everything before the loop, on a written file. *)
Lemma rch_prelude_written self eud h' :
  Rch.heading self = String "#" h' ->
  no_newline (Rch.heading self) = true ->
  (String.length (str (Rch.irchcb self)) < 10)%nat ->
  exists w0,
    Rch.prelude (S (String.length (Rch.write_file self))) (Rch.parent self)
      None eud (Rch.start (Rch.write_file self))
    = (Ok (rch_written_env self eud,
           if (Rch.irchcb self =? 0)%Z then 0 else 53,
           model_nper (Rch.parent self),
           Rch.Locals [] [] 0%nat 1%nat), w0) /\
    stream w0 = Rch.write_periods self (model_nper (Rch.parent self)) 0 /\
    heap w0 = [EmptyList; EmptyList].
Proof.
  intros Hh Hline Hfit.
  unfold Rch.write_file, rch_written_env, model_nper, model_shape.
  destruct (nrow_ncol_nlay_nper (Rch.parent self))
    as [[[nrow ncol] nlay] nper] eqn:Hgeo.
  set (l2 := fmt_d 10 (Rch.nrchop self) ++ fmt_d 10 (Rch.irchcb self)).
  set (body := Rch.write_periods self nper 0).
  set (f := (Rch.heading self ++ nl)
            ++ (fmt_d 10 (Rch.nrchop self) ++ fmt_d 10 (Rch.irchcb self) ++ nl)
            ++ body).
  assert (Hf : f = comment_lines [h'] ++ l2 ++ nl ++ body).
  { unfold f, l2. rewrite Hh. cbn [comment_lines]. by rewrite !app_assoc_s. }
  assert (Hp2 : plain l2 = true)
    by (unfold l2; by rewrite plain_app, !plain_fmt).
  assert (Hn2 : no_newline l2 = true)
    by (unfold l2; by rewrite no_newline_app, !no_newline_fmt).
  assert (Hc2 : not_comment l2 = true).
  { unfold l2. pose proof (fmt_nonempty 10 (Rch.nrchop self)) as Hne.
    destruct (plain_first_char l2) as (c & s' & Hl2 & Hc);
      [exact Hp2 | unfold l2; by destruct (fmt_d 10 (Rch.nrchop self)) |].
    fold l2. rewrite Hl2. simpl. by rewrite Hc. }
  rewrite Hh in Hline.
  unfold Rch.prelude, Rch.load_header. unm.
  rewrite rch_header_line_evt, run_bind, run_bind.
  rewrite (header_line_skips _ [h'] l2 body (Rch.start f));
    [| cbn [forallb]; by rewrite andb_true_r | done | done | exact Hf
     | rewrite Hf; simpl; lia].
  rewrite run_bind. unfold Rch.parameter_line.
  rewrite plain_no_parameter by (by rewrite plain_app, Hp2).
  unfold ret at 1. rewrite run_bind. unfold lift, l2.
  rewrite rch_dataset2_written by done.
  rewrite Hgeo. unfold ret at 1.
  unfold Rch.initial_locals. unm.
  rewrite !run_bind, !alloc_run. cbn [stream heap stdout Rch.start].
  eexists. split; [reflexivity |]. by split.
Qed.

(** The load of a written file, with what it leaves. *)
Lemma rch_written_loaded self eud :
  (exists h', Rch.heading self = String "#" h') ->
  no_newline (Rch.heading self) = true ->
  (String.length (str (Rch.irchcb self)) < 10)%nat ->
  (forall q, rch_read q (Rch.nrchop self) = true ->
     blocks_decode (Rch.parent self) eud (rch_dtype q) (rch_name q)
       (rch_self_arrays q self)) ->
  exists l w,
    Rch.load (Rch.write_file self) (Rch.parent self) None eud
    = (Ok (Rch.Args (Rch.nrchop self)
             (if (Rch.irchcb self =? 0)%Z then 0 else 53)
             (Rch.rech l) (Rch.irch l)), w) /\
    rch_loaded_so_far self (model_nper (Rch.parent self)) l (heap w).
Proof.
  intros [h' Hh] Hline Hfit Hdec.
  destruct (rch_prelude_written self eud h' Hh Hline Hfit)
    as (w0 & Hpre & Hs0 & Hh0).
  assert (Hinv0 : rch_loaded_so_far self 0 (Rch.Locals [] [] 0%nat 1%nat)
                    (heap w0)).
  { intros q. rewrite Hh0. destruct (rch_read q (Rch.nrchop self)).
    - split; [by destruct q |]. split; [intros k Hk; lia | by destruct q].
    - by destruct q. }
  destruct (rch_periods_written self eud Hdec
              (model_nper (Rch.parent self)) 0 _ w0 ""
              ltac:(by rewrite app_empty_r) Hinv0)
    as (l & w & Hrun & _ & Hinv).
  exists l, w. split; [| exact Hinv].
  rewrite (rch_load_from_prelude _ _ _ _ _ _ _ _ _ Hpre).
  by rewrite run_bind, Hrun.
Qed.

End RchWrittenHeader.

(** X6: a recharge package that is written and loaded again, with the
    model of the package, comes back with its option code and with one
    entry for every stress period in [rech] (and in [irch] under option
    code 2): the array the package has for that period or, after its last
    array, that last array again; a package without arrays comes back with
    the empty list of the loader.  Under another option code [irch] comes
    back empty.  This holds for a heading that is one line beginning with
    [#], a budget unit of fewer than ten characters, and an array codec
    that reads back each block it wrote and leaves the rest of the
    stream. *)
Theorem rch_write_then_load `{Collaborators} self eud :
  (exists h', Rch.heading self = String "#" h') ->
  no_newline (Rch.heading self) = true ->
  (String.length (str (Rch.irchcb self)) < 10)%nat ->
  (forall q, rch_read q (Rch.nrchop self) = true ->
     blocks_decode (Rch.parent self) eud (rch_dtype q) (rch_name q)
       (rch_self_arrays q self)) ->
  exists a w,
    Rch.load (Rch.write_file self) (Rch.parent self) None eud = (Ok a, w) /\
    Rch.args_nrchop a = Rch.nrchop self /\
    forall q,
      if rch_read q (Rch.nrchop self) then
        length (rch_args_timeline q a) = model_nper (Rch.parent self) /\
        forall k, (k < model_nper (Rch.parent self))%nat ->
          exists r,
            rch_args_timeline q a !! k = Some r /\
            deref w r = Some (rch_expected (rch_self_arrays q self) k)
      else rch_args_timeline q a = [].
Proof.
  intros Hh Hline Hfit Hdec.
  destruct (rch_written_loaded self eud Hh Hline Hfit Hdec)
    as (l & w & Hload & Hinv).
  eexists _, w. split; [exact Hload |]. split; [reflexivity |].
  intros q. specialize (Hinv q).
  destruct (rch_read q (Rch.nrchop self)).
  - destruct Hinv as (Hlen & Hall & _). split; [by destruct q |].
    intros k Hk. destruct (Hall k Hk) as (r & Hr & Hx).
    exists r. split; [by destruct q | exact Hx].
  - by destruct q.
Qed.

(** X7: the budget unit of a recharge package does not survive writing and
    loading: a package with [irchcb] other than 0 comes back with 53 (so 53
    itself is kept), and 0 comes back as 0. *)
Theorem rch_write_then_load_irchcb `{Collaborators} self eud :
  (exists h', Rch.heading self = String "#" h') ->
  no_newline (Rch.heading self) = true ->
  (String.length (str (Rch.irchcb self)) < 10)%nat ->
  (forall q, rch_read q (Rch.nrchop self) = true ->
     blocks_decode (Rch.parent self) eud (rch_dtype q) (rch_name q)
       (rch_self_arrays q self)) ->
  exists a w,
    Rch.load (Rch.write_file self) (Rch.parent self) None eud = (Ok a, w) /\
    Rch.args_irchcb a = if (Rch.irchcb self =? 0)%Z then 0 else 53.
Proof.
  intros Hh Hline Hfit Hdec.
  destruct (rch_written_loaded self eud Hh Hline Hfit Hdec)
    as (l & w & Hload & _).
  eexists _, w. split; [exact Hload | reflexivity].
Qed.

Lemma rch_write_then_load_witness :
  exists a w,
    Rch.load (Rch.write_file Samples.rch_once) Demo.quiet None None
    = (Ok a, w) /\
    Rch.args_nrchop a = 3 /\
    forall q,
      if rch_read q 3 then
        length (rch_args_timeline q a) = 2%nat /\
        forall k, (k < 2)%nat ->
          exists r,
            rch_args_timeline q a !! k = Some r /\
            deref w r
            = Some (rch_expected (rch_self_arrays q Samples.rch_once) k)
      else rch_args_timeline q a = [].
Proof.
  apply (rch_write_then_load (H := Constant.collaborators)
           Samples.rch_once None).
  - by eexists.
  - reflexivity.
  - vm_compute. lia.
  - intros q _ u rest _. apply constant_decode_entry.
Defined.

Lemma rch_write_then_load_irchcb_witness :
  exists a w,
    Rch.load (Rch.write_file Samples.rch_once) Demo.quiet None None
    = (Ok a, w) /\
    Rch.args_irchcb a = 53.
Proof.
  apply (rch_write_then_load_irchcb (H := Constant.collaborators)
           Samples.rch_once None).
  - by eexists.
  - reflexivity.
  - vm_compute. lia.
  - intros q _ u rest _. apply constant_decode_entry.
Defined.

(* ===================================================================== *)
(** ** The option code of a package that is written and loaded *)
(* ===================================================================== *)

Section EvtWrittenScalars.
Context `{Collaborators}.

(** The load of a written file, with the arguments it makes. *)
Lemma evt_written_loaded self eud :
  (exists h', Evt.heading self = String "#" h') ->
  no_newline (Evt.heading self) = true ->
  (String.length (str (Evt.ipakcb self)) < 10)%nat ->
  (forall q,
     codes_fit (evt_self_timeline q self) (model_nper (Evt.parent self))) ->
  (forall q, evt_read q (Evt.nevtop self) = true ->
     entries_decode (Evt.parent self) eud (evt_dtype q) (evt_name q)
       (evt_self_timeline q self) (model_nper (Evt.parent self))) ->
  exists l w,
    Evt.load (Evt.write_file self) (Evt.parent self) None eud
    = (Ok (Evt.make_args (Evt.nevtop self) (Evt.ipakcb self) l), w).
Proof.
  intros [h' Hh] Hline Hip Hfit Hdec.
  destruct (evt_prelude_written self eud h' Hh Hline Hip)
    as (w0 & Hpre & Hs0 & Hh0).
  assert (Hinv0 : evt_loaded_so_far self 0
                    (Evt.Locals ∅ ∅ ∅ ∅ 0%nat 1%nat 2%nat 3%nat) (heap w0)).
  { intros q. destruct (evt_read q (Evt.nevtop self)).
    - split; [intros k Hk; lia | lia].
    - by destruct q. }
  destruct (evt_periods_written self eud Hfit Hdec
              (model_nper (Evt.parent self)) 0 _ w0 ""
              ltac:(lia) ltac:(by rewrite app_empty_r) Hinv0)
    as (l & w & Hrun & _ & _).
  exists l, w.
  rewrite (evt_load_from_prelude _ _ _ _ _ _ _ _ _ Hpre).
  by rewrite run_bind, Hrun.
Qed.

End EvtWrittenScalars.

(** X8: the option code of an evapotranspiration package survives writing
    and loading unless it is 0.  [load] hands [nevtop] to the constructor
    only when it is not 0 ([if nevtop:]), so a package with option code 0
    comes back with the default of the constructor, 3. *)
Theorem evt_write_then_load_nevtop `{Collaborators} self eud :
  (exists h', Evt.heading self = String "#" h') ->
  no_newline (Evt.heading self) = true ->
  (String.length (str (Evt.ipakcb self)) < 10)%nat ->
  (forall q,
     codes_fit (evt_self_timeline q self) (model_nper (Evt.parent self))) ->
  (forall q, evt_read q (Evt.nevtop self) = true ->
     entries_decode (Evt.parent self) eud (evt_dtype q) (evt_name q)
       (evt_self_timeline q self) (model_nper (Evt.parent self))) ->
  exists a w,
    Evt.load (Evt.write_file self) (Evt.parent self) None eud = (Ok a, w) /\
    Evt.args_nevtop a
    = (if (Evt.nevtop self =? 0)%Z then None else Some (Evt.nevtop self)) /\
    EvtInit.loaded_nevtop a
    = (if (Evt.nevtop self =? 0)%Z then 3 else Evt.nevtop self).
Proof.
  intros Hh Hline Hip Hfit Hdec.
  destruct (evt_written_loaded self eud Hh Hline Hip Hfit Hdec)
    as (l & w & Hload).
  eexists _, w. split; [exact Hload |]. split; [reflexivity |].
  unfold EvtInit.loaded_nevtop. simpl.
  by destruct (Evt.nevtop self =? 0)%Z.
Qed.

Lemma evt_write_then_load_nevtop_witness :
  exists a w,
    Evt.load (Evt.write_file Samples.evt_mode0) Demo.quiet None None
    = (Ok a, w) /\
    Evt.args_nevtop a = None /\
    EvtInit.loaded_nevtop a = 3.
Proof.
  apply (evt_write_then_load_nevtop (H := Constant.collaborators)
           Samples.evt_mode0 None).
  - by eexists.
  - reflexivity.
  - vm_compute. lia.
  - intros q. apply constant_codes_fit.
  - intros q _. apply constant_entries_decode. by destruct q.
Defined.

(* ===================================================================== *)
(** ** The control line of a stress period *)
(* ===================================================================== *)

(** X9: the first line of what [write_file] writes for a stress period is
    decoded by [load] to the codes that were written: the codes of the
    timelines of an evapotranspiration package (that of [ievt] only under
    option code 2), when each takes fewer than ten characters; and for a
    recharge package 1 or -1, as the list has an array for the period or
    not (that of [irch] only under option code 2). *)
Theorem control_line_round_trip `{Collaborators} :
  (forall self n,
     (forall q, codes_fit (evt_self_timeline q self) (S n)) ->
     Evt.control_record (Evt.nevtop self)
       (fst (readline (Evt.write_period self n)))
     = Ok (evt_written_codes self n)) /\
  (forall self n,
     Rch.control_record (Rch.nrchop self)
       (fst (readline (Rch.write_period self n)))
     = Ok (rch_written_codes self n)).
Proof.
  split.
  - intros self n Hfit. rewrite evt_write_period_blocks.
    rewrite readline_line by apply evt_control_line_no_newline.
    apply (evt_control_record_written self n (S n)); [lia | exact Hfit].
  - intros self n. rewrite rch_write_period_blocks.
    rewrite readline_line by apply rch_control_line_no_newline.
    apply rch_control_record_written.
Qed.

Lemma control_line_round_trip_witness :
  Evt.control_record 2
    (fst (readline (Evt.write_period Demo.evt_mode2 1)))
  = Ok {| Evt.insurf := 1; Evt.inevtr := -1; Evt.inexdp := -1;
          Evt.inievt := Some (-1) |}.
Proof.
  apply (proj1 (control_line_round_trip (H := Constant.collaborators))
           Demo.evt_mode2 1%nat).
  intros q. apply constant_codes_fit.
Defined.

(* ===================================================================== *)
(** ** Arrays that are not written *)
(* ===================================================================== *)

Section Unwritten.
Context `{Collaborators}.

Lemma evt_write_periods_ievt self t k n :
  Evt.nevtop self <> 2 ->
  (forall j, (n <= j < n + k)%nat ->
     fst (get_kper_entry t j) = fst (get_kper_entry (Evt.self_ievt self) j)) ->
  Evt.write_periods (evt_with_ievt t self) k n = Evt.write_periods self k n.
Proof.
  intros Hmode. revert n. induction k as [|k IH]; intros n Hcodes; [done |].
  cbn [Evt.write_periods]. rewrite IH by (intros j Hj; apply Hcodes; lia).
  f_equal. unfold Evt.write_period.
  cbn [evt_with_ievt Evt.self_surf Evt.self_evtr Evt.self_exdp Evt.self_ievt
       Evt.nevtop].
  specialize (Hcodes n ltac:(lia)).
  destruct (get_kper_entry (Evt.self_surf self) n) as [c0 s0].
  destruct (get_kper_entry (Evt.self_evtr self) n) as [c1 s1].
  destruct (get_kper_entry (Evt.self_exdp self) n) as [c2 s2].
  destruct (get_kper_entry (Evt.self_ievt self) n) as [c3 s3].
  destruct (get_kper_entry t n) as [c3' s3'].
  cbn [fst] in Hcodes. subst c3'.
  by destruct (Z.eqb_spec (Evt.nevtop self) 2).
Qed.

Lemma rch_write_periods_irch self us k n :
  Rch.nrchop self <> 2 ->
  length us = length (Rch.self_irch self) ->
  Rch.write_periods (rch_with_irch us self) k n = Rch.write_periods self k n.
Proof.
  intros Hmode Hlen. revert n. induction k as [|k IH]; intros n; [done |].
  cbn [Rch.write_periods]. rewrite IH. f_equal. unfold Rch.write_period.
  cbn [rch_with_irch Rch.self_rech Rch.self_irch Rch.nrchop].
  rewrite Hlen. destruct (Z.eqb_spec (Rch.nrchop self) 2); [done |].
  by destruct (us !! n), (Rch.self_irch self !! n).
Qed.

End Unwritten.

(** X10: outside option code 2 the text [write_file] writes does not depend
    on the layer arrays of the package: an evapotranspiration package
    writes the same text with any other [ievt] that has the same control
    codes, and a recharge package with any other list [irch] of the same
    length.  Only the codes of these arrays are written, never their
    values. *)
Theorem layer_arrays_are_written_under_code_2_only `{Collaborators} :
  (forall self t,
     Evt.nevtop self <> 2 ->
     (forall j, (j < model_nper (Evt.parent self))%nat ->
        fst (get_kper_entry t j)
        = fst (get_kper_entry (Evt.self_ievt self) j)) ->
     Evt.write_file (evt_with_ievt t self) = Evt.write_file self) /\
  (forall self us,
     Rch.nrchop self <> 2 ->
     length us = length (Rch.self_irch self) ->
     Rch.write_file (rch_with_irch us self) = Rch.write_file self).
Proof.
  split.
  - intros self t Hmode Hcodes. unfold Evt.write_file, model_nper in *.
    cbn [evt_with_ievt Evt.parent Evt.heading Evt.nevtop Evt.ipakcb].
    destruct (nrow_ncol_nlay_nper (Evt.parent self))
      as [[[nrow ncol] nlay] nper].
    rewrite evt_write_periods_ievt; [done | done |].
    intros j Hj. apply Hcodes. lia.
  - intros self us Hmode Hlen. unfold Rch.write_file.
    cbn [rch_with_irch Rch.parent Rch.heading Rch.nrchop Rch.irchcb].
    destruct (nrow_ncol_nlay_nper (Rch.parent self))
      as [[[nrow ncol] nlay] nper].
    by rewrite rch_write_periods_irch.
Qed.

Lemma layer_arrays_are_written_under_code_2_only_witness :
  Evt.write_file (evt_with_ievt {[ 0%nat := 8 ]} (Demo.evt_layer 7))
  = Evt.write_file (Demo.evt_layer 7) /\
  Rch.write_file (rch_with_irch [4] Samples.rch_once)
  = Rch.write_file Samples.rch_once.
Proof.
  split.
  - apply (proj1 (layer_arrays_are_written_under_code_2_only
                    (H := Constant.collaborators))
             (Demo.evt_layer 7) {[ 0%nat := 8 ]}).
    + discriminate.
    + intros [|[|j]] Hj; [reflexivity | reflexivity |].
      vm_compute in Hj. lia.
  - apply (proj2 (layer_arrays_are_written_under_code_2_only
                    (H := Constant.collaborators))
             Samples.rch_once [4]).
    + discriminate.
    + reflexivity.
Defined.

(* ===================================================================== *)
(** ** Parameter names *)
(* ===================================================================== *)

Section ParameterNames.
Context `{Collaborators}.

Lemma slice0_all n s : (String.length s <= n)%nat -> slice0 n s = s.
Proof.
  revert n. induction s as [|c s IH]; intros [|n] Hn; simpl in *;
    [done | done | lia |]. rewrite IH; [done | lia].
Qed.

Lemma length_slice0 n s :
  String.length (slice0 n s) = Nat.min n (String.length s).
Proof.
  revert n. induction s as [|c s IH]; intros [|n]; simpl; auto.
Qed.

Lemma parameter_name_slice t :
  Evt.parameter_name t = slice0 10 (lower t).
Proof.
  unfold Evt.parameter_name. cbv zeta.
  destruct (Nat.ltb_spec 10 (String.length (lower t))); [done |].
  by rewrite slice0_all.
Qed.

End ParameterNames.

(** X11: the key of a parameter is its name in lower case, cut to ten
    characters.  So names that agree in their first ten characters, up to
    case, are one parameter to the loader: when two name lines of a stress
    period carry such names, the dictionary gets one entry, with the
    instance the later line resolves to. *)
Theorem parameter_names_are_cut_to_ten `{Collaborators} :
  (forall t,
     Evt.parameter_name t = slice0 10 (lower t) /\
     (String.length (Evt.parameter_name t) <= 10)%nat) /\
  (forall pp d w n1 ts1 n2 ts2,
     split (strip (fst (readline (stream w)))) = n1 :: ts1 ->
     split (strip (fst (readline (snd (readline (stream w)))))) = n2 :: ts2 ->
     slice0 10 (lower n1) = slice0 10 (lower n2) ->
     fst (Evt.parm_lines 2 pp d w)
     = Ok (<[Evt.parameter_name n2 :=
               Evt.instance_name pp (n2 :: ts2) (Evt.parameter_name n2)]> d)).
Proof.
  split.
  - intros t. split; [apply parameter_name_slice |].
    rewrite parameter_name_slice, length_slice0. lia.
  - intros pp d w n1 ts1 n2 ts2 H1 H2 Hkey.
    unfold Evt.parm_lines. cbn [for_range].
    rewrite run_bind, evt_parm_line_run, H1.
    rewrite run_bind, evt_parm_line_run. cbn [stream]. rewrite H2.
    cbn [ret fst]. f_equal.
    rewrite (parameter_name_slice n1), Hkey, <- (parameter_name_slice n2).
    apply insert_insert_eq.
Qed.

Lemma parameter_names_are_cut_to_ten_witness :
  fst (Evt.parm_lines (H := Constant.collaborators) 2
         (Some Demo.one_parameter) ∅ Samples.long_names_world)
  = Ok (<[Evt.parameter_name "RechargeZone2" :=
            Evt.instance_name (H := Constant.collaborators)
              (Some Demo.one_parameter) ["RechargeZone2"; "wet"]
              (Evt.parameter_name "RechargeZone2")]> ∅).
Proof.
  apply (proj2 (parameter_names_are_cut_to_ten (H := Constant.collaborators))
           (Some Demo.one_parameter) ∅ Samples.long_names_world
           "rechargezone1" ["dry"] "RechargeZone2" ["wet"]);
    reflexivity.
Defined.

(* ===================================================================== *)
(** ** What the loaders print *)
(* ===================================================================== *)

Section Silent.
Context `{Collaborators}.

Lemma silent_ret {A} (a : A) : silent (ret a).
Proof. by intros w. Qed.

Lemma silent_raise {A} e : silent (raise (A := A) e).
Proof. by intros w. Qed.

Lemma silent_lift {A} (r : result A) : silent (lift r).
Proof. by intros w. Qed.

Lemma silent_bind {A B} (c : M A) (k : A -> M B) :
  silent c -> (forall w a w', c w = (Ok a, w') -> silent (k a)) ->
  silent (bind c k).
Proof.
  intros Hc Hk w. rewrite run_bind. specialize (Hc w).
  destruct (c w) as [[a|e] w'] eqn:Hcw; simpl in *; [| done].
  by rewrite (Hk w a w' Hcw w').
Qed.

Lemma silent_readline : silent f_readline.
Proof. intros w. by rewrite f_readline_run. Qed.

Lemma silent_alloc o : silent (alloc o).
Proof. by intros w. Qed.

Lemma silent_reading {A} (c : string -> result (A * string)) :
  silent (reading c).
Proof. intros w. unfold reading. by destruct (c (stream w)) as [[a r]|e]. Qed.

Lemma silent_shape_of s : silent (shape_of s).
Proof. destruct s; [apply silent_ret | apply silent_raise]. Qed.

Lemma silent_when_false c : silent (when false c).
Proof. apply silent_ret. Qed.

Lemma silent_for_range {L} (body : nat -> L -> M L) n i l :
  (forall i l, silent (body i l)) -> silent (for_range body n i l).
Proof.
  intros Hb. revert i l. induction n as [|n IH]; intros i l; simpl.
  - apply silent_ret.
  - apply silent_bind; [apply Hb | intros; apply IH].
Qed.

End Silent.

Create HintDb silent.
#[export] Hint Resolve silent_ret silent_raise silent_lift silent_readline
  silent_alloc silent_reading silent_shape_of silent_when_false : silent.

Ltac solve_silent :=
  repeat first
    [ progress (unfold mbind, M_bind, mret, M_ret)
    | apply silent_bind; [| intros ? ? ? ?]
    | solve [auto with silent]
    | match goal with |- silent (let '(_, _) := ?x in _) => destruct x end
    | match goal with |- silent (if ?b then _ else _) => destruct b end
    | match goal with |- silent (match ?x with _ => _ end) => destruct x end ].

Section QuietLoad.
Context `{Collaborators}.

Lemma silent_evt_header_line fuel : silent (Evt.header_line fuel).
Proof. induction fuel as [|fuel IH]; simpl; solve_silent. Qed.

Lemma silent_evt_parameter_line m line :
  verbose m = false -> silent (Evt.parameter_line m line).
Proof.
  intros Hv. unfold Evt.parameter_line. rewrite Hv.
  destruct (contains "parameter" (lower line)); [| apply silent_ret].
  solve_silent. rewrite andb_false_r. apply silent_when_false.
Qed.

Lemma silent_evt_load_array m s dt name eud :
  silent (Evt.load_array m s dt name eud).
Proof. unfold Evt.load_array. solve_silent. Qed.

Lemma silent_evt_parm_lines n i pp d :
  silent (for_range (fun _ => Evt.parm_line pp) n i d).
Proof.
  apply silent_for_range. intros _ d' w. by rewrite evt_parm_line_run.
Qed.

Lemma silent_evt_period e iper l :
  verbose (Evt.e_model e) = false -> silent (Evt.period e iper l).
Proof.
  intros Hv.
  unfold Evt.period, Evt.load_surf, Evt.load_evtr, Evt.load_exdp,
    Evt.load_ievt, Evt.parm_lines.
  rewrite Hv.
  pose proof silent_evt_load_array. pose proof silent_evt_parm_lines.
  solve_silent.
Qed.

(** The environment of the loop holds the model that was passed. *)
Lemma evt_load_header_model fuel m nper eud w e ip n w0 :
  Evt.load_header fuel m nper eud w = (Ok (e, ip, n), w0) ->
  Evt.e_model e = m.
Proof.
  unfold Evt.load_header. unm. intros Hh.
  apply bind_ok_inv in Hh as (line & w4 & _ & Hh).
  apply bind_ok_inv in Hh as ([npar line'] & w5 & _ & Hh).
  apply bind_ok_inv in Hh as ([nevtop ipakcb] & w6 & _ & Hh).
  apply bind_ok_inv in Hh as (pp & w7 & _ & Hh).
  destruct nper as [n0|].
  - by apply ret_ok_inv in Hh as [[= -> _ _] _].
  - destruct (nrow_ncol_nlay_nper m) as [[[nrow ncol] nlay] nper].
    by apply ret_ok_inv in Hh as [[= -> _ _] _].
Qed.

Lemma silent_evt_load_header fuel m nper eud :
  verbose m = false -> silent (Evt.load_header fuel m nper eud).
Proof.
  intros Hv. unfold Evt.load_header.
  pose proof (silent_evt_header_line fuel).
  pose proof (fun line => silent_evt_parameter_line m line Hv).
  solve_silent.
Qed.

Lemma silent_evt_load_body fuel m nper eud :
  verbose m = false -> silent (Evt.load_body fuel m nper eud).
Proof.
  intros Hv. unfold Evt.load_body, Evt.prelude, Evt.initial_locals.
  rewrite Hv. unm.
  apply silent_bind.
  - apply silent_bind; [apply silent_when_false | intros _ _ _ _].
    apply silent_bind; [by apply silent_evt_load_header | intros].
    solve_silent.
  - intros w [[[e ip] n] l0] w0 Hpre.
    apply bind_ok_inv in Hpre as (? & w1 & _ & Hpre).
    apply bind_ok_inv in Hpre as (h & w2 & Hh & Hpre).
    apply bind_ok_inv in Hpre as (l0' & w3 & _ & Hpre).
    apply ret_ok_inv in Hpre as [[= <- _] _].
    apply evt_load_header_model in Hh.
    apply silent_bind; [| intros; apply silent_ret].
    apply silent_for_range. intros i l. apply silent_evt_period.
    by rewrite Hh.
Qed.

End QuietLoad.

(** X12: with the verbosity of the model off, [ModflowEvt.load] prints
    nothing, whatever the file holds and however the load ends. *)
Theorem evt_quiet_load_prints_nothing `{Collaborators} f m nper eud :
  verbose m = false ->
  stdout (snd (Evt.load f m nper eud)) = [].
Proof.
  intros Hv. unfold Evt.load.
  by rewrite (silent_evt_load_body _ m nper eud Hv (Evt.start f)).
Qed.

Lemma evt_quiet_load_prints_nothing_witness :
  stdout (snd (Evt.load Demo.evt_reuse_second Demo.quiet None None)) = [].
Proof.
  apply (evt_quiet_load_prints_nothing (H := Constant.collaborators)).
  reflexivity.
Defined.

Section ReadsOnly.
Context `{Collaborators}.

Lemma reads_only_ret {A} (a : A) : reads_only (ret a).
Proof. by intros w. Qed.

Lemma reads_only_raise {A} e : reads_only (raise (A := A) e).
Proof. by intros w. Qed.

Lemma reads_only_lift {A} (r : result A) : reads_only (lift r).
Proof. by intros w. Qed.

Lemma reads_only_readline : reads_only f_readline.
Proof. intros w. by rewrite f_readline_run. Qed.

Lemma reads_only_bind {A B} (c : M A) (k : A -> M B) :
  reads_only c -> (forall a, reads_only (k a)) -> reads_only (bind c k).
Proof.
  intros Hc Hk w. rewrite run_bind. specialize (Hc w).
  destruct (c w) as [[a|e] w'] eqn:Hcw; simpl in *; [| done].
  destruct (Hk a w') as [-> ->]. exact Hc.
Qed.

Lemma reads_only_rch_header_line fuel : reads_only (Rch.header_line fuel).
Proof.
  induction fuel as [|fuel IH]; simpl; [apply reads_only_raise |]. unm.
  apply reads_only_bind; [apply reads_only_readline | intros line].
  apply reads_only_bind; [apply reads_only_lift | intros c].
  destruct (Ascii.eqb c "#"); [exact IH | apply reads_only_ret].
Qed.

Lemma reads_only_rch_parameter_line line :
  reads_only (Rch.parameter_line line).
Proof.
  unfold Rch.parameter_line.
  destruct (contains "parameter" (lower line)); [| apply reads_only_ret].
  unm. apply reads_only_bind; [apply reads_only_lift | intros npar].
  destruct (npar =? 0)%Z; [apply reads_only_readline | apply reads_only_raise].
Qed.

Lemma reads_only_rch_load_header fuel m nper eud :
  reads_only (Rch.load_header fuel m nper eud).
Proof.
  unfold Rch.load_header. unm.
  apply reads_only_bind; [apply reads_only_rch_header_line | intros line].
  apply reads_only_bind; [apply reads_only_rch_parameter_line | intros line'].
  apply reads_only_bind; [apply reads_only_lift | intros [nrchop irchcb]].
  destruct nper; [apply reads_only_ret |].
  destruct (nrow_ncol_nlay_nper m) as [[[? ?] ?] ?]. apply reads_only_ret.
Qed.

(** The recharge loader starts its loop with two objects made and nothing
    printed. *)
Lemma rch_prelude_counts fuel m nper eud w x w0 :
  Rch.prelude fuel m nper eud w = (Ok x, w0) ->
  length (heap w0) = (length (heap w) + 2)%nat /\ stdout w0 = stdout w.
Proof.
  unfold Rch.prelude, Rch.initial_locals. unm. intros Hp.
  apply bind_ok_inv in Hp as (h & w1 & Hh & Hp).
  destruct (reads_only_rch_load_header fuel m nper eud w) as [Hheap Hout].
  rewrite Hh in Hheap, Hout. simpl in Hheap, Hout.
  rewrite !run_bind, !alloc_run in Hp. injection Hp as _ <-. simpl.
  rewrite !length_app, Hheap, Hout. simpl. split; [lia | done].
Qed.

Lemma line_per_object_ret {A} (a : A) : line_per_object (ret a).
Proof. intros w a' w' [= _ <-]. exists 0%nat. lia. Qed.

Lemma line_per_object_bind {A B} (c : M A) (k : A -> M B) :
  line_per_object c -> (forall a, line_per_object (k a)) ->
  line_per_object (bind c k).
Proof.
  intros Hc Hk w b w2 Hrun.
  apply bind_ok_inv in Hrun as (a & w1 & H1 & H2).
  destruct (Hc _ _ _ H1) as (k1 & Ho1 & Hh1).
  destruct (Hk a _ _ _ H2) as (k2 & Ho2 & Hh2).
  exists (k1 + k2)%nat. lia.
Qed.

Lemma line_per_object_reads_only {A} (c : M A) :
  reads_only c -> line_per_object c.
Proof.
  intros Hc w a w' Hrun. destruct (Hc w) as [Hh Ho].
  rewrite Hrun in Hh, Ho. simpl in *. exists 0%nat. rewrite Hh, Ho. lia.
Qed.

Lemma line_per_object_for_range {L} (body : nat -> L -> M L) n i l :
  (forall i l, line_per_object (body i l)) ->
  line_per_object (for_range body n i l).
Proof.
  intros Hb. revert i l. induction n as [|n IH]; intros i l; simpl.
  - apply line_per_object_ret.
  - apply line_per_object_bind; [apply Hb | intros; apply IH].
Qed.

(** An array that is read: one line, one object. *)
Lemma line_per_object_rch_load_quantity e q iper code cur :
  line_per_object (rch_load_quantity e q iper code cur).
Proof.
  unfold rch_load_quantity. destruct (code >=? 0)%Z;
    [| apply line_per_object_ret].
  intros w r w'. rewrite run_bind, print_run.
  unfold Rch.load_array. unm. intros Hrun.
  apply bind_ok_inv in Hrun as (shape & w1 & Hs & Hrun).
  apply bind_ok_inv in Hrun as (a & w2 & Ha & Hrun).
  rewrite alloc_run in Hrun. injection Hrun as _ <-.
  assert (E1 : heap w1 = heap w /\
               length (stdout w1) = S (length (stdout w))).
  { destruct (Rch.e_nrow_ncol e); [| discriminate].
    apply ret_ok_inv in Hs as [_ ->]. simpl.
    rewrite length_app. simpl. split; [done | lia]. }
  assert (E2 : heap w2 = heap w1 /\ stdout w2 = stdout w1).
  { unfold reading in Ha.
    destruct (Util2d_load _ _ _ _ _ _) as [[a' rest]|]; [| discriminate].
    by injection Ha as _ <-. }
  destruct E1 as [Hh1 Ho1], E2 as [Hh2 Ho2]. exists 1%nat. simpl.
  rewrite length_app, Ho2, Ho1, Hh2, Hh1. simpl. lia.
Qed.

Lemma line_per_object_rch_period e iper l :
  line_per_object (Rch.period e iper l).
Proof.
  unfold Rch.period. unm.
  apply line_per_object_bind;
    [apply line_per_object_reads_only, reads_only_readline | intros line].
  apply line_per_object_bind;
    [apply line_per_object_reads_only, reads_only_lift | intros c].
  rewrite rch_load_rech_quantity.
  apply line_per_object_bind;
    [apply line_per_object_rch_load_quantity | intros r1].
  destruct (Rch.inirch c) as [c1|]; [| apply line_per_object_ret].
  rewrite rch_load_irch_quantity.
  apply line_per_object_bind;
    [apply line_per_object_rch_load_quantity | intros r2].
  apply line_per_object_ret.
Qed.

End ReadsOnly.

(** X13: [ModflowRch.load] does not look at the verbosity of the model: a
    load that returns has printed exactly one line for every array it has
    read.  (The heap then holds the two empty lists the loop starts with
    and one object for each array.) *)
Theorem rch_load_prints_one_line_per_array `{Collaborators}
    f m nper eud a w :
  Rch.load f m nper eud = (Ok a, w) ->
  length (heap w) = (length (stdout w) + 2)%nat.
Proof.
  intros Hload.
  apply rch_load_ok_inv in Hload
    as (e & ip & n & l0 & w0 & l & Hpre & Hrun & _).
  apply rch_prelude_counts in Hpre as [Hh0 Ho0]. simpl in Hh0, Ho0.
  destruct (line_per_object_for_range (Rch.period e) n 0 l0
              (line_per_object_rch_period e) _ _ _ Hrun) as (k & Ho & Hh).
  rewrite Hh, Ho, Hh0, Ho0. simpl. lia.
Qed.

Lemma rch_load_prints_one_line_per_array_witness :
  length (heap (snd (Rch.load Demo.rch_unit7 Demo.quiet None None)))
  = (length (stdout (snd (Rch.load Demo.rch_unit7 Demo.quiet None None)))
     + 2)%nat.
Proof.
  apply (rch_load_prints_one_line_per_array (H := Constant.collaborators)
           Demo.rch_unit7 Demo.quiet None None Demo.rch_unit7_args).
  apply run_eq. vm_compute. reflexivity.
Defined.

(* ===================================================================== *)
(** ** The file names of the evapotranspiration constructor *)
(* ===================================================================== *)

(** X14: the constructor of the evapotranspiration package brings
    [filenames] to a list with a place for the package file and one for the
    budget file, except when it is passed the empty list, which gets one
    place only.  So the constructor raises [IndexError] exactly when
    [filenames] is [[]] and [ipakcb] is passed; in every other case it goes
    on, with [ipakcb] 0 when none was passed and with an output file
    registered exactly when one was. *)
Theorem evt_init_files_index_error :
  (forall filenames,
     filenames <> EvtInit.FList [] ->
     (2 <= length (EvtInit.set_filenames filenames))%nat) /\
  (forall ipakcb filenames,
     EvtInit.init_files ipakcb filenames = Raise IndexError <->
     filenames = EvtInit.FList [] /\ is_Some ipakcb) /\
  (forall ipakcb filenames,
     ~ (filenames = EvtInit.FList [] /\ is_Some ipakcb) ->
     exists fs,
       EvtInit.init_files ipakcb filenames = Ok fs /\
       EvtInit.self_ipakcb fs = default 0 ipakcb /\
       (EvtInit.output_file fs = None <-> ipakcb = None) /\
       EvtInit.package_fname fs
       = take 1 (EvtInit.set_filenames filenames)).
Proof.
  assert (Hlen : forall filenames,
            filenames <> EvtInit.FList [] ->
            exists a b rest, EvtInit.set_filenames filenames = a :: b :: rest).
  { intros [|s|[|a [|b l]]] Hne; simpl; eauto. done. }
  assert (Hdec : forall filenames : EvtInit.filenames_arg,
            filenames = EvtInit.FList [] \/ filenames <> EvtInit.FList []).
  { intros [|s|[|a l]]; auto; by right. }
  split; [| split].
  - intros filenames Hne. destruct (Hlen _ Hne) as (a & b & rest & ->).
    simpl. lia.
  - intros ipakcb filenames. split.
    + intros Hraise. destruct (Hdec filenames) as [-> | Hne].
      * split; [done |]. destruct ipakcb; [eauto | discriminate].
      * destruct (Hlen _ Hne) as (a & b & rest & Hl).
        unfold EvtInit.init_files in Hraise. rewrite Hl in Hraise.
        destruct ipakcb; discriminate.
    + intros [-> [u ->]]. reflexivity.
  - intros ipakcb filenames Hok.
    destruct (Hdec filenames) as [-> | Hne].
    + destruct ipakcb as [u|]; [exfalso; apply Hok; eauto |].
      eexists. split; [reflexivity |]. simpl. by repeat split.
    + destruct (Hlen _ Hne) as (a & b & rest & Hl).
      unfold EvtInit.init_files. rewrite Hl.
      destruct ipakcb as [u|]; (eexists; split; [reflexivity |]; simpl);
        repeat split; try done.
Qed.

Lemma evt_init_files_index_error_witness :
  (2 <= length (EvtInit.set_filenames (EvtInit.FList [Some "m.evt"])))%nat /\
  EvtInit.init_files (Some 53) (EvtInit.FList []) = Raise IndexError /\
  (exists fs,
     EvtInit.init_files None (EvtInit.FList []) = Ok fs /\
     EvtInit.self_ipakcb fs = 0 /\
     (EvtInit.output_file fs = None <-> None = (None : option Z)) /\
     EvtInit.package_fname fs = [None]).
Proof.
  split; [| split].
  - apply (proj1 evt_init_files_index_error). discriminate.
  - apply (proj1 (proj2 evt_init_files_index_error)). split; [done | eauto].
  - apply (proj2 (proj2 evt_init_files_index_error) None (EvtInit.FList [])).
    intros [_ [u Hu]]. discriminate.
Defined.

(* ===================================================================== *)
(** ** The multi-node well package *)
(* ===================================================================== *)

Section Mnw1Facts.
Context `{Mnw1Outside}.

Lemma mnw1_check_extension_valid each :
  Mnw1.check_extension each = Ok tt <-> valid_aux each = true.
Proof.
  unfold Mnw1.check_extension, valid_aux, is_kind. unm.
  destruct (Mnw1.extension each) as [e|x]; simpl; [| done].
  rewrite !orb_true_iff, !String.eqb_eq.
  case_decide as He; rewrite !elem_of_cons, elem_of_nil in He;
    split; try done; tauto.
Qed.

Lemma mnw1_check_extensions_valid l :
  Mnw1.check_extensions l = Ok tt <-> forallb valid_aux l = true.
Proof.
  induction l as [|each l IH]; simpl; [done |]. unm.
  rewrite andb_true_iff, <- IH, <- mnw1_check_extension_valid.
  destruct (Mnw1.check_extension each) as [[]|x]; simpl; [| split; [done |]].
  - tauto.
  - by intros [? _].
Qed.

Lemma mnw1_check_extensions_cases l :
  Mnw1.check_extensions l = Ok tt \/
  exists x, Mnw1.check_extensions l = Raise x.
Proof. destruct (Mnw1.check_extensions l) as [[]|x]; eauto. Qed.

Lemma mnw1_array_max_le a bound :
  (exists top, Mnw1.array_max a = Ok top /\ top <= bound) <->
  a <> [] /\ Forall (fun x => x <= bound) a.
Proof.
  destruct a as [|x a]; simpl.
  - split; [by intros (? & ? & _) | by intros [? _]].
  - split.
    + intros (top & [= <-] & Hle). split; [done |].
      revert Hle. induction a as [|y a IH]; simpl; intros Hle.
      * by constructor.
      * assert (Hx : Forall (λ x0 : Z, x0 <= bound) (x :: a)) by (apply IH; lia).
        inversion Hx; subst. constructor; [done |]. constructor; [lia | done].
    + intros [_ Hall]. eexists. split; [reflexivity |].
      inversion Hall as [|? ? Hx Ha]; subst. clear Hall.
      induction Ha as [|y a Hy Ha IH]; simpl; lia.
Qed.

(** A loop over the entries of one kind sees the other entries as turns
    that write nothing. *)
Lemma mnw1_for_each_filter {A} (body : A -> result string) (keep : A -> bool)
    l :
  Forall (fun x => keep x = false -> body x = Ok "") l ->
  Mnw1.for_each body l = Mnw1.for_each body (List.filter keep l).
Proof.
  induction 1 as [|x l Hx Hl IH]; simpl; [done |]. unm.
  destruct (keep x) eqn:Hk; simpl.
  - unm. by rewrite IH.
  - rewrite (Hx eq_refl), <- IH. simpl.
    by destruct (Mnw1.for_each body l).
Qed.

Lemma mnw1_for_each_wel1 l :
  forallb (fun each => is_ok (Mnw1.extension each)) l = true ->
  Mnw1.for_each Mnw1.wel1_line l
  = Mnw1.for_each Mnw1.wel1_line (List.filter (is_kind "wl1") l).
Proof.
  intros Hl. apply mnw1_for_each_filter.
  apply Forall_forall. intros each Hin.
  rewrite forallb_forall in Hl. apply list_elem_of_In, Hl in Hin.
  unfold is_kind, Mnw1.wel1_line. unm.
  destruct (Mnw1.extension each) as [e|]; [| done]. simpl.
  by intros ->.
Qed.

Lemma mnw1_for_each_flagged kind label l :
  forallb (fun each => is_ok (Mnw1.extension each)) l = true ->
  Mnw1.for_each (Mnw1.flagged_line kind label) l
  = Mnw1.for_each (Mnw1.flagged_line kind label)
      (List.filter (is_kind kind) l).
Proof.
  intros Hl. apply mnw1_for_each_filter.
  apply Forall_forall. intros each Hin.
  rewrite forallb_forall in Hl. apply list_elem_of_In, Hl in Hin.
  unfold is_kind, Mnw1.flagged_line. unm.
  destruct (Mnw1.extension each) as [e|]; [| done]. simpl.
  by intros ->.
Qed.

Lemma mnw1_valid_has_extension l :
  forallb valid_aux l = true ->
  forallb (fun each => is_ok (Mnw1.extension each)) l = true.
Proof.
  induction l as [|each l IH]; simpl; [done |].
  intros [He Hl]%andb_prop. rewrite (IH Hl), andb_true_r.
  unfold valid_aux, is_kind in He. by destruct (Mnw1.extension each).
Qed.

(** What [__init__] has checked and stored when it returns. *)
Lemma mnw1_init_inv m mxmnw iwl2cb iwelpt nomoiter kspref wel1 itmp_a nodes
    mnwname self :
  Mnw1.__init__ m mxmnw iwl2cb iwelpt nomoiter kspref wel1 itmp_a nodes
    mnwname = Ok self ->
  exists l,
    wel1 = Some l /\
    forallb valid_aux l = true /\
    assignarray_old (replicate (model_nper m) 0) itmp_a = Ok (Mnw1.itmp self) /\
    Mnw1.itmp self <> [] /\
    Forall (fun x => x <= mxmnw) (Mnw1.itmp self) /\
    Mnw1.nper self = model_nper m /\
    Mnw1.mxmnw self = mxmnw /\
    Mnw1.losstype self = "SKIN" /\
    Mnw1.wel1_bynode_qsum self = Some l /\
    Mnw1.lay_row_col_qdes_mn_multi self = nodes /\
    Mnw1.mnwname self = mnwname.
Proof.
  unfold Mnw1.__init__, model_nper. unm.
  destruct (nrow_ncol_nlay_nper m) as [[[nrow ncol] nlay] nper].
  intros Hinit.
  apply rbind_ok_inv in Hinit as (itmp1 & Hassign & Hinit).
  apply rbind_ok_inv in Hinit as (l & Hl & Hinit).
  apply rbind_ok_inv in Hinit as ([] & Hchk & Hinit).
  apply rbind_ok_inv in Hinit as (top & Htop & Hinit).
  destruct (Z.leb_spec top mxmnw) as [Hle |]; [| done].
  injection Hinit as <-. simpl.
  destruct wel1 as [l' |]; [| done]. injection Hl as ->.
  exists l. split; [done |].
  split; [by apply mnw1_check_extensions_valid |]. split; [done |].
  destruct (proj1 (mnw1_array_max_le itmp1 mxmnw)) as [Hne Hall]; [eauto |].
  by repeat split.
Qed.

End Mnw1Facts.

(** X15: what the constructor of the multi-node well package checks.  With
    [wel1_bynode_qsum] left at its default, [None], it raises [TypeError].
    With a list it returns exactly when every file name of the list has
    [wl1], [ByNode] or [Qsum] as the second of its dot-separated pieces,
    there is at least one stress period entry in [itmp], and no entry of
    [itmp] exceeds [mxmnw]. *)
Theorem mnw1_init_checks `{Mnw1Outside}
    m mxmnw iwl2cb iwelpt nomoiter kspref wel1 itmp_a nodes mnwname itmp1 :
  assignarray_old (replicate (model_nper m) 0) itmp_a = Ok itmp1 ->
  (wel1 = None ->
   Mnw1.__init__ m mxmnw iwl2cb iwelpt nomoiter kspref wel1 itmp_a nodes
     mnwname = Raise TypeError) /\
  (forall l,
     wel1 = Some l ->
     (exists self,
        Mnw1.__init__ m mxmnw iwl2cb iwelpt nomoiter kspref wel1 itmp_a nodes
          mnwname = Ok self) <->
     forallb valid_aux l = true /\ itmp1 <> [] /\
     Forall (fun x => x <= mxmnw) itmp1).
Proof.
  intros Hassign. split.
  - intros ->. unfold Mnw1.__init__, model_nper in *. unm.
    destruct (nrow_ncol_nlay_nper m) as [[[nrow ncol] nlay] nper].
    by rewrite Hassign.
  - intros l ->. split.
    + intros [self Hinit].
      apply mnw1_init_inv in Hinit
        as (l' & [= <-] & Hv & Ha & Hne & Hall & _).
      rewrite Hassign in Ha. injection Ha as ->. auto.
    + intros (Hv & Hne & Hall).
      apply mnw1_check_extensions_valid in Hv.
      destruct (proj2 (mnw1_array_max_le itmp1 mxmnw) (conj Hne Hall))
        as (top & Htop & Hle).
      unfold Mnw1.__init__, model_nper in *. unm.
      destruct (nrow_ncol_nlay_nper m) as [[[nrow ncol] nlay] nper].
      rewrite Hassign. simpl. rewrite Hv. simpl. rewrite Htop. simpl.
      destruct (Z.leb_spec top mxmnw); [eauto | lia].
Qed.

Lemma mnw1_init_checks_witness :
  exists self,
    Mnw1.__init__ (H := Whole.outside) Demo.quiet 3 0 0 0 "1"
      (Some Samples.aux_files) 2 (Some Samples.two_nodes) (Some "wells")
    = Ok self.
Proof.
  apply (proj2 (mnw1_init_checks (H := Whole.outside) Demo.quiet 3 0 0 0 "1"
                  (Some Samples.aux_files) 2 (Some Samples.two_nodes)
                  (Some "wells") [2; 2] eq_refl)
           Samples.aux_files eq_refl).
  split; [reflexivity |]. split; [discriminate |].
  repeat constructor; lia.
Defined.

(** X16: [write_file] writes the auxiliary output files grouped by kind,
    whatever their order in [wel1_bynode_qsum]: when every file name has an
    extension, each of the three loops writes what it would write on the
    entries of its own kind alone, so the text is the lines of the [wl1]
    files, then those of the [ByNode] files, then those of the [Qsum]
    files, each group in the order of the list. *)
Theorem mnw1_aux_files_are_grouped l :
  forallb (fun each => is_ok (Mnw1.extension each)) l = true ->
  Mnw1.aux_section (Some l)
  = (a ← Mnw1.for_each Mnw1.wel1_line (List.filter (is_kind "wl1") l);
     b ← Mnw1.for_each (Mnw1.flagged_line "ByNode" "BYNODE")
           (List.filter (is_kind "ByNode") l);
     c ← Mnw1.for_each (Mnw1.flagged_line "Qsum" "QSUM")
           (List.filter (is_kind "Qsum") l);
     Ok (a ++ b ++ c)).
Proof.
  intros Hl. unfold Mnw1.aux_section. unm. simpl.
  by rewrite (mnw1_for_each_wel1 l Hl),
    (mnw1_for_each_flagged "ByNode" "BYNODE" l Hl),
    (mnw1_for_each_flagged "Qsum" "QSUM" l Hl).
Qed.

Lemma mnw1_aux_files_are_grouped_witness :
  Mnw1.aux_section (Some Samples.aux_files)
  = Ok (("FILE:out.wl1 WEL1:        91" ++ nl)
        ++ ("FILE:out.ByNode BYNODE:        92" ++ nl)
        ++ ("FILE:out.Qsum QSUM:        93 ALLTIME" ++ nl)).
Proof.
  rewrite (mnw1_aux_files_are_grouped Samples.aux_files eq_refl).
  reflexivity.
Defined.

(* ===================================================================== *)
(** ** Lines that change nothing, and files that end early *)
(* ===================================================================== *)

Section Transparent.
Context `{Collaborators}.

(** The load, from the first line after the comments on. *)
Lemma evt_load_skips bs line rest m nper eud :
  forallb no_newline bs = true ->
  no_newline line = true ->
  not_comment line = true ->
  Evt.load (comment_lines bs ++ line ++ nl ++ rest) m nper eud
  = Evt.load (line ++ nl ++ rest) m nper eud.
Proof.
  intros Hbs Hl Hc.
  unfold Evt.load, Evt.load_body, Evt.prelude, Evt.load_header. unm.
  rewrite !run_bind, !when_print_run, !run_bind.
  set (f := comment_lines bs ++ line ++ nl ++ rest).
  set (g := line ++ nl ++ rest).
  rewrite (header_line_skips (S (String.length f)) bs line rest);
    [| done | done | done | reflexivity
     | unfold f; rewrite length_app_s;
       pose proof (length_comment_lines bs); lia].
  rewrite (header_line_skips (S (String.length g)) [] line rest);
    [| done | done | done | reflexivity | simpl; lia].
  reflexivity.
Qed.

Lemma rch_load_skips bs line rest m nper eud :
  forallb no_newline bs = true ->
  no_newline line = true ->
  not_comment line = true ->
  Rch.load (comment_lines bs ++ line ++ nl ++ rest) m nper eud
  = Rch.load (line ++ nl ++ rest) m nper eud.
Proof.
  intros Hbs Hl Hc.
  unfold Rch.load, Rch.load_body, Rch.prelude, Rch.load_header. unm.
  rewrite rch_header_line_evt, !run_bind.
  set (f := comment_lines bs ++ line ++ nl ++ rest).
  set (g := line ++ nl ++ rest).
  rewrite (header_line_skips (S (String.length f)) bs line rest);
    [| done | done | done | reflexivity
     | unfold f; rewrite length_app_s;
       pose proof (length_comment_lines bs); lia].
  rewrite (header_line_skips (S (String.length g)) [] line rest);
    [| done | done | done | reflexivity | simpl; lia].
  reflexivity.
Qed.

End Transparent.

(** X18: comment lines at the head of a package file change nothing: the
    file loads as it does without them, to the same arguments or the same
    exception, with the same objects made and the same lines printed. *)
Theorem leading_comments_are_transparent `{Collaborators}
    bs line rest m nper eud :
  forallb no_newline bs = true ->
  no_newline line = true ->
  not_comment line = true ->
  Evt.load (comment_lines bs ++ line ++ nl ++ rest) m nper eud
  = Evt.load (line ++ nl ++ rest) m nper eud /\
  Rch.load (comment_lines bs ++ line ++ nl ++ rest) m nper eud
  = Rch.load (line ++ nl ++ rest) m nper eud.
Proof.
  intros Hbs Hl Hc. split.
  - by apply evt_load_skips.
  - by apply rch_load_skips.
Qed.

Lemma leading_comments_are_transparent_witness :
  Evt.load (comment_lines [" EVT"; " made by hand"]
              ++ "         3         0" ++ nl
              ++ "        -1        -1        -1        -1" ++ nl)
    Demo.quiet None None
  = Evt.load ("         3         0" ++ nl
              ++ "        -1        -1        -1        -1" ++ nl)
      Demo.quiet None None /\
  Rch.load (comment_lines [" EVT"; " made by hand"]
              ++ "         3         0" ++ nl
              ++ "        -1        -1        -1        -1" ++ nl)
    Demo.quiet None None
  = Rch.load ("         3         0" ++ nl
              ++ "        -1        -1        -1        -1" ++ nl)
      Demo.quiet None None.
Proof.
  apply (leading_comments_are_transparent (H := Constant.collaborators)
           [" EVT"; " made by hand"] "         3         0"
           ("        -1        -1        -1        -1" ++ nl)
           Demo.quiet None None); reflexivity.
Defined.

Section ParameterZero.
Context `{Collaborators}.

Lemma evt_parameter_line_zero m line v w :
  contains "parameter" (lower line) = true ->
  split (strip line) !! 1%nat = Some v ->
  int v = Ok 0 ->
  Evt.parameter_line m line w
  = (Ok (0, fst (readline (stream w))),
     {| stream := snd (readline (stream w)); heap := heap w;
        stdout := stdout w |}).
Proof.
  intros Hp Hv Hn. unfold Evt.parameter_line. rewrite Hp. unm.
  rewrite run_bind. unfold lift, getitem. rewrite Hv.
  cbn [rbind]. rewrite Hn. cbn [Z.gtb Z.compare andb when].
  rewrite run_bind. unfold ret at 1. by rewrite run_bind, f_readline_run.
Qed.

Lemma evt_parameter_line_none m line w :
  contains "parameter" (lower line) = false ->
  Evt.parameter_line m line w = (Ok (0, line), w).
Proof. intros Hp. unfold Evt.parameter_line. by rewrite Hp. Qed.

Lemma rch_parameter_line_zero line v w :
  contains "parameter" (lower line) = true ->
  split (strip line) !! 1%nat = Some v ->
  int v = Ok 0 ->
  Rch.parameter_line line w
  = (Ok (fst (readline (stream w))),
     {| stream := snd (readline (stream w)); heap := heap w;
        stdout := stdout w |}).
Proof.
  intros Hp Hv Hn. unfold Rch.parameter_line. rewrite Hp. unm.
  rewrite run_bind. unfold lift, getitem. rewrite Hv.
  cbn [rbind]. rewrite Hn. cbn [Z.eqb]. by rewrite f_readline_run.
Qed.

Lemma rch_parameter_line_none line w :
  contains "parameter" (lower line) = false ->
  Rch.parameter_line line w = (Ok line, w).
Proof. intros Hp. unfold Rch.parameter_line. by rewrite Hp. Qed.

Lemma evt_load_parameter_zero pline line rest m nper eud v :
  no_newline pline = true ->
  not_comment pline = true ->
  contains "parameter" (lower (pline ++ nl)) = true ->
  split (strip (pline ++ nl)) !! 1%nat = Some v ->
  int v = Ok 0 ->
  no_newline line = true ->
  not_comment line = true ->
  contains "parameter" (lower (line ++ nl)) = false ->
  Evt.load (pline ++ nl ++ line ++ nl ++ rest) m nper eud
  = Evt.load (line ++ nl ++ rest) m nper eud.
Proof.
  intros Hpl Hpc Hp Hv Hn Hl Hc Hnp.
  unfold Evt.load, Evt.load_body, Evt.prelude, Evt.load_header. unm.
  rewrite !run_bind, !when_print_run, !run_bind.
  set (f := pline ++ nl ++ line ++ nl ++ rest).
  set (g := line ++ nl ++ rest).
  rewrite (header_line_skips (S (String.length f)) [] pline g);
    [| done | done | done | reflexivity | simpl; lia].
  rewrite (header_line_skips (S (String.length g)) [] line rest);
    [| done | done | done | reflexivity | simpl; lia].
  cbv beta iota. rewrite !run_bind.
  rewrite (evt_parameter_line_zero _ _ v) by done.
  rewrite evt_parameter_line_none by done.
  cbn [stream heap stdout]. unfold g.
  by rewrite readline_line by done.
Qed.

Lemma rch_load_parameter_zero pline line rest m nper eud v :
  no_newline pline = true ->
  not_comment pline = true ->
  contains "parameter" (lower (pline ++ nl)) = true ->
  split (strip (pline ++ nl)) !! 1%nat = Some v ->
  int v = Ok 0 ->
  no_newline line = true ->
  not_comment line = true ->
  contains "parameter" (lower (line ++ nl)) = false ->
  Rch.load (pline ++ nl ++ line ++ nl ++ rest) m nper eud
  = Rch.load (line ++ nl ++ rest) m nper eud.
Proof.
  intros Hpl Hpc Hp Hv Hn Hl Hc Hnp.
  unfold Rch.load, Rch.load_body, Rch.prelude, Rch.load_header. unm.
  rewrite rch_header_line_evt, !run_bind.
  set (f := pline ++ nl ++ line ++ nl ++ rest).
  set (g := line ++ nl ++ rest).
  rewrite (header_line_skips (S (String.length f)) [] pline g);
    [| done | done | done | reflexivity | simpl; lia].
  rewrite (header_line_skips (S (String.length g)) [] line rest);
    [| done | done | done | reflexivity | simpl; lia].
  cbv beta iota. rewrite !run_bind.
  rewrite (rch_parameter_line_zero _ v) by done.
  rewrite rch_parameter_line_none by done.
  cbn [stream heap stdout]. unfold g.
  by rewrite readline_line by done.
Qed.

(** The loop at the end of the file. *)
Lemma evt_period_at_end e iper l w :
  stream w = "" ->
  Evt.period e iper l w = (Raise IndexError, w).
Proof.
  intros Hs. unfold Evt.period. unm.
  rewrite run_bind, f_readline_run, Hs. destruct w. simpl in *. by subst.
Qed.

Lemma rch_period_at_end e iper l w :
  stream w = "" ->
  Rch.period e iper l w = (Raise IndexError, w).
Proof.
  intros Hs. unfold Rch.period. unm.
  rewrite run_bind, f_readline_run, Hs. destruct w. simpl in *. by subst.
Qed.

End ParameterZero.

(** X19: a [PARAMETER] line that declares no parameters changes nothing:
    when the first line after the comments holds the word [parameter] and
    its second field is the integer 0, and the line after it is neither a
    comment nor another line with the word [parameter], the file loads as
    it does without that line. *)
Theorem parameter_zero_line_is_transparent `{Collaborators}
    bs pline line rest m nper eud v :
  forallb no_newline bs = true ->
  no_newline pline = true ->
  not_comment pline = true ->
  contains "parameter" (lower (pline ++ nl)) = true ->
  split (strip (pline ++ nl)) !! 1%nat = Some v ->
  int v = Ok 0 ->
  no_newline line = true ->
  not_comment line = true ->
  contains "parameter" (lower (line ++ nl)) = false ->
  Evt.load (comment_lines bs ++ pline ++ nl ++ line ++ nl ++ rest) m nper eud
  = Evt.load (comment_lines bs ++ line ++ nl ++ rest) m nper eud /\
  Rch.load (comment_lines bs ++ pline ++ nl ++ line ++ nl ++ rest) m nper eud
  = Rch.load (comment_lines bs ++ line ++ nl ++ rest) m nper eud.
Proof.
  intros Hbs Hpl Hpc Hp Hv Hn Hl Hc Hnp. split.
  - rewrite !evt_load_skips by done.
    by apply (evt_load_parameter_zero _ _ _ _ _ _ v).
  - rewrite !rch_load_skips by done.
    by apply (rch_load_parameter_zero _ _ _ _ _ _ v).
Qed.

Lemma parameter_zero_line_is_transparent_witness :
  Evt.load (comment_lines [" EVT"] ++ "PARAMETER 0" ++ nl
              ++ "         3         0" ++ nl ++ "")
    Demo.quiet None None
  = Evt.load (comment_lines [" EVT"] ++ "         3         0" ++ nl ++ "")
      Demo.quiet None None /\
  Rch.load (comment_lines [" EVT"] ++ "PARAMETER 0" ++ nl
              ++ "         3         0" ++ nl ++ "")
    Demo.quiet None None
  = Rch.load (comment_lines [" EVT"] ++ "         3         0" ++ nl ++ "")
      Demo.quiet None None.
Proof.
  apply (parameter_zero_line_is_transparent (H := Constant.collaborators)
           [" EVT"] "PARAMETER 0" "         3         0" ""
           Demo.quiet None None "0"); reflexivity.
Defined.

(** X20: a file that ends before the last stress period cannot be loaded:
    when the load comes to a stress period and nothing is left of the
    file, [t[0]] raises [IndexError]; the load ends there and no package
    is made. *)
Theorem truncated_file_raises_index_error `{Collaborators} :
  (forall f m nper eud k e ip n lk wk,
     Evt.at_period f m nper eud k = (Ok (e, ip, n, lk), wk) ->
     (k < n)%nat ->
     stream wk = "" ->
     Evt.load f m nper eud = (Raise IndexError, wk)) /\
  (forall f m nper eud k e ip n lk wk,
     Rch.at_period f m nper eud k = (Ok (e, ip, n, lk), wk) ->
     (k < n)%nat ->
     stream wk = "" ->
     Rch.load f m nper eud = (Raise IndexError, wk)).
Proof.
  split.
  - intros f m nper eud k e ip n lk wk Hat Hk Hend.
    eapply evt_load_period_raise; [exact Hat | exact Hk |].
    by apply evt_period_at_end.
  - intros f m nper eud k e ip n lk wk Hat Hk Hend.
    eapply rch_load_period_raise; [exact Hat | exact Hk |].
    by apply rch_period_at_end.
Qed.

Lemma truncated_file_raises_index_error_witness :
  Rch.load Samples.rch_one_period Demo.quiet None None
  = (Raise IndexError,
     snd (Rch.at_period Samples.rch_one_period Demo.quiet None None 1)).
Proof.
  apply (proj2 (truncated_file_raises_index_error
                  (H := Constant.collaborators))
           Samples.rch_one_period Demo.quiet None None 1%nat
           (Demo.rch_env 3) 53 2%nat
           {| Rch.rech := [2%nat]; Rch.irch := [];
              Rch.current_rech := 2%nat; Rch.current_irch := 1%nat |}).
  - apply run_eq. reflexivity.
  - lia.
  - reflexivity.
Defined.

(* ===================================================================== *)
(** ** Packages the recharge constructor builds *)
(* ===================================================================== *)

Section RchInitFacts.
Context `{Collaborators}.
Variable value : Type.
Variable util_2d :
  model -> nat * nat -> dtype -> value -> string -> result array.

Lemma rch_wrap_length m shape dt prefix i l rs :
  RchInit.wrap value util_2d m shape dt prefix i l = Ok rs ->
  length rs = length l.
Proof.
  revert i rs. induction l as [|a l IH]; intros i rs; simpl.
  - by intros [= <-].
  - unm. intros Hw.
    apply rbind_ok_inv in Hw as (r & _ & Hw).
    apply rbind_ok_inv in Hw as (rs' & Hrs & [= <-]).
    simpl. by rewrite (IH _ _ Hrs).
Qed.

Lemma rch_init_inv m nrchop irchcb rech irch self :
  RchInit.__init__ value util_2d m nrchop irchcb rech irch = Ok self ->
  Rch.parent self = m /\
  Rch.heading self = "# RCH for MODFLOW, generated by Flopy." /\
  Rch.nrchop self = nrchop /\
  Rch.irchcb self = irchcb /\
  length (Rch.self_rech self) = length (RchInit.as_list value rech) /\
  length (Rch.self_irch self) = length (RchInit.as_list value irch).
Proof.
  unfold RchInit.__init__. unm.
  destruct (nrow_ncol_nlay_nper m) as [[[nrow ncol] nlay] nper].
  intros Hinit.
  apply rbind_ok_inv in Hinit as (rech' & Hr & Hinit).
  apply rbind_ok_inv in Hinit as (irch' & Hi & [= <-]). simpl.
  apply rch_wrap_length in Hr, Hi. by repeat split.
Qed.

End RchInitFacts.

(** X21: what a package of the recharge constructor writes as codes.  The
    constructor makes one array object of every value it is passed (a value
    that is not a list counts as a list of one), so the control line of
    stress period [n] has code 1 while [n] is below the number of values and
    -1 from there on: a single value is written once and reused in every
    later stress period.  The heading of the package is one line that
    begins with [#]. *)
Theorem rch_constructed_package_codes `{Collaborators}
    (value : Type)
    (util_2d : model -> nat * nat -> dtype -> value -> string -> result array)
    m nrchop irchcb rech irch self :
  RchInit.__init__ value util_2d m nrchop irchcb rech irch = Ok self ->
  (forall n,
     Rch.control_record nrchop (fst (readline (Rch.write_period self n)))
     = Ok {| Rch.inrech :=
               rch_written_code (RchInit.as_list value rech) n;
             Rch.inirch :=
               if (nrchop =? 2)%Z
               then Some (rch_written_code (RchInit.as_list value irch) n)
               else None |}) /\
  (exists h', Rch.heading self = String "#" h') /\
  no_newline (Rch.heading self) = true.
Proof.
  intros Hinit.
  apply rch_init_inv in Hinit as (_ & Hh & Hn & _ & Hr & Hi).
  split; [| rewrite Hh; split; [by eexists | reflexivity]].
  intros n. rewrite <- Hn, rch_write_period_blocks.
  rewrite readline_line by apply rch_control_line_no_newline.
  cbn [fst]. rewrite rch_control_record_written.
  unfold rch_written_codes, rch_written_code. by rewrite Hr, Hi.
Qed.

Lemma rch_constructed_package_codes_witness :
  Rch.control_record 3 (fst (readline (Rch.write_period Samples.rch_once 1)))
  = Ok {| Rch.inrech := -1; Rch.inirch := None |}.
Proof.
  apply (proj1 (rch_constructed_package_codes (H := Constant.collaborators)
                  Z (fun _ _ _ a _ => Ok a) Demo.quiet 3 7
                  (RchInit.One Z 5) (RchInit.One Z 1) Samples.rch_once
                  eq_refl) 1%nat).
Defined.

(** X22: reuse does not survive loading and building: [load] hands the
    constructor one entry for every stress period, so the package that the
    constructor builds from what a load returns has an array object of its
    own for every stress period, and [write_file] writes code 1 and an
    array block for each of them, also where the file that was loaded had
    -1. *)
Theorem rch_loaded_package_expands_reuse `{Collaborators}
    (util_2d : model -> nat * nat -> dtype -> loc -> string -> result array)
    f m nper eud a w self n :
  Rch.load f m nper eud = (Ok a, w) ->
  RchInit.__init__ loc util_2d m (Rch.args_nrchop a) (Rch.args_irchcb a)
    (RchInit.Many loc (Rch.args_rech a)) (RchInit.Many loc (Rch.args_irch a))
  = Ok self ->
  (n < turns m nper)%nat ->
  exists c u,
    Rch.control_record (Rch.nrchop self)
      (fst (readline (Rch.write_period self n))) = Ok c /\
    Rch.inrech c = 1 /\
    Rch.self_rech self !! n = Some u /\
    Rch.write_period self n
    = rch_control_line self n ++ nl ++ get_file_entry u
      ++ rch_block Irch self n.
Proof.
  intros Hload Hinit Hn.
  destruct (rch_load_lengths f m nper eud a w Hload) as [Hlen _].
  apply rch_init_inv in Hinit as (_ & _ & _ & _ & Hr & _).
  cbn [RchInit.as_list] in Hr. rewrite Hlen in Hr.
  destruct (lookup_lt_is_Some_2 (Rch.self_rech self) n) as [u Hu]; [lia |].
  exists (rch_written_codes self n), u.
  split; [| split; [| split; [exact Hu |]]].
  - rewrite rch_write_period_blocks.
    rewrite readline_line by apply rch_control_line_no_newline.
    apply rch_control_record_written.
  - cbn [rch_written_codes Rch.inrech]. unfold rch_written_code.
    destruct (Nat.ltb_spec n (length (Rch.self_rech self))); [done | lia].
  - rewrite rch_write_period_blocks. unfold rch_block at 1.
    cbn [rch_self_arrays rch_read]. by rewrite Hu.
Qed.

Lemma rch_loaded_package_expands_reuse_witness :
  exists c u,
    Rch.control_record (Rch.nrchop Samples.rch_reloaded)
      (fst (readline (Rch.write_period Samples.rch_reloaded 1))) = Ok c /\
    Rch.inrech c = 1 /\
    Rch.self_rech Samples.rch_reloaded !! 1%nat = Some u /\
    Rch.write_period Samples.rch_reloaded 1
    = rch_control_line Samples.rch_reloaded 1 ++ nl ++ get_file_entry u
      ++ rch_block Irch Samples.rch_reloaded 1.
Proof.
  apply (rch_loaded_package_expands_reuse (H := Constant.collaborators)
           (fun _ _ _ _ _ => Ok 5) Demo.rch_unit7 Demo.quiet None None
           Demo.rch_unit7_args
           (snd (Rch.load Demo.rch_unit7 Demo.quiet None None))
           Samples.rch_reloaded 1%nat).
  - apply run_eq. vm_compute. reflexivity.
  - reflexivity.
  - vm_compute. lia.
Defined.

(* ===================================================================== *)
(** ** The constructors that end the loads *)
(* ===================================================================== *)

Section Constructors.
Context `{Collaborators}.

(** *** [Transient2d] and [ModflowEvt.__init__] *)

Lemma all_supplied_spec w d :
  EvtObject.all_supplied w d = true <->
  forall k r, d !! k = Some r -> EvtObject.holds_array w r = true.
Proof.
  unfold EvtObject.all_supplied. rewrite forallb_forall. split.
  - intros Hall k r Hk. apply (Hall (k, r)).
    apply list_elem_of_In. by apply elem_of_map_to_list.
  - intros Hall [k r] Hin. apply list_elem_of_In, elem_of_map_to_list in Hin.
    by apply (Hall k).
Qed.

Lemma holds_array_spec w r :
  EvtObject.holds_array w r = true <-> exists x, deref w r = Some (Util2d x).
Proof.
  unfold EvtObject.holds_array.
  destruct (deref w r) as [[|x]|]; split; try done; eauto; by intros [? ?].
Qed.


Lemma transient2d_init_run m shape dt lit d name w :
  EvtObject.Transient2d_init m shape dt (EvtObject.keyword lit d) name w
  = if keyword_supplied w d then (Ok (built lit d), w)
    else (Raise NoPriorArray, w).
Proof. destruct d; reflexivity. Qed.

(** The constructor, on the arguments of a load: it builds the object when
    every dictionary holds array objects only, and raises [NoPriorArray]
    when one does not. *)
Lemma evt_construct_run m a w :
  EvtObject.construct m a w
  = if keyword_supplied w (Evt.args_surf a)
       && keyword_supplied w (Evt.args_evtr a)
       && keyword_supplied w (Evt.args_exdp a)
       && keyword_supplied w (Evt.args_ievt a)
    then (Ok (evt_built m (Evt.args_nevtop a) (Evt.args_ipakcb a)
                (Evt.args_surf a) (Evt.args_evtr a) (Evt.args_exdp a)
                (Evt.args_ievt a)), w)
    else (Raise NoPriorArray, w).
Proof.
  unfold EvtObject.construct, EvtObject.__init__. unm.
  rewrite run_bind. cbn [EvtInit.init_files EvtInit.set_filenames lift].
  unm. simpl.
  destruct (nrow_ncol_nlay_nper m) as [[[nrow ncol] nlay] nper].
  rewrite run_bind, transient2d_init_run.
  destruct (keyword_supplied w (Evt.args_surf a)); [| done].
  rewrite run_bind, transient2d_init_run.
  destruct (keyword_supplied w (Evt.args_evtr a)); [| done].
  rewrite run_bind, transient2d_init_run.
  destruct (keyword_supplied w (Evt.args_exdp a)); [| done].
  rewrite run_bind, transient2d_init_run.
  by destruct (keyword_supplied w (Evt.args_ievt a)).
Qed.

(** [load] is the loop over the stress periods, then the constructor. *)
Lemma evt_object_load_run f m nper eud :
  EvtObject.load f m nper eud
  = match Evt.load f m nper eud with
    | (Ok a, w) => EvtObject.construct m a w
    | (Raise x, w) => (Raise x, w)
    end.
Proof. reflexivity. Qed.

Lemma evt_keyword_supplied_all a w :
  keyword_supplied w (Evt.args_surf a)
  && keyword_supplied w (Evt.args_evtr a)
  && keyword_supplied w (Evt.args_exdp a)
  && keyword_supplied w (Evt.args_ievt a) = true <->
  forall q, keyword_supplied w (evt_args_timeline q a) = true.
Proof.
  rewrite !andb_true_iff. split.
  - intros [[[? ?] ?] ?] []; done.
  - intros Hq. repeat split; [apply (Hq Surf) | apply (Hq Evtr)
                              | apply (Hq Exdp) | apply (Hq Ievt)].
Qed.


Lemma evt_built_timeline q m nevtop ipakcb a :
  evt_object_timeline q
    (evt_built m nevtop ipakcb (Evt.args_surf a) (Evt.args_evtr a)
       (Evt.args_exdp a) (Evt.args_ievt a))
  = built (match q with
           | Surf => "0." | Evtr => "1e-3" | Exdp => "1." | Ievt => "1"
           end) (evt_args_timeline q a).
Proof. by destruct q. Qed.

(** *** [util_2d] and [ModflowRch.__init__] *)










End Constructors.

(* ===================================================================== *)
(** ** The first stress period *)
(* ===================================================================== *)




(* ===================================================================== *)
(** ** Reuse of the previous array *)
(* ===================================================================== *)




(* ===================================================================== *)
(** ** The lines that are read as parameter names *)
(* ===================================================================== *)

Section NameLines.
Context `{Collaborators}.

(** When each of the next [n] lines holds a token, the loop reads them
    all, whatever they hold. *)
Lemma parm_lines_present n i pp d w :
  names_present n (stream w) = true ->
  exists d',
    for_range (fun _ => Evt.parm_line pp) n i d w
    = (Ok d', {| stream := drop_lines n (stream w); heap := heap w;
                 stdout := stdout w |}).
Proof.
  revert i d w. induction n as [|n IH]; intros i d w Hp.
  - exists d. by destruct w.
  - cbn [names_present] in Hp. cbn [for_range].
    rewrite run_bind, evt_parm_line_run.
    destruct (split (strip (fst (readline (stream w))))) as [|t0 ts]; [done |].
    destruct (IH (S i)
                (<[Evt.parameter_name t0 :=
                     Evt.instance_name pp (t0 :: ts) (Evt.parameter_name t0)]> d)
                {| stream := snd (readline (stream w)); heap := heap w;
                   stdout := stdout w |} Hp) as [d' Hd'].
    exists d'. exact Hd'.
Qed.

(** When one of them holds none, the loop raises [IndexError]. *)
Lemma parm_lines_absent n i pp d w :
  names_present n (stream w) = false ->
  exists w',
    for_range (fun _ => Evt.parm_line pp) n i d w = (Raise IndexError, w').
Proof.
  revert i d w. induction n as [|n IH]; intros i d w Hp; [done |].
  cbn [names_present] in Hp. cbn [for_range].
  rewrite run_bind, evt_parm_line_run.
  destruct (split (strip (fst (readline (stream w))))) as [|t0 ts];
    [by eauto |].
  apply (IH (S i) _ {| stream := snd (readline (stream w)); heap := heap w;
                       stdout := stdout w |} Hp).
Qed.

Lemma evt_load_evtr_absent e iper c l w :
  0 <= Evt.inevtr c ->
  Evt.e_npar e <> 0 ->
  names_present (Z.to_nat (Evt.inevtr c)) (stream w) = false ->
  exists w', Evt.load_evtr e iper c l w = (Raise IndexError, w').
Proof.
  intros Hc Hn Hp. rewrite evt_load_evtr_parameters by done. unm.
  destruct (parm_lines_absent _ 0 (Evt.e_pak_parms e) ∅ w Hp) as [w' Hw'].
  exists w'. apply run_bind_raise. exact Hw'.
Qed.

(** The stress period, when [surf] is settled and one of the lines that
    [evtr] asks for holds no token. *)
Lemma evt_period_names_absent e iper l w c r w1 :
  Evt.control_record (Evt.e_nevtop e) (fst (readline (stream w))) = Ok c ->
  Evt.load_surf e iper c l (after_control_line w) = (Ok r, w1) ->
  0 <= Evt.inevtr c ->
  Evt.e_npar e <> 0 ->
  names_present (Z.to_nat (Evt.inevtr c)) (stream w1) = false ->
  exists w', Evt.period e iper l w = (Raise IndexError, w').
Proof.
  intros Hc Hs He Hn Hp. unfold Evt.period. unm.
  rewrite run_bind, f_readline_run, run_bind. unfold lift. rewrite Hc.
  unfold after_control_line in Hs. rewrite run_bind, Hs.
  destruct (evt_load_evtr_absent e iper c l w1 He Hn Hp) as [w' Hw'].
  exists w'. by rewrite run_bind, Hw'.
Qed.

End NameLines.

(** C6, as the code has it: when the code [c] of [evtr] is not negative
    and parameters are in use ([npar] is not 0), the loader reads the next
    [c] lines as parameter names, whatever they hold.  It raises
    [IndexError] exactly when one of these lines holds no token, as the
    empty line does that [readline] returns at the end of the file; that
    ends the stress period and the load.  When every one of them holds a
    token the reading returns, [c] lines further on. *)
Theorem next_lines_are_read_as_names `{Collaborators} :
  (forall e iper c l w r w',
     0 <= Evt.inevtr c ->
     Evt.e_npar e <> 0 ->
     Evt.load_evtr e iper c l w = (Ok r, w') ->
     stream w' = drop_lines (Z.to_nat (Evt.inevtr c)) (stream w) /\
     names_present (Z.to_nat (Evt.inevtr c)) (stream w) = true) /\
  (forall n pp d w,
     names_present n (stream w) = true ->
     exists d',
       Evt.parm_lines n pp d w
       = (Ok d', {| stream := drop_lines n (stream w); heap := heap w;
                    stdout := stdout w |})) /\
  (forall e iper c l w,
     0 <= Evt.inevtr c ->
     Evt.e_npar e <> 0 ->
     names_present (Z.to_nat (Evt.inevtr c)) (stream w) = false ->
     exists w', Evt.load_evtr e iper c l w = (Raise IndexError, w')) /\
  (forall f m nper eud k e ipakcb n lk wk c r w1,
     Evt.at_period f m nper eud k = (Ok (e, ipakcb, n, lk), wk) ->
     (k < n)%nat ->
     Evt.control_record (Evt.e_nevtop e) (fst (readline (stream wk))) = Ok c ->
     Evt.load_surf e k c lk (after_control_line wk) = (Ok r, w1) ->
     0 <= Evt.inevtr c ->
     Evt.e_npar e <> 0 ->
     names_present (Z.to_nat (Evt.inevtr c)) (stream w1) = false ->
     exists w', Evt.load f m nper eud = (Raise IndexError, w')).
Proof.
  split; [| split; [| split]].
  - intros e iper c l w r w' Hc Hn Hrun. split.
    + eapply evt_load_evtr_reads_lines; eauto.
    + destruct (names_present _ _) eqn:Hp; [done |].
      destruct (evt_load_evtr_absent e iper c l w Hc Hn Hp) as [w2 Hw2].
      congruence.
  - intros n pp d w Hp. by apply parm_lines_present.
  - intros. by apply evt_load_evtr_absent.
  - intros f m nper eud k e ip n lk wk c r w1 Hat Hk Hc Hs He Hn Hp.
    destruct (evt_period_names_absent e k lk wk c r w1 Hc Hs He Hn Hp)
      as [w' Hw'].
    exists w'. eapply evt_load_period_raise; eauto.
Qed.

Lemma next_lines_are_read_as_names_witness :
  (stream (snd (Evt.load_evtr Demo.evt_parm_env 0 Demo.two_parms
                  Demo.evt_initial Demo.two_names_world))
   = drop_lines (Z.to_nat 2) (stream Demo.two_names_world) /\
   names_present (Z.to_nat 2) (stream Demo.two_names_world) = true)
  /\
  (exists d',
     Evt.parm_lines (H := Constant.collaborators) 2
       (Some Demo.one_parameter) ∅
       {| stream := Files.run_on_names;
          heap := [EmptyList; EmptyList; EmptyList; EmptyList];
          stdout := [] |}
     = (Ok d', {| stream := drop_lines 2 Files.run_on_names;
                  heap := [EmptyList; EmptyList; EmptyList; EmptyList];
                  stdout := [] |}))
  /\
  (exists w', Evt.load_evtr Demo.evt_parm_env 0 Demo.two_parms
                Demo.evt_initial Files.blank_name_world
              = (Raise IndexError, w'))
  /\
  (exists w', Evt.load Files.evt_surf_one_name Demo.quiet None None
              = (Raise IndexError, w')).
Proof.
  split; [| split; [| split]].
  - apply (proj1 next_lines_are_read_as_names
             Demo.evt_parm_env 0%nat Demo.two_parms Demo.evt_initial
             Demo.two_names_world 4%nat).
    + simpl. lia.
    + discriminate.
    + apply run_eq. vm_compute. reflexivity.
  - apply (proj1 (proj2 (next_lines_are_read_as_names
                            (H := Constant.collaborators)))
             2%nat (Some Demo.one_parameter) ∅
             {| stream := Files.run_on_names;
                heap := [EmptyList; EmptyList; EmptyList; EmptyList];
                stdout := [] |}).
    reflexivity.
  - apply (proj1 (proj2 (proj2 next_lines_are_read_as_names))
             Demo.evt_parm_env 0%nat Demo.two_parms Demo.evt_initial
             Files.blank_name_world).
    + simpl. lia.
    + discriminate.
    + reflexivity.
  - apply (proj2 (proj2 (proj2 next_lines_are_read_as_names))
             Files.evt_surf_one_name Demo.quiet None None 0%nat
             Demo.evt_parm_env 0 2%nat Demo.evt_initial
             (snd (Evt.at_period Files.evt_surf_one_name Demo.quiet
                     None None 0))
             Files.surf_and_two_parms 4%nat
             (snd (Evt.load_surf Demo.evt_parm_env 0 Files.surf_and_two_parms
                     Demo.evt_initial
                     (after_control_line
                        (snd (Evt.at_period Files.evt_surf_one_name Demo.quiet
                                None None 0)))))).
    + apply run_eq. reflexivity.
    + lia.
    + vm_compute. reflexivity.
    + apply run_eq. vm_compute. reflexivity.
    + simpl. lia.
    + discriminate.
    + vm_compute. reflexivity.
Defined.

(** C6 as the specification words it does not hold.  The second stress
    period of this file declares two parameter names and only one name line
    follows its control line; the line after that is the control line of a
    third stress period, whose first token, [-1], is the name of a
    parameter of the table.  The loader reads it as the second name: the
    load raises nothing, and the object it returns has for [evtr], in the
    second stress period, the sum 12 of the parameters [p1] and [-1]. *)
Lemma missing_name_line_is_not_noticed :
  Evt.codes_at Files.evt_names_run_on Demo.quiet None None 1
  = Some Demo.two_parms /\
  stream (after_control_line
            (snd (Evt.at_period Files.evt_names_run_on Demo.quiet None None 1)))
  = Files.run_on_names /\
  fst (EvtObject.load Files.evt_names_run_on Demo.quiet None None)
  = Ok Files.evt_names_run_on_object /\
  EvtObject.resolved_at (EvtObject.evtr Files.evt_names_run_on_object) 1
  = Some (EvtObject.Object 7%nat) /\
  deref (snd (EvtObject.load Files.evt_names_run_on Demo.quiet None None))
    7%nat
  = Some (Util2d (12 : Constant.grid)).
Proof.
  split; [vm_compute; reflexivity |].
  split; [vm_compute; reflexivity |].
  split; [vm_compute; reflexivity |].
  split; reflexivity.
Qed.

(* ===================================================================== *)
(** ** The codec of the specification *)
(* ===================================================================== *)

Module CoreFacts.
Import Core.

(** *** Texts of digits *)

Lemma digits_app a b : digits (a ++ b) = digits a && digits b.
Proof.
  induction a as [|c a IH]; simpl; [done |]. by rewrite IH, andb_assoc.
Qed.

Lemma digits_zeros n : digits (zeros n) = true.
Proof. induction n; simpl; auto. Qed.

Lemma length_zeros n : String.length (zeros n) = n.
Proof. induction n; simpl; auto. Qed.

Lemma digits_uint d : digits (NilEmpty.string_of_uint d) = true.
Proof. induction d; simpl; auto. Qed.

Lemma digits_str n : 0 <= n -> digits (str n) = true.
Proof.
  intros Hn. unfold str. destruct n as [|p|p]; [done | | lia]. simpl.
  pose proof (digits_uint (Pos.to_uint p)). by destruct (Pos.to_uint p).
Qed.

Lemma digits_slice0 k s : digits s = true -> digits (slice0 k s) = true.
Proof.
  revert s. induction k as [|k IH]; intros [|c s]; simpl; try done.
  intros [Hc Hs]%andb_prop. by rewrite Hc, IH.
Qed.

Lemma digits_drop_s k s : digits s = true -> digits (drop_s k s) = true.
Proof.
  revert s. induction k as [|k IH]; intros [|c s]; simpl; try done.
  intros [Hc Hs]%andb_prop. auto.
Qed.

Lemma slice0_drop_s k s : slice0 k s ++ drop_s k s = s.
Proof.
  revert s. induction k as [|k IH]; intros [|c s]; simpl; try done.
  by rewrite IH.
Qed.

Lemma length_drop_s k s :
  String.length (drop_s k s) = (String.length s - k)%nat.
Proof.
  revert s. induction k as [|k IH]; intros [|c s]; simpl; try done.
Qed.

(** [int_digits] reads the digits that [str] writes, also behind zeros. *)
Lemma int_digits_str n : 0 <= n -> int_digits (str n) = Ok n.
Proof.
  intros Hn. destruct n as [|p|p]; [reflexivity | | lia].
  unfold str. simpl. unfold int_digits.
  rewrite NilZero.usu by apply DecimalPos.Unsigned.to_uint_nonnil.
  unfold Z.of_uint. by rewrite DecimalPos.Unsigned.of_to.
Qed.

Lemma int_digits_leading_zero s n :
  s <> "" -> int_digits s = Ok n -> int_digits (String "0" s) = Ok n.
Proof.
  intros Hs. unfold int_digits, NilZero.uint_of_string.
  destruct s as [|c s]; [done |]. cbn [NilEmpty.uint_of_string].
  destruct (uint_of_char c (NilEmpty.uint_of_string s)) as [d|]; [| done].
  intros [= <-]. reflexivity.
Qed.

Lemma int_digits_zeros k n : 0 <= n -> int_digits (zeros k ++ str n) = Ok n.
Proof.
  intros Hn. induction k as [|k IH]; simpl; [by apply int_digits_str |].
  apply int_digits_leading_zero; [| done].
  pose proof (str_nonempty n). destruct k; simpl; [done | done].
Qed.

(** *** The text of a floating-point number *)

Lemma digit_not_point c : digit c = true -> Ascii.eqb c "." = false.
Proof. destruct c as [[] [] [] [] [] [] [] []]; simpl; congruence. Qed.

Lemma cut_point_digits w f :
  digits w = true -> cut_point (w ++ String "." f) = (w, Some f).
Proof.
  induction w as [|c w IH]; simpl; [done |].
  intros [Hc Hw]%andb_prop. by rewrite (digit_not_point c Hc), IH.
Qed.

Lemma float_body_digits neg w f n :
  digits w = true ->
  int_digits (w ++ f) = Ok n ->
  float_body neg (w ++ String "." f)
  = Ok (Real (if neg then - n else n) (String.length f)).
Proof.
  intros Hw Hn. unfold float_body. rewrite cut_point_digits by done.
  simpl. by rewrite Hn.
Qed.

Lemma float_digit c s :
  digit c = true -> float (String c s) = float_body false (String c s).
Proof. destruct c as [[] [] [] [] [] [] [] []]; simpl; congruence. Qed.

(** [float] reads the text of a number back. *)
Lemma float_real_text m e : float (real_text m e) = Ok (Real m e).
Proof.
  unfold real_text. cbv zeta.
  set (ds := str (Z.abs m)).
  set (p := zeros (S e - String.length ds) ++ ds).
  set (k := (String.length p - e)%nat).
  assert (Hp : digits p = true).
  { unfold p, ds. rewrite digits_app, digits_zeros, digits_str; [done | lia]. }
  assert (Hlen : (S e <= String.length p)%nat).
  { unfold p. rewrite length_app_s, length_zeros. lia. }
  assert (Hint : int_digits (slice0 k p ++ drop_s k p) = Ok (Z.abs m)).
  { rewrite slice0_drop_s. unfold p, ds. apply int_digits_zeros. lia. }
  assert (Hf : String.length (drop_s k p) = e).
  { rewrite length_drop_s. unfold k. lia. }
  assert (Hw : digits (slice0 k p) = true) by (by apply digits_slice0).
  change ("." ++ drop_s k p) with (String "." (drop_s k p)).
  destruct (Z.ltb_spec m 0) as [Hneg | Hpos].
  - change ("-" ++ slice0 k p ++ String "." (drop_s k p))
      with (String "-" (slice0 k p ++ String "." (drop_s k p))).
    cbn [float].
    rewrite (float_body_digits true _ _ (Z.abs m)) by done.
    rewrite Hf. do 2 f_equal. lia.
  - change ("" ++ slice0 k p ++ String "." (drop_s k p))
      with (slice0 k p ++ String "." (drop_s k p)).
    destruct (slice0 k p) as [|c w] eqn:Hs.
    + apply (f_equal String.length) in Hs. rewrite length_slice0 in Hs.
      simpl in Hs. unfold k in Hs. lia.
    + change (String c w ++ String "." (drop_s k p))
        with (String c (w ++ String "." (drop_s k p))).
      assert (Hc : digit c = true).
      { simpl in Hw. by apply andb_prop in Hw as [? _]. }
      rewrite float_digit by done.
      change (String c (w ++ String "." (drop_s k p)))
        with (String c w ++ String "." (drop_s k p)).
      rewrite (float_body_digits false _ _ (Z.abs m)) by done.
      rewrite Hf. do 2 f_equal. lia.
Qed.

Lemma parse_text dt x : typed dt x = true -> parse dt (text x) = Ok x.
Proof.
  destruct x as [z | m e], dt; try done; intros _; cbn [parse text].
  - unfold parse_int. by rewrite int_str.
  - apply float_real_text.
Qed.

(** *** The characters of the text of an element *)

Lemma number_chars_app a b :
  number_chars (a ++ b) = number_chars a && number_chars b.
Proof.
  induction a as [|c a IH]; simpl; [done |]. by rewrite IH, andb_assoc.
Qed.

Lemma numeral_number_chars s : numeral s = true -> number_chars s = true.
Proof.
  induction s as [|c s IH]; simpl; [done |].
  intros [Hc Hs]%andb_prop. unfold number_char. by rewrite Hc, IH.
Qed.

Lemma digit_sign_or_digit c : digit c = true -> sign_or_digit c = true.
Proof. destruct c as [[] [] [] [] [] [] [] []]; simpl; congruence. Qed.

Lemma digits_number_chars s : digits s = true -> number_chars s = true.
Proof.
  induction s as [|c s IH]; simpl; [done |].
  intros [Hc Hs]%andb_prop. unfold number_char.
  by rewrite (digit_sign_or_digit c Hc), IH.
Qed.

Lemma number_chars_text x : number_chars (text x) = true.
Proof.
  destruct x as [z | m e]; cbn [text].
  - apply numeral_number_chars, numeral_str.
  - unfold real_text. cbv zeta.
    set (p := zeros _ ++ str (Z.abs m)).
    assert (Hp : digits p = true).
    { unfold p. rewrite digits_app, digits_zeros, digits_str; [done | lia]. }
    rewrite !number_chars_app.
    rewrite (digits_number_chars (slice0 _ p)) by (by apply digits_slice0).
    rewrite (digits_number_chars (drop_s _ p)) by (by apply digits_drop_s).
    by destruct (m <? 0)%Z.
Qed.

Lemma text_nonempty x : text x <> "".
Proof.
  destruct x as [z | m e]; cbn [text]; [apply str_nonempty |].
  unfold real_text. cbv zeta. intros Hx.
  apply (f_equal String.length) in Hx. rewrite !length_app_s in Hx.
  simpl in Hx. lia.
Qed.

Lemma number_char_no_space c : number_char c = true -> isspace c = false.
Proof. destruct c as [[] [] [] [] [] [] [] []]; cbv; congruence. Qed.

Lemma number_char_no_newline c :
  number_char c = true -> Ascii.eqb c newline = false.
Proof. destruct c as [[] [] [] [] [] [] [] []]; cbv; congruence. Qed.

Lemma number_char_not_keyword c :
  number_char c = true ->
  Ascii.eqb (lower_char c) "c" = false /\ Ascii.eqb (lower_char c) "e" = false.
Proof.
  destruct c as [[] [] [] [] [] [] [] []]; cbv; try congruence; by split.
Qed.

Lemma number_chars_no_space s : number_chars s = true -> no_space s = true.
Proof.
  induction s as [|c s IH]; simpl; [done |].
  intros [Hc Hs]%andb_prop. by rewrite (number_char_no_space c), IH.
Qed.

Lemma number_chars_no_newline s :
  number_chars s = true -> no_newline s = true.
Proof.
  induction s as [|c s IH]; simpl; [done |].
  intros [Hc Hs]%andb_prop. by rewrite (number_char_no_newline c), IH.
Qed.

Lemma word_text x : word (text x) = true.
Proof.
  pose proof (text_nonempty x). pose proof (number_chars_text x) as Hn.
  apply number_chars_no_space in Hn. unfold word. by destruct (text x).
Qed.

Lemma no_newline_text x : no_newline (text x) = true.
Proof. apply number_chars_no_newline, number_chars_text. Qed.

(** The text of an element is not a keyword of the codec. *)
Lemma text_not_keyword x :
  String.eqb (lower (text x)) "constant" = false /\
  String.eqb (lower (text x)) "external" = false.
Proof.
  pose proof (text_nonempty x). pose proof (number_chars_text x) as Hn.
  destruct (text x) as [|c s]; [done |]. simpl in Hn.
  apply andb_prop in Hn as [Hc _].
  apply number_char_not_keyword in Hc as [Hc He].
  cbn [lower String.eqb]. by rewrite Hc, He.
Qed.

(** *** Rows of fields *)

Lemma starts_blank_nl t : starts_blank (nl ++ t).
Proof. right. by exists newline, t. Qed.

Lemma starts_blank_rjust w s t :
  (String.length s < w)%nat -> starts_blank (rjust w s ++ t).
Proof.
  intros Hw. unfold rjust.
  destruct (w - String.length s)%nat as [|n] eqn:Hn; [lia |].
  rewrite app_assoc_s. apply starts_blank_spaces.
Qed.

Lemma split_rjust w s t :
  word s = true -> starts_blank t -> split (rjust w s ++ t) = s :: split t.
Proof.
  intros Hs Ht. unfold rjust. rewrite app_assoc_s.
  rewrite split_blank by apply blank_spaces. by apply split_word.
Qed.

Lemma no_newline_rjust w s : no_newline s = true -> no_newline (rjust w s) = true.
Proof. intros Hs. unfold rjust. by rewrite no_newline_app, no_newline_spaces. Qed.

Lemma no_newline_fields row : no_newline (fields row) = true.
Proof.
  induction row as [|x row IH]; simpl; [done |].
  by rewrite no_newline_app, no_newline_rjust, IH by apply no_newline_text.
Qed.

Lemma fits_typed dt x : fits dt x = true -> typed dt x = true.
Proof. unfold fits. by intros [? _]%andb_prop. Qed.

Lemma fits_width dt x :
  fits dt x = true -> (String.length (text x) < 10)%nat.
Proof. unfold fits. intros [_ ?%Nat.ltb_lt]%andb_prop. done. Qed.

Lemma starts_blank_fields dt row t :
  forallb (fits dt) row = true ->
  starts_blank t -> starts_blank (fields row ++ t).
Proof.
  destruct row as [|x row]; simpl; [done |].
  intros [Hx _]%andb_prop _. rewrite app_assoc_s.
  by apply starts_blank_rjust, (fits_width dt).
Qed.

Lemma split_fields dt row t :
  forallb (fits dt) row = true ->
  starts_blank t ->
  split (fields row ++ t) = (map text row ++ split t)%list.
Proof.
  intros Hrow Ht. induction row as [|x row IH]; simpl; [done |].
  simpl in Hrow. apply andb_prop in Hrow as [Hx Hrow].
  rewrite app_assoc_s, split_rjust;
    [| apply word_text | by apply (starts_blank_fields dt)].
  by rewrite IH.
Qed.

(** The tokens of a line that holds a row. *)
Lemma tokens_of_row dt row :
  forallb (fits dt) row = true ->
  split (strip (fields row ++ nl)) = map text row.
Proof.
  intros Hrow. rewrite split_strip.
  rewrite (split_fields dt) by (done || apply (starts_blank_nl "")).
  change (split nl) with (@nil string). by rewrite app_nil_r.
Qed.

(** *** Reading a grid *)

Lemma line_not_empty s : String.eqb (s ++ nl) "" = false.
Proof. by destruct s. Qed.

Lemma read_tokens_none fuel f : read_tokens fuel 0 f = Ok ([], f).
Proof. by destruct fuel. Qed.

Lemma read_tokens_line fuel need line rest :
  (0 < need)%nat ->
  no_newline line = true ->
  read_tokens (S fuel) need ((line ++ nl) ++ rest)
  = ('(more, rest') ←
       read_tokens fuel
         (need - length (take need (split (strip (line ++ nl))))) rest;
     Ok ((take need (split (strip (line ++ nl))) ++ more)%list, rest')).
Proof.
  intros Hn Hl. destruct need as [|need]; [lia |].
  cbn [read_tokens]. rewrite app_assoc_s, readline_line by done.
  by rewrite line_not_empty.
Qed.

(** A grid that was written in full is read back, line by line, and what
    follows it is left. *)
Lemma read_tokens_rows dt ncol c rest fuel :
  (0 < ncol)%nat ->
  (length c <= fuel)%nat ->
  rows_ok ncol dt c = true ->
  read_tokens fuel (length c * ncol) (raw_text c ++ rest)
  = Ok (concat (map (map text) c), rest).
Proof.
  intros Hncol. revert fuel.
  induction c as [|row c IH]; intros fuel Hfuel Hc.
  - apply read_tokens_none.
  - simpl in Hc. apply andb_prop in Hc as [Hrow Hc].
    apply andb_prop in Hrow as [Hlen%Nat.eqb_eq Hrow].
    destruct fuel as [|fuel]; [simpl in Hfuel; lia |].
    cbn [raw_text length map concat]. rewrite app_assoc_s.
    rewrite read_tokens_line by (apply no_newline_fields || lia).
    rewrite (tokens_of_row dt) by done.
    rewrite take_ge by (rewrite length_map; lia).
    rewrite length_map, Hlen.
    replace (S (length c) * ncol - ncol)%nat with (length c * ncol)%nat by lia.
    simpl in Hfuel. rewrite IH by (done || lia). reflexivity.
Qed.

Lemma parse_all_texts dt xs :
  forallb (typed dt) xs = true -> parse_all dt (map text xs) = Ok xs.
Proof.
  induction xs as [|x xs IH]; simpl; [done |].
  intros [Hx Hxs]%andb_prop. unm.
  by rewrite (parse_text dt x Hx), (IH Hxs).
Qed.

Lemma rows_ok_typed ncol dt c :
  rows_ok ncol dt c = true -> forallb (typed dt) (concat c) = true.
Proof.
  induction c as [|row c IH]; simpl; [done |].
  intros [Hrow Hc]%andb_prop. apply andb_prop in Hrow as [_ Hrow].
  rewrite forallb_app, (IH Hc), andb_true_r.
  apply forallb_forall. intros x Hx.
  rewrite forallb_forall in Hrow. by apply (fits_typed dt), Hrow.
Qed.

Lemma rows_of_concat ncol dt c :
  rows_ok ncol dt c = true -> rows_of (length c) ncol (concat c) = c.
Proof.
  induction c as [|row c IH]; simpl; [done |].
  intros [Hrow Hc]%andb_prop. apply andb_prop in Hrow as [Hlen%Nat.eqb_eq _].
  rewrite take_app_length' by done. rewrite drop_app_length' by done.
  by rewrite (IH Hc).
Qed.

Lemma length_raw_text c : (length c <= String.length (raw_text c))%nat.
Proof.
  induction c as [|row c IH]; simpl; [done |].
  rewrite !length_app_s. simpl. lia.
Qed.

(** Rows without elements: nothing is read. *)
Lemma rows_ok_empty dt c :
  rows_ok 0 dt c = true -> concat (map (map text) c) = [].
Proof.
  induction c as [|row c IH]; simpl; [done |].
  intros [Hrow Hc]%andb_prop. apply andb_prop in Hrow as [Hlen%Nat.eqb_eq _].
  destruct row; [| done]. simpl. auto.
Qed.

Lemma read_grid_raw shape dt c rest :
  grid_ok shape dt c = true ->
  exists rest',
    read_grid (raw_text c ++ rest) shape dt = Ok (c, rest') /\
    ((0 < snd shape)%nat -> rest' = rest).
Proof.
  destruct shape as [nrow ncol]. unfold grid_ok. cbn [fst snd].
  intros [Hrows%Nat.eqb_eq Hc]%andb_prop. fold (rows_ok ncol dt c) in Hc.
  subst nrow. unfold read_grid. unm.
  assert (Htok : exists rest',
            read_tokens (String.length (raw_text c ++ rest))
              (length c * ncol) (raw_text c ++ rest)
            = Ok (concat (map (map text) c), rest') /\
            ((0 < ncol)%nat -> rest' = rest)).
  { destruct ncol as [|n].
    - exists (raw_text c ++ rest). split; [| lia].
      rewrite Nat.mul_0_r, read_tokens_none. by rewrite (rows_ok_empty dt).
    - exists rest. split; [| done].
      apply (read_tokens_rows dt); [lia | | done].
      rewrite length_app_s. pose proof (length_raw_text c). lia. }
  destruct Htok as (rest' & -> & Hrest). exists rest'. split; [| done].
  simpl. rewrite <- concat_map.
  rewrite parse_all_texts by (by apply (rows_ok_typed ncol)).
  simpl. by rewrite (rows_of_concat ncol dt).
Qed.

(** *** [decode] reads back what [file_entry] wrote *)

Lemma decode_raw m shape dt name eud c rest :
  grid_ok shape dt c = true ->
  (0 < fst shape)%nat -> (0 < snd shape)%nat ->
  decode (raw_text c ++ rest) m shape dt name eud = Ok (Raw c, rest).
Proof.
  intros Hc Hrow Hcol.
  destruct (read_grid_raw shape dt c rest Hc) as (rest' & Hgrid & Hrest).
  rewrite (Hrest Hcol) in Hgrid. clear Hrest.
  unfold decode. rewrite Hgrid.
  destruct shape as [nrow ncol]. unfold grid_ok in Hc. cbn [fst snd] in *.
  apply andb_prop in Hc as [Hrows%Nat.eqb_eq Hc].
  destruct c as [|row c]; [simpl in Hrows; lia |].
  simpl in Hc. apply andb_prop in Hc as [Hr _].
  apply andb_prop in Hr as [Hlen%Nat.eqb_eq Hr].
  cbn [raw_text]. rewrite !app_assoc_s.
  rewrite readline_line by apply no_newline_fields.
  rewrite (tokens_of_row dt) by done.
  destruct row as [|x row]; [simpl in Hlen; lia |].
  cbn [map keyword].
  destruct (text_not_keyword x) as [-> ->]. reflexivity.
Qed.

Lemma decode_filled m shape dt name eud v rest :
  typed dt v = true ->
  decode (file_entry (Filled v shape) ++ rest) m shape dt name eud
  = Ok (Filled v shape, rest).
Proof.
  intros Hv. unfold decode. destruct shape as [nrow ncol]. cbn [file_entry].
  replace (("CONSTANT " ++ text v ++ " " ++ str (Z.of_nat (nrow * ncol)) ++ nl)
           ++ rest)
    with (("CONSTANT " ++ text v ++ " " ++ str (Z.of_nat (nrow * ncol)))
          ++ nl ++ rest)
    by (by rewrite !app_assoc_s).
  rewrite readline_line
    by (by rewrite !no_newline_app, no_newline_text, no_newline_str).
  rewrite split_strip, !app_assoc_s.
  change ("CONSTANT " ++ text v ++ " " ++ str (Z.of_nat (nrow * ncol)) ++ nl)
    with ("CONSTANT"
          ++ String " "
               (text v ++ String " " (str (Z.of_nat (nrow * ncol)) ++ nl))).
  rewrite split_word; [| reflexivity | right; by eexists _, _].
  rewrite split_space by reflexivity.
  rewrite split_word; [| apply word_text | right; by eexists _, _].
  rewrite split_space by reflexivity.
  rewrite split_word; [| apply word_str | right; by eexists _, _].
  change (split nl) with (@nil string).
  change (String.eqb (keyword ["CONSTANT"; text v; str (Z.of_nat (nrow * ncol))])
            "constant") with true.
  cbv iota. unm. rewrite (parse_text dt v Hv). simpl.
  unfold parse_int. rewrite int_str. simpl. by rewrite Z.eqb_refl.
Qed.

Lemma decode_external m shape dt name eud u c rest :
  grid_ok shape dt c = true ->
  registered eud u c = true ->
  decode (file_entry (External u c) ++ rest) m shape dt name eud
  = Ok (External u c, rest).
Proof.
  intros Hc Hreg. unfold decode. cbn [file_entry].
  replace (("EXTERNAL " ++ str u ++ nl) ++ rest)
    with (("EXTERNAL " ++ str u) ++ nl ++ rest)
    by (by rewrite !app_assoc_s).
  rewrite readline_line by (by rewrite no_newline_app, no_newline_str).
  rewrite split_strip.
  change (("EXTERNAL " ++ str u) ++ nl)
    with ("EXTERNAL" ++ String " " (str u ++ nl)).
  rewrite split_word; [| reflexivity | right; by eexists _, _].
  rewrite split_space by reflexivity.
  rewrite split_word; [| apply word_str | right; by eexists _, _].
  change (split nl) with (@nil string).
  change (String.eqb (keyword ["EXTERNAL"; str u]) "constant") with false.
  change (String.eqb (keyword ["EXTERNAL"; str u]) "external") with true.
  cbv iota. unm. unfold parse_int. rewrite int_str. simpl.
  unfold registered in Hreg. unfold resolve_unit.
  destruct (eud ≫= λ reg : registry, reg !! u) as [file|]; [| done].
  apply String.eqb_eq in Hreg as ->. simpl.
  destruct (read_grid_raw shape dt c "" Hc) as (rest' & Hgrid & _).
  rewrite app_empty_r in Hgrid. by rewrite Hgrid.
Qed.

(** An array that can be carried is read back, and what follows its text is
    left. *)
Lemma decode_file_entry m shape dt name eud a rest :
  array_ok shape dt eud a = true ->
  decode (file_entry a ++ rest) m shape dt name eud = Ok (a, rest).
Proof.
  destruct a as [c | v s | u c]; cbn [array_ok].
  - intros [[Hc Hrow%Nat.ltb_lt]%andb_prop Hcol%Nat.ltb_lt]%andb_prop.
    by apply decode_raw.
  - intros [[Hv Hr%Nat.eqb_eq]%andb_prop Hc%Nat.eqb_eq]%andb_prop.
    assert (s = shape) as -> by (destruct s, shape; simpl in *; congruence).
    by apply decode_filled.
  - intros [Hc Hreg]%andb_prop. by apply decode_external.
Qed.

(** *** The timelines of a package *)

Lemma core_codes_fit (t : timeline) nper :
  codes_fit (H := collaborators) t nper.
Proof.
  intros n _. cbn [get_kper_entry collaborators]. unfold kper_entry.
  destruct (t !! n); vm_compute; lia.
Qed.

Lemma core_entries_decode m eud dt name (t : timeline) nper :
  is_Some (t !! 0%nat) ->
  (forall k a, (k < nper)%nat -> t !! k = Some a ->
     array_ok (model_shape m) dt eud a = true) ->
  entries_decode (H := collaborators) m eud dt name t nper.
Proof.
  intros [a0 H0] Hok. split.
  - cbn [get_kper_entry collaborators]. unfold kper_entry. by rewrite H0.
  - intros n Hn. cbn [get_kper_entry resolved_array Util2d_load collaborators].
    unfold kper_entry. destruct (t !! n) as [a|] eqn:Hn'; cbn [fst snd]; split.
    + intros _. exists a. split.
      * destruct n; cbn [resolved]; by rewrite Hn'.
      * intros rest. apply decode_file_entry. by apply (Hok n).
    + lia.
    + lia.
    + intros _. destruct n as [|n]; [done |].
      cbn [resolved]. rewrite Hn'. by replace (S n - 1)%nat with n by lia.
Qed.

(** *** The parameter table *)

Lemma lower_char_idem c : lower_char (lower_char c) = lower_char c.
Proof. by destruct c as [[] [] [] [] [] [] [] []]. Qed.

Lemma lower_idem s : lower (lower s) = lower s.
Proof.
  induction s as [|c s IH]; simpl; [done |]. by rewrite lower_char_idem, IH.
Qed.

Lemma lower_slice0 n s : lower (slice0 n s) = slice0 n (lower s).
Proof.
  revert s. induction n as [|n IH]; intros [|c s]; simpl; try done.
  by rewrite IH.
Qed.

Lemma slice0_idem n s : slice0 n (slice0 n s) = slice0 n s.
Proof.
  revert s. induction n as [|n IH]; intros [|c s]; simpl; try done.
  by rewrite IH.
Qed.

(** The name the loader has made of a token is a key of the table. *)
Lemma key_parameter_name t0 :
  key (Evt.parameter_name t0) = Evt.parameter_name t0.
Proof.
  rewrite parameter_name_slice. unfold key.
  by rewrite lower_slice0, lower_idem, slice0_idem.
Qed.

Lemma add_zero x : add (Int 0) x = x.
Proof.
  destruct x as [z | m e]; cbn [add]; f_equal; lia.
Qed.

(** An entry of the table, as the loader sees it. *)
Lemma bc_parms_lookup (tbl : table) pname entry :
  bc_parms (Collaborators := collaborators) tbl !! pname = Some entry ->
  exists e, tbl !! pname = Some e /\ entry = (tt, instances e).
Proof.
  cbn [bc_parms collaborators].
  intros (e & <- & He)%lookup_fmap_Some. eauto.
Qed.

(** One parameter under its [static] instance: the array is the base
    value of the parameter, broadcast across the shape. *)
Lemma fill_static m shape (tbl : table) t0 e :
  tbl !! Evt.parameter_name t0 = Some e ->
  fill m shape {[ Evt.parameter_name t0 := "static" ]} (Some tbl)
  = Ok (Filled (base e) shape).
Proof.
  intros He. unfold fill. rewrite map_fold_singleton. unm. simpl.
  unfold resolve. rewrite key_parameter_name, He. simpl.
  unfold instances. rewrite lookup_insert_eq. simpl.
  change (Ok (Filled (add (Int 0) (base e)) shape) = Ok (Filled (base e) shape)).
  by rewrite add_zero.
Qed.

End CoreFacts.

(* ===================================================================== *)
(** ** The instance of a parameter, over the table of the specification *)
(* ===================================================================== *)

(** C5: a parameter-name line names a parameter of the table (token [t0])
    and an instance (token [t1]) that the instance map of the parameter
    does not have.  Then the map has the instance [static], with a value
    [v]; the loader enters the parameter under [static]; resolving the
    parameter under the instance of the line, as under [static], returns
    [v] and does not fail; and when the control record asks for this one
    parameter, the loader returns a new array object, of the value [v]
    across the shape, one line further on. *)
Theorem absent_instance_resolves_to_static :
  (forall (tbl : Core.table) (t : list string) t0 t1 entry,
     t !! 0%nat = Some t0 ->
     t !! 1%nat = Some t1 ->
     bc_parms (Collaborators := Core.collaborators) tbl
       !! Evt.parameter_name t0 = Some entry ->
     snd entry !! lower t1 = None ->
     exists v,
       snd entry !! "static" = Some v /\
       Evt.instance_name (H := Core.collaborators) (Some tbl) t
         (Evt.parameter_name t0) = "static" /\
       Core.resolve tbl t0 (lower t1) = Ok v /\
       Core.resolve tbl (Evt.parameter_name t0) "static" = Ok v) /\
  (forall (e : Evt.env (H := Core.collaborators)) iper c l
          (w : world (H := Core.collaborators))
          (tbl : Core.table) shape t0 t1 entry,
     Evt.inevtr c = 1 ->
     Evt.e_npar e <> 0 ->
     Evt.e_pak_parms e = Some tbl ->
     Evt.e_nrow_ncol e = Some shape ->
     split (strip (fst (readline (stream w)))) !! 0%nat = Some t0 ->
     split (strip (fst (readline (stream w)))) !! 1%nat = Some t1 ->
     bc_parms (Collaborators := Core.collaborators) tbl
       !! Evt.parameter_name t0 = Some entry ->
     snd entry !! lower t1 = None ->
     exists v,
       snd entry !! "static" = Some v /\
       Evt.load_evtr e iper c l w
       = (Ok (length (heap w)),
          {| stream := snd (readline (stream w));
             heap := heap w ++ [Util2d (H := Core.collaborators) (Core.Filled v shape)];
             stdout := stdout w |})).
Proof.
  split.
  - intros tbl t t0 t1 entry H0 H1 Hentry Hinst.
    pose proof (evt_instance_name_fallback (H := Core.collaborators)
                  tbl t t1 _ entry H1 Hentry Hinst) as Hname.
    apply CoreFacts.bc_parms_lookup in Hentry as (e0 & He & ->).
    cbn [snd] in *. exists (Core.base e0).
    split; [apply lookup_insert_eq |]. split; [exact Hname |].
    unfold Core.resolve.
    rewrite CoreFacts.key_parameter_name.
    replace (Core.key t0) with (Evt.parameter_name t0)
      by (by rewrite parameter_name_slice).
    assert (Hi : Core.instances e0 !! lower t1 = None) by exact Hinst.
    rewrite He, Hi. split; [done |].
    unfold Core.instances. by rewrite lookup_insert_eq.
  - intros e iper c l w tbl shape t0 t1 entry Hc Hn Hp Hs H0 H1 Hentry Hinst.
    rewrite (evt_load_evtr_static (H := Core.collaborators)
               e iper c l w tbl shape t0 t1 entry) by done.
    apply CoreFacts.bc_parms_lookup in Hentry as (e0 & He & ->).
    exists (Core.base e0). split; [apply lookup_insert_eq |].
    cbn [parameter_bcfill Core.collaborators].
    by rewrite (CoreFacts.fill_static _ _ _ _ e0 He).
Qed.

Lemma absent_instance_resolves_to_static_witness :
  (exists v,
     snd (tt, Core.instances (Core.Entry (Core.Real 5 0)
                               {[ "jan" := Core.Real 75 1 ]}))
       !! "static" = Some v /\
     Evt.instance_name (H := Core.collaborators) (Some Packages.one_parameter)
       ["P1"; "zz"] (Evt.parameter_name "P1") = "static" /\
     Core.resolve Packages.one_parameter "P1" (lower "zz") = Ok v /\
     Core.resolve Packages.one_parameter (Evt.parameter_name "P1") "static"
     = Ok v) /\
  (exists v,
     snd (tt, Core.instances (Core.Entry (Core.Real 5 0)
                               {[ "jan" := Core.Real 75 1 ]}))
       !! "static" = Some v /\
     Evt.load_evtr Packages.evt_parm_env 0 Demo.one_parm Demo.evt_initial
       Packages.parm_world
     = (Ok (length (heap Packages.parm_world)),
        {| stream := snd (readline (stream Packages.parm_world));
           heap := heap Packages.parm_world
                   ++ [Util2d (H := Core.collaborators) (Core.Filled v (2, 3)%nat)];
           stdout := stdout Packages.parm_world |})).
Proof.
  split.
  - apply (proj1 absent_instance_resolves_to_static
             Packages.one_parameter ["P1"; "zz"] "P1" "zz").
    + reflexivity.
    + reflexivity.
    + reflexivity.
    + reflexivity.
  - apply (proj2 absent_instance_resolves_to_static
             Packages.evt_parm_env 0%nat Demo.one_parm Demo.evt_initial
             Packages.parm_world Packages.one_parameter (2, 3)%nat
             "P1" "zz").
    + reflexivity.
    + discriminate.
    + reflexivity.
    + reflexivity.
    + reflexivity.
    + reflexivity.
    + reflexivity.
    + reflexivity.
Defined.

(* ===================================================================== *)
(** ** The object that is loaded from a written file *)
(* ===================================================================== *)

Section WrittenObject.
Context `{Collaborators}.
Variables (self : Evt.ModflowEvt) (eud : option ext_unit_dict).
Hypothesis Hhead : comment_line (Evt.heading self) = true.
Hypothesis Hip : (String.length (str (Evt.ipakcb self)) < 10)%nat.
Hypothesis Hfit :
  forall q,
    codes_fit (evt_self_timeline q self) (model_nper (Evt.parent self)).
Hypothesis Hdec :
  forall q, evt_read q (Evt.nevtop self) = true ->
    entries_decode (Evt.parent self) eud (evt_dtype q) (evt_name q)
      (evt_self_timeline q self) (model_nper (Evt.parent self)).

(** The loop over the stress periods, on the text [write_file] wrote. *)
Lemma evt_written_load_args :
  exists l w,
    Evt.load (Evt.write_file self) (Evt.parent self) None eud
    = (Ok (Evt.make_args (Evt.nevtop self) (Evt.ipakcb self) l), w) /\
    evt_loaded_so_far self (model_nper (Evt.parent self)) l (heap w) /\
    forall q,
      if evt_read q (Evt.nevtop self)
      then forall k, is_Some (evt_timeline q l !! k)
                     <-> (k < model_nper (Evt.parent self))%nat
      else evt_timeline q l = ∅.
Proof.
  assert (Hh : exists h', Evt.heading self = String "#" h'
                          /\ no_newline (Evt.heading self) = true).
  { unfold comment_line in Hhead.
    destruct (Evt.heading self) as [|c h']; [done |].
    destruct c as [[] [] [] [] [] [] [] []]; try done. by exists h'. }
  destruct Hh as (h' & Hh & Hline).
  destruct (evt_prelude_written self eud h' Hh Hline Hip)
    as (w0 & Hpre & Hs0 & Hh0).
  assert (Hinv0 : evt_loaded_so_far self 0
                    (Evt.Locals ∅ ∅ ∅ ∅ 0%nat 1%nat 2%nat 3%nat) (heap w0)).
  { intros q. destruct (evt_read q (Evt.nevtop self)).
    - split; [intros k Hk; lia | lia].
    - by destruct q. }
  destruct (evt_periods_written self eud Hfit Hdec
              (model_nper (Evt.parent self)) 0 _ w0 ""
              ltac:(lia) ltac:(by rewrite app_empty_r) Hinv0)
    as (l & w & Hrun & _ & Hinv).
  exists l, w. split; [| split; [exact Hinv |]].
  - rewrite (evt_load_from_prelude _ _ _ _ _ _ _ _ _ Hpre).
    by rewrite run_bind, Hrun.
  - intros q.
    apply (evt_periods_keys (evt_written_env self eud) _ 0 _ w0 l w q Hrun).
    cbn [evt_written_env Evt.e_nevtop].
    destruct (evt_read q (Evt.nevtop self)); [| by destruct q].
    intros k. destruct q; cbn [evt_timeline Evt.surf Evt.evtr Evt.exdp Evt.ievt];
      rewrite lookup_empty; (split; [by intros [? ?] | lia]).
Qed.

(** The constructor builds the object: every slot of every dictionary
    refers to an array object, which holds what the timeline of the
    package resolves to at the step of the slot. *)
Lemma evt_written_load_object :
  exists o w,
    EvtObject.load (Evt.write_file self) (Evt.parent self) None eud
    = (Ok o, w) /\
    EvtObject.ipakcb o = Evt.ipakcb self /\
    (forall q k,
       evt_read q (Evt.nevtop self) = true ->
       (k < model_nper (Evt.parent self))%nat ->
       exists r x,
         EvtObject.resolved_at (evt_object_timeline q o) k
         = Some (EvtObject.Object r) /\
         deref w r = Some (Util2d x) /\
         resolved_array (evt_self_timeline q self) k = Some x) /\
    (evt_read Ievt (Evt.nevtop self) = false ->
     EvtObject.ievt o = EvtObject.Uniform "1").
Proof.
  destruct evt_written_load_args as (l & w & Hload & Hinv & Hkeys).
  set (a := Evt.make_args (Evt.nevtop self) (Evt.ipakcb self) l) in *.
  assert (Hargs : forall q,
            evt_args_timeline q a = Evt.truthy (evt_timeline q l))
    by (by intros []).
  assert (Hsup : forall q, keyword_supplied w (evt_args_timeline q a) = true).
  { intros q. rewrite Hargs. unfold Evt.truthy.
    case_decide as He; [done |]. cbn [keyword_supplied].
    apply all_supplied_spec. intros k r Hk. apply holds_array_spec.
    specialize (Hinv q). specialize (Hkeys q).
    destruct (evt_read q (Evt.nevtop self)); [| done].
    destruct Hinv as [Hall _].
    assert (Hlt : (k < model_nper (Evt.parent self))%nat)
      by (apply Hkeys; eauto).
    destruct (Hall k Hlt) as (r' & x & Hr' & Hx & _).
    rewrite Hk in Hr'. injection Hr' as <-. by exists x. }
  exists (evt_built (Evt.parent self) (Evt.args_nevtop a) (Evt.args_ipakcb a)
            (Evt.args_surf a) (Evt.args_evtr a) (Evt.args_exdp a)
            (Evt.args_ievt a)), w.
  split; [| split; [reflexivity | split]].
  - rewrite evt_object_load_run, Hload, evt_construct_run.
    by rewrite (proj2 (evt_keyword_supplied_all a w) Hsup).
  - intros q k Hread Hk. rewrite evt_built_timeline.
    specialize (Hinv q). rewrite Hread in Hinv. destruct Hinv as [Hall _].
    destruct (Hall k Hk) as (r & x & Hr & Hx & Hres).
    exists r, x. unfold a.
    rewrite (evt_args_timeline_ok _ _ _ _ _ _ Hr).
    cbn [built EvtObject.resolved_at]. by rewrite Hr.
  - intros Hread. specialize (Hkeys Ievt). rewrite Hread in Hkeys.
    cbn [evt_timeline] in Hkeys.
    cbn [evt_built EvtObject.ievt a Evt.make_args Evt.args_ievt].
    rewrite Hkeys. unfold Evt.truthy. by rewrite decide_True.
Qed.

End WrittenObject.

(** C3, as the code has it, over the codec of the specification.  The
    package has a heading of one comment line, and its [ipakcb] leaves a
    space in its ten-character field; of the quantities that the option
    code reads ([surf], [evtr] and [exdp] always, [ievt] when
    [nevtop == 2]) every one is Set at step 0, and every array has the
    shape of the model and the element type of its quantity; a grid that is
    written in full has an element, and every element leaves a space in its
    field; the unit of an external reference is registered with the file
    that holds the grid.  Then [load], with the model of the package, returns
    an object from the text that [write_file] wrote; for every such
    quantity and every stress period, the slot of the object refers to an
    array object that holds the array the timeline of the package resolves
    to there: element for element, and with its encoding.  [ievt], when it
    is not read, is the default of the constructor. *)
Theorem evt_write_then_load_object
    (self : Evt.ModflowEvt (H := Core.collaborators))
    (eud : option Core.registry) :
  comment_line (Evt.heading self) = true ->
  (String.length (str (Evt.ipakcb self)) < 10)%nat ->
  evt_set_at_first self ->
  evt_arrays_ok self eud ->
  exists o w,
    EvtObject.load (H := Core.collaborators) (Evt.write_file self)
      (Evt.parent self) None eud
    = (Ok o, w) /\
    EvtObject.ipakcb o = Evt.ipakcb self /\
    (forall q k,
       evt_read q (Evt.nevtop self) = true ->
       (k < model_nper (Evt.parent self))%nat ->
       exists r x,
         EvtObject.resolved_at (evt_object_timeline q o) k
         = Some (EvtObject.Object r) /\
         deref w r = Some (Util2d (H := Core.collaborators) x) /\
         Core.resolved (core_timeline q self) k = Some x) /\
    (evt_read Ievt (Evt.nevtop self) = false ->
     EvtObject.ievt o = EvtObject.Uniform "1").
Proof.
  intros Hhead Hip Hset Hok.
  apply (evt_written_load_object (H := Core.collaborators) self eud Hhead Hip).
  - intros q. apply CoreFacts.core_codes_fit.
  - intros q Hq. apply CoreFacts.core_entries_decode.
    + by apply Hset.
    + intros k a Hk Ha. by apply (Hok q k a).
Qed.

Lemma evt_write_then_load_object_witness :
  exists o w,
    EvtObject.load (H := Core.collaborators) (Evt.write_file Packages.evt_mixed)
      Demo.quiet None (Some Packages.units)
    = (Ok o, w) /\
    EvtObject.ipakcb o = 0 /\
    (forall q k,
       evt_read q 2 = true ->
       (k < 2)%nat ->
       exists r x,
         EvtObject.resolved_at (evt_object_timeline q o) k
         = Some (EvtObject.Object r) /\
         deref w r = Some (Util2d (H := Core.collaborators) x) /\
         Core.resolved (core_timeline q Packages.evt_mixed) k = Some x) /\
    (evt_read Ievt 2 = false ->
     EvtObject.ievt o = EvtObject.Uniform "1").
Proof.
  apply (evt_write_then_load_object Packages.evt_mixed (Some Packages.units)).
  - reflexivity.
  - vm_compute. lia.
  - intros q _. destruct q; eexists; reflexivity.
  - intros q k a _ Hk Ha.
    destruct k as [|[|k]]; [| | vm_compute in Hk; lia];
      destruct q; vm_compute in Ha; try discriminate;
      injection Ha as <-; vm_compute; reflexivity.
Defined.

(** C3 as the specification words it does not hold.  Under [nevtop == 3]
    two packages over the same model that differ in the layer indicator
    alone, each with an array for every quantity in the first stress
    period, write the same text; the load of that text returns an object
    whose [ievt] is the default of the constructor, so the layer indicator
    of neither package is in what was loaded.  The other conditions of the
    theorem are needed as well.  Each of the packages that follow has an
    array for every quantity in the first stress period.  A heading that is
    no comment is read as the line of the option code, and a budget unit of
    ten digits runs into the option code: the loads raise [ValueError] and
    [IndexError].  An element that fills its field runs into the element
    before it, the unit of an external reference that is not registered
    cannot be resolved, and an array of one element is not of the shape of
    the model: the loads raise [TypeMismatch], [UnresolvedUnit] and
    [ShapeMismatch].  An integer in [surf] is loaded as a floating-point
    number.  On a grid without columns the text of a full array is blank
    lines, which the load of [surf] leaves in the stream, and the load of
    [evtr] takes them for a full array. *)
Lemma unread_ievt_is_not_restored :
  (all_set_at_first (Packages.evt_layer 7) = true /\
   all_set_at_first (Packages.evt_layer 8) = true /\
   Evt.write_file (Packages.evt_layer 7) = Evt.write_file (Packages.evt_layer 8) /\
   Core.resolved (core_timeline Ievt (Packages.evt_layer 7)) 0
   = Some (Core.Filled (Core.Int 7) (2, 3)%nat) /\
   Core.resolved (core_timeline Ievt (Packages.evt_layer 8)) 0
   = Some (Core.Filled (Core.Int 8) (2, 3)%nat) /\
   fst (EvtObject.load (H := Core.collaborators)
          (Evt.write_file (Packages.evt_layer 7)) Demo.quiet None None)
   = Ok Packages.evt_layer_object /\
   EvtObject.resolved_at
     (evt_object_timeline Ievt Packages.evt_layer_object) 0
   = Some (EvtObject.Value "1")) /\
  (all_set_at_first Packages.evt_no_comment = true /\
   fst (EvtObject.load (H := Core.collaborators)
          (Evt.write_file Packages.evt_no_comment) Demo.quiet None None)
   = Raise ValueError) /\
  (all_set_at_first Packages.evt_wide_unit = true /\
   fst (EvtObject.load (H := Core.collaborators)
          (Evt.write_file Packages.evt_wide_unit) Demo.quiet None None)
   = Raise IndexError) /\
  (all_set_at_first Packages.evt_wide = true /\
   fst (EvtObject.load (H := Core.collaborators)
          (Evt.write_file Packages.evt_wide) Demo.quiet None None)
   = Raise Core.TypeMismatch) /\
  (all_set_at_first Packages.evt_external = true /\
   fst (EvtObject.load (H := Core.collaborators)
          (Evt.write_file Packages.evt_external) Demo.quiet None None)
   = Raise Core.UnresolvedUnit) /\
  (all_set_at_first Packages.evt_one_cell = true /\
   fst (EvtObject.load (H := Core.collaborators)
          (Evt.write_file Packages.evt_one_cell) Demo.quiet None None)
   = Raise Core.ShapeMismatch) /\
  (all_set_at_first Packages.evt_int_surf = true /\
   Core.resolved (core_timeline Surf Packages.evt_int_surf) 0
   = Some (Core.Filled (Core.Int 5) (2, 3)%nat) /\
   fst (EvtObject.load (H := Core.collaborators)
          (Evt.write_file Packages.evt_int_surf) Demo.quiet None None)
   = Ok Packages.evt_layer_object /\
   EvtObject.resolved_at
     (evt_object_timeline Surf Packages.evt_layer_object) 0
   = Some (EvtObject.Object 4%nat) /\
   deref (snd (EvtObject.load (H := Core.collaborators)
                 (Evt.write_file Packages.evt_int_surf) Demo.quiet None None))
     4%nat
   = Some (Util2d (H := Core.collaborators)
             (Core.Filled (Core.Real 5 0) (2, 3)%nat))) /\
  (all_set_at_first Packages.evt_empty_rows = true /\
   Core.resolved (core_timeline Evtr Packages.evt_empty_rows) 0
   = Some (Core.Filled (Core.Real 1 3) (2, 0)%nat) /\
   fst (EvtObject.load (H := Core.collaborators)
          (Evt.write_file Packages.evt_empty_rows) Packages.narrow None None)
   = Ok Packages.evt_empty_rows_object /\
   EvtObject.resolved_at
     (evt_object_timeline Evtr Packages.evt_empty_rows_object) 0
   = Some (EvtObject.Object 5%nat) /\
   deref (snd (EvtObject.load (H := Core.collaborators)
                 (Evt.write_file Packages.evt_empty_rows) Packages.narrow
                 None None))
     5%nat
   = Some (Util2d (H := Core.collaborators) (Core.Raw [[]; []]))).
Proof.
  repeat split; try reflexivity; vm_compute; reflexivity.
Qed.
